(** * Sync engine of the Notion BI dashboard: a shallow embedding

    The development follows the TypeScript sources of the repository:

    - [lib/notion]            ([fetchAllPages], [extractProperty]),
    - [lib/services/metrics-calculator] ([calculateDaysLateMetrics]),
    - [lib/services/timedoctor] ([fetchTimeDoctorWorklogs],
      [matchTimeDoctorUsers], the chunk loop of [syncTimeDoctorWorklogs]),
    - [lib/services/extractor] ([syncProjects], [recordStatusHistory]).

    Conventions of the embedding.

    - A JavaScript value of type [any] is a [jsval]; an object lists its
      fields in the order [Object.keys] reports them.
    - A JavaScript [number] is an integer ([Z]); [NaN] is written out where
      the code can produce it.
    - A [Date] is either invalid or a time value in milliseconds.
    - A call that may throw returns an [outcome]; the thrown value is the
      [message] of the error, which for an error of the engine is the text
      V8 gives it.
    - Awaited calls are sequential, so [async] functions are plain functions
      of the state they read and write; [console] output is not modelled,
      but for the lines that a route builds from the body of its request,
      where printing a value can throw.
    - A name that the code writes out is read as an own property ([field]);
      a name that is computed is looked up along the prototype chain
      ([member]).
    - External services (the Notion API, the Time Doctor API, failures of the
      MongoDB driver, the clock) are parameters of the sections that use
      them. *)

From Stdlib Require Import ZArith List String Ascii Bool Lia DecimalString QArith.
From stdpp Require Import base option list strings gmap sorting.

Local Open Scope Z_scope.

(** ** JavaScript values, errors and string primitives *)

Module JS.

(** The result of a call: a value, or the message of the error thrown. *)
Inductive outcome (A : Type) : Type :=
| Returned (a : A)
| Threw (message : string).

Arguments Returned {A} a.
Arguments Threw {A} message.

#[export] Instance outcome_ret : MRet outcome := fun A a => Returned a.

#[export] Instance outcome_bind : MBind outcome := fun A B k m =>
  match m with
  | Returned a => k a
  | Threw e => Threw e
  end.

#[export] Instance outcome_fmap : FMap outcome := fun A B f m =>
  match m with
  | Returned a => Returned (f a)
  | Threw e => Threw e
  end.

(** [try { m } catch (error) { handler error }] *)
Definition try_catch {A} (m : outcome A) (handler : string -> outcome A) : outcome A :=
  match m with
  | Returned a => Returned a
  | Threw e => handler e
  end.

Definition returned {A} (m : outcome A) : bool :=
  match m with Returned _ => true | Threw _ => false end.

#[warnings="-register-all"]
Inductive jsval : Type :=
| JUndefined
| JNull
| JBool (b : bool)
| JNum (n : Z)
| JStr (s : string)
| JArr (items : list jsval)
| JObj (fields : list (string * jsval)).

(** [!!v] *)
Definition truthy (v : jsval) : bool :=
  match v with
  | JUndefined | JNull => false
  | JBool b => b
  | JNum n => negb (n =? 0)%Z
  | JStr s => negb (String.eqb s "")
  | JArr _ | JObj _ => true
  end.

Definition nullish (v : jsval) : bool :=
  match v with JUndefined | JNull => true | _ => false end.

(** [v === null] *)
Definition is_null (v : jsval) : bool :=
  match v with JNull => true | _ => false end.

(** [a === b] for primitives; two objects of separate documents are never
    the same reference. *)
Definition same_value (a b : jsval) : bool :=
  match a, b with
  | JUndefined, JUndefined | JNull, JNull => true
  | JBool x, JBool y => Bool.eqb x y
  | JNum x, JNum y => (x =? y)%Z
  | JStr x, JStr y => String.eqb x y
  | _, _ => false
  end.

(** [a || b] *)
Definition or_else (a b : jsval) : jsval := if truthy a then a else b.

Fixpoint lookup_field (f : string) (fields : list (string * jsval)) : jsval :=
  match fields with
  | [] => JUndefined
  | (k, v) :: rest => if String.eqb k f then v else lookup_field f rest
  end.

(** [v?.f] for a name [f] that the code writes out and that no prototype
    defines: the own property [f] of [v], [undefined] when [v] is nullish or
    has no such property. A computed name is looked up with [member]. *)
Definition field (v : jsval) (f : string) : jsval :=
  match v with
  | JObj fields => lookup_field f fields
  | JArr items => if String.eqb f "length" then JNum (Z.of_nat (length items)) else JUndefined
  | JStr s => if String.eqb f "length" then JNum (Z.of_nat (String.length s)) else JUndefined
  | _ => JUndefined
  end.

(** The [TypeError] of a property read on [null] or [undefined]. *)
Definition cannot_read (v : jsval) (f : string) : string :=
  "Cannot read properties of " +:+ (if is_null v then "null" else "undefined")
  +:+ " (reading '" +:+ f +:+ "')".

(** [v.f]: throws a [TypeError] on [null] and [undefined]. *)
Definition get (v : jsval) (f : string) : outcome jsval :=
  if nullish v then Threw (cannot_read v f) else Returned (field v f).

Definition has_own (f : string) (fields : list (string * jsval)) : bool :=
  existsb (fun kv => String.eqb (fst kv) f) fields.

(** The names of [Object.prototype], which every value but [null] and
    [undefined] inherits. *)
Definition object_prototype : list string :=
  ["constructor"; "__defineGetter__"; "__defineSetter__"; "hasOwnProperty";
   "__lookupGetter__"; "__lookupSetter__"; "isPrototypeOf"; "propertyIsEnumerable";
   "toString"; "valueOf"; "__proto__"; "toLocaleString"].

(** The names of [Array.prototype], [String.prototype], [Number.prototype]
    and [Boolean.prototype] (ECMAScript 2023). *)
Definition array_prototype : list string :=
  ["at"; "concat"; "copyWithin"; "fill"; "find"; "findIndex"; "findLast"; "findLastIndex";
   "lastIndexOf"; "pop"; "push"; "reverse"; "shift"; "unshift"; "slice"; "sort"; "splice";
   "includes"; "indexOf"; "join"; "keys"; "entries"; "values"; "forEach"; "filter"; "flat";
   "flatMap"; "map"; "every"; "some"; "reduce"; "reduceRight"; "toReversed"; "toSorted";
   "toSpliced"; "with"].

Definition string_prototype : list string :=
  ["anchor"; "at"; "big"; "blink"; "bold"; "charAt"; "charCodeAt"; "codePointAt"; "concat";
   "endsWith"; "fontcolor"; "fontsize"; "fixed"; "includes"; "indexOf"; "isWellFormed";
   "italics"; "lastIndexOf"; "link"; "localeCompare"; "match"; "matchAll"; "normalize";
   "padEnd"; "padStart"; "repeat"; "replace"; "replaceAll"; "search"; "slice"; "small";
   "split"; "strike"; "sub"; "substr"; "substring"; "sup"; "startsWith"; "toWellFormed";
   "trim"; "trimStart"; "trimLeft"; "trimEnd"; "trimRight"; "toLocaleLowerCase";
   "toLocaleUpperCase"; "toLowerCase"; "toUpperCase"].

Definition number_prototype : list string := ["toExponential"; "toFixed"; "toPrecision"].

Definition listed (f : string) (names : list string) : bool :=
  existsb (String.eqb f) names.

(** Whether [v] inherits a property [f] from its prototype chain. *)
Definition inherited (v : jsval) (f : string) : bool :=
  match v with
  | JUndefined | JNull => false
  | JBool _ => listed f object_prototype
  | JNum _ => listed f number_prototype || listed f object_prototype
  | JStr _ => listed f string_prototype || listed f object_prototype
  | JArr _ => listed f array_prototype || listed f object_prototype
  | JObj _ => listed f object_prototype
  end.

(** [v[0]] for a non-nullish [v]. *)
Definition first_item (v : jsval) : jsval :=
  match v with
  | JArr (x :: _) => x
  | JStr (String c _) => JStr (String c "")
  | JObj fields => lookup_field "0" fields
  | _ => JUndefined
  end.

Definition isArray (v : jsval) : bool :=
  match v with JArr _ => true | _ => false end.

(** [typeof v === 'object' && v !== null] *)
Definition isObject (v : jsval) : bool :=
  match v with JArr _ | JObj _ => true | _ => false end.

Definition isString (v : jsval) : bool :=
  match v with JStr _ => true | _ => false end.

(** [v === 'literal'] *)
Definition is_str (v : jsval) (literal : string) : bool :=
  match v with JStr s => String.eqb s literal | _ => false end.

(** [v > 0] for the values a [length] or a counter takes. *)
Definition positive (v : jsval) : bool :=
  match v with
  | JNum n => (0 <? n)%Z
  | JBool b => b
  | _ => false
  end.

Definition string_of_Z (n : Z) : string := NilZero.string_of_int (Z.to_int n).

Definition join (sep : string) (parts : list string) : string :=
  match parts with
  | [] => ""
  | p :: rest => fold_left (fun acc q => acc +:+ sep +:+ q) rest p
  end.

(** The text of a value that prints; inside [Array.prototype.join] a
    nullish item prints as the empty string. Whether a value prints is
    [printable]. *)
Fixpoint toString (v : jsval) : string :=
  match v with
  | JUndefined => "undefined"
  | JNull => "null"
  | JBool true => "true"
  | JBool false => "false"
  | JNum n => string_of_Z n
  | JStr s => s
  | JArr items =>
      join "," (map (fun x => if nullish x then "" else toString x) items)
  | JObj _ => "[object Object]"
  end.

(** The text of [items.join(sep)] for items that print. *)
Definition join_items (sep : string) (items : list jsval) : string :=
  join sep (map (fun x => if nullish x then "" else toString x) items).

(** Conversion to a primitive. An object made of data prints as
    '[object Object]' through the inherited [toString], unless it has a
    property [toString] of its own, which is no function: then neither
    [toString] nor [valueOf] gives a primitive and the conversion throws a
    [TypeError]. An array prints its items. *)
Fixpoint printable (v : jsval) : bool :=
  match v with
  | JObj fields => negb (has_own "toString" fields)
  | JArr items => forallb (fun x => printable x) items
  | _ => true
  end.

(** [String(v)], [`${v}`] *)
Definition printed (v : jsval) : outcome string :=
  if printable v then Returned (toString v)
  else Threw "Cannot convert object to primitive value".

(** [items.join(sep)]: throws when an item does not print. *)
Definition join_printed (sep : string) (items : list jsval) : outcome string :=
  if forallb printable items then Returned (join_items sep items)
  else Threw "Cannot convert object to primitive value".

(** [v.toString()], where the code writes [v] as [object]. *)
Definition call_toString (object : string) (v : jsval) : outcome string :=
  match v with
  | JUndefined | JNull => Threw (cannot_read v "toString")
  | JObj fields =>
      if has_own "toString" fields then Threw (object +:+ ".toString is not a function")
      else Returned "[object Object]"
  | _ => printed v
  end.

(** [v.map(f)] and [v.flatMap(f)] before the results are flattened, where
    the code writes [v] as [object] and the method is [method]: a
    [TypeError] unless [v] is an array. *)
Definition array_map (object method : string) (f : jsval -> outcome jsval) (v : jsval)
    : outcome (list jsval) :=
  match v with
  | JArr items => mapM f items
  | JUndefined | JNull => Threw (cannot_read v method)
  | _ => Threw (object +:+ "." +:+ method +:+ " is not a function")
  end.

(** [v?.map(f)]: [undefined] on a nullish [v]. *)
Definition array_map_opt (object : string) (f : jsval -> outcome jsval) (v : jsval)
    : outcome jsval :=
  if nullish v then Returned JUndefined else JArr <$> array_map (object +:+ "?") "map" f v.

(** [arrays.flat()] on a list of callback results. *)
Definition flat (items : list jsval) : list jsval :=
  concat (map (fun x => match x with JArr l => l | _ => [x] end) items).

(** ASCII rendering of [String.prototype.toLowerCase]. *)
Definition lower_ascii (c : ascii) : ascii :=
  let n := nat_of_ascii c in
  if (Nat.leb 65 n && Nat.leb n 90)%bool then ascii_of_nat (n + 32) else c.

Fixpoint toLowerCase (s : string) : string :=
  match s with
  | EmptyString => EmptyString
  | String c rest => String (lower_ascii c) (toLowerCase rest)
  end.

(** White space of [String.prototype.trim] within ASCII: TAB, LF, VT, FF, CR
    and SPACE. *)
Definition is_white (c : ascii) : bool :=
  let n := nat_of_ascii c in
  (Nat.leb 9 n && Nat.leb n 13)%bool || Nat.eqb n 32.

Fixpoint trimStart (s : string) : string :=
  match s with
  | EmptyString => EmptyString
  | String c rest => if is_white c then trimStart rest else s
  end.

Fixpoint trimEnd (s : string) : string :=
  match s with
  | EmptyString => EmptyString
  | String c rest =>
      match trimEnd rest with
      | EmptyString => if is_white c then EmptyString else String c EmptyString
      | kept => String c kept
      end
  end.

Definition trim (s : string) : string := trimEnd (trimStart s).

Fixpoint startsWith (prefix s : string) : bool :=
  match prefix, s with
  | EmptyString, _ => true
  | String a p, String b r => Ascii.eqb a b && startsWith p r
  | String _ _, EmptyString => false
  end.

(** [s.includes(needle)] *)
Fixpoint includes (needle s : string) : bool :=
  startsWith needle s ||
  match s with
  | EmptyString => false
  | String _ rest => includes needle rest
  end.

(** [/^\d+$/.test(s)] *)
Definition is_digit (c : ascii) : bool :=
  let n := nat_of_ascii c in (Nat.leb 48 n && Nat.leb n 57)%bool.

Fixpoint all_digits (s : string) : bool :=
  match s with
  | EmptyString => true
  | String c rest => is_digit c && all_digits rest
  end.

Definition numeric_key (s : string) : bool :=
  negb (String.eqb s "") && all_digits s.

(** An array index: the numeral of a natural number, with no leading
    zero. *)
Definition array_index (f : string) : option nat :=
  if numeric_key f && (String.eqb f "0" || negb (startsWith "0" f))
  then N.to_nat <$> (N.of_uint <$> NilEmpty.uint_of_string f)
  else None.

(** The own property [f] of [v], for a name that is computed. *)
Definition own_member (v : jsval) (f : string) : option jsval :=
  match v with
  | JObj fields => if has_own f fields then Some (lookup_field f fields) else None
  | JArr items =>
      if String.eqb f "length" then Some (JNum (Z.of_nat (length items)))
      else i ← array_index f; items !! i
  | JStr s =>
      if String.eqb f "length" then Some (JNum (Z.of_nat (String.length s)))
      else i ← array_index f; c ← String.get i s; Some (JStr (String c ""))
  | _ => None
  end.

(** [v?.[f]] for a computed name [f]: the own property, else the inherited
    one. What a value inherits is a function or, under ['__proto__'], the
    prototype itself: an object that holds none of the fields the code
    reads, which stands here as the empty object. *)
Definition member (v : jsval) (f : string) : jsval :=
  match own_member v f with
  | Some x => x
  | None => if inherited v f then JObj [] else JUndefined
  end.

(** [v[f]]: throws a [TypeError] on [null] and [undefined]. *)
Definition get_member (v : jsval) (f : string) : outcome jsval :=
  if nullish v then Threw (cannot_read v f) else Returned (member v f).

(** An optional string as a condition: given and not empty. *)
Definition given (s : option string) : option string :=
  match s with
  | Some text => if String.eqb text "" then None else Some text
  | None => None
  end.

(** A [Date]: [new Date(NaN)] is [InvalidDate]. *)
Inductive Date : Type :=
| InvalidDate
| TimeValue (ms : Z).

(** The largest time value of a [Date], 100 000 000 days from the epoch. *)
Definition maxTime : Z := 8640000000000000.

(** [new Date(n)] for a number: beyond [maxTime] the date is invalid. *)
Definition timeClip (n : Z) : Date :=
  if Z.abs n <=? maxTime then TimeValue n else InvalidDate.

Definition msPerDay : Z := 1000 * 60 * 60 * 24.

(** [Math.ceil(a / b)] for integers [a] and a positive [b]. *)
Definition ceil_div (a b : Z) : Z := - ((- a) / b).

End JS.

Export JS.

(** ** [lib/notion]: the paginated fetch and the property extractor *)

Module Notion.

(** The arguments and the response of [notion.databases.query]. *)
Record QueryArgs : Type := {
  database_id : string;
  start_cursor : jsval;
  query_filter : jsval;
  page_size : Z;
}.

Record QueryResponse : Type := {
  results : list jsval;
  has_more : bool;
  next_cursor : jsval;
}.

(** A request as [fetchAllPages] issued it, with [allPages.length] at that
    moment. *)
Record Call : Type := {
  call_args : QueryArgs;
  call_seen : nat;
}.

(** [limit ? ... : ...]: an absent limit and the number 0 are both falsy. *)
Definition limit_set (limit : option Z) : bool :=
  match limit with
  | Some l => negb (l =? 0)
  | None => false
  end.

(** [const remainingLimit = limit ? limit - allPages.length : undefined] *)
Definition remainingLimit (limit : option Z) (seen : nat) : option Z :=
  match limit with
  | Some l => if l =? 0 then None else Some (l - Z.of_nat seen)
  | None => None
  end.

(** [remainingLimit && remainingLimit < 100 ? remainingLimit : 100] *)
Definition pageSize (remaining : option Z) : Z :=
  match remaining with
  | Some r => if negb (r =? 0) && (r <? 100) then r else 100
  | None => 100
  end.

(** [items.slice(0, n)]: a negative [n] counts from the end. *)
Definition slice0 (n : Z) (items : list jsval) : list jsval :=
  if 0 <=? n then firstn (Z.to_nat n) items
  else firstn (Z.to_nat (Z.of_nat (length items) + n)) items.

(** What one response adds to [allPages]. *)
Definition taken (limit : option Z) (remaining : option Z) (items : list jsval) : list jsval :=
  match remaining with
  | Some r => if limit_set limit && negb (r =? 0) then slice0 r items else items
  | None => items
  end.

(** [limit && allPages.length >= limit] *)
Definition reached (limit : option Z) (seen : nat) : bool :=
  match limit with
  | Some l => negb (l =? 0) && (l <=? Z.of_nat seen)
  | None => false
  end.

Section FetchAllPages.

Variable query : QueryArgs -> outcome QueryResponse.

(** The [do ... while] loop; one unit of [fuel] per request. [None]: the
    loop is still running when the fuel is spent. *)
Fixpoint fetch_loop (fuel : nat) (databaseId : string) (filter : jsval) (limit : option Z)
    (allPages : list jsval) (cursor : jsval) (calls : list Call)
    : option (outcome (list jsval)) * list Call :=
  match fuel with
  | O => (None, calls)
  | S fuel' =>
      let remaining := remainingLimit limit (length allPages) in
      let args := {| database_id := databaseId; start_cursor := cursor;
                     query_filter := filter; page_size := pageSize remaining |} in
      let calls' := calls ++ [{| call_args := args; call_seen := length allPages |}] in
      match query args with
      | Threw e => (Some (Threw e), calls')
      | Returned response =>
          let allPages' := allPages ++ taken limit remaining (results response) in
          let cursor' :=
            if has_more response && truthy (next_cursor response)
            then next_cursor response else JUndefined in
          if reached limit (length allPages') then (Some (Returned allPages'), calls')
          else if truthy cursor' && (negb (limit_set limit) || negb (reached limit (length allPages')))
          then fetch_loop fuel' databaseId filter limit allPages' cursor' calls'
          else (Some (Returned allPages'), calls')
      end
  end.

Definition fetchAllPages_traced (fuel : nat) (databaseId : string) (filter : jsval)
    (limit : option Z) : option (outcome (list jsval)) * list Call :=
  fetch_loop fuel databaseId filter limit [] JUndefined [].

Definition fetchAllPages (fuel : nat) (databaseId : string) (filter : jsval)
    (limit : option Z) : option (outcome (list jsval)) :=
  fst (fetchAllPages_traced fuel databaseId filter limit).

End FetchAllPages.

(** What [extractProperty] returns: a plain value, or a [Date] object built by
    [new Date(arg)]. *)
Inductive extracted : Type :=
| Plain (v : jsval)
| DateObject (arg : jsval).

Definition extracted_truthy (x : extracted) : bool :=
  match x with
  | Plain v => truthy v
  | DateObject _ => true
  end.

(** [title] and [rich_text]: the segments' [plain_text], concatenated. *)
Definition extract_text (key : string) (segments : jsval) : outcome extracted :=
  if truthy segments && isArray segments && positive (field segments "length") then
    parts ← array_map ("prop." +:+ key) "map" (fun segment =>
               plain ← get segment "plain_text"; mret (or_else plain (JStr ""))) segments;
    text ← join_printed "" parts;
    mret (Plain (or_else (JStr text) (JStr "")))
  else mret (Plain (JStr "")).

(** [array.map(item => item.id).filter(id => id)] *)
Definition ids_of (object : string) (array : jsval) : outcome (list jsval) :=
  ids ← array_map object "map" (fun item => get item "id") array;
  mret (List.filter truthy ids).

(** [array.flatMap(callback).filter(id => id)] *)
Definition flatMap_ids (callback : jsval -> outcome jsval) (array : jsval) : outcome extracted :=
  nested ← array_map "array" "flatMap" callback array;
  mret (Plain (JArr (List.filter truthy (flat nested)))).

(** The callback of the rollup cases 1 and 2: the ids under [item[key]] when
    that is an array. *)
Definition nested_ids (key : string) (item : jsval) : outcome jsval :=
  inner ← get item key;
  if truthy inner && isArray inner then JArr <$> ids_of ("item." +:+ key) inner
  else mret (JArr []).

(** The callback of the rollup case 5. *)
Definition nested_people (item : jsval) : outcome jsval :=
  people ← get item "people";
  if isArray people then
    ids ← array_map "item.people" "map" (fun p => id ← get p "id"; mret (or_else id p)) people;
    mret (JArr (List.filter truthy ids))
  else if truthy (field people "id") then mret (JArr [field people "id"])
  else mret (JArr []).

Definition extract_rollup (prop : jsval) : outcome extracted :=
  let rollup := field prop "rollup" in
  if is_str (field rollup "type") "number" then mret (Plain (field rollup "number"))
  else if is_str (field rollup "type") "array" then
    let array := or_else (field rollup "array") (JArr []) in
    if positive (field array "length") then
      let firstItem := first_item array in
      if is_str (field firstItem "type") "people" && truthy (field firstItem "people") then
        flatMap_ids (nested_ids "people") array
      else if is_str (field firstItem "type") "relation" && truthy (field firstItem "relation") then
        flatMap_ids (nested_ids "relation") array
      else if is_str (field firstItem "object") "user"
              || (truthy (field firstItem "id")
                  && match field firstItem "type" with JUndefined => true | _ => false end) then
        (fun ids => Plain (JArr ids)) <$> ids_of "array" array
      else if truthy (field firstItem "id") && negb (truthy (field firstItem "object")) then
        (fun ids => Plain (JArr ids)) <$> ids_of "array" array
      else if truthy (field firstItem "people") then
        flatMap_ids nested_people array
      else mret (Plain array)
    else mret (Plain array)
  else mret (Plain JNull).

Definition extract_formula (prop : jsval) : extracted :=
  let formula := field prop "formula" in
  if is_str (field formula "type") "number" then Plain (field formula "number")
  else if is_str (field formula "type") "string" then Plain (field formula "string")
  else if is_str (field formula "type") "boolean" then Plain (field formula "boolean")
  else if is_str (field formula "type") "date" then Plain (field formula "date")
  else Plain JNull.

(** [prop.files?.map(...).filter(url => url !== null) || []] *)
Definition extract_files (prop : jsval) : outcome extracted :=
  urls ← array_map_opt "prop.files" (fun file =>
            inner ← get file "file";
            mret (or_else (field inner "url")
                    (or_else (field (field file "external") "url") JNull))) (field prop "files");
  match urls with
  | JArr items =>
      mret (Plain (JArr (List.filter (fun url => negb (is_null url)) items)))
  | _ => mret (Plain (JArr []))
  end.

(** [prop[key]?.map(item => item[sub]) || []] *)
Definition extract_list (prop : jsval) (key sub : string) : outcome extracted :=
  items ← array_map_opt ("prop." +:+ key) (fun item => get item sub) (field prop key);
  mret (Plain (or_else items (JArr []))).

(** [value ? new Date(value) : null]: the constructor converts its argument
    to a primitive first, which throws on a value that does not print. *)
Definition extract_time (value : jsval) : outcome extracted :=
  if truthy value then
    _ ← printed value;
    mret (DateObject value)
  else mret (Plain JNull).

(** The [switch] over the declared type, for a property that was found. *)
Definition extract_found (prop : jsval) (propertyType : string) : outcome extracted :=
  if String.eqb propertyType "title" then extract_text "title" (field prop "title")
  else if String.eqb propertyType "rich_text" then
    extract_text "rich_text" (field prop "rich_text")
  else if String.eqb propertyType "select" then
    mret (Plain (or_else (field (field prop "select") "name") JNull))
  else if String.eqb propertyType "date" then
    let date := field prop "date" in
    if truthy date then
      mret (Plain (JObj [("start", field date "start"); ("end", field date "end");
                         ("time_zone", field date "time_zone")]))
    else mret (Plain JNull)
  else if String.eqb propertyType "people" then extract_list prop "people" "id"
  else if String.eqb propertyType "relation" then extract_list prop "relation" "id"
  else if String.eqb propertyType "number" then mret (Plain (field prop "number"))
  else if String.eqb propertyType "checkbox" then mret (Plain (field prop "checkbox"))
  else if String.eqb propertyType "formula" then mret (extract_formula prop)
  else if String.eqb propertyType "rollup" then extract_rollup prop
  else if String.eqb propertyType "url" then mret (Plain (field prop "url"))
  else if String.eqb propertyType "email" then mret (Plain (field prop "email"))
  else if String.eqb propertyType "phone_number" then mret (Plain (field prop "phone_number"))
  else if String.eqb propertyType "multi_select" then extract_list prop "multi_select" "name"
  else if String.eqb propertyType "files" then extract_files prop
  else if String.eqb propertyType "created_time" then extract_time (field prop "created_time")
  else if String.eqb propertyType "last_edited_time" then
    extract_time (field prop "last_edited_time")
  else mret (Plain JNull).

(** [page.properties[propertyId]], then [page.properties[propertyName]] when
    the first lookup is falsy and a name is given. Both lookups follow the
    prototype chain of [page.properties]. *)
Definition find_property (page : jsval) (propertyId : string) (propertyName : option string)
    : outcome jsval :=
  properties ← get page "properties";
  byId ← get_member properties propertyId;
  match given propertyName with
  | Some name => if truthy byId then mret byId else get_member properties name
  | None => mret byId
  end.

Definition extractProperty (page : jsval) (propertyId propertyType : string)
    (propertyName : option string) : outcome extracted :=
  prop ← find_property page propertyId propertyName;
  if truthy prop then extract_found prop propertyType else mret (Plain JNull).

End Notion.

(** ** [lib/services/metrics-calculator]: average days late *)

Module Metrics.

(** A field of a stored document: a plain value, or a BSON date, which the
    driver hands back as a [Date] object. An absent field is
    [Held JUndefined]. *)
Inductive stored : Type :=
| Held (v : jsval)
| HeldDate (d : Date).

Definition stored_truthy (x : stored) : bool :=
  match x with
  | Held v => truthy v
  | HeldDate _ => true
  end.

(** The fields of a card that [calculateDaysLateMetrics] reads, all under
    [card.metadata]. *)
Record Card : Type := {
  developer_ids : jsval;
  developer : jsval;
  original_due_date : stored;
  ready_for_client_date : stored;
  done_date : stored;
  deployment_date : stored;
}.

Record MetricsCache : Type := {
  metric_type : string;
  team_member_id : option string;
  value : Q;
}.

(** [isNaN(date.getTime())] *)
Definition isInvalid (d : Date) : bool :=
  match d with InvalidDate => true | TimeValue _ => false end.

(** [byDeveloper]: an object whose keys are developer ids, listed in the
    order in which they were added. *)
Definition Groups : Type := list (string * list Z).

(** The own property [byDeveloper[developerId]]. *)
Fixpoint own_days (developerId : string) (byDeveloper : Groups) : option (list Z) :=
  match byDeveloper with
  | [] => None
  | (key, days) :: rest =>
      if String.eqb key developerId then Some days else own_days developerId rest
  end.

(** [byDeveloper[developerId].push(daysLate)] on an own property. *)
Fixpoint push (developerId : string) (daysLate : Z) (byDeveloper : Groups) : Groups :=
  match byDeveloper with
  | [] => []
  | (key, days) :: rest =>
      if String.eqb key developerId then (key, days ++ [daysLate]) :: rest
      else (key, days) :: push developerId daysLate rest
  end.

(** The rank of a key in [Object.entries]: the keys that are array indices
    come first, by their number, the other keys after them as they were
    added. *)
Definition index_key (key : string) : option N :=
  match array_index key with
  | Some i => if (N.of_nat i <? 4294967295)%N then Some (N.of_nat i) else None
  | None => None
  end.

Definition is_index (entry : string * list Z) : bool :=
  bool_decide (is_Some (index_key (fst entry))).

Definition index_before (a b : string * list Z) : Prop :=
  (default 0 (index_key (fst a)) <= default 0 (index_key (fst b)))%N.

#[export] Instance index_before_dec (a b : string * list Z) : Decision (index_before a b).
Proof. unfold index_before. apply _. Defined.

(** [Object.entries(byDeveloper)], and [Object.values] in the same order. *)
Definition entries (byDeveloper : Groups) : Groups :=
  merge_sort index_before (List.filter is_index byDeveloper)
  ++ List.filter (fun entry => negb (is_index entry)) byDeveloper.

Definition sumZ (l : list Z) : Z := fold_left Z.add l 0.

(** [daysLateArray.reduce((a, b) => a + b, 0) / daysLateArray.length] *)
Definition average (l : list Z) : Q := Qmake (sumZ l) (Pos.of_nat (length l)).

(** The metric written for a developer. *)
Definition developer_metric (entry : string * list Z) : MetricsCache :=
  {| metric_type := "avg_days_late"; team_member_id := Some (fst entry);
     value := average (snd entry) |}.

(** The overall metric. *)
Definition overall_metric (byDeveloper : Groups) : MetricsCache :=
  let allDaysLate := concat (map snd (entries byDeveloper)) in
  {| metric_type := "avg_days_late"; team_member_id := None;
     value := if Nat.ltb 0 (length allDaysLate) then average allDaysLate else 0%Q |}.

(** The calls of [metrics_cache.updateOne], one after the other. The state
    is the list of the metrics handed to the driver so far; [rejected n] is
    what the driver answers to call number [n]: [None] when the metric is
    written, else the message of the error, which ends the function. *)
Fixpoint write_all (rejected : nat -> option string) (metrics calls : list MetricsCache)
    : outcome unit * list MetricsCache :=
  match metrics with
  | [] => (Returned tt, calls)
  | metric :: rest =>
      match rejected (length calls) with
      | Some message => (Threw message, calls ++ [metric])
      | None => write_all rejected rest (calls ++ [metric])
      end
  end.

Section DaysLate.

(** [Date.parse] of the host. *)
Variable Date_parse : string -> Date.

(** [new Date(v)]: an object is converted to a primitive first, which throws
    when it does not print; a number beyond the range of time values gives
    an invalid date. *)
Definition newDate (v : jsval) : outcome Date :=
  match v with
  | JUndefined => mret InvalidDate
  | JNull => mret (TimeValue 0)
  | JBool b => mret (TimeValue (if b then 1 else 0))
  | JNum n => mret (timeClip n)
  | JStr s => mret (Date_parse s)
  | JArr _ | JObj _ => text ← printed v; mret (Date_parse text)
  end.

(** [x instanceof Date ? x : new Date(x)] *)
Definition asDate (x : stored) : outcome Date :=
  match x with
  | HeldDate d => mret d
  | Held v => newDate v
  end.

(** [card.metadata?.developer_ids?.[0] || card.metadata?.developer?.[0]] *)
Definition primaryDeveloper (card : Card) : jsval :=
  or_else (first_item (developer_ids card)) (first_item (developer card)).

(** The deadline, from the original due date only: its [start], else its
    [end], else the value itself when it is a date. [None] is [null]. *)
Definition resolveDeadline (card : Card) : outcome (option Date) :=
  match original_due_date card with
  | Held v =>
      if truthy v then
        if isObject v && truthy (field v "start") then Some <$> newDate (field v "start")
        else if isObject v && truthy (field v "end") then Some <$> newDate (field v "end")
        else mret None
      else mret None
  | HeldDate d => mret (Some d)
  end.

(** The completion date: the ready-for-client date, else the done date, else
    the deployment date; the first one present is taken. *)
Definition resolveCompletion (card : Card) : outcome (option Date) :=
  if stored_truthy (ready_for_client_date card)
  then Some <$> asDate (ready_for_client_date card)
  else if stored_truthy (done_date card) then Some <$> asDate (done_date card)
  else if stored_truthy (deployment_date card) then Some <$> asDate (deployment_date card)
  else mret None.

(** The body of the loop over the cards up to [byDeveloper]: the developer
    and the days late of the card, [None] when the loop [continue]s or the
    card is not late. The completion date is not looked at without a
    deadline, and the developer is printed for a late card only. *)
Definition cardDaysLate (card : Card) : outcome (option (string * Z)) :=
  let who := primaryDeveloper card in
  if negb (truthy who) then mret None else
  deadline ← resolveDeadline card;
  match deadline with
  | None | Some InvalidDate => mret None
  | Some (TimeValue deadline) =>
      completedDate ← resolveCompletion card;
      match completedDate with
      | None | Some InvalidDate => mret None
      | Some (TimeValue completed) =>
          if deadline <? completed then
            developerId ← call_toString "primaryDeveloper" who;
            mret (Some (developerId, (completed - deadline) / msPerDay))
          else mret None
      end
  end.

(** [if (!byDeveloper[developerId]) byDeveloper[developerId] = [];
     byDeveloper[developerId].push(daysLate)]: under a name of
    [Object.prototype] that is no key yet the object answers with what it
    inherits, which is truthy and has no [push]. *)
Definition record_late (byDeveloper : Groups) (card : Card) : outcome Groups :=
  late ← cardDaysLate card;
  match late with
  | Some (developerId, daysLate) =>
      match own_days developerId byDeveloper with
      | Some _ => mret (push developerId daysLate byDeveloper)
      | None =>
          if listed developerId object_prototype
          then Threw "byDeveloper[developerId].push is not a function"
          else mret (byDeveloper ++ [(developerId, [daysLate])])
      end
  | None => mret byDeveloper
  end.

(** The loop over the cards. *)
Fixpoint group_from (cards : list Card) (byDeveloper : Groups) : outcome Groups :=
  match cards with
  | [] => mret byDeveloper
  | card :: rest =>
      byDeveloper' ← record_late byDeveloper card;
      group_from rest byDeveloper'
  end.

Definition groupDaysLate (cards : list Card) : outcome Groups := group_from cards [].

(** The metrics the function hands to [updateOne] for the cards the query
    returned, in the order of the calls: one for each developer and the
    overall one. The loop over the cards ends before the first call, so
    when it throws no metric is written. *)
Definition daysLateMetrics (cards : list Card) : outcome (list MetricsCache) :=
  byDeveloper ← groupDaysLate cards;
  mret (map developer_metric
          (List.filter (fun entry : string * list Z => negb (Nat.eqb (length (snd entry)) 0))
             (entries byDeveloper))
        ++ [overall_metric byDeveloper]).

(** [calculateDaysLateMetrics] for the cards the query returned: the outcome
    and the calls of [updateOne] made. *)
Definition calculateDaysLateMetrics (rejected : nat -> option string) (cards : list Card)
    : outcome unit * list MetricsCache :=
  match daysLateMetrics cards with
  | Returned metrics => write_all rejected metrics []
  | Threw message => (Threw message, [])
  end.

End DaysLate.

(** Days since 1970-01-01 of a date of the proleptic Gregorian calendar. *)
Definition days_from_civil (y m d : Z) : Z :=
  let y' := if m <=? 2 then y - 1 else y in
  let era := y' / 400 in
  let yoe := y' - era * 400 in
  let doy := (153 * (if 2 <? m then m - 3 else m + 9) + 2) / 5 + d - 1 in
  let doe := yoe * 365 + yoe / 4 - yoe / 100 + doy in
  era * 146097 + doe - 719468.

Definition digit_value (c : ascii) : option Z :=
  if is_digit c then Some (Z.of_nat (nat_of_ascii c) - 48) else None.

Fixpoint digits_value (acc : Z) (s : string) : option Z :=
  match s with
  | EmptyString => Some acc
  | String c rest =>
      match digit_value c with
      | Some v => digits_value (acc * 10 + v) rest
      | None => None
      end
  end.

(** [Date.parse] on the date-only form [YYYY-MM-DD], which is read as UTC
    midnight; this instance leaves every other form invalid. *)
Definition parse_date_only (s : string) : Date :=
  if Nat.eqb (String.length s) 10
     && String.eqb (substring 4 1 s) "-" && String.eqb (substring 7 1 s) "-" then
    match digits_value 0 (substring 0 4 s), digits_value 0 (substring 5 2 s),
          digits_value 0 (substring 8 2 s) with
    | Some y, Some m, Some d =>
        if (1 <=? m) && (m <=? 12) && (1 <=? d) && (d <=? 31)
        then TimeValue (days_from_civil y m d * msPerDay)
        else InvalidDate
    | _, _, _ => InvalidDate
    end
  else InvalidDate.

End Metrics.

(** ** [lib/services/timedoctor]: worklog fetch, chunking, user matching *)

Module TimeDoctor.

Record TimeDoctorConfig : Type := {
  apiToken : string;
  companyId : string;
}.

(** The worklog request: the query parameters and the token of the
    [Authorization] header. [from] and [to] stand for the ISO strings of
    these time values. *)
Record WorklogRequest : Type := {
  req_company : string;
  req_from : Z;
  req_to : Z;
  req_user : option string;
  req_token : string;
}.

(** What [fetch] resolves to: the status line and the two readings of the
    body, each of which may reject. *)
Record Response : Type := {
  ok : bool;
  status : Z;
  statusText : string;
  text : outcome string;
  json : outcome jsval;
}.

Record TimeDoctorApiWorklog : Type := {
  userId : option string;
  projectId : option string;
  time : option Z;
  start : jsval;
  projectName : jsval;
  taskName : jsval;
  mode : jsval;
}.

(** [date.toISOString()]: a [RangeError] on an invalid date. *)
Definition toISOString (d : Date) : outcome Z :=
  match d with
  | TimeValue ms => Returned ms
  | InvalidDate => Threw "Invalid time value"
  end.

(** [Object.keys(v).every(k => /^\d+$/.test(k))] for an object or array. *)
Definition numeric_keys (v : jsval) : bool :=
  match v with
  | JObj fields => forallb (fun kv => numeric_key (fst kv)) fields
  | _ => true
  end.

(** [Object.keys(v).map(k => v[k])] for an object or array. *)
Definition members (v : jsval) : list jsval :=
  match v with
  | JObj fields => map snd fields
  | JArr items => items
  | _ => []
  end.

(** The in-band error check: [data.error], when truthy, is thrown, as a
    range error when it mentions the range limit. *)
Definition check_api_error (data : jsval) : outcome unit :=
  let errorMsg := field data "error" in
  if truthy errorMsg then
    match errorMsg with
    | JStr s =>
        if includes "range too wide" s || includes "mergeRange" s
        then Threw ("Time Doctor API range error: " +:+ s)
        else Threw ("Time Doctor API error: " +:+ s)
    | JArr items =>
        if existsb (fun x => is_str x "range too wide") items
           || existsb (fun x => is_str x "mergeRange") items
        then Threw ("Time Doctor API range error: " +:+ toString errorMsg)
        else Threw ("Time Doctor API error: " +:+ toString errorMsg)
    | _ => Threw "errorMsg.includes is not a function"
    end
  else Returned tt.

(** The request built from the arguments: [user] is added when ids are
    given. *)
Definition worklog_request (config : TimeDoctorConfig) (fromDate toDate : Z)
    (userIds : option (list string)) : WorklogRequest :=
  {| req_company := companyId config; req_from := fromDate; req_to := toDate;
     req_user := match userIds with
                 | Some (id :: ids) => Some (join "," (id :: ids))
                 | _ => None
                 end;
     req_token := apiToken config |}.

Section FetchWorklogs.

Variable fetch : WorklogRequest -> outcome Response.
Variable JSON_parse : string -> outcome jsval.
Variable parseFloat : string -> option Z.

(** [const parsed = JSON.parse(s); Array.isArray(parsed) ? parsed : []] *)
Definition parsed_array (s : string) : outcome (list jsval) :=
  parsed ← JSON_parse s;
  mret (match parsed with JArr items => items | _ => [] end).

(** The item of [data.data.map(...)] in the array-like case. *)
Definition unwrap_array_like (item : jsval) : jsval :=
  if isObject item && negb (Nat.eqb (length (members item)) 0) && numeric_keys item
  then JArr (members item) else item.

(** The value of [worklogData] for the payload under [data.data]. *)
Definition normalize_data_field (inner : jsval) : list jsval :=
  match inner with
  | JStr s =>
      match parsed_array s with
      | Returned items => items
      | Threw _ => []
      end
  | JArr items =>
      match items with
      | [JStr s] =>
          if startsWith "[" (trim s) then
            match parsed_array s with
            | Returned parsed => parsed
            | Threw _ => items
            end
          else items
      | _ =>
          let testEntry := first_item inner in
          if truthy testEntry && isObject testEntry && numeric_keys testEntry
          then flat (map unwrap_array_like items)
          else items
      end
  | JObj fields =>
      if negb (Nat.eqb (length fields) 0) && numeric_keys inner then members inner else []
  | _ => []
  end.

(** The different response formats, brought to one array. *)
Definition normalize_payload (data : jsval) : list jsval :=
  match data with
  | JArr items => items
  | _ =>
      if truthy (field data "data") then normalize_data_field (field data "data")
      else if truthy (field data "results") && isArray (field data "results")
      then members (field data "results")
      else if truthy (field data "items") && isArray (field data "items")
      then members (field data "items")
      else if truthy (field data "entries") && isArray (field data "entries")
      then members (field data "entries")
      else []
  end.

(** Entries that are JSON strings are parsed one by one; an entry that does
    not parse, or parses to [null], is dropped. *)
Definition parse_string_entries (worklogData : list jsval) : list jsval :=
  match worklogData with
  | JStr _ :: _ =>
      List.filter (fun entry => negb (is_null entry))
        (map (fun entry =>
                match entry with
                | JStr s =>
                    match JSON_parse s with
                    | Returned parsed => parsed
                    | Threw _ => JNull
                    end
                | _ => entry
                end) worklogData)
  | _ => worklogData
  end.

(** [id ? String(id) : null] *)
Definition id_string (id : jsval) : option string :=
  if truthy id then Some (toString id) else None.

(** The callback of [worklogData.map]: both spellings of each field. *)
Definition map_entry (entry : jsval) : outcome TimeDoctorApiWorklog :=
  entry_userId ← get entry "userId";
  let user := or_else entry_userId
                (or_else (field entry "user_id")
                   (or_else (field (field entry "user") "id") JNull)) in
  let project := or_else (field entry "projectId")
                   (or_else (field entry "project_id")
                      (or_else (field (field entry "project") "id") JNull)) in
  let timeValue := or_else (field entry "time")
                     (or_else (field entry "totalSec")
                        (or_else (field entry "total_sec")
                           (or_else (field entry "total_time") (JNum 0)))) in
  mret {| userId := id_string user;
          projectId := id_string project;
          time := match timeValue with
                  | JStr s => parseFloat s
                  | JNum n => Some n
                  | _ => Some 0
                  end;
          start := or_else (field entry "start")
                     (or_else (field entry "period_start")
                        (or_else (field entry "date")
                           (or_else (field entry "created_at") (field entry "timestamp"))));
          projectName := or_else (field entry "projectName")
                           (or_else (field entry "project_name")
                              (field (field entry "project") "name"));
          taskName := or_else (field entry "taskName")
                        (or_else (field entry "task_name") (field (field entry "task") "name"));
          mode := or_else (field entry "mode") (field entry "tracking_mode") |}.

(** [s && s.trim().length > 0] *)
Definition has_text (s : option string) : bool :=
  match s with
  | Some text => negb (String.eqb text "") && negb (String.eqb (trim text) "")
  | None => false
  end.

(** The filter on [mappedWorklogs]: user, project and a positive time. *)
Definition isValid (w : TimeDoctorApiWorklog) : bool :=
  has_text (userId w) && has_text (projectId w)
  && match time w with Some t => 0 <? t | None => false end.

(** The statements inside the [try] block. *)
Definition fetch_body (config : TimeDoctorConfig) (fromDate toDate : Z)
    (userIds : option (list string)) : outcome (list TimeDoctorApiWorklog) :=
  response ← fetch (worklog_request config fromDate toDate userIds);
  if negb (ok response) then
    _ ← text response;
    Threw ("Time Doctor API error: " +:+ string_of_Z (status response) +:+ " "
           +:+ statusText response)
  else
    data ← json response;
    _ ← check_api_error data;
    let worklogData := normalize_payload data in
    _ ← (match worklogData, data with
         | [], JUndefined =>
             Threw "Cannot read properties of undefined (reading 'substring')"
         | _, _ => Returned tt
         end);
    mapped ← mapM map_entry (parse_string_entries worklogData);
    mret (List.filter isValid mapped).

(** The whole function: the two date strings are built before the [try];
    the [catch] returns an empty array. *)
Definition fetchTimeDoctorWorklogs (config : TimeDoctorConfig) (startDate endDate : Date)
    (userIds : option (list string)) : outcome (list TimeDoctorApiWorklog) :=
  fromDate ← toISOString startDate;
  toDate ← toISOString endDate;
  try_catch (fetch_body config fromDate toDate userIds) (fun _ => Returned []).

End FetchWorklogs.

Section ChunkedFetch.

(** The Time Doctor API as the sync sees it: the answer to the n-th request
    of the run. *)
Variable api : nat -> WorklogRequest -> outcome Response.
Variable JSON_parse : string -> outcome jsval.
Variable parseFloat : string -> option Z.

Variable config : TimeDoctorConfig.
Variable userIds : list string.

(** A window as it was handed to [fetchTimeDoctorWorklogs]. *)
Record Window : Type := {
  window_from : Z;
  window_to : Z;
}.

(** [error.message?.includes('range too wide') || error.message?.includes('mergeRange')] *)
Definition is_range_error (message : string) : bool :=
  includes "range too wide" message || includes "mergeRange" message.

(** [date.setDate(date.getDate() + n)] in a time zone without clock changes. *)
Definition addDays (ms n : Z) : Z := ms + n * msPerDay.

Definition fetch_window (seen : list Window) (from to : Z)
    : outcome (list TimeDoctorApiWorklog) :=
  fetchTimeDoctorWorklogs (api (length seen)) JSON_parse parseFloat config
    (TimeValue from) (TimeValue to) (Some userIds).

(** The [while (smallChunkStart < chunkEndDate)] loop of the [catch] block:
    3-day windows; one that fails is logged and skipped. *)
Fixpoint small_chunks (fuel : nat) (smallChunkStart chunkEndDate : Z)
    (allWorklogs : list TimeDoctorApiWorklog) (seen : list Window)
    : list TimeDoctorApiWorklog * list Window :=
  match fuel with
  | O => (allWorklogs, seen)
  | S fuel' =>
      if smallChunkStart <? chunkEndDate then
        let smallChunkEnd := addDays smallChunkStart 3 in
        let finalChunkEnd := if chunkEndDate <? smallChunkEnd then chunkEndDate else smallChunkEnd in
        let seen' := seen ++ [{| window_from := smallChunkStart; window_to := finalChunkEnd |}] in
        let allWorklogs' :=
          match fetch_window seen smallChunkStart finalChunkEnd with
          | Returned smallChunkWorklogs => allWorklogs ++ smallChunkWorklogs
          | Threw _ => allWorklogs
          end in
        small_chunks fuel' (addDays smallChunkStart 3) chunkEndDate allWorklogs' seen'
      else (allWorklogs, seen)
  end.

(** The [for (let i = 0; i < chunks; i++)] loop: 7-day windows, each retried
    in 3-day windows when its fetch throws a range error. *)
Fixpoint chunk_loop (remaining : nat) (currentStart endDate : Z)
    (allWorklogs : list TimeDoctorApiWorklog) (seen : list Window)
    : list TimeDoctorApiWorklog * list Window :=
  match remaining with
  | O => (allWorklogs, seen)
  | S remaining' =>
      let chunkEnd := addDays currentStart 7 in
      let chunkEndDate := if endDate <? chunkEnd then endDate else chunkEnd in
      let seen' := seen ++ [{| window_from := currentStart; window_to := chunkEndDate |}] in
      let '(allWorklogs', seen'') :=
        match fetch_window seen currentStart chunkEndDate with
        | Returned chunkWorklogs => (allWorklogs ++ chunkWorklogs, seen')
        | Threw message =>
            if is_range_error message then
              small_chunks (Z.to_nat ((chunkEndDate - currentStart) / (3 * msPerDay) + 1))
                currentStart chunkEndDate allWorklogs seen'
            else (allWorklogs, seen')
        end in
      chunk_loop remaining' (addDays chunkEndDate 1) endDate allWorklogs' seen''
  end.

(** [syncTimeDoctorWorklogs], from [CHUNK_DAYS] to the end of the chunk loop:
    the entries gathered in [allWorklogs] and the windows fetched, in order.
    With an invalid date [chunks] is [NaN] and the loop body never runs. *)
Definition syncTimeDoctorWorklogs_chunks (startDate endDate : Date)
    : list TimeDoctorApiWorklog * list Window :=
  match startDate, endDate with
  | TimeValue s, TimeValue e =>
      let totalDays := ceil_div (e - s) msPerDay in
      let chunks := ceil_div totalDays 7 in
      chunk_loop (Z.to_nat chunks) s e [] []
  | _, _ => ([], [])
  end.

End ChunkedFetch.

(** *** Identity matching *)

Record TeamMember : Type := {
  tm_notion_id : option string;
  tm_name : string;
  tm_email : option string;
}.

Record TimeDoctorApiUser : Type := {
  td_id : string;
  td_name : string;
  td_email : option string;
}.

(** [s.toLowerCase().trim()] on a string of ASCII characters. *)
Definition ascii_normalized (s : string) : string := trim (toLowerCase s).

Section Matching.

(** [s.toLowerCase().trim()] of the host, which lower-cases the letters of
    every script and strips every kind of white space. *)
Variable normalized : string -> string.

(** The callback of [teamMembers.forEach]: the email index and the name
    index; a later member replaces an earlier one under the same key. *)
Definition index_member (indexes : gmap string TeamMember * gmap string TeamMember)
    (member : TeamMember) : gmap string TeamMember * gmap string TeamMember :=
  let teamMemberByEmail :=
    match given (tm_email member) with
    | Some email => <[normalized email := member]> (fst indexes)
    | None => fst indexes
    end in
  let teamMemberByName :=
    match given (Some (tm_name member)) with
    | Some name => <[normalized name := member]> (snd indexes)
    | None => snd indexes
    end in
  (teamMemberByEmail, teamMemberByName).

(** [const matched = index.get(key); if (matched && matched.notion_id) ...]:
    the notion id the index offers under the key. *)
Definition offered (index : gmap string TeamMember) (key : string) : option string :=
  matched ← index !! key; given (tm_notion_id matched).



End Matching.

End TimeDoctor.

(** ** [lib/services/extractor]: the sync pass and the status history *)

Module Extractor.

(** *** Stored documents *)

Record Card : Type := {
  notion_id : string;
  title : string;
  status : option string;
  client_id : option string;
  updated_at : Z;
  _id : option string;
}.

Record CardDoc : Type := {
  doc_id : string;
  doc_card : Card;
}.

Record CardStatusHistory : Type := {
  card_id : string;
  history_status : string;
  changed_at : Z;
  detected_at : Z;
  source : string;
}.

Inductive SyncStatus : Type := success | partial | failed.

Record SyncLog : Type := {
  sync_type : string;
  log_status : SyncStatus;
  records_processed : nat;
  records_failed : nat;
  error_count : nat;
  started_at : Z;
  completed_at : option Z;
  error_message : option string;
  metadata_client_id : option string;
  metadata_retired_clients_count : option nat;
}.

Record ClientDoc : Type := {
  client_notion_id : string;
  client_name : string;
  is_retired : bool;
}.

(** The collections the pass touches, each in insertion order, and the
    counter behind the ids the store generates. *)
Record Db : Type := {
  cards : list CardDoc;
  card_status_history : list CardStatusHistory;
  sync_logs : list SyncLog;
  clients : list ClientDoc;
  next_oid : nat;
}.

(** The driver calls the pass makes; each may fail. *)
Inductive DbOp : Type :=
| GetDb
| CardsUpdateOne (notionId : string)
| CardsFindOne (notionId : string)
| HistoryFindOne (cardId : string)
| HistoryInsertOne
| SyncLogsInsertOne
| ClientsFind.

Definition db_error (op : DbOp) : string :=
  "MongoError: " +:+
  match op with
  | GetDb => "connect"
  | CardsUpdateOne _ => "cards.updateOne"
  | CardsFindOne _ => "cards.findOne"
  | HistoryFindOne _ => "card_status_history.findOne"
  | HistoryInsertOne => "card_status_history.insertOne"
  | SyncLogsInsertOne => "sync_logs.insertOne"
  | ClientsFind => "clients.find"
  end.

(** The store and the number of driver calls made so far. *)
Record World : Type := {
  db : Db;
  tick : nat;
}.

(** The state of a pass: the world and the [syncLog] object, which the [try]
    block and the [catch] block of the pass share. *)
Record Pass : Type := {
  world : World;
  syncLog : SyncLog;
}.

(** *** The monad of awaited calls

    A computation over a state [S] returns a value or throws, and leaves a
    state either way; [None] is a call that has not returned when the fuel of
    a loop inside it is spent. *)
Definition M (S A : Type) : Type := S -> option (outcome A * S).

#[export] Instance M_ret {S} : MRet (M S) := fun A a s => Some (Returned a, s).

#[export] Instance M_bind {S} : MBind (M S) := fun A B k m s =>
  match m s with
  | Some (Returned a, s') => k a s'
  | Some (Threw e, s') => Some (Threw e, s')
  | None => None
  end.

Definition throw {S A} (message : string) : M S A := fun s => Some (Threw message, s).

(** [try { m } catch (error) { handler error.message }] *)
Definition tryM {S A} (m : M S A) (handler : string -> M S A) : M S A := fun s =>
  match m s with
  | Some (Returned a, s') => Some (Returned a, s')
  | Some (Threw e, s') => handler e s'
  | None => None
  end.

(** A call that throws or returns without touching the state. *)
Definition pure_call {S A} (r : outcome A) : M S A := fun s => Some (r, s).

(** A computation on the world, run inside a pass. *)
Definition lift {A} (m : M World A) : M Pass A := fun p =>
  match m (world p) with
  | Some (r, w) => Some (r, {| world := w; syncLog := syncLog p |})
  | None => None
  end.

Definition get_log : M Pass SyncLog := fun p => Some (Returned (syncLog p), p).

Definition modify_log (f : SyncLog -> SyncLog) : M Pass unit := fun p =>
  Some (Returned tt, {| world := world p; syncLog := f (syncLog p) |}).

(** [for (const x of items) { body x }] *)
Fixpoint for_each {S A} (body : A -> M S unit) (items : list A) : M S unit :=
  match items with
  | [] => mret tt
  | x :: rest => _ ← body x; for_each body rest
  end.

(** *** Queries and updates on the store *)

Definition find_card (notionId : string) (d : Db) : option CardDoc :=
  List.find (fun doc => String.eqb (notion_id (doc_card doc)) notionId) (cards d).

(** The id of the n-th document the store creates, for [ObjectId.toString]. *)
Definition fresh_oid (n : nat) : string := "oid-" +:+ string_of_Z (Z.of_nat n).

Fixpoint replace_card (card : Card) (docs : list CardDoc) : list CardDoc :=
  match docs with
  | [] => []
  | doc :: rest =>
      if String.eqb (notion_id (doc_card doc)) (notion_id card)
      then {| doc_id := doc_id doc; doc_card := card |} :: rest
      else doc :: replace_card card rest
  end.

(** [cards.updateOne({ notion_id }, { $set: card }, { upsert: true })] *)
Definition upsert_card (card : Card) (d : Db) : Db :=
  match find_card (notion_id card) d with
  | Some _ =>
      {| cards := replace_card card (cards d);
         card_status_history := card_status_history d;
         sync_logs := sync_logs d; clients := clients d; next_oid := next_oid d |}
  | None =>
      {| cards := cards d ++ [{| doc_id := fresh_oid (next_oid d); doc_card := card |}];
         card_status_history := card_status_history d;
         sync_logs := sync_logs d; clients := clients d; next_oid := S (next_oid d) |}
  end.

(** The order of [sort: { changed_at: -1 }] between a record [h] and a record
    [b] inserted before it: [h] comes first when its date is the later one.
    Between two records of the same date the driver promises no order;
    [sort_ties b h] says whether [h] comes first then. *)
Definition sorts_first (sort_ties : CardStatusHistory -> CardStatusHistory -> bool)
    (b h : CardStatusHistory) : bool :=
  (changed_at b <? changed_at h) || ((changed_at b =? changed_at h) && sort_ties b h).

(** [card_status_history.findOne({ card_id }, { sort: { changed_at: -1 } })]:
    the record of the card that the sort puts first. *)
Definition latest_history (sort_ties : CardStatusHistory -> CardStatusHistory -> bool)
    (cardId : string) (history : list CardStatusHistory) : option CardStatusHistory :=
  fold_left
    (fun best h =>
       if String.eqb (card_id h) cardId then
         match best with
         | Some b => if sorts_first sort_ties b h then Some h else Some b
         | None => Some h
         end
       else best)
    history None.

Definition insert_history (h : CardStatusHistory) (d : Db) : Db :=
  {| cards := cards d; card_status_history := card_status_history d ++ [h];
     sync_logs := sync_logs d; clients := clients d; next_oid := next_oid d |}.

Definition insert_sync_log (log : SyncLog) (d : Db) : Db :=
  {| cards := cards d; card_status_history := card_status_history d;
     sync_logs := sync_logs d ++ [log]; clients := clients d; next_oid := next_oid d |}.

(** [lastHistory.status !== card.status] *)
Definition status_differs (recorded : string) (current : option string) : bool :=
  match current with
  | Some s => negb (String.eqb recorded s)
  | None => true
  end.

(** [cardDoc?._id?.toString() || card.notion_id] *)
Definition history_key (cardDoc : option CardDoc) (card : Card) : string :=
  match cardDoc with
  | Some doc => if String.eqb (doc_id doc) "" then notion_id card else doc_id doc
  | None => notion_id card
  end.

(** The record [recordStatusHistory] inserts. *)
Definition history_record (cardId : string) (card : Card) (detected : Z) : CardStatusHistory :=
  {| card_id := cardId;
     history_status := default "Unknown" (given (status card));
     changed_at := updated_at card;
     detected_at := detected;
     source := "notion" |}.

(** [!lastHistory || lastHistory.status !== card.status] *)
Definition status_changed (lastHistory : option CardStatusHistory) (card : Card) : bool :=
  match lastHistory with
  | Some h => status_differs (history_status h) (status card)
  | None => true
  end.

Section Sync.

(** The failures of the driver: whether the call made at a tick fails. *)
Variable faulty : nat -> DbOp -> bool.
(** [new Date()] at a tick. *)
Variable clock : nat -> Z.
(** The order the driver gives to history records of one date. *)
Variable sort_ties : CardStatusHistory -> CardStatusHistory -> bool.
(** [notion.databases.query] *)
Variable query : Notion.QueryArgs -> outcome Notion.QueryResponse.
(** The fuel of each paginated fetch. *)
Variable fetch_fuel : nat.
(** [transformProjectPage]: it reads the page, the clients collection and the
    Notion API, and writes nothing; the pass uses its result only. *)
Variable transformProjectPage : nat -> Db -> jsval -> outcome Card.
(** [process.env.NOTION_PROJECTS_DB_ID] *)
Variable PROJECTS_DB_ID : string.

Definition CLIENTS_DB_ID : string := "c844e95e-2960-43da-8a65-15ce0c7eba53".
Definition CLIENT_id : string := "em%7D%3B".
Definition CLIENT_name : string := "Client".
Definition BATCH_SIZE : nat := 50.

(** One awaited driver call. A failed call leaves the store as it was. *)
Definition db_call {A} (op : DbOp) (run : Db -> A * Db) : M World A := fun w =>
  if faulty (tick w) op
  then Some (Threw (db_error op), {| db := db w; tick := S (tick w) |})
  else Some (Returned (fst (run (db w))), {| db := snd (run (db w)); tick := S (tick w) |}).

Definition getDb : M World unit := db_call GetDb (fun d => (tt, d)).

Definition now : M World Z := fun w => Some (Returned (clock (tick w)), w).

Definition recordStatusHistory (card : Card) : M World unit :=
  _ ← getDb;
  cardDoc ← db_call (CardsFindOne (notion_id card)) (fun d => (find_card (notion_id card) d, d));
  let cardId := history_key cardDoc card in
  lastHistory ← db_call (HistoryFindOne cardId)
                  (fun d => (latest_history sort_ties cardId (card_status_history d), d));
  if status_changed lastHistory card then
    detected ← now;
    db_call HistoryInsertOne (fun d => (tt, insert_history (history_record cardId card detected) d))
  else mret tt.

(** The statements of the per-page [try] block after the transform: upsert
    the card, read it back, record the status. *)
Definition persistCard (card : Card) : M World unit :=
  _ ← db_call (CardsUpdateOne (notion_id card)) (fun d => (tt, upsert_card card d));
  cardDoc ← db_call (CardsFindOne (notion_id card)) (fun d => (find_card (notion_id card) d, d));
  let card' :=
    match cardDoc, given (_id card) with
    | Some doc, None =>
        {| notion_id := notion_id card; title := title card; status := status card;
           client_id := client_id card; updated_at := updated_at card;
           _id := Some (doc_id doc) |}
    | _, _ => card
    end in
  _ ← match given (client_id card') with
      | Some _ =>
          _ ← db_call (CardsFindOne (notion_id card'))
                (fun d => (find_card (notion_id card') d, d));
          mret tt
      | None => mret tt
      end;
  recordStatusHistory card'.

(** The per-page [try] block. *)
Definition persistPage (page : jsval) : M World unit :=
  card ← (fun w => Some (transformProjectPage (tick w) (db w) page, w));
  persistCard card.

Definition count_processed (log : SyncLog) : SyncLog :=
  {| sync_type := sync_type log; log_status := log_status log;
     records_processed := S (records_processed log);
     records_failed := records_failed log; error_count := error_count log;
     started_at := started_at log; completed_at := completed_at log;
     error_message := error_message log; metadata_client_id := metadata_client_id log;
     metadata_retired_clients_count := metadata_retired_clients_count log |}.

Definition count_failed (log : SyncLog) : SyncLog :=
  {| sync_type := sync_type log; log_status := log_status log;
     records_processed := records_processed log;
     records_failed := S (records_failed log); error_count := S (error_count log);
     started_at := started_at log; completed_at := completed_at log;
     error_message := error_message log; metadata_client_id := metadata_client_id log;
     metadata_retired_clients_count := metadata_retired_clients_count log |}.

(** One page of a batch: the [try] block, then the [catch] block, whose log
    line reads [page.id]. *)
Definition processPage (page : jsval) : M Pass unit :=
  tryM (_ ← lift (persistPage page); modify_log count_processed)
       (fun _ => _ ← pure_call (get page "id"); modify_log count_failed).

(** [for (let i = 0; i < filteredPages.length; i += BATCH_SIZE)] *)
Fixpoint batch_loop (fuel : nat) (filteredPages : list jsval) (i : nat) : M Pass unit :=
  if Nat.ltb i (length filteredPages) then
    match fuel with
    | O => fun _ => None
    | S fuel' =>
        _ ← for_each processPage (firstn BATCH_SIZE (skipn i filteredPages));
        batch_loop fuel' filteredPages (i + BATCH_SIZE)
    end
  else mret tt.

Definition processBatches (filteredPages : list jsval) : M Pass unit :=
  batch_loop (length filteredPages) filteredPages 0.

(** [fetchAllPages] of [lib/notion], awaited. *)
Definition fetchAllPages {S} (databaseId : string) (filter : jsval) (limit : option Z)
    : M S (list jsval) := fun s =>
  match Notion.fetchAllPages query fetch_fuel databaseId filter limit with
  | Some r => Some (r, s)
  | None => None
  end.

(** [retiredClients.add(x)] *)
Definition set_add (x : jsval) (s : list jsval) : list jsval :=
  if existsb (same_value x) s then s else s ++ [x].

(** [extractProperty(page, '%7Ch%5Cw', 'select', 'Type') ||
     extractProperty(page, 'Type', 'select')] *)
Definition client_type (clientPage : jsval) : outcome Notion.extracted :=
  byId ← Notion.extractProperty clientPage "%7Ch%5Cw" "select" (Some "Type");
  if Notion.extracted_truthy byId then mret byId
  else Notion.extractProperty clientPage "Type" "select" None.

(** The name read for the log line of a retired client. *)
Definition client_label (clientPage : jsval) : outcome unit :=
  byId ← Notion.extractProperty clientPage "title" "title" (Some "Name");
  if Notion.extracted_truthy byId then mret tt
  else _ ← Notion.extractProperty clientPage "Name" "title" None; mret tt.

(** The loop over the client pages; an error leaves the loop with the ids
    gathered so far. *)
Fixpoint scan_clients (clientPages : list jsval) (retiredClients : list jsval) : list jsval :=
  match clientPages with
  | [] => retiredClients
  | clientPage :: rest =>
      match client_type clientPage with
      | Threw _ => retiredClients
      | Returned clientType =>
          match clientType with
          | Notion.Plain (JStr "Retired") =>
              let retiredClients' := set_add (field clientPage "id") retiredClients in
              match client_label clientPage with
              | Threw _ => retiredClients'
              | Returned _ => scan_clients rest retiredClients'
              end
          | _ => scan_clients rest retiredClients
          end
      end
  end.

(** The retired clients, from the store when it has any, else from Notion;
    never throws. *)
Definition getRetiredClientsMap : M World (list jsval) :=
  tryM (_ ← getDb;
        retiredClientsFromDb ← db_call ClientsFind
                                 (fun d => (List.filter is_retired (clients d), d));
        match retiredClientsFromDb with
        | _ :: _ =>
            mret (fold_left (fun s client => set_add (JStr (client_notion_id client)) s)
                    retiredClientsFromDb [])
        | [] =>
            clientPages ← fetchAllPages CLIENTS_DB_ID JUndefined None;
            mret (scan_clients clientPages [])
        end)
       (fun _ => mret []).

(** [findClientProperty(page, extractProperty)]: the client relation, [None]
    for [null]. *)
Definition findClientProperty (page : jsval) : outcome (option (list jsval)) :=
  client ← Notion.extractProperty page CLIENT_id "relation" (Some CLIENT_name);
  mret (match client with
        | Notion.Plain (JArr (cid :: cids)) => Some (cid :: cids)
        | _ => None
        end).

(** The callback of [filteredPages.filter]: keep the page unless one of its
    clients is retired. *)
Definition keeps_page (retiredClients : list jsval) (page : jsval) : outcome bool :=
  client ← findClientProperty page;
  mret (match client with
        | Some cids => negb (existsb (fun cid => existsb (same_value cid) retiredClients) cids)
        | None => true
        end).

Fixpoint filter_pages (retiredClients : list jsval) (pages : list jsval)
    : outcome (list jsval) :=
  match pages with
  | [] => mret []
  | page :: rest =>
      keep ← keeps_page retiredClients page;
      kept ← filter_pages retiredClients rest;
      mret (if (keep : bool) then page :: kept else kept)
  end.

Definition with_retired_count (n : nat) (log : SyncLog) : SyncLog :=
  {| sync_type := sync_type log; log_status := log_status log;
     records_processed := records_processed log;
     records_failed := records_failed log; error_count := error_count log;
     started_at := started_at log; completed_at := completed_at log;
     error_message := error_message log; metadata_client_id := metadata_client_id log;
     metadata_retired_clients_count := Some n |}.

(** The pass up to [filteredPages]: the Notion filter of a client scope, or
    the retired clients and the filter over the fetched pages. *)
Definition fetchPhase (clientId : option string) (limit : option Z) : M Pass (list jsval) :=
  match given clientId with
  | Some scope =>
      fetchAllPages PROJECTS_DB_ID
        (JObj [("property", JStr CLIENT_id); ("relation", JObj [("contains", JStr scope)])])
        limit
  | None =>
      retiredClients ← lift getRetiredClientsMap;
      _ ← match retiredClients with
          | _ :: _ => modify_log (with_retired_count (length retiredClients))
          | [] => mret tt
          end;
      pages ← fetchAllPages PROJECTS_DB_ID JUndefined limit;
      match retiredClients with
      | _ :: _ => pure_call (filter_pages retiredClients pages)
      | [] => mret pages
      end
  end.

(** [syncLog.status = syncLog.records_failed > 0 ? 'partial' : 'success'] *)
Definition finished (completed : Z) (log : SyncLog) : SyncLog :=
  {| sync_type := sync_type log;
     log_status := if Nat.ltb 0 (records_failed log) then partial else success;
     records_processed := records_processed log;
     records_failed := records_failed log; error_count := error_count log;
     started_at := started_at log; completed_at := Some completed;
     error_message := error_message log; metadata_client_id := metadata_client_id log;
     metadata_retired_clients_count := metadata_retired_clients_count log |}.

Definition failed_with (message : string) (completed : Z) (log : SyncLog) : SyncLog :=
  {| sync_type := sync_type log; log_status := failed;
     records_processed := records_processed log;
     records_failed := records_failed log; error_count := error_count log;
     started_at := started_at log; completed_at := Some completed;
     error_message := Some message; metadata_client_id := metadata_client_id log;
     metadata_retired_clients_count := metadata_retired_clients_count log |}.

Definition write_sync_log : M Pass unit :=
  log ← get_log;
  lift (db_call SyncLogsInsertOne (fun d => (tt, insert_sync_log log d))).

(** The end of the [try] block: set the status, save the log, return it. *)
Definition finalize : M Pass SyncLog :=
  completed ← lift now;
  _ ← modify_log (finished completed);
  _ ← write_sync_log;
  get_log.

(** The [catch] block of the pass: mark the log failed, save it, rethrow. *)
Definition failure_handler (message : string) : M Pass SyncLog :=
  completed ← lift now;
  _ ← modify_log (failed_with message completed);
  _ ← write_sync_log;
  throw message.

Definition pass_body (clientId : option string) (limit : option Z) : M Pass SyncLog :=
  filteredPages ← fetchPhase clientId limit;
  _ ← processBatches filteredPages;
  finalize.

Definition initial_log (started : Z) (clientId : option string) : SyncLog :=
  {| sync_type := "incremental"; log_status := success;
     records_processed := 0; records_failed := 0; error_count := 0;
     started_at := started; completed_at := None; error_message := None;
     metadata_client_id := given clientId; metadata_retired_clients_count := None |}.

(** The [try] and [catch] blocks in a pass state of their own: the world
    after [getDb] and the fresh [syncLog]. *)
Definition run_pass (clientId : option string) (limit : option Z) : M World SyncLog := fun w =>
  match tryM (pass_body clientId limit) failure_handler
          {| world := w; syncLog := initial_log (clock (tick w)) clientId |} with
  | Some (r, p) => Some (r, world p)
  | None => None
  end.

Definition syncProjects (clientId : option string) (limit : option Z) : M World SyncLog :=
  _ ← getDb;
  run_pass clientId limit.

End Sync.

End Extractor.

(** ** [lib/services/extractor]: property names and client pages *)

Module ClientSync.

(** [/[a-z0-9]/], on ASCII *)
Definition is_word (c : ascii) : bool :=
  let n := nat_of_ascii c in
  (Nat.leb 97 n && Nat.leb n 122) || (Nat.leb 48 n && Nat.leb n 57).

Definition underscore : ascii := "_"%char.

Definition is_underscore (c : ascii) : bool := Ascii.eqb c underscore.

(** [s.replace(/[^a-z0-9]+/g, '_')]: every maximal run of other characters
    becomes one underscore. [in_run] says that the character before was
    part of such a run, whose underscore is already written. *)
Fixpoint replace_other_runs (in_run : bool) (s : string) : string :=
  match s with
  | EmptyString => EmptyString
  | String c rest =>
      if is_word c then String c (replace_other_runs false rest)
      else if in_run then replace_other_runs true rest
      else String underscore (replace_other_runs true rest)
  end.

(** The [^_+] half of [s.replace(/^_+|_+$/g, '')] *)
Fixpoint drop_leading_underscores (s : string) : string :=
  match s with
  | EmptyString => EmptyString
  | String c rest => if is_underscore c then drop_leading_underscores rest else s
  end.

(** The [_+$] half *)
Fixpoint drop_trailing_underscores (s : string) : string :=
  match s with
  | EmptyString => EmptyString
  | String c rest =>
      match drop_trailing_underscores rest with
      | EmptyString => if is_underscore c then EmptyString else String c EmptyString
      | kept => String c kept
      end
  end.

(** [s.replace(/_+/g, '_')] *)
Fixpoint collapse_underscores (in_run : bool) (s : string) : string :=
  match s with
  | EmptyString => EmptyString
  | String c rest =>
      if is_underscore c then
        if in_run then collapse_underscores true rest
        else String c (collapse_underscores true rest)
      else String c (collapse_underscores false rest)
  end.

(** [normalizePropertyName]: lower case, trimmed, runs of other characters
    as one underscore, no underscore at either end, no two in a row. *)
Definition normalizePropertyName (name : string) : string :=
  collapse_underscores false
    (drop_trailing_underscores
       (drop_leading_underscores
          (replace_other_runs false (trim (toLowerCase name))))).

(** What [transformClientPage] returns. A date is the [Date] object the
    extraction built, or one built from the clock. *)
Record Client : Type := {
  notion_id : jsval;
  name : Notion.extracted;
  is_retired : bool;
  created_at : Notion.extracted;
  updated_at : Notion.extracted;
  last_synced_at : Z;
  metadata : gmap string Notion.extracted;
}.

(** [a || b] on the results of two extractions, the second made only when
    the first is falsy. *)
Definition first_truthy (a b : outcome Notion.extracted) : outcome Notion.extracted :=
  x ← a; if Notion.extracted_truthy x then mret x else b.

(** [Object.entries(v)] for a truthy [v]. *)
Definition entries (v : jsval) : list (string * jsval) :=
  match v with
  | JObj fields => fields
  | JArr items => imap (fun i item => (string_of_Z (Z.of_nat i), item)) items
  | JStr s =>
      imap (fun i c => (string_of_Z (Z.of_nat i), JStr (String c EmptyString)))
        (list_ascii_of_string s)
  | _ => []
  end.

(** [clientType === 'Retired' || clientType?.toLowerCase().includes('retired')
     || false] *)
Definition isRetired (clientType : Notion.extracted) : outcome bool :=
  match clientType with
  | Notion.Plain (JStr s) =>
      mret (String.eqb s "Retired" || includes "retired" (toLowerCase s))
  | Notion.Plain JUndefined | Notion.Plain JNull => mret false
  | _ => Threw "clientType?.toLowerCase is not a function"
  end.

Definition excludedTypes : list string :=
  ["button"; "unique_id"; "created_by"; "last_edited_by"].

(** [metadata[key] !== undefined] on the object literal [metadata]: an own
    field, or the [constructor] it inherits; no other inherited name is a
    normalized name. *)
Definition is_defined (metadata : gmap string Notion.extracted) (key : string) : bool :=
  bool_decide (is_Some (metadata !! key)) || String.eqb key "constructor".

(** [extractedValue !== null && extractedValue !== undefined] *)
Definition is_value (x : Notion.extracted) : bool :=
  match x with
  | Notion.Plain v => negb (nullish v)
  | Notion.DateObject _ => true
  end.

(** One turn of the loop over [Object.entries(page.properties)]. The
    [TypeError] of a name that is not a string leaves the function. In
    [extractProperty(page, propKey, property.type, propName)] the lookup
    [page.properties[propKey]] finds [property] itself, which is truthy here,
    so the call is the [switch] on [property]. *)
Definition collect_property
    (metadata : gmap string Notion.extracted) (entry : string * jsval)
    : outcome (gmap string Notion.extracted) :=
  let '(propKey, property) := entry in
  if negb (truthy property) || negb (truthy (field property "type")) then mret metadata
  else if existsb (is_str (field property "type")) excludedTypes then mret metadata
  else
    match or_else (field property "name") (JStr propKey) with
    | JStr propName =>
        let cleanFieldName := normalizePropertyName propName in
        if is_defined metadata cleanFieldName then mret metadata
        else
          let extraction :=
            match field property "type" with
            | JStr propertyType => Notion.extract_found property propertyType
            | _ => Returned (Notion.Plain JNull)
            end in
          match extraction with
          | Returned extractedValue =>
              if is_value extractedValue
              then mret (<[cleanFieldName := extractedValue]> metadata)
              else mret metadata
          | Threw _ => mret metadata
          end
    | _ => Threw "name.toLowerCase is not a function"
    end.

Fixpoint collect_properties (properties : list (string * jsval))
    (metadata : gmap string Notion.extracted) : outcome (gmap string Notion.extracted) :=
  match properties with
  | [] => mret metadata
  | entry :: rest =>
      metadata' ← collect_property metadata entry;
      collect_properties rest metadata'
  end.

Section TransformClientPage.

(** [new Date()], by the number of times the call has read the clock. *)
Variable clock : nat -> Z.

(** [extracted || new Date()], and the number of clock reads after it. *)
Definition or_now (x : Notion.extracted) (reads : nat) : Notion.extracted * nat :=
  if Notion.extracted_truthy x then (x, reads)
  else (Notion.DateObject (JNum (clock reads)), S reads).

Definition transformClientPage (page : jsval) : outcome Client :=
  notionId ← get page "id";
  name ← first_truthy (Notion.extractProperty page "title" "title" (Some "Name"))
           (first_truthy (Notion.extractProperty page "Name" "title" None)
              (mret (Notion.Plain (JStr "Unknown Client"))));
  clientType ← Extractor.client_type page;
  isRetired ← isRetired clientType;
  createdTime ← first_truthy (Notion.extractProperty page "FZsJ" "created_time" (Some "Created"))
                  (first_truthy (Notion.extractProperty page "Created" "created_time" None)
                     (Notion.extractProperty page "Created time" "created_time" None));
  let '(createdTime, reads) := or_now createdTime 0 in
  lastEditedTime ← first_truthy (Notion.extractProperty page "Last Updated" "last_edited_time" None)
                     (Notion.extractProperty page "quje" "last_edited_time"
                        (Some "Last Updated"));
  let '(lastEditedTime, reads) := or_now lastEditedTime reads in
  metadata ← (if truthy (field page "properties")
              then collect_properties (entries (field page "properties")) ∅
              else mret ∅);
  let metadata := if Notion.extracted_truthy clientType
                  then <["type" := clientType]> metadata else metadata in
  mret {| notion_id := notionId; name := name; is_retired := isRetired;
          created_at := fst (or_now createdTime reads);
          updated_at := fst (or_now lastEditedTime (snd (or_now createdTime reads)));
          last_synced_at :=
            clock (snd (or_now lastEditedTime (snd (or_now createdTime reads))));
          metadata := metadata |}.

End TransformClientPage.

End ClientSync.

(** ** [lib/services/timedoctor]: project matching and the worklog check *)

Module TimeDoctorProjects.

Record TimeDoctorApiProject : Type := {
  id : string;
  name : string;
}.

(** The fields of a stored card that the matching reads:
    [card.metadata?.time_doctor?.task_id] and [client_project_id] are [None]
    when anything on the way to them is missing. *)
Record Card : Type := {
  notion_id : string;
  client_id : option string;
  task_id : option string;
  client_project_id : option string;
}.

Record ProjectMatch : Type := {
  cardId : string;
  clientId : option string;
}.

(** The callback of [tdProjects.forEach]: a later project replaces an
    earlier one of the same id. *)
Definition index_project (tdProjectMap : gmap string TimeDoctorApiProject)
    (tdProject : TimeDoctorApiProject) : gmap string TimeDoctorApiProject :=
  <[id tdProject := tdProject]> tdProjectMap.

(** [tdId && tdProjectMap.has(tdId)], with the project
    [tdProjectMap.get(tdId)!] when it holds. *)
Definition known_project (tdProjectMap : gmap string TimeDoctorApiProject)
    (tdId : option string) : option TimeDoctorApiProject :=
  key ← given tdId; tdProjectMap !! key.

(** The match a card gives. *)
Definition match_of (card : Card) : ProjectMatch :=
  {| cardId := notion_id card; clientId := client_id card |}.

(** The task-level branch: the first card to name the project stays. *)
Definition match_task (tdProjectMap : gmap string TimeDoctorApiProject)
    (matchMap : gmap string ProjectMatch) (card : Card) : gmap string ProjectMatch :=
  match known_project tdProjectMap (task_id card) with
  | Some tdProject =>
      match matchMap !! id tdProject with
      | Some _ => matchMap
      | None => <[id tdProject := match_of card]> matchMap
      end
  | None => matchMap
  end.

(** The client-level branch: a match is replaced unless it carries a client
    id. *)
Definition match_client_project (tdProjectMap : gmap string TimeDoctorApiProject)
    (matchMap : gmap string ProjectMatch) (card : Card) : gmap string ProjectMatch :=
  match known_project tdProjectMap (client_project_id card) with
  | Some tdProject =>
      match matchMap !! id tdProject with
      | Some existingMatch =>
          match given (clientId existingMatch) with
          | Some _ => matchMap
          | None => <[id tdProject := match_of card]> matchMap
          end
      | None => <[id tdProject := match_of card]> matchMap
      end
  | None => matchMap
  end.

(** The callback of [cards.forEach]. *)
Definition match_card (tdProjectMap : gmap string TimeDoctorApiProject)
    (matchMap : gmap string ProjectMatch) (card : Card) : gmap string ProjectMatch :=
  match given (task_id card), given (client_project_id card) with
  | None, None => matchMap
  | _, _ =>
      match_client_project tdProjectMap (match_task tdProjectMap matchMap card) card
  end.

Definition matchTimeDoctorProjects (tdProjects : list TimeDoctorApiProject)
    (cards : list Card) : gmap string ProjectMatch :=
  let tdProjectMap := fold_left index_project tdProjects ∅ in
  fold_left (match_card tdProjectMap) cards ∅.

(** The check in the loop of [syncTimeDoctorWorklogs] over the fetched
    worklogs:
    [!worklog.userId || !worklog.projectId || !worklog.time || worklog.time <= 0],
    on which the loop [continue]s. A [time] of [None] is [NaN]. *)
Definition skipped (worklog : TimeDoctor.TimeDoctorApiWorklog) : bool :=
  negb (bool_decide (is_Some (given (TimeDoctor.userId worklog))))
  || negb (bool_decide (is_Some (given (TimeDoctor.projectId worklog))))
  || match TimeDoctor.time worklog with
     | Some t => (t =? 0) || (t <=? 0)
     | None => true
     end.

End TimeDoctorProjects.

(** ** [app/api/sync/daily/route.ts] and [app/api/sync/route.ts]

    The handlers run the syncs one after the other. The syncs, the driver
    call that stores the log of the daily job and the clock are parameters;
    [Store] is whatever they read and write. *)

Module Routes.

(** [process.env] *)
Record Env : Type := {
  SYNC_SECRET : option string;
  TIMEDOCTOR_API_TOKEN : option string;
  TIMEDOCTOR_COMPANY_ID : option string;
}.

Record Counts : Type := {
  processed : nat;
  matched : nat;
}.

(** The result of [syncTimeDoctor]. *)
Record TimeDoctorResult : Type := {
  users : Counts;
  projects : Counts;
  worklogs : Counts;
}.

(** An entry of [syncResults.syncs]: [success: true] with the figures of the
    sync, or [success: false] with the message of its error. *)
Inductive SyncEntry : Type :=
| LogEntry (records_processed records_failed : nat) (status : Extractor.SyncStatus)
| TimeDoctorEntry (users projects worklogs : Counts)
| ErrorEntry (error : string).

(** An item of [syncResults.errors]. *)
Record SyncError : Type := {
  sync : string;
  error : string;
}.

(** [syncResults]. [duration_seconds] is held in milliseconds; the handler
    reports it in seconds with two decimals. *)
Record SyncResults : Type := {
  success : bool;
  started_at : Z;
  team_members : option SyncEntry;
  qi_time_tracker : option SyncEntry;
  time_doctor : option SyncEntry;
  errors : list SyncError;
  completed_at : option Z;
  duration_seconds : option Z;
  status : option string;
  fatal_error : option string;
}.

(** The document the daily job stores in [sync_logs]. *)
Record DailyLog : Type := {
  log_status : string;
  log_started_at : Z;
  log_completed_at : option Z;
  log_duration_seconds : option Z;
  log_metadata : option (option SyncEntry * option SyncEntry * option SyncEntry);
  log_error_message : option string;
  log_errors : list SyncError;
}.

Inductive DailyBody : Type :=
| Unauthorized
| Results (syncResults : SyncResults).

Record DailyResponse : Type := {
  daily_status : Z;
  daily_body : DailyBody;
}.

(** The summary of a sync log in the answer of the sync route. *)
Record Summary : Type := {
  summary_processed : nat;
  summary_failed : nat;
  summary_status : Extractor.SyncStatus;
}.

Inductive SyncBody : Type :=
| Completed (projects team_members qi_time_tracker clients : option Summary)
| Failed (error : string).

Record SyncResponse : Type := {
  sync_status : Z;
  sync_body : SyncBody;
}.

Definition summary (log : option Extractor.SyncLog) : option Summary :=
  match log with
  | Some l =>
      Some {| summary_processed := Extractor.records_processed l;
              summary_failed := Extractor.records_failed l;
              summary_status := Extractor.log_status l |}
  | None => None
  end.

Definition log_entry (log : Extractor.SyncLog) : SyncEntry :=
  LogEntry (Extractor.records_processed log) (Extractor.records_failed log)
    (Extractor.log_status log).

Definition time_doctor_entry (result : TimeDoctorResult) : SyncEntry :=
  TimeDoctorEntry (users result) (projects result) (worklogs result).

(** [syncResults] as [handleDailySync] creates it. *)
Definition initial_results (started : Z) : SyncResults :=
  {| success := true; started_at := started;
     team_members := None; qi_time_tracker := None; time_doctor := None;
     errors := []; completed_at := None; duration_seconds := None;
     status := None; fatal_error := None |}.

(** [syncResults.syncs.team_members = entry] *)
Definition set_team_members (entry : SyncEntry) (r : SyncResults) : SyncResults :=
  {| success := success r; started_at := started_at r;
     team_members := Some entry; qi_time_tracker := qi_time_tracker r;
     time_doctor := time_doctor r;
     errors := errors r; completed_at := completed_at r;
     duration_seconds := duration_seconds r; status := status r;
     fatal_error := fatal_error r |}.

(** [syncResults.syncs.qi_time_tracker = entry] *)
Definition set_qi_time_tracker (entry : SyncEntry) (r : SyncResults) : SyncResults :=
  {| success := success r; started_at := started_at r;
     team_members := team_members r; qi_time_tracker := Some entry;
     time_doctor := time_doctor r;
     errors := errors r; completed_at := completed_at r;
     duration_seconds := duration_seconds r; status := status r;
     fatal_error := fatal_error r |}.

(** [syncResults.syncs.time_doctor = entry] *)
Definition set_time_doctor (entry : SyncEntry) (r : SyncResults) : SyncResults :=
  {| success := success r; started_at := started_at r;
     team_members := team_members r; qi_time_tracker := qi_time_tracker r;
     time_doctor := Some entry;
     errors := errors r; completed_at := completed_at r;
     duration_seconds := duration_seconds r; status := status r;
     fatal_error := fatal_error r |}.

(** [syncResults.errors.push({ sync: name, error: message })] *)
Definition push_error (name message : string) (r : SyncResults) : SyncResults :=
  {| success := success r; started_at := started_at r;
     team_members := team_members r; qi_time_tracker := qi_time_tracker r;
     time_doctor := time_doctor r;
     errors := errors r ++ [{| sync := name; error := message |}];
     completed_at := completed_at r;
     duration_seconds := duration_seconds r; status := status r;
     fatal_error := fatal_error r |}.

(** [completed_at] and [duration_seconds] are set. *)
Definition set_completed (completed duration : Z) (r : SyncResults) : SyncResults :=
  {| success := success r; started_at := started_at r;
     team_members := team_members r; qi_time_tracker := qi_time_tracker r;
     time_doctor := time_doctor r;
     errors := errors r; completed_at := Some completed;
     duration_seconds := Some duration; status := status r;
     fatal_error := fatal_error r |}.

(** [if (syncResults.errors.length > 0) { success = false; status = 'partial' }
     else { status = 'success' }] *)
Definition mark_status (r : SyncResults) : SyncResults :=
  {| success := if Nat.ltb 0 (length (errors r)) then false else success r;
     started_at := started_at r;
     team_members := team_members r; qi_time_tracker := qi_time_tracker r;
     time_doctor := time_doctor r;
     errors := errors r; completed_at := completed_at r;
     duration_seconds := duration_seconds r;
     status := Some (if Nat.ltb 0 (length (errors r)) then "partial" else "success");
     fatal_error := fatal_error r |}.

(** The first three statements of the outer [catch] block. *)
Definition mark_failed (message : string) (r : SyncResults) : SyncResults :=
  {| success := false; started_at := started_at r;
     team_members := team_members r; qi_time_tracker := qi_time_tracker r;
     time_doctor := time_doctor r;
     errors := errors r; completed_at := completed_at r;
     duration_seconds := duration_seconds r; status := Some "failed";
     fatal_error := Some message |}.

(** The document stored at the end of the job. *)
Definition daily_log (r : SyncResults) : DailyLog :=
  {| log_status := default "" (status r);
     log_started_at := started_at r;
     log_completed_at := completed_at r;
     log_duration_seconds := duration_seconds r;
     log_metadata := Some (team_members r, qi_time_tracker r, time_doctor r);
     log_error_message := None;
     log_errors := errors r |}.

(** The document stored by the outer [catch] block. *)
Definition failed_log (message : string) (r : SyncResults) : DailyLog :=
  {| log_status := "failed";
     log_started_at := started_at r;
     log_completed_at := completed_at r;
     log_duration_seconds := duration_seconds r;
     log_metadata := None;
     log_error_message := Some message;
     log_errors := errors r |}.

Section Handlers.

#[local] Existing Instance Extractor.M_ret.
#[local] Existing Instance Extractor.M_bind.

Variable Store : Type.

(** [Date.now()] and [new Date()] in a state. *)
Variable now : Store -> Z.

Variable env : Env.

Variable syncClients : Extractor.M Store Extractor.SyncLog.
Variable syncProjects : jsval -> jsval -> Extractor.M Store Extractor.SyncLog.
Variable syncTeamMembers : Extractor.M Store Extractor.SyncLog.
Variable syncQITimeTrackerEntries : Extractor.M Store Extractor.SyncLog.
Variable calculateMetrics : string -> Extractor.M Store unit.
Variable syncTimeDoctor :
  TimeDoctor.TimeDoctorConfig -> Date -> Date -> Extractor.M Store TimeDoctorResult.

(** [getDb()] followed by [sync_logs.insertOne(log)]. *)
Variable insert_sync_log : DailyLog -> Extractor.M Store unit.

(** The state of the daily job: the store and the [syncResults] object,
    which the [try] blocks and the [catch] blocks share. *)
Record Job : Type := {
  store : Store;
  syncResults : SyncResults;
}.

(** A call on the store, made inside the job. *)
Definition call {A} (m : Extractor.M Store A) : Extractor.M Job A := fun j =>
  match m (store j) with
  | Some (r, s) => Some (r, {| store := s; syncResults := syncResults j |})
  | None => None
  end.

Definition read_results : Extractor.M Job SyncResults := fun j =>
  Some (Returned (syncResults j), j).

Definition update (f : SyncResults -> SyncResults) : Extractor.M Job unit := fun j =>
  Some (Returned tt, {| store := store j; syncResults := f (syncResults j) |}).

Definition read_clock : Extractor.M Job Z := fun j => Some (Returned (now (store j)), j).

(** One of the three [try] blocks of the daily job. *)
Definition attempt {A} (name : string) (set : SyncEntry -> SyncResults -> SyncResults)
    (sync_call : Extractor.M Store A) (entry : A -> SyncEntry) : Extractor.M Job unit :=
  Extractor.tryM
    (result ← call sync_call; update (set (entry result)))
    (fun message =>
       _ ← update (set (ErrorEntry message));
       update (push_error name message)).

(** The body of the third block: the environment is checked, the window is
    the last 30 days. *)
Definition time_doctor_call : Extractor.M Store TimeDoctorResult := fun s =>
  match given (TIMEDOCTOR_API_TOKEN env), given (TIMEDOCTOR_COMPANY_ID env) with
  | Some apiToken, Some companyId =>
      let endDate := now s in
      let startDate := now s in
      syncTimeDoctor {| TimeDoctor.apiToken := apiToken; TimeDoctor.companyId := companyId |}
        (TimeValue (TimeDoctor.addDays startDate (-30))) (TimeValue endDate) s
  | _, _ =>
      Extractor.throw
        "Missing TIMEDOCTOR_API_TOKEN or TIMEDOCTOR_COMPANY_ID environment variables" s
  end.

(** [syncSecret && authHeader !== `Bearer ${syncSecret}`] *)
Definition refused (authHeader : option string) : bool :=
  match given (SYNC_SECRET env) with
  | Some syncSecret =>
      negb (bool_decide (authHeader = Some ("Bearer " +:+ syncSecret)))
  | None => false
  end.

(** The [try] block and the [catch] block of [handleDailySync]. *)
Definition daily_job (authHeader : option string) (startTime : Z)
    : Extractor.M Job DailyResponse :=
  Extractor.tryM
    (if refused authHeader then
       mret {| daily_status := 401; daily_body := Unauthorized |}
     else
       _ ← attempt "team_members" set_team_members syncTeamMembers log_entry;
       _ ← attempt "qi_time_tracker" set_qi_time_tracker syncQITimeTrackerEntries log_entry;
       _ ← attempt "time_doctor" set_time_doctor time_doctor_call time_doctor_entry;
       finished ← read_clock;
       completed ← read_clock;
       _ ← update (set_completed completed (finished - startTime));
       _ ← update mark_status;
       results ← read_results;
       _ ← Extractor.tryM (call (insert_sync_log (daily_log results))) (fun _ => mret tt);
       results ← read_results;
       mret {| daily_status := if success results then 200 else 207;
               daily_body := Results results |})
    (fun message =>
       _ ← update (mark_failed message);
       completed ← read_clock;
       finished ← read_clock;
       _ ← update (set_completed completed (finished - startTime));
       results ← read_results;
       _ ← Extractor.tryM (call (insert_sync_log (failed_log message results)))
             (fun _ => mret tt);
       results ← read_results;
       mret {| daily_status := 500; daily_body := Results results |}).

(** [handleDailySync]; [authHeader] is
    [request.headers.get('authorization')]. *)
Definition handleDailySync (authHeader : option string) : Extractor.M Store DailyResponse :=
  fun s =>
    match daily_job authHeader (now s)
            {| store := s; syncResults := initial_results (now s) |} with
    | Some (response, j) => Some (response, store j)
    | None => None
    end.

(** [type === 'literal' || type === 'all'] *)
Definition asked (type : jsval) (literal : string) : bool :=
  is_str type literal || is_str type "all".

(** A sync of the route, run when its type is asked for; its log stays
    [null] otherwise. *)
Definition when_asked {A} (type : jsval) (literal : string) (sync_call : Extractor.M Store A)
    : Extractor.M Store (option A) :=
  if asked type literal then result ← sync_call; mret (Some result) else mret None.

(** [const { type, client_id, limit } = payload]: a [TypeError] on [null]
    and [undefined]. *)
Definition destructured (payload : jsval) : outcome jsval :=
  if nullish payload
  then Threw ("Cannot destructure property 'type' of '(intermediate value)' as it is "
              +:+ (if is_null payload then "null" else "undefined") +:+ ".")
  else Returned payload.

(** The text of the first [console.log], whose template prints [type],
    [client_id || 'none'] and [limit || 'none'], in this order; a value that
    does not print throws. The later templates print [client_id] and
    [limit] again, and numbers. *)
Definition starting_line (type client_id limit : jsval) : outcome string :=
  type_text ← printed type;
  client_text ← printed (or_else client_id (JStr "none"));
  limit_text ← printed (or_else limit (JStr "none"));
  mret ("[SYNC API] Starting sync - type: " +:+ type_text +:+ ", client_id: "
        +:+ client_text +:+ ", limit: " +:+ limit_text).

(** [POST] of the sync route; [body] is what [request.json()] resolves
    to. *)
Definition POST (body : outcome jsval) : Extractor.M Store SyncResponse :=
  Extractor.tryM
    (payload ← Extractor.pure_call (body ≫= destructured);
     let type := field payload "type" in
     let client_id := field payload "client_id" in
     let limit := field payload "limit" in
     _ ← Extractor.pure_call (starting_line type client_id limit);
     clientsLog ← when_asked type "clients" syncClients;
     projectsLog ← when_asked type "projects"
                     (log ← syncProjects client_id limit;
                      _ ← calculateMetrics "daily";
                      mret log);
     teamMembersLog ← when_asked type "team_members" syncTeamMembers;
     qiTimeTrackerLog ← when_asked type "qi_time_tracker" syncQITimeTrackerEntries;
     mret {| sync_status := 200;
             sync_body := Completed (summary projectsLog) (summary teamMembersLog)
                            (summary qiTimeTrackerLog) (summary clientsLog) |})
    (fun message => mret {| sync_status := 500; sync_body := Failed message |}).

End Handlers.

End Routes.

(** ** [lib/services/metrics-calculator]: pushback rates *)

Module Pushback.

(** A row of the aggregation over the cards of the period: the primary
    developer of a group and the two sums of its [$group] stage. *)
Record Row : Type := {
  _id : jsval;
  cardsWithPushbacks : Z;
  totalCards : Z;
}.

(** [(cardsWithPushbacks / totalCards) * 100] *)
Definition percentage (cardsWithPushbacks totalCards : Z) : Q :=
  (inject_Z cardsWithPushbacks / inject_Z totalCards) * 100.

(** The rate of a row, with [result.cardsWithPushbacks || 0] and
    [result.totalCards || 1]. *)
Definition rate (result : Row) : Q :=
  percentage (if cardsWithPushbacks result =? 0 then 0 else cardsWithPushbacks result)
    (if totalCards result =? 0 then 1 else totalCards result).

(** The callback of [pushbackAggregation.reduce]. *)
Definition add_row (acc : Z * Z) (r : Row) : Z * Z :=
  (fst acc + (if cardsWithPushbacks r =? 0 then 0 else cardsWithPushbacks r),
   snd acc + (if totalCards r =? 0 then 0 else totalCards r)).

Section Writes.

(** What the driver answers to call number [n] of [metrics_cache.updateOne]:
    [None] when the metric is written, else the message of the error. *)
Variable rejected : nat -> option string.

Variable metricType : string.

(** The metric of a row. [developerId.toString()] is called for the metric
    and again, with the same result, for the filter of [updateOne]; it
    throws on an id that is an object with a [toString] property of its
    own. *)
Definition developer_metric (result : Row) : outcome Metrics.MetricsCache :=
  developerId ← call_toString "developerId" (_id result);
  mret {| Metrics.metric_type := metricType;
          Metrics.team_member_id := Some developerId;
          Metrics.value := rate result |}.

(** The loop over the rows, from the calls of [updateOne] made so far: a row
    without a developer id is passed over, and the function ends at the
    first id that does not print and at the first write that is
    rejected. *)
Fixpoint store_rows (rows : list Row) (calls : list Metrics.MetricsCache)
    : outcome unit * list Metrics.MetricsCache :=
  match rows with
  | [] => (Returned tt, calls)
  | result :: rest =>
      if negb (truthy (_id result)) then store_rows rest calls
      else
        match developer_metric result with
        | Threw message => (Threw message, calls)
        | Returned metric =>
            match rejected (length calls) with
            | Some message => (Threw message, calls ++ [metric])
            | None => store_rows rest (calls ++ [metric])
            end
        end
  end.

(** The overall metric, over every row. *)
Definition overall_metric (pushbackAggregation : list Row) : Metrics.MetricsCache :=
  let overallResult := fold_left add_row pushbackAggregation (0, 0) in
  {| Metrics.metric_type := metricType;
     Metrics.team_member_id := None;
     Metrics.value :=
       if 0 <? snd overallResult
       then percentage (fst overallResult) (snd overallResult)
       else 0%Q |}.

(** [calculatePushbackMetrics] for the rows the aggregation returned: the
    outcome and the calls of [updateOne] made. *)
Definition calculatePushbackMetrics (pushbackAggregation : list Row)
    : outcome unit * list Metrics.MetricsCache :=
  match store_rows pushbackAggregation [] with
  | (Returned _, calls) =>
      Metrics.write_all rejected [overall_metric pushbackAggregation] calls
  | (Threw message, calls) => (Threw message, calls)
  end.

End Writes.

End Pushback.

(** ** [app/api/webhooks/notion/route.ts]: the webhook handler *)

Module Webhook.

Import Extractor.

(** The answers of the handler, by their message; [status_code] gives the
    status line. [Updated] carries [upserted]; the [modified] flag beside it
    depends on fields of the stored document that [Card] does not hold. *)
Inductive Answer : Type :=
| InvalidJson
| NoPageId
| Archived (page_id : jsval)
| NotDatabasePage (page_id : jsval)
| NotFromProjects (page_id : jsval)
| Updated (page_id : jsval) (upserted : bool)
| NotFound (page_id : jsval)
| PageError (error : string) (page_id : jsval)
| NotProcessed (event_type : jsval)
| Fatal (error : string).

Definition status_code (answer : Answer) : Z :=
  match answer with
  | InvalidJson | NoPageId => 400
  | PageError _ _ | Fatal _ => 500
  | _ => 200
  end.

Definition ARCHIVE : string := "♻️ Archive".

(** ['key' in v] for the keys the handler asks for, none of which is an
    index or an inherited property. *)
Definition has_property (key : string) (v : jsval) : outcome bool :=
  match v with
  | JObj fields => Returned (existsb (fun kv => String.eqb (fst kv) key) fields)
  | JArr _ => Returned (String.eqb key "length")
  | _ =>
      Threw ("Cannot use 'in' operator to search for '" +:+ key +:+ "' in "
             +:+ toString v)
  end.

Fixpoint remove_hyphens (s : string) : string :=
  match s with
  | EmptyString => EmptyString
  | String c rest =>
      if Ascii.eqb c "-"%char then remove_hyphens rest else String c (remove_hyphens rest)
  end.

(** [id.replace(/-/g, '').toLowerCase()] *)
Definition normalizeId (id : jsval) : outcome string :=
  match id with
  | JStr s => Returned (toLowerCase (remove_hyphens s))
  | _ => Threw "id.replace is not a function"
  end.

(** Whether the filter [{ notion_id: pageId }] selects a stored card. A
    string selects the cards of that id. The handler does not check the id
    it reads from the body, and any other value goes to MongoDB as it is,
    which reads an object as a query: [{ $ne: null }] selects every card.
    [selects] is the answer of MongoDB for a value that is no string. *)
Definition selected (selects : jsval -> CardDoc -> bool) (pageId : jsval) (doc : CardDoc)
    : bool :=
  match pageId with
  | JStr notionId => String.eqb (notion_id (doc_card doc)) notionId
  | _ => selects pageId doc
  end.

(** [cards.findOne({ notion_id: pageId })] *)
Definition find_page (selects : jsval -> CardDoc -> bool) (pageId : jsval) (d : Db)
    : option CardDoc :=
  match pageId with
  | JStr notionId => find_card notionId d
  | _ => List.find (selects pageId) (cards d)
  end.

Definition archived_card (at_time : Z) (card : Card) : Card :=
  {| notion_id := notion_id card; title := title card; status := Some ARCHIVE;
     client_id := client_id card; updated_at := at_time; _id := _id card |}.

(** The first card that a filter selects is archived. *)
Fixpoint archive_docs (select : CardDoc -> bool) (at_time : Z) (docs : list CardDoc)
    : list CardDoc :=
  match docs with
  | [] => []
  | doc :: rest =>
      if select doc
      then {| doc_id := doc_id doc; doc_card := archived_card at_time (doc_card doc) |} :: rest
      else doc :: archive_docs select at_time rest
  end.

(** [cards.updateOne({ notion_id: pageId }, { $set: { status, updated_at,
    last_synced_at } })], without [upsert]. *)
Definition archive_page (selects : jsval -> CardDoc -> bool) (pageId : jsval) (at_time : Z)
    (d : Db) : Db :=
  {| cards := archive_docs (selected selects pageId) at_time (cards d);
     card_status_history := card_status_history d;
     sync_logs := sync_logs d; clients := clients d; next_oid := next_oid d |}.

(** The page, its id and the event type, read from the payload: the custom
    format with [pageData], else the standard format. The page is [null] in
    the standard format. *)
Definition read_payload (payload : jsval) : jsval * jsval * jsval :=
  let pageData := field payload "pageData" in
  if truthy pageData then
    (pageData, field pageData "id",
     if truthy (or_else (field pageData "archived") (field pageData "in_trash"))
     then JStr "page.removed_from_database"
     else JStr "page.content_updated")
  else
    (JNull,
     or_else (field (field payload "data") "id")
       (or_else (field payload "object_id")
          (or_else (field payload "page_id") (field payload "id"))),
     or_else (field payload "type") (field payload "event_type")).

(** [eventType === 'page.removed_from_database' || eventType === 'page.deleted'
     || (page && (page.archived || page.in_trash))] *)
Definition is_removal (page eventType : jsval) : bool :=
  is_str eventType "page.removed_from_database" || is_str eventType "page.deleted"
  || (truthy page && truthy (or_else (field page "archived") (field page "in_trash"))).

(** [eventType === 'page.content_updated' || eventType === 'page.added_to_database'
     || eventType === 'page.updated' || page] *)
Definition is_update (page eventType : jsval) : bool :=
  is_str eventType "page.content_updated" || is_str eventType "page.added_to_database"
  || is_str eventType "page.updated" || truthy page.

(** The database id of [page.parent], [null] when the parent names none. *)
Definition parent_database (parent : jsval) : outcome jsval :=
  typed ← has_property "type" parent;
  if (typed : bool) then
    if is_str (field parent "type") "database_id" then
      named ← has_property "database_id" parent;
      mret (if (named : bool) then field parent "database_id" else JNull)
    else if is_str (field parent "type") "data_source_id" then
      named ← has_property "database_id" parent;
      mret (if (named : bool) then field parent "database_id" else JNull)
    else mret JNull
  else mret JNull.

(** Whether the page is known to be of another database than the projects
    one. *)
Definition of_other_database (projectsDbId : option string) (page : jsval) : outcome bool :=
  match given projectsDbId with
  | Some projectsId =>
      if truthy (field page "parent") then
        parentDbId ← parent_database (field page "parent");
        if truthy parentDbId then
          normalizedParentId ← normalizeId parentDbId;
          normalizedProjectsId ← normalizeId (JStr projectsId);
          mret (negb (String.eqb normalizedParentId normalizedProjectsId))
        else mret false
      else mret false
  | None => mret false
  end.

(** [page.object !== 'page' || !('properties' in page)] *)
Definition is_partial (page : jsval) : outcome bool :=
  object ← get page "object";
  if negb (is_str object "page") then mret true
  else negb <$> has_property "properties" page.

Section Handler.

Variable faulty : nat -> DbOp -> bool.
Variable clock : nat -> Z.
Variable sort_ties : CardStatusHistory -> CardStatusHistory -> bool.
(** The answer of MongoDB to a filter value that is no string. *)
Variable selects : jsval -> CardDoc -> bool.
Variable transformProjectPage : nat -> Db -> jsval -> outcome Card.

(** [notion.pages.retrieve({ page_id })] *)
Variable retrieve : jsval -> outcome jsval.
(** [process.env.NOTION_PROJECTS_DB_ID] *)
Variable projectsDbId : option string.
(** [error.code === 'object_not_found' || error.status === 404], for the
    error of a message. *)
Variable is_not_found : string -> bool.

(** The statements after the transform: look the card up by the page id,
    upsert it, and record its status when the stored status differs or the
    card is new. The result is [result.upsertedCount > 0]. *)
Definition store_card (pageId : jsval) (card : Card) : M World bool :=
  existingCard ← db_call faulty (CardsFindOne (toString pageId))
                   (fun d => (find_page selects pageId d, d));
  let previousStatus := existingCard ≫= (fun doc => given (status (doc_card doc))) in
  upserted ← db_call faulty (CardsUpdateOne (notion_id card))
               (fun d => (negb (bool_decide (is_Some (find_card (notion_id card) d))),
                          upsert_card card d));
  _ ← match previousStatus with
      | Some previous =>
          if status_differs previous (status card)
          then recordStatusHistory faulty clock sort_ties card
          else mret tt
      | None => mret tt
      end;
  _ ← (if (upserted : bool) && bool_decide (is_Some (given (status card)))
       then recordStatusHistory faulty clock sort_ties card
       else mret tt);
  mret upserted.

(** The inner [try] block. Its first statement logs a line with
    [`${pageId}`], which throws on an id that does not print. *)
Definition update_page (page pageId : jsval) : M World Answer :=
  _ ← pure_call (printed pageId);
  page ← (if truthy page then mret page else pure_call (retrieve pageId));
  partial_page ← pure_call (is_partial page);
  if (partial_page : bool) then mret (NotDatabasePage pageId)
  else
    other ← pure_call (of_other_database projectsDbId page);
    if (other : bool) then mret (NotFromProjects pageId)
    else
      card ← (fun w => Some (transformProjectPage (tick w) (db w) page, w));
      upserted ← store_card pageId card;
      mret (Updated pageId upserted).

(** The outer [try] block after the payload is parsed. The lines the
    handler logs print the page id or the event type with a template
    literal, which throws on a value that does not print: before the card
    is archived, at the start of the inner [try] block and again at the
    start of its [catch] block, from where the error goes to the outer
    [catch], and before an event is answered as not processed. *)
Definition handle (payload : jsval) : M World Answer :=
  _ ← pure_call (get payload "type");
  let '(page, pageId, eventType) := read_payload payload in
  if negb (truthy pageId) then mret NoPageId
  else
    _ ← getDb faulty;
    if is_removal page eventType then
      _ ← pure_call (printed pageId);
      at_time ← now clock;
      _ ← db_call faulty (CardsUpdateOne (toString pageId))
            (fun d => (tt, archive_page selects pageId at_time d));
      mret (Archived pageId)
    else if is_update page eventType then
      tryM (update_page page pageId)
        (fun message =>
           _ ← pure_call (printed pageId);
           mret (if is_not_found message then NotFound pageId
                 else PageError message pageId))
    else
      _ ← pure_call (printed eventType);
      mret (NotProcessed eventType).

(** [POST]; [body] is what [request.json()] resolves to. *)
Definition POST (body : outcome jsval) : M World Answer :=
  match body with
  | Threw _ => mret InvalidJson
  | Returned payload => tryM (handle payload) (fun message => mret (Fatal message))
  end.

End Handler.

End Webhook.

(** ** [lib/services/extractor]: the syncs of clients, team members and time
    tracker entries

    The three functions are the same code up to the database they fetch, the
    transform of a page and the collection they upsert into. The driver
    calls and the clock are parameters; [Store] is what they read and
    write. *)

Module PageSync.

Section Sync.

#[local] Existing Instance Extractor.M_ret.
#[local] Existing Instance Extractor.M_bind.

Variable Store : Type.

(** [new Date()] in a state. *)
Variable now : Store -> Z.

Variable getDb : Extractor.M Store unit.

(** [fetchAllPages(databaseId)], awaited. *)
Variable fetchAllPages : string -> Extractor.M Store (list jsval).

(** [sync_logs.insertOne(syncLog)] *)
Variable insert_sync_log : Extractor.SyncLog -> Extractor.M Store unit.

(** The state of a sync: the store and the [syncLog] object, which the [try]
    block and the [catch] block share. *)
Record Run : Type := {
  store : Store;
  syncLog : Extractor.SyncLog;
}.

Definition call {A} (m : Extractor.M Store A) : Extractor.M Run A := fun j =>
  match m (store j) with
  | Some (r, s) => Some (r, {| store := s; syncLog := syncLog j |})
  | None => None
  end.

Definition read_log : Extractor.M Run Extractor.SyncLog := fun j =>
  Some (Returned (syncLog j), j).

Definition update (f : Extractor.SyncLog -> Extractor.SyncLog) : Extractor.M Run unit :=
  fun j => Some (Returned tt, {| store := store j; syncLog := f (syncLog j) |}).

Definition read_clock : Extractor.M Run Z := fun j => Some (Returned (now (store j)), j).

Section Pages.

(** The entity a page becomes, and its upsert by notion id. *)
Variable Entity : Type.
Variable transform : Store -> jsval -> outcome Entity.
Variable upsert : Entity -> Extractor.M Store unit.

(** One page: the [try] block, then the [catch] block, whose log line reads
    [page.id]. *)
Definition process_page (page : jsval) : Extractor.M Run unit :=
  Extractor.tryM
    (entity ← (fun j => Some (transform (store j) page, j));
     _ ← call (upsert entity);
     update Extractor.count_processed)
    (fun _ =>
       _ ← Extractor.pure_call (get page "id");
       update Extractor.count_failed).

(** The [try] block of a sync. *)
Definition sync_body (databaseId : string) : Extractor.M Run Extractor.SyncLog :=
  pages ← call (fetchAllPages databaseId);
  _ ← Extractor.for_each process_page pages;
  completed ← read_clock;
  _ ← update (Extractor.finished completed);
  log ← read_log;
  _ ← call (insert_sync_log log);
  read_log.

(** The [catch] block: mark the log failed, save it, rethrow. *)
Definition sync_failure (message : string) : Extractor.M Run Extractor.SyncLog :=
  completed ← read_clock;
  _ ← update (Extractor.failed_with message completed);
  log ← read_log;
  _ ← call (insert_sync_log log);
  Extractor.throw message.

(** The [try] and [catch] blocks in a state of their own: the store after
    [getDb] and the fresh [syncLog]. *)
Definition sync_run (databaseId : string) : Extractor.M Store Extractor.SyncLog := fun s =>
  match Extractor.tryM (sync_body databaseId) sync_failure
          {| store := s; syncLog := Extractor.initial_log (now s) None |} with
  | Some (r, j) => Some (r, store j)
  | None => None
  end.

Definition sync_pages (databaseId : string) : Extractor.M Store Extractor.SyncLog :=
  _ ← getDb;
  sync_run databaseId.

End Pages.

(** [clients.updateOne({ notion_id }, { $set: client }, { upsert: true })] *)
Variable upsert_client : ClientSync.Client -> Extractor.M Store unit.

Definition syncClients : Extractor.M Store Extractor.SyncLog :=
  sync_pages ClientSync.Client
    (fun s page => ClientSync.transformClientPage (fun _ => now s) page)
    upsert_client Extractor.CLIENTS_DB_ID.

(** [process.env.NOTION_TEAM_MEMBERS_DB_ID] *)
Variable TEAM_MEMBERS_DB_ID : string.
Variable TeamMember : Type.
Variable transformTeamMemberPage : Store -> jsval -> outcome TeamMember.
Variable upsert_team_member : TeamMember -> Extractor.M Store unit.

Definition syncTeamMembers : Extractor.M Store Extractor.SyncLog :=
  sync_pages TeamMember transformTeamMemberPage upsert_team_member TEAM_MEMBERS_DB_ID.

Definition QI_TIME_TRACKER_DB_ID : string := "26a9ca8db0d780b2a85afbe21cdb4885".

Variable Entry : Type.
Variable transformQITimeTrackerPage : Store -> jsval -> outcome Entry.
Variable upsert_entry : Entry -> Extractor.M Store unit.

Definition syncQITimeTrackerEntries : Extractor.M Store Extractor.SyncLog :=
  sync_pages Entry transformQITimeTrackerPage upsert_entry QI_TIME_TRACKER_DB_ID.

End Sync.

End PageSync.

(** ** [app/api/timedoctor/sync/route.ts] and the full Time Doctor sync *)

Module TimeDoctorRoute.

Inductive Body : Type :=
| Synced (result : Routes.TimeDoctorResult)
| Failed (error : string).

Record Response : Type := {
  status : Z;
  body : Body;
}.

Definition MISSING_FIELDS : string :=
  "Missing required fields: api_token and company_id. Provide in request body or set TIMEDOCTOR_API_TOKEN and TIMEDOCTOR_COMPANY_ID in .env.local".

(** [const { api_token, company_id, start_date, end_date } = body]: a
    [TypeError] on [null] and [undefined]. *)
Definition destructured (payload : jsval) : outcome jsval :=
  if nullish payload
  then Threw ("Cannot destructure property 'api_token' of 'body' as it is "
              +:+ (if is_null payload then "null" else "undefined") +:+ ".")
  else Returned payload.

(** A variable of [process.env]. *)
Definition from_env (variable : option string) : jsval :=
  match variable with
  | Some text => JStr text
  | None => JUndefined
  end.

(** [fromBody || fromEnv] *)
Definition credential (fromBody : jsval) (fromEnv : option string) : jsval :=
  or_else fromBody (from_env fromEnv).

(** The configuration the route hands on, with the values as the body or the
    environment gave them. *)
Record Config : Type := {
  apiToken : jsval;
  companyId : jsval;
}.

Section Sync.

#[local] Existing Instance Extractor.M_ret.
#[local] Existing Instance Extractor.M_bind.

Variable Store : Type.

(** [Date.now()] and [new Date()] in a state. *)
Variable now : Store -> Z.

Variable env : Routes.Env.

(** [Date.parse] of the host. *)
Variable Date_parse : string -> Date.

Variable syncTimeDoctorUsers : Config -> Extractor.M Store Routes.Counts.
Variable syncTimeDoctorProjects : Config -> Extractor.M Store Routes.Counts.

Variable getDb : Extractor.M Store unit.

(** [timedoctor_users.find({}).toArray()] *)
Variable find_users : Extractor.M Store (list jsval).

(** [syncTimeDoctorWorklogs] from the chunk loop on: the worklogs of the
    windows are gathered and stored. *)
Variable store_worklogs :
  Config -> Date -> Date -> list jsval -> list jsval -> Extractor.M Store Routes.Counts.

(** [syncTimeDoctorWorklogs]: the ids of the stored users, the early return
    when there is none, and the line that logs the range, whose
    [toISOString] calls throw on an invalid date. *)
Definition syncTimeDoctorWorklogs (config : Config) (startDate endDate : Date) : Extractor.M Store Routes.Counts :=
  _ ← getDb;
  tdUsers ← find_users;
  let userIds := List.filter truthy (map (fun u => field u "time_doctor_id") tdUsers) in
  if Nat.eqb (length userIds) 0 then
    mret {| Routes.processed := 0; Routes.matched := 0 |}
  else
    _ ← Extractor.pure_call (TimeDoctor.toISOString startDate);
    _ ← Extractor.pure_call (TimeDoctor.toISOString endDate);
    store_worklogs config startDate endDate userIds tdUsers.

(** [syncTimeDoctor]: a date that is given is used as it is; the range is
    the last 30 days otherwise. *)
Definition syncTimeDoctor (config : Config) (startDate endDate : option Date) : Extractor.M Store Routes.TimeDoctorResult :=
  fun s =>
    let defaultEndDate := default (TimeValue (now s)) endDate in
    let defaultStartDate := default (TimeValue (now s - 30 * 24 * 60 * 60 * 1000)) startDate in
    (users ← syncTimeDoctorUsers config;
     projects ← syncTimeDoctorProjects config;
     worklogs ← syncTimeDoctorWorklogs config defaultStartDate defaultEndDate;
     mret {| Routes.users := users; Routes.projects := projects;
             Routes.worklogs := worklogs |}) s.

(** [value ? new Date(value) : undefined]: the constructor throws on a
    value that does not convert to a primitive. *)
Definition optional_date (value : jsval) : outcome (option Date) :=
  if truthy value then Some <$> Metrics.newDate Date_parse value else mret None.

(** [POST]; [request] is what [request.json()] resolves to. *)
Definition POST (request : outcome jsval) : Extractor.M Store Response :=
  Extractor.tryM
    (payload ← Extractor.pure_call (request ≫= destructured);
     let apiToken := credential (field payload "api_token") (Routes.TIMEDOCTOR_API_TOKEN env) in
     let companyId :=
       credential (field payload "company_id") (Routes.TIMEDOCTOR_COMPANY_ID env) in
     if negb (truthy apiToken) || negb (truthy companyId) then
       mret {| status := 400; body := Failed MISSING_FIELDS |}
     else
       startDate ← Extractor.pure_call (optional_date (field payload "start_date"));
       endDate ← Extractor.pure_call (optional_date (field payload "end_date"));
       result ← syncTimeDoctor {| apiToken := apiToken; companyId := companyId |}
                  startDate endDate;
       mret {| status := 200; body := Synced result |})
    (fun message => mret {| status := 500; body := Failed message |}).

End Sync.

End TimeDoctorRoute.

(** * Properties *)

(** ** The paginated fetch *)

Section FetchAllPagesFacts.

Import Notion.

Variable query : QueryArgs -> outcome QueryResponse.

(** The items the API sent in answer to a call. *)
Definition call_results (c : Call) : list jsval :=
  match query (call_args c) with
  | Returned response => results response
  | Threw _ => []
  end.

(** What the code promises about one request under a cap. *)
Definition call_within (cap : Z) (c : Call) : Prop :=
  Z.of_nat (call_seen c) < cap /\
  page_size (call_args c) = Z.min 100 (cap - Z.of_nat (call_seen c)).

Lemma pageSize_remaining (cap : Z) (seen : nat) :
  Z.of_nat seen < cap ->
  pageSize (remainingLimit (Some cap) seen) = Z.min 100 (cap - Z.of_nat seen).
Proof.
  intros Hlt. unfold remainingLimit, pageSize.
  destruct (Z.eqb_spec cap 0) as [->|Hne]; [lia|].
  destruct (Z.eqb_spec (cap - Z.of_nat seen) 0) as [E|_]; [lia|]. simpl.
  destruct (Z.ltb_spec (cap - Z.of_nat seen) 100); lia.
Qed.

Lemma taken_remaining (cap : Z) (seen : nat) (items : list jsval) :
  Z.of_nat seen < cap ->
  taken (Some cap) (remainingLimit (Some cap) seen) items
  = firstn (Z.to_nat cap - seen) items.
Proof.
  intros Hlt. unfold remainingLimit, taken, limit_set, slice0.
  destruct (Z.eqb_spec cap 0) as [->|Hne]; [lia|]. simpl.
  destruct (Z.eqb_spec (cap - Z.of_nat seen) 0) as [E|_]; [lia|]. simpl.
  destruct (Z.leb_spec 0 (cap - Z.of_nat seen)); [|lia].
  f_equal. lia.
Qed.

Lemma reached_spec (cap : Z) (seen : nat) :
  0 < cap -> reached (Some cap) seen = (cap <=? Z.of_nat seen).
Proof.
  intros Hpos. unfold reached.
  destruct (Z.eqb_spec cap 0); [lia|]. reflexivity.
Qed.

Lemma firstn_app_short {A} (n : nat) (l1 l2 : list A) :
  (length l1 <= n)%nat -> firstn n (l1 ++ l2) = l1 ++ firstn (n - length l1) l2.
Proof.
  intros Hle. rewrite firstn_app. f_equal. apply firstn_all2. exact Hle.
Qed.

(** The loop invariant under a positive cap: every request stays within the
    cap, and a returned list is the first [cap] items of what was received. *)
Lemma fetch_loop_capped (cap : Z) (databaseId : string) (filter : jsval) :
  0 < cap ->
  forall fuel allPages cursor calls out calls',
    Z.of_nat (length allPages) < cap ->
    fetch_loop query fuel databaseId filter (Some cap) allPages cursor calls = (out, calls') ->
    exists new,
      calls' = calls ++ new /\
      Forall (call_within cap) new /\
      forall pages, out = Some (Returned pages) ->
        pages = firstn (Z.to_nat cap) (allPages ++ concat (map call_results new)).
Proof.
  intros Hpos fuel.
  induction fuel as [|fuel IH]; intros allPages cursor calls out calls' Hlen Hrun.
  - simpl in Hrun. inversion Hrun; subst. exists []. rewrite app_nil_r.
    split; [reflexivity|]. split; [constructor|]. intros pages Hp. discriminate.
  - cbn [fetch_loop] in Hrun.
    set (args := {| database_id := databaseId; start_cursor := cursor; query_filter := filter;
                    page_size := pageSize (remainingLimit (Some cap) (length allPages)) |}) in *.
    set (call := {| call_args := args; call_seen := length allPages |}) in *.
    assert (Hcall : call_within cap call).
    { split; [exact Hlen|]. simpl. apply pageSize_remaining. exact Hlen. }
    destruct (query args) as [response|e] eqn:Hq.
    + rewrite taken_remaining in Hrun by exact Hlen.
      rewrite reached_spec in Hrun by exact Hpos.
      assert (Hres : call_results call = results response).
      { unfold call_results. simpl. rewrite Hq. reflexivity. }
      assert (Hfirst : allPages ++ firstn (Z.to_nat cap - length allPages) (results response)
                       = firstn (Z.to_nat cap) (allPages ++ results response)).
      { rewrite firstn_app_short by lia. reflexivity. }
      destruct (Z.leb_spec cap (Z.of_nat (length (allPages ++
                  firstn (Z.to_nat cap - length allPages) (results response))))) as [Hge|Hlt].
      * inversion Hrun; subst. exists [call]. split; [reflexivity|].
        split; [constructor; [exact Hcall|constructor]|].
        intros pages Hp. inversion Hp; subst. simpl. rewrite Hres, app_nil_r. exact Hfirst.
      * simpl in Hrun. rewrite orb_true_r, andb_true_r in Hrun.
        assert (Hall : firstn (Z.to_nat cap - length allPages) (results response) = results response).
        { apply firstn_all2. rewrite length_app in Hlt.
          destruct (Nat.le_gt_cases (length (results response)) (Z.to_nat cap - length allPages))
            as [Hok|Hbig]; [exact Hok|].
          rewrite length_firstn in Hlt. lia. }
        rewrite Hall in *.
        match type of Hrun with
        | (if ?c then _ else _) = _ => destruct c
        end.
        -- apply IH in Hrun; [|exact Hlt].
           destruct Hrun as (new & -> & Hnew & Hpages).
           exists (call :: new). split; [rewrite <- app_assoc; reflexivity|].
           split; [constructor; assumption|].
           intros pages Hp. rewrite (Hpages pages Hp). simpl.
           rewrite Hres, app_assoc. reflexivity.
        -- inversion Hrun; subst. exists [call]. split; [reflexivity|].
           split; [constructor; [exact Hcall|constructor]|].
           intros pages Hp. inversion Hp; subst. simpl. rewrite Hres, app_nil_r.
           exact Hfirst.
    + inversion Hrun; subst. exists [call]. split; [reflexivity|].
      split; [constructor; [exact Hcall|constructor]|].
      intros pages Hp. discriminate.
Qed.

(** The API hands out cursors of a finite chain: each next cursor ranks
    below the cursor of the request it answers. *)
Definition cursor_ranked (rank : jsval -> nat) : Prop :=
  forall args response,
    query args = Returned response ->
    has_more response = true ->
    truthy (next_cursor response) = true ->
    (rank (next_cursor response) < rank (start_cursor args))%nat.

Lemma fetch_loop_terminates (rank : jsval -> nat) (databaseId : string) (filter : jsval)
    (limit : option Z) :
  cursor_ranked rank ->
  forall fuel allPages cursor calls,
    (rank cursor < fuel)%nat ->
    exists out calls',
      fetch_loop query fuel databaseId filter limit allPages cursor calls = (Some out, calls').
Proof.
  intros Hrank fuel.
  induction fuel as [|fuel IH]; intros allPages cursor calls Hfuel; [lia|].
  cbn [fetch_loop].
  match goal with
  | |- context [query ?a] => set (args := a)
  end.
  destruct (query args) as [response|e] eqn:Hq; [|eauto].
  destruct (reached limit _) eqn:Hreached; [eauto|].
  destruct (has_more response) eqn:Hmore; simpl; [|eauto].
  destruct (truthy (next_cursor response)) eqn:Hnext; simpl; [|eauto].
  rewrite Hnext, orb_true_r. simpl.
  apply IH. specialize (Hrank args response Hq Hmore Hnext). simpl in Hrank. lia.
Qed.

End FetchAllPagesFacts.

(** A collection of six items served in two pages of three. *)
Definition two_page_api (args : Notion.QueryArgs) : outcome Notion.QueryResponse :=
  match Notion.start_cursor args with
  | JUndefined =>
      Returned {| Notion.results := [JNum 1; JNum 2; JNum 3];
                  Notion.has_more := true; Notion.next_cursor := JStr "page-2" |}
  | JStr _ =>
      Returned {| Notion.results := [JNum 4; JNum 5; JNum 6];
                  Notion.has_more := false; Notion.next_cursor := JNull |}
  | _ => Threw "validation_error"
  end.

Definition two_page_rank (cursor : jsval) : nat :=
  match cursor with JUndefined => 1 | _ => 0 end.

Lemma two_page_api_ranked : cursor_ranked two_page_api two_page_rank.
Proof.
  intros args response Hq Hmore Hnext. unfold two_page_api in Hq.
  destruct (Notion.start_cursor args); inversion Hq; subst; simpl in *;
    try discriminate; lia.
Qed.

(** C5, amended: under a positive cap the paginated fetch returns, asks each
    page with size min(100, cap - items so far), issues no request once the
    cap is reached, and returns exactly the first [cap] items of what the API
    sent, hence at most [cap] items. *)
Theorem fetchAllPages_respects_positive_cap
    (query : Notion.QueryArgs -> outcome Notion.QueryResponse) (rank : jsval -> nat)
    (databaseId : string) (filter : jsval) (cap : Z) (fuel : nat) :
  0 < cap ->
  cursor_ranked query rank ->
  (rank JUndefined < fuel)%nat ->
  exists out calls,
    Notion.fetchAllPages_traced query fuel databaseId filter (Some cap) = (Some out, calls) /\
    Forall (call_within cap) calls /\
    forall pages, out = Returned pages ->
      pages = firstn (Z.to_nat cap) (concat (map (call_results query) calls)) /\
      Z.of_nat (length pages) <= cap.
Proof.
  intros Hpos Hrank Hfuel. unfold Notion.fetchAllPages_traced.
  destruct (fetch_loop_terminates query rank databaseId filter (Some cap) Hrank
              fuel [] JUndefined [] Hfuel) as (out & calls & Hrun).
  exists out, calls. split; [exact Hrun|].
  destruct (fetch_loop_capped query cap databaseId filter Hpos fuel [] JUndefined []
              (Some out) calls) as (new & Hcalls & Hwithin & Hpages); [simpl; lia|exact Hrun|].
  simpl in Hcalls. subst new. split; [exact Hwithin|].
  intros pages ->. specialize (Hpages pages eq_refl). simpl in Hpages.
  split; [exact Hpages|]. rewrite Hpages, length_firstn. lia.
Qed.

Lemma fetchAllPages_respects_positive_cap_witness :
  exists out calls,
    Notion.fetchAllPages_traced two_page_api 2 "projects" JUndefined (Some 4) = (Some out, calls) /\
    Forall (call_within 4) calls /\
    forall pages, out = Returned pages ->
      pages = firstn (Z.to_nat 4) (concat (map (call_results two_page_api) calls)) /\
      Z.of_nat (length pages) <= 4.
Proof.
  apply (fetchAllPages_respects_positive_cap two_page_api two_page_rank "projects" JUndefined 4 2).
  - lia.
  - exact two_page_api_ranked.
  - simpl. lia.
Defined.

(** C5 as stated fails for the cap 0: the code reads a cap of 0 as no cap
    and returns all six items. *)
Lemma fetchAllPages_cap_zero_returns_everything :
  exists pages,
    Notion.fetchAllPages two_page_api 2 "projects" JUndefined (Some 0) = Some (Returned pages) /\
    0 < Z.of_nat (length pages).
Proof.
  exists [JNum 1; JNum 2; JNum 3; JNum 4; JNum 5; JNum 6]. split; [reflexivity|].
  simpl. lia.
Qed.

Example fetchAllPages_cap_four :
  Notion.fetchAllPages two_page_api 2 "projects" JUndefined (Some 4)
  = Some (Returned [JNum 1; JNum 2; JNum 3; JNum 4]).
Proof. reflexivity. Qed.

(** ** The property extractor *)


















(** A page with a two-segment title and a two-option multi-select. *)
Definition sample_page : jsval :=
  JObj [("id", JStr "page-1");
        ("properties", JObj [
           ("title", JObj [("type", JStr "title");
                           ("title", JArr [JObj [("plain_text", JStr "Sync ")];
                                           JObj [("plain_text", JStr "engine")]])]);
           ("Tags", JObj [("type", JStr "multi_select");
                          ("multi_select", JArr [JObj [("name", JStr "A")];
                                                 JObj [("name", JStr "B")]])])])].


(** The names of [Object.prototype] are not absent: on the same page the
    lookup of 'constructor', which the page does not hold, finds the
    inherited function, so a title extracts to the empty string and a number
    to [undefined]. *)
Example extractProperty_inherited_name :
  Notion.extractProperty sample_page "constructor" "title" None
  = Returned (Notion.Plain (JStr "")) /\
  Notion.extractProperty sample_page "constructor" "number" None
  = Returned (Notion.Plain JUndefined) /\
  Notion.extractProperty sample_page "constructor" "select" None
  = Returned (Notion.Plain JNull).
Proof. repeat split. Qed.


(** ** Average days late *)

(** The mean of a list of days: their sum over their number. *)
Definition mean (days : list Z) : Q :=
  inject_Z (fold_right Z.add 0 days) / inject_Z (Z.of_nat (length days)).

Lemma sumZ_from (l : list Z) (start : Z) :
  fold_left Z.add l start = start + Metrics.sumZ l.
Proof.
  unfold Metrics.sumZ. revert start.
  induction l as [|x l IH]; intros start; cbn [fold_left]; [lia|].
  rewrite (IH (start + x)), (IH (0 + x)). lia.
Qed.

Lemma sumZ_fold_right (l : list Z) : Metrics.sumZ l = fold_right Z.add 0 l.
Proof.
  induction l as [|x l IH]; [reflexivity|].
  unfold Metrics.sumZ in *. cbn [fold_left fold_right]. rewrite sumZ_from.
  unfold Metrics.sumZ. rewrite IH. lia.
Qed.

Lemma sumZ_perm (l1 l2 : list Z) : l1 ≡ₚ l2 -> Metrics.sumZ l1 = Metrics.sumZ l2.
Proof.
  rewrite !sumZ_fold_right.
  induction 1 as [|x l1 l2 _ IH|x y l|l1 l2 l3 _ IH1 _ IH2]; cbn [fold_right]; lia.
Qed.

(** The quotient the code computes is the mean. *)
Lemma average_mean (days : list Z) :
  days <> [] -> (Metrics.average days == mean days)%Q.
Proof.
  intros Hdays. unfold Metrics.average, mean. rewrite sumZ_fold_right.
  destruct days as [|day days]; [contradiction|].
  set (total := fold_right Z.add 0 (day :: days)).
  cbn [length]. change (Z.of_nat (S (length days))) with (Z.pos (Pos.of_succ_nat (length days))).
  rewrite <- Pos.of_nat_succ.
  unfold Qeq, Qdiv, Qmult, Qinv, inject_Z. cbn [Qnum Qden]. lia.
Qed.

Lemma average_perm (l1 l2 : list Z) :
  l1 ≡ₚ l2 -> Metrics.average l1 = Metrics.average l2.
Proof.
  intros Hperm. unfold Metrics.average.
  rewrite (sumZ_perm _ _ Hperm), (Permutation_length Hperm). reflexivity.
Qed.

Section DaysLateFacts.

Import Metrics.

Variable Date_parse : string -> Date.

(** A date that resolved: the step returned a valid date. *)
Definition resolvable (d : outcome (option Date)) : Prop :=
  exists ms, d = Returned (Some (TimeValue ms)).

(** A date that did not resolve: the step returned no date, or an invalid
    one. *)
Definition unresolved (d : outcome (option Date)) : Prop :=
  d = Returned None \/ d = Returned (Some InvalidDate).

(** A card that lacks a deadline, or has one and lacks a completion date. *)
Definition lacks_a_date (card : Card) : Prop :=
  unresolved (resolveDeadline Date_parse card) \/
  (resolvable (resolveDeadline Date_parse card) /\
   unresolved (resolveCompletion Date_parse card)).

Lemma cardDaysLate_spec (card : Card) (developerId : string) (daysLate : Z) :
  cardDaysLate Date_parse card = Returned (Some (developerId, daysLate)) <->
  exists deadline completed,
    truthy (primaryDeveloper card) = true /\
    call_toString "primaryDeveloper" (primaryDeveloper card) = Returned developerId /\
    resolveDeadline Date_parse card = Returned (Some (TimeValue deadline)) /\
    resolveCompletion Date_parse card = Returned (Some (TimeValue completed)) /\
    deadline < completed /\
    daysLate = (completed - deadline) / msPerDay.
Proof.
  unfold cardDaysLate. split.
  - destruct (truthy (primaryDeveloper card)) eqn:Hwho; cbn [negb]; [|discriminate].
    destruct (resolveDeadline Date_parse card) as [[[|deadline]|]|];
      cbn [mbind outcome_bind]; try discriminate.
    destruct (resolveCompletion Date_parse card) as [[[|completed]|]|];
      cbn [mbind outcome_bind]; try discriminate.
    destruct (Z.ltb_spec deadline completed) as [Hlt|]; [|discriminate].
    destruct (call_toString "primaryDeveloper" (primaryDeveloper card)) as [who|];
      cbn [mbind outcome_bind]; [|discriminate].
    intros H. inversion H; subst. exists deadline, completed. repeat split; auto.
  - intros (deadline & completed & Hwho & Hid & Hd & Hc & Hlt & ->).
    rewrite Hwho, Hd. cbn [negb mbind outcome_bind]. rewrite Hc. cbn [mbind outcome_bind].
    destruct (Z.ltb_spec deadline completed); [|lia].
    rewrite Hid. reflexivity.
Qed.

Lemma cardDaysLate_lacking (card : Card) :
  lacks_a_date card -> cardDaysLate Date_parse card = Returned None.
Proof.
  unfold lacks_a_date, unresolved, resolvable, cardDaysLate.
  destruct (negb (truthy (primaryDeveloper card))); [reflexivity|].
  intros [[-> | ->]|[[deadline ->] [-> | ->]]]; reflexivity.
Qed.

(** The late card of a turn of the loop that does not throw. *)
Definition late_of (card : Card) : option (string * Z) :=
  match cardDaysLate Date_parse card with
  | Returned late => late
  | Threw _ => None
  end.

Definition late_for (developerId : string) (card : Card) : option Z :=
  match late_of card with
  | Some (who, daysLate) => if String.eqb who developerId then Some daysLate else None
  | None => None
  end.

(** The days late of the late cards of one developer, in the order of the
    cards. *)
Definition lateDaysOf (developerId : string) (cards : list Card) : list Z :=
  omap (late_for developerId) cards.

(** The days late of the late cards, in the order of the cards. *)
Definition lateDays (cards : list Card) : list Z :=
  omap (fun card => snd <$> late_of card) cards.

(** *** The object [byDeveloper] *)

Lemma own_days_push (who developerId : string) (daysLate : Z) (byDeveloper : Groups) :
  own_days developerId (push who daysLate byDeveloper)
  = if String.eqb who developerId
    then (fun days => days ++ [daysLate]) <$> own_days developerId byDeveloper
    else own_days developerId byDeveloper.
Proof.
  induction byDeveloper as [|[key days] rest IH]; cbn [push own_days].
  - destruct (String.eqb who developerId); reflexivity.
  - destruct (String.eqb_spec key who) as [->|Hkey]; cbn [own_days].
    + destruct (String.eqb_spec who developerId) as [->|Hwho]; [reflexivity|reflexivity].
    + destruct (String.eqb_spec key developerId) as [->|Hdev].
      * destruct (String.eqb_spec who developerId) as [->|_]; [contradiction|reflexivity].
      * exact IH.
Qed.

Lemma own_days_snoc (who developerId : string) (days : list Z) (byDeveloper : Groups) :
  own_days developerId (byDeveloper ++ [(who, days)])
  = match own_days developerId byDeveloper with
    | Some found => Some found
    | None => if String.eqb who developerId then Some days else None
    end.
Proof.
  induction byDeveloper as [|[key found] rest IH]; cbn [app own_days]; [reflexivity|].
  destruct (String.eqb key developerId); [reflexivity|exact IH].
Qed.

Lemma own_days_keys (developerId : string) (byDeveloper : Groups) :
  own_days developerId byDeveloper = None <-> ~ In developerId (map fst byDeveloper).
Proof.
  induction byDeveloper as [|[key days] rest IH]; cbn [own_days map fst In]; [tauto|].
  destruct (String.eqb_spec key developerId) as [->|Hkey].
  - split; [discriminate|tauto].
  - rewrite IH. tauto.
Qed.

Lemma own_days_entry (developerId : string) (days : list Z) (byDeveloper : Groups) :
  NoDup (map fst byDeveloper) ->
  In (developerId, days) byDeveloper ->
  own_days developerId byDeveloper = Some days.
Proof.
  induction byDeveloper as [|[key found] rest IH]; cbn [own_days map fst In]; [tauto|].
  intros Hkeys [Hhere|Hrest].
  - inversion Hhere; subst. rewrite String.eqb_refl. reflexivity.
  - apply NoDup_cons in Hkeys. destruct Hkeys as [Hfresh Hkeys].
    destruct (String.eqb_spec key developerId) as [->|_]; [|exact (IH Hkeys Hrest)].
    exfalso. apply Hfresh. apply list_elem_of_In.
    change developerId with (fst (developerId, days)). apply in_map. exact Hrest.
Qed.

Lemma own_days_found (developerId : string) (days : list Z) (byDeveloper : Groups) :
  own_days developerId byDeveloper = Some days -> In (developerId, days) byDeveloper.
Proof.
  induction byDeveloper as [|[key found] rest IH]; cbn [own_days In]; [discriminate|].
  destruct (String.eqb_spec key developerId) as [->|_].
  - intros H. inversion H; subst. left. reflexivity.
  - intros H. right. exact (IH H).
Qed.

Lemma push_keys (who : string) (daysLate : Z) (byDeveloper : Groups) :
  map fst (push who daysLate byDeveloper) = map fst byDeveloper.
Proof.
  induction byDeveloper as [|[key days] rest IH]; cbn [push map fst]; [reflexivity|].
  destruct (String.eqb key who); cbn [map fst]; [reflexivity|]. rewrite IH. reflexivity.
Qed.

Lemma push_values (who : string) (daysLate : Z) (days : list Z) (byDeveloper : Groups) :
  own_days who byDeveloper = Some days ->
  concat (map snd (push who daysLate byDeveloper))
  ≡ₚ concat (map snd byDeveloper) ++ [daysLate].
Proof.
  induction byDeveloper as [|[key found] rest IH]; cbn [push own_days]; [discriminate|].
  destruct (String.eqb key who); cbn [map snd concat].
  - intros _. rewrite <- !app_assoc. apply Permutation_app_head, Permutation_app_comm.
  - intros Hrest. rewrite (IH Hrest), app_assoc. reflexivity.
Qed.

(** *** One turn of the loop *)

(** What a turn that does not throw does to [byDeveloper]. *)
Lemma record_late_returned (byDeveloper after : Groups) (card : Card) :
  record_late Date_parse byDeveloper card = Returned after ->
  exists late,
    cardDaysLate Date_parse card = Returned late /\
    match late with
    | None => after = byDeveloper
    | Some (who, daysLate) =>
        (exists days, own_days who byDeveloper = Some days /\
                      after = push who daysLate byDeveloper) \/
        (own_days who byDeveloper = None /\ listed who object_prototype = false /\
         after = byDeveloper ++ [(who, [daysLate])])
    end.
Proof.
  unfold record_late.
  destruct (cardDaysLate Date_parse card) as [[[who daysLate]|]|]; cbn [mbind outcome_bind];
    [| |discriminate].
  - intros Hrun. eexists. split; [reflexivity|].
    destruct (own_days who byDeveloper) as [days|] eqn:Hown.
    + left. inversion Hrun; subst. eauto.
    + right. destruct (listed who object_prototype); [discriminate|].
      inversion Hrun; subst. auto.
  - intros Hrun. inversion Hrun; subst. eexists. split; reflexivity.
Qed.

Lemma record_late_own (byDeveloper after : Groups) (card : Card) (developerId : string) :
  record_late Date_parse byDeveloper card = Returned after ->
  own_days developerId after
  = match late_for developerId card with
    | Some daysLate => Some (default [] (own_days developerId byDeveloper) ++ [daysLate])
    | None => own_days developerId byDeveloper
    end.
Proof.
  intros Hrun. destruct (record_late_returned _ _ _ Hrun) as (late & Hlate & Hafter).
  unfold late_for, late_of. rewrite Hlate. destruct late as [[who daysLate]|]; [|congruence].
  destruct Hafter as [(days & Hown & ->)|(Hown & _ & ->)].
  - rewrite own_days_push. destruct (String.eqb_spec who developerId) as [->|_]; [|reflexivity].
    rewrite Hown. reflexivity.
  - rewrite own_days_snoc. destruct (String.eqb_spec who developerId) as [->|Hne].
    + rewrite Hown. reflexivity.
    + destruct (own_days developerId byDeveloper); reflexivity.
Qed.

Lemma record_late_keys (byDeveloper after : Groups) (card : Card) :
  record_late Date_parse byDeveloper card = Returned after ->
  (NoDup (map fst byDeveloper) -> NoDup (map fst after)) /\
  (Forall (fun key => listed key object_prototype = false) (map fst byDeveloper) ->
   Forall (fun key => listed key object_prototype = false) (map fst after)).
Proof.
  intros Hrun. destruct (record_late_returned _ _ _ Hrun) as (late & _ & Hafter).
  destruct late as [[who daysLate]|]; [|subst; auto].
  destruct Hafter as [(days & Hown & ->)|(Hown & Hlisted & ->)].
  - rewrite push_keys. auto.
  - rewrite map_app. cbn [map fst]. split.
    + intros Hkeys. apply NoDup_app. split; [exact Hkeys|]. split.
      * intros key Hin Hwho. apply list_elem_of_singleton in Hwho. subst key.
        apply own_days_keys in Hown. apply Hown, list_elem_of_In. exact Hin.
      * apply NoDup_singleton.
    + intros Hkeys. apply Forall_app. split; [exact Hkeys|]. constructor; [exact Hlisted|].
      constructor.
Qed.

Lemma record_late_values (byDeveloper after : Groups) (card : Card) :
  record_late Date_parse byDeveloper card = Returned after ->
  concat (map snd after)
  ≡ₚ concat (map snd byDeveloper) ++ option_list (snd <$> late_of card).
Proof.
  intros Hrun. destruct (record_late_returned _ _ _ Hrun) as (late & Hlate & Hafter).
  unfold late_of. rewrite Hlate. destruct late as [[who daysLate]|]; cbn.
  - destruct Hafter as [(days & Hown & ->)|(_ & _ & ->)].
    + exact (push_values _ _ _ _ Hown).
    + rewrite map_app, concat_app. reflexivity.
  - subst. rewrite app_nil_r. reflexivity.
Qed.

(** *** The loop *)

Lemma group_from_app (before after : list Card) (byDeveloper : Groups) :
  group_from Date_parse (before ++ after) byDeveloper
  = group_from Date_parse before byDeveloper ≫= group_from Date_parse after.
Proof.
  revert byDeveloper. induction before as [|card before IH]; intros byDeveloper;
    cbn [app group_from]; [reflexivity|].
  destruct (record_late Date_parse byDeveloper card) as [next|]; cbn [mbind outcome_bind];
    [apply IH|reflexivity].
Qed.

Lemma group_from_skips (card : Card) (before after : list Card) (byDeveloper : Groups) :
  cardDaysLate Date_parse card = Returned None ->
  group_from Date_parse (before ++ card :: after) byDeveloper
  = group_from Date_parse (before ++ after) byDeveloper.
Proof.
  intros Hnone. rewrite !group_from_app.
  destruct (group_from Date_parse before byDeveloper) as [middle|]; cbn [mbind outcome_bind];
    [|reflexivity].
  cbn [group_from]. unfold record_late. rewrite Hnone. reflexivity.
Qed.

(** What the loop leaves in [byDeveloper] when it does not throw. *)
Lemma group_from_returned (cards : list Card) :
  forall byDeveloper grouped,
    group_from Date_parse cards byDeveloper = Returned grouped ->
    (forall developerId,
        own_days developerId grouped
        = match lateDaysOf developerId cards with
          | [] => own_days developerId byDeveloper
          | late => Some (default [] (own_days developerId byDeveloper) ++ late)
          end) /\
    (NoDup (map fst byDeveloper) -> NoDup (map fst grouped)) /\
    (Forall (fun key => listed key object_prototype = false) (map fst byDeveloper) ->
     Forall (fun key => listed key object_prototype = false) (map fst grouped)) /\
    concat (map snd grouped) ≡ₚ concat (map snd byDeveloper) ++ lateDays cards.
Proof.
  induction cards as [|card cards IH]; intros byDeveloper grouped; cbn [group_from].
  - intros H. inversion H; subst. repeat split; auto. cbn. rewrite app_nil_r. reflexivity.
  - destruct (record_late Date_parse byDeveloper card) as [next|] eqn:Hturn;
      cbn [mbind outcome_bind]; [|discriminate].
    intros Hrest. destruct (IH _ _ Hrest) as (Hown & Hkeys & Hnames & Hvalues).
    destruct (record_late_keys _ _ _ Hturn) as [Hkeys1 Hnames1].
    split; [|split; [auto|split; [auto|]]].
    + intros developerId. rewrite Hown, (record_late_own _ _ _ developerId Hturn).
      unfold lateDaysOf. cbn [omap list_omap]. fold (lateDaysOf developerId cards).
      destruct (late_for developerId card) as [daysLate|]; [|reflexivity].
      cbn [default]. destruct (lateDaysOf developerId cards) as [|day late]; [reflexivity|].
      unfold id. rewrite <- app_assoc. reflexivity.
    + rewrite Hvalues, (record_late_values _ _ _ Hturn). unfold lateDays.
      cbn [omap list_omap]. fold (lateDays cards). rewrite <- app_assoc.
      apply Permutation_app_head. destruct (snd <$> late_of card); reflexivity.
Qed.

(** A turn of the loop that goes through: the card by itself does not throw,
    and when it is late its developer is no name of [Object.prototype]. *)
Definition files (card : Card) : Prop :=
  exists late,
    cardDaysLate Date_parse card = Returned late /\
    forall who daysLate, late = Some (who, daysLate) -> listed who object_prototype = false.

(** The loop returns exactly when every turn goes through. *)
Lemma group_from_returns (cards : list Card) :
  forall byDeveloper,
    Forall (fun key => listed key object_prototype = false) (map fst byDeveloper) ->
    (exists grouped, group_from Date_parse cards byDeveloper = Returned grouped)
    <-> Forall files cards.
Proof.
  induction cards as [|card cards IH]; intros byDeveloper Hnames; cbn [group_from].
  - split; [constructor|eauto].
  - split.
    + intros [grouped Hrun].
      destruct (record_late Date_parse byDeveloper card) as [next|] eqn:Hturn;
        cbn [mbind outcome_bind] in Hrun; [|discriminate].
      destruct (record_late_keys _ _ _ Hturn) as [_ Hnames1].
      constructor; [|apply (IH next (Hnames1 Hnames)); eauto].
      destruct (record_late_returned _ _ _ Hturn) as (late & Hlate & Hafter).
      exists late. split; [exact Hlate|]. intros who daysLate ->.
      destruct Hafter as [(days & Hown & _)|(_ & Hlisted & _)]; [|exact Hlisted].
      apply own_days_found in Hown. rewrite Forall_forall in Hnames. apply Hnames.
      apply list_elem_of_In. change who with (fst (who, days)). apply in_map. exact Hown.
    + intros Hfiles. apply Forall_cons in Hfiles.
      destruct Hfiles as [(late & Hlate & Hlisted) Hfiles].
      assert (Hturn : exists next, record_late Date_parse byDeveloper card = Returned next).
      { unfold record_late. rewrite Hlate. cbn [mbind outcome_bind].
        destruct late as [[who daysLate]|]; [|eauto].
        destruct (own_days who byDeveloper); [eauto|].
        rewrite (Hlisted who daysLate eq_refl). eauto. }
      destruct Hturn as [next Hturn]. rewrite Hturn. cbn [mbind outcome_bind].
      destruct (record_late_keys _ _ _ Hturn) as [_ Hnames1].
      apply (IH next (Hnames1 Hnames)). exact Hfiles.
Qed.

(** *** The order of [Object.entries] *)

Lemma filter_split {A} (f : A -> bool) (l : list A) :
  List.filter f l ++ List.filter (fun x => negb (f x)) l ≡ₚ l.
Proof.
  induction l as [|x l IH]; cbn [List.filter]; [reflexivity|].
  destruct (f x); cbn [negb app].
  - rewrite IH. reflexivity.
  - rewrite <- Permutation_middle, IH. reflexivity.
Qed.

Lemma entries_perm (byDeveloper : Groups) : entries byDeveloper ≡ₚ byDeveloper.
Proof.
  unfold entries. rewrite merge_sort_Permutation. apply filter_split.
Qed.

Lemma concat_snd_perm (l1 l2 : Groups) :
  l1 ≡ₚ l2 -> concat (map snd l1) ≡ₚ concat (map snd l2).
Proof.
  induction 1 as [|x l1 l2 _ IH|x y l|l1 l2 l3 _ IH1 _ IH2]; cbn [map concat].
  - reflexivity.
  - rewrite IH. reflexivity.
  - rewrite !app_assoc. apply Permutation_app_tail, Permutation_app_comm.
  - rewrite IH1. exact IH2.
Qed.

(** *** The metrics *)

(** What the metrics are made of when the loop does not throw. *)
Lemma daysLateMetrics_returned (cards : list Card) (metrics : list MetricsCache) :
  daysLateMetrics Date_parse cards = Returned metrics ->
  exists grouped,
    groupDaysLate Date_parse cards = Returned grouped /\
    metrics
    = map developer_metric
        (List.filter (fun entry : string * list Z => negb (Nat.eqb (length (snd entry)) 0))
           (entries grouped))
      ++ [overall_metric grouped] /\
    NoDup (map fst grouped) /\
    (forall developerId days,
        In (developerId, days) grouped <->
        days <> [] /\ days = lateDaysOf developerId cards) /\
    concat (map snd (entries grouped)) ≡ₚ lateDays cards.
Proof.
  unfold daysLateMetrics. destruct (groupDaysLate Date_parse cards) as [grouped|] eqn:Hgroup;
    cbn [mbind outcome_bind]; [|discriminate].
  intros H. inversion H; subst. clear H. exists grouped.
  unfold groupDaysLate in Hgroup.
  destruct (group_from_returned cards [] grouped Hgroup) as (Hown & Hkeys & _ & Hvalues).
  specialize (Hkeys (NoDup_nil_2)).
  split; [reflexivity|]. split; [reflexivity|]. split; [exact Hkeys|]. split.
  - intros developerId days. split.
    + intros Hin. apply (own_days_entry _ _ _ Hkeys) in Hin. rewrite Hown in Hin.
      cbn [own_days default app] in Hin.
      destruct (lateDaysOf developerId cards) as [|day late]; [discriminate|].
      inversion Hin; subst. split; [discriminate|reflexivity].
    + intros [Hsome ->]. apply own_days_found. rewrite Hown. cbn [own_days default app].
      destruct (lateDaysOf developerId cards); [contradiction|reflexivity].
  - rewrite (concat_snd_perm _ _ (entries_perm grouped)). exact Hvalues.
Qed.

(** A metric written for a developer. *)
Lemma developer_metrics (cards : list Card) (metrics : list MetricsCache)
    (metric : MetricsCache) (developerId : string) :
  daysLateMetrics Date_parse cards = Returned metrics ->
  In metric metrics ->
  team_member_id metric = Some developerId ->
  lateDaysOf developerId cards <> [] /\
  metric = developer_metric (developerId, lateDaysOf developerId cards).
Proof.
  intros Hrun Hin Hid.
  destruct (daysLateMetrics_returned _ _ Hrun) as (grouped & _ & -> & _ & Hentries & _).
  apply in_app_or in Hin. destruct Hin as [Hin|[<-|[]]]; [|discriminate].
  apply in_map_iff in Hin. destruct Hin as ([who days] & <- & Hin).
  cbn in Hid. inversion Hid; subst who. apply filter_In in Hin. destruct Hin as [Hin _].
  apply (Permutation_in _ (entries_perm grouped)) in Hin.
  apply Hentries in Hin. destruct Hin as [Hsome ->]. split; [exact Hsome|reflexivity].
Qed.

(** The developers for whom a metric is written. *)
Lemma developer_has_metric (cards : list Card) (metrics : list MetricsCache)
    (developerId : string) :
  daysLateMetrics Date_parse cards = Returned metrics ->
  lateDaysOf developerId cards <> [] ->
  In (developer_metric (developerId, lateDaysOf developerId cards)) metrics.
Proof.
  intros Hrun Hsome.
  destruct (daysLateMetrics_returned _ _ Hrun) as (grouped & _ & -> & _ & Hentries & _).
  apply in_or_app. left. apply in_map. apply filter_In. split.
  - apply (Permutation_in _ (Permutation_sym (entries_perm grouped))).
    apply Hentries. split; [exact Hsome|reflexivity].
  - cbn [snd]. destruct (lateDaysOf developerId cards); [contradiction|reflexivity].
Qed.

(** The overall metric is the last one, over the late days of all cards. *)
Lemma overall_last (cards : list Card) (metrics : list MetricsCache) :
  daysLateMetrics Date_parse cards = Returned metrics ->
  exists perDeveloper,
    metrics
    = perDeveloper
      ++ [{| metric_type := "avg_days_late"; team_member_id := None;
             value := if Nat.ltb 0 (length (lateDays cards))
                      then average (lateDays cards) else 0%Q |}] /\
    Forall (fun metric => team_member_id metric <> None) perDeveloper.
Proof.
  intros Hrun.
  destruct (daysLateMetrics_returned _ _ Hrun) as (grouped & _ & -> & _ & _ & Hvalues).
  eexists. split.
  - f_equal. unfold overall_metric. f_equal. f_equal.
    rewrite (Permutation_length Hvalues), (average_perm _ _ Hvalues). reflexivity.
  - apply Forall_forall. intros metric Hin. apply list_elem_of_In, in_map_iff in Hin.
    destruct Hin as (entry & <- & _). discriminate.
Qed.

(** *** The calls of [updateOne] *)

Lemma write_all_calls (rejected : nat -> option string) (metrics : list MetricsCache) :
  forall calls result made,
    write_all rejected metrics calls = (result, made) ->
    exists unwritten,
      calls ++ metrics = made ++ unwritten /\
      (result = Returned tt -> unwritten = []).
Proof.
  induction metrics as [|metric metrics IH]; intros calls result made; cbn [write_all].
  - intros H. inversion H; subst. exists []. split; [reflexivity|auto].
  - destruct (rejected (length calls)) as [message|].
    + intros H. inversion H; subst. exists metrics. rewrite <- app_assoc. split; [reflexivity|].
      discriminate.
    + intros H. destruct (IH _ _ _ H) as (unwritten & Hsplit & Hdone).
      exists unwritten. rewrite <- app_assoc in Hsplit. auto.
Qed.

(** Every call of [calculateDaysLateMetrics] hands over one of the metrics,
    in their order, and a run that returns has handed over all of them. *)
Lemma calculateDaysLateMetrics_calls (rejected : nat -> option string) (cards : list Card)
    (result : outcome unit) (made : list MetricsCache) :
  calculateDaysLateMetrics Date_parse rejected cards = (result, made) ->
  (made = [] /\ exists message, result = Threw message) \/
  exists metrics unwritten,
    daysLateMetrics Date_parse cards = Returned metrics /\
    metrics = made ++ unwritten /\
    (result = Returned tt -> unwritten = []).
Proof.
  unfold calculateDaysLateMetrics.
  destruct (daysLateMetrics Date_parse cards) as [metrics|message].
  - intros Hrun. right. destruct (write_all_calls _ _ _ _ _ Hrun) as (unwritten & Hsplit & Hdone).
    exists metrics, unwritten. auto.
  - intros H. inversion H; subst. left. eauto.
Qed.

End DaysLateFacts.

(** A card due on 2024-01-10 and ready for the client on 2024-01-15. *)
Definition january_card : Metrics.Card :=
  {| Metrics.developer_ids := JArr [JStr "dev-1"];
     Metrics.developer := JUndefined;
     Metrics.original_due_date :=
       Metrics.Held (JObj [("start", JStr "2024-01-10"); ("end", JNull); ("time_zone", JNull)]);
     Metrics.ready_for_client_date :=
       Metrics.HeldDate (TimeValue (Metrics.days_from_civil 2024 1 15 * msPerDay));
     Metrics.done_date := Metrics.Held JUndefined;
     Metrics.deployment_date := Metrics.Held JUndefined |}.

(** The same developer's card that was never completed. *)
Definition open_card : Metrics.Card :=
  {| Metrics.developer_ids := JArr [JStr "dev-1"];
     Metrics.developer := JUndefined;
     Metrics.original_due_date :=
       Metrics.Held (JObj [("start", JStr "2024-01-10"); ("end", JNull); ("time_zone", JNull)]);
     Metrics.ready_for_client_date := Metrics.Held JUndefined;
     Metrics.done_date := Metrics.Held JUndefined;
     Metrics.deployment_date := Metrics.Held JUndefined |}.

(** C8: a card enters the average exactly when its deadline and completion
    date both resolve and the completion is strictly later, with the whole
    days between them; a card lacking either date changes no call the
    function makes; the completion date is the ready-for-client date, else
    the done date, else the deployment date; every metric handed to the
    store for a developer is the mean of the days late of the developer's
    late cards, of which there is one at least, and when the function
    returns the last metric is the overall one, the mean over all late
    cards, 0 when there is none; the dates 2024-01-10 and 2024-01-15 give
    5. *)
Theorem average_days_late_counts_late_cards_only (Date_parse : string -> Date) :
  (forall card developerId daysLate,
      Metrics.cardDaysLate Date_parse card = Returned (Some (developerId, daysLate)) <->
      exists deadline completed,
        truthy (Metrics.primaryDeveloper card) = true /\
        call_toString "primaryDeveloper" (Metrics.primaryDeveloper card)
        = Returned developerId /\
        Metrics.resolveDeadline Date_parse card = Returned (Some (TimeValue deadline)) /\
        Metrics.resolveCompletion Date_parse card = Returned (Some (TimeValue completed)) /\
        deadline < completed /\
        daysLate = (completed - deadline) / msPerDay) /\
  (forall rejected card before after,
      lacks_a_date Date_parse card ->
      Metrics.calculateDaysLateMetrics Date_parse rejected (before ++ card :: after)
      = Metrics.calculateDaysLateMetrics Date_parse rejected (before ++ after)) /\
  (forall card,
      (Metrics.stored_truthy (Metrics.ready_for_client_date card) = true ->
       Metrics.resolveCompletion Date_parse card
       = Some <$> Metrics.asDate Date_parse (Metrics.ready_for_client_date card)) /\
      (Metrics.stored_truthy (Metrics.ready_for_client_date card) = false ->
       Metrics.stored_truthy (Metrics.done_date card) = true ->
       Metrics.resolveCompletion Date_parse card
       = Some <$> Metrics.asDate Date_parse (Metrics.done_date card)) /\
      (Metrics.stored_truthy (Metrics.ready_for_client_date card) = false ->
       Metrics.stored_truthy (Metrics.done_date card) = false ->
       Metrics.stored_truthy (Metrics.deployment_date card) = true ->
       Metrics.resolveCompletion Date_parse card
       = Some <$> Metrics.asDate Date_parse (Metrics.deployment_date card)) /\
      (Metrics.stored_truthy (Metrics.ready_for_client_date card) = false ->
       Metrics.stored_truthy (Metrics.done_date card) = false ->
       Metrics.stored_truthy (Metrics.deployment_date card) = false ->
       Metrics.resolveCompletion Date_parse card = Returned None)) /\
  (forall rejected cards result made,
      Metrics.calculateDaysLateMetrics Date_parse rejected cards = (result, made) ->
      (forall metric developerId,
          In metric made ->
          Metrics.team_member_id metric = Some developerId ->
          lateDaysOf Date_parse developerId cards <> [] /\
          (Metrics.value metric == mean (lateDaysOf Date_parse developerId cards))%Q) /\
      (result = Returned tt ->
       exists perDeveloper overall,
         made = perDeveloper ++ [overall] /\
         Forall (fun metric => Metrics.team_member_id metric <> None) perDeveloper /\
         Metrics.team_member_id overall = None /\
         (Metrics.value overall
          == match lateDays Date_parse cards with
             | [] => 0
             | late => mean late
             end)%Q)) /\
  Metrics.cardDaysLate Metrics.parse_date_only january_card = Returned (Some ("dev-1", 5)) /\
  Metrics.calculateDaysLateMetrics Metrics.parse_date_only (fun _ => None)
    [january_card; open_card]
  = (Returned tt,
     [ {| Metrics.metric_type := "avg_days_late"; Metrics.team_member_id := Some "dev-1";
          Metrics.value := Qmake 5 1 |};
       {| Metrics.metric_type := "avg_days_late"; Metrics.team_member_id := None;
          Metrics.value := Qmake 5 1 |} ]).
Proof.
  split; [|split; [|split; [|split; [|split]]]].
  - intros card developerId daysLate. apply cardDaysLate_spec.
  - intros rejected card before after Hlacks.
    unfold Metrics.calculateDaysLateMetrics, Metrics.daysLateMetrics, Metrics.groupDaysLate.
    rewrite (group_from_skips Date_parse card before after);
      [reflexivity|apply cardDaysLate_lacking; exact Hlacks].
  - intros card. unfold Metrics.resolveCompletion.
    repeat split; intros; repeat match goal with H : _ = _ |- _ => rewrite H; clear H end;
      reflexivity.
  - intros rejected cards result made Hrun.
    destruct (calculateDaysLateMetrics_calls _ _ _ _ _ Hrun)
      as [[-> [message ->]]|(metrics & unwritten & Hmetrics & -> & Hdone)].
    { split; [intros metric developerId []|discriminate]. }
    split.
    + intros metric developerId Hin Hid.
      destruct (developer_metrics Date_parse cards _ metric developerId Hmetrics)
        as [Hsome ->]; [apply in_or_app; left; exact Hin|exact Hid|].
      split; [exact Hsome|]. apply average_mean. exact Hsome.
    + intros Hreturned. rewrite (Hdone Hreturned), app_nil_r in Hmetrics.
      destruct (overall_last Date_parse cards made Hmetrics) as (perDeveloper & -> & Hnamed).
      eexists perDeveloper, _. split; [reflexivity|]. split; [exact Hnamed|].
      split; [reflexivity|]. cbn [Metrics.value].
      destruct (lateDays Date_parse cards) as [|day late] eqn:Hlate; [reflexivity|].
      cbn [length Nat.ltb Nat.leb]. apply average_mean. discriminate.
  - vm_compute. reflexivity.
  - vm_compute. reflexivity.
Qed.

(** ** The Time Doctor worklog fetch *)

Section FetchWorklogsFacts.

Import TimeDoctor.

Variable fetch : WorklogRequest -> outcome Response.
Variable JSON_parse : string -> outcome jsval.
Variable parseFloat : string -> option Z.

Lemma fetchTimeDoctorWorklogs_valid_dates (config : TimeDoctorConfig) (s e : Z)
    (userIds : option (list string)) :
  fetchTimeDoctorWorklogs fetch JSON_parse parseFloat config (TimeValue s) (TimeValue e) userIds
  = try_catch (fetch_body fetch JSON_parse parseFloat config s e userIds)
      (fun _ => Returned []).
Proof. reflexivity. Qed.

(** The one way an error leaves the function: a date that does not format. *)
Lemma fetchTimeDoctorWorklogs_invalid_date (config : TimeDoctorConfig) (endDate : Date)
    (userIds : option (list string)) :
  fetchTimeDoctorWorklogs fetch JSON_parse parseFloat config InvalidDate endDate userIds
  = Threw "Invalid time value".
Proof. reflexivity. Qed.

(** With two valid dates every call returns. *)
Lemma fetchTimeDoctorWorklogs_returns (config : TimeDoctorConfig) (s e : Z)
    (userIds : option (list string)) :
  exists worklogs,
    fetchTimeDoctorWorklogs fetch JSON_parse parseFloat config (TimeValue s) (TimeValue e) userIds
    = Returned worklogs.
Proof.
  rewrite fetchTimeDoctorWorklogs_valid_dates.
  destruct (fetch_body fetch JSON_parse parseFloat config s e userIds) as [worklogs|message];
    simpl; eauto.
Qed.

Lemma check_api_error_range (data : jsval) (message : string) :
  field data "error" = JStr message ->
  includes "range too wide" message = true ->
  check_api_error data = Threw ("Time Doctor API range error: " +:+ message).
Proof.
  intros Herr Hrange. unfold check_api_error. rewrite Herr. simpl.
  destruct (String.eqb_spec message "") as [->|_]; [discriminate|]. simpl.
  rewrite Hrange. reflexivity.
Qed.

End FetchWorklogsFacts.

(** A response with status 200 and the given JSON body. *)
Definition ok_response (body : jsval) : TimeDoctor.Response :=
  {| TimeDoctor.ok := true; TimeDoctor.status := 200; TimeDoctor.statusText := "OK";
     TimeDoctor.text := Returned ""; TimeDoctor.json := Returned body |}.

Definition range_error_body : jsval :=
  JObj [("error", JStr "mergeRange: range too wide")].

(** C10: for every behaviour of the network, of the body parser and of the
    payload, a call with two valid dates, which is how the chunk loop, its
    only caller, calls it, returns; whenever a statement of the [try] block
    throws, the range error included, it returns the empty list, which is
    also what it returns for a window in which nothing was logged. *)
Theorem fetchTimeDoctorWorklogs_swallows_every_error
    (fetch : TimeDoctor.WorklogRequest -> outcome TimeDoctor.Response)
    (JSON_parse : string -> outcome jsval) (parseFloat : string -> option Z)
    (config : TimeDoctor.TimeDoctorConfig) (s e : Z) (userIds : option (list string)) :
  (exists worklogs,
      TimeDoctor.fetchTimeDoctorWorklogs fetch JSON_parse parseFloat config
        (TimeValue s) (TimeValue e) userIds = Returned worklogs) /\
  (forall message,
      TimeDoctor.fetch_body fetch JSON_parse parseFloat config s e userIds = Threw message ->
      TimeDoctor.fetchTimeDoctorWorklogs fetch JSON_parse parseFloat config
        (TimeValue s) (TimeValue e) userIds = Returned []) /\
  (forall response data message,
      fetch (TimeDoctor.worklog_request config s e userIds) = Returned response ->
      TimeDoctor.ok response = true ->
      TimeDoctor.json response = Returned data ->
      field data "error" = JStr message ->
      includes "range too wide" message = true ->
      TimeDoctor.fetch_body fetch JSON_parse parseFloat config s e userIds
      = Threw ("Time Doctor API range error: " +:+ message) /\
      TimeDoctor.fetchTimeDoctorWorklogs fetch JSON_parse parseFloat config
        (TimeValue s) (TimeValue e) userIds = Returned []) /\
  (forall message,
      TimeDoctor.fetch_body fetch JSON_parse parseFloat config s e userIds = Threw message ->
      TimeDoctor.fetchTimeDoctorWorklogs fetch JSON_parse parseFloat config
        (TimeValue s) (TimeValue e) userIds
      = TimeDoctor.fetchTimeDoctorWorklogs (fun _ => Returned (ok_response (JArr [])))
          JSON_parse parseFloat config (TimeValue s) (TimeValue e) userIds).
Proof.
  split; [apply fetchTimeDoctorWorklogs_returns|].
  rewrite fetchTimeDoctorWorklogs_valid_dates.
  split; [|split].
  - intros message ->. reflexivity.
  - intros response data message Hfetch Hok Hjson Herr Hrange.
    assert (Hbody : TimeDoctor.fetch_body fetch JSON_parse parseFloat config s e userIds
                    = Threw ("Time Doctor API range error: " +:+ message)).
    { unfold TimeDoctor.fetch_body. rewrite Hfetch. simpl. rewrite Hok. simpl.
      rewrite Hjson. simpl. rewrite (check_api_error_range data message Herr Hrange).
      reflexivity. }
    split; [exact Hbody|]. rewrite Hbody. reflexivity.
  - intros message ->. reflexivity.
Qed.

Definition sample_config : TimeDoctor.TimeDoctorConfig :=
  {| TimeDoctor.apiToken := "token"; TimeDoctor.companyId := "company" |}.

Lemma fetchTimeDoctorWorklogs_swallows_every_error_witness :
  TimeDoctor.fetchTimeDoctorWorklogs (fun _ => Returned (ok_response range_error_body))
    (fun _ => Threw "SyntaxError") (fun _ => None) sample_config
    (TimeValue 0) (TimeValue (7 * msPerDay)) (Some ["u1"]) = Returned [].
Proof.
  refine (proj2 (proj1 (proj2 (proj2 (fetchTimeDoctorWorklogs_swallows_every_error
            (fun _ => Returned (ok_response range_error_body))
            (fun _ => Threw "SyntaxError") (fun _ => None) sample_config
            0 (7 * msPerDay) (Some ["u1"]))))
            (ok_response range_error_body) range_error_body "mergeRange: range too wide"
            _ _ _ _ _)); reflexivity.
Defined.

(** ** The chunked range fetch *)

Section ChunkedFetchFacts.

Import TimeDoctor.

Variable api : nat -> WorklogRequest -> outcome Response.
Variable JSON_parse : string -> outcome jsval.
Variable parseFloat : string -> option Z.
Variable config : TimeDoctorConfig.
Variable userIds : list string.

Lemma fetch_window_returns (seen : list Window) (from to : Z) :
  exists worklogs,
    fetch_window api JSON_parse parseFloat config userIds seen from to = Returned worklogs.
Proof.
  unfold fetch_window.
  apply fetchTimeDoctorWorklogs_returns.
Qed.

(** Each turn of the chunk loop fetches its 7-day window and nothing else:
    the [catch] block, and with it the 3-day retry, is never entered. *)
Lemma chunk_loop_one_fetch_per_window (remaining : nat) :
  forall currentStart endDate allWorklogs seen,
    length (snd (chunk_loop api JSON_parse parseFloat config userIds remaining
                   currentStart endDate allWorklogs seen))
    = (length seen + remaining)%nat.
Proof.
  induction remaining as [|remaining IH]; intros currentStart endDate allWorklogs seen.
  - simpl. lia.
  - cbn [chunk_loop].
    match goal with
    | |- context [fetch_window ?a ?j ?p ?c ?u ?s ?f ?t] =>
        destruct (fetch_window_returns s f t) as [worklogs ->]
    end.
    rewrite IH, length_app. simpl. lia.
Qed.

Lemma range_retry_never_runs (s e : Z) :
  length (snd (syncTimeDoctorWorklogs_chunks api JSON_parse parseFloat config userIds
                 (TimeValue s) (TimeValue e)))
  = Z.to_nat (ceil_div (ceil_div (e - s) msPerDay) 7).
Proof.
  unfold syncTimeDoctorWorklogs_chunks. rewrite chunk_loop_one_fetch_per_window.
  reflexivity.
Qed.

End ChunkedFetchFacts.

(** One hour logged by user [u1] on project [p1], stamped with the start of
    the window that reported it. *)
Definition window_entry (from : Z) : jsval :=
  JObj [("userId", JStr "u1"); ("projectId", JStr "p1"); ("time", JNum 3600);
        ("start", JNum from)].

Definition window_worklog (from : Z) : TimeDoctor.TimeDoctorApiWorklog :=
  {| TimeDoctor.userId := Some "u1"; TimeDoctor.projectId := Some "p1";
     TimeDoctor.time := Some 3600; TimeDoctor.start := JNum from;
     TimeDoctor.projectName := JUndefined; TimeDoctor.taskName := JUndefined;
     TimeDoctor.mode := JUndefined |}.

(** An account whose first week is too wide to query in one request: the
    window from day 0 to day 7 is refused, every other window, the 3-day
    windows inside the first week included, answers with its entry. *)
Definition first_week_too_wide (n : nat) (request : TimeDoctor.WorklogRequest)
    : outcome TimeDoctor.Response :=
  if (TimeDoctor.req_from request =? 0) && (TimeDoctor.req_to request =? 7 * msPerDay)
  then Returned (ok_response (JObj [("error", JStr "range too wide")]))
  else Returned (ok_response (JArr [window_entry (TimeDoctor.req_from request)])).

Definition day (n : Z) : Z := n * msPerDay.

(** C1 on the code: over 30 days with the first week refused, the three
    3-day windows of that week are never requested and none of their entries
    is in the aggregate. *)
Theorem chunked_fetch_drops_refused_window :
  TimeDoctor.syncTimeDoctorWorklogs_chunks first_week_too_wide
    (fun _ => Threw "SyntaxError") (fun _ => None) sample_config ["u1"]
    (TimeValue 0) (TimeValue (day 30))
  = ([window_worklog (day 8); window_worklog (day 16); window_worklog (day 24);
      window_worklog (day 31)],
     [{| TimeDoctor.window_from := day 0; TimeDoctor.window_to := day 7 |};
      {| TimeDoctor.window_from := day 8; TimeDoctor.window_to := day 15 |};
      {| TimeDoctor.window_from := day 16; TimeDoctor.window_to := day 23 |};
      {| TimeDoctor.window_from := day 24; TimeDoctor.window_to := day 30 |};
      {| TimeDoctor.window_from := day 31; TimeDoctor.window_to := day 30 |}]).
Proof. vm_compute. reflexivity. Qed.

(** The 3-day windows would have answered. *)
Example first_week_recoverable :
  TimeDoctor.fetchTimeDoctorWorklogs (first_week_too_wide 0)
    (fun _ => Threw "SyntaxError") (fun _ => None) sample_config
    (TimeValue (day 3)) (TimeValue (day 6)) (Some ["u1"])
  = Returned [window_worklog (day 3)].
Proof. vm_compute. reflexivity. Qed.

(** ** Identity matching *)

Section MatchingFacts.

Import TimeDoctor.

Variable normalized : string -> string.


(** The notion id an exact match of the normalized name offers. *)
Definition name_match (teamMemberByName : gmap string TeamMember)
    (tdUser : TimeDoctorApiUser) : option string :=
  name ← given (Some (td_name tdUser)); offered teamMemberByName (normalized name).


Variables teamMemberByEmail teamMemberByName : gmap string TeamMember.






End MatchingFacts.

Section IndexFacts.

Import TimeDoctor.

Variable normalized : string -> string.



Definition member_indexes (teamMembers : list TeamMember)
    : gmap string TeamMember * gmap string TeamMember :=
  fold_left (index_member normalized) teamMembers (∅, ∅).







End IndexFacts.


Definition alice : TimeDoctor.TeamMember :=
  {| TimeDoctor.tm_notion_id := Some "notion-alice"; TimeDoctor.tm_name := "Alice Moreau";
     TimeDoctor.tm_email := Some "alice@example.com" |}.

Definition bob : TimeDoctor.TeamMember :=
  {| TimeDoctor.tm_notion_id := Some "notion-bob"; TimeDoctor.tm_name := "Bob Stone";
     TimeDoctor.tm_email := Some "bob@example.com" |}.

(** A candidate with Alice's email, in another case and padded, and Bob's
    name. *)
Definition mixed_candidate : TimeDoctor.TimeDoctorApiUser :=
  {| TimeDoctor.td_id := "td-7"; TimeDoctor.td_name := "BOB STONE";
     TimeDoctor.td_email := Some " Alice@Example.COM " |}.



Example name_match_of_mixed_candidate :
  name_match TimeDoctor.ascii_normalized
    (snd (member_indexes TimeDoctor.ascii_normalized [alice; bob])) mixed_candidate
  = Some "notion-bob".
Proof. vm_compute. reflexivity. Qed.

(** ** The status history *)

(** One driver call of a run: split on whether it fails. *)
Ltac driver_call faulty F :=
  cbn [Extractor.db Extractor.tick fst snd];
  match goal with
  | |- context [faulty ?n ?op] => destruct (faulty n op) eqn:F
  end.

(** The run stopped at a failed call: nothing was written, and the schedule
    is not the faultless one. *)
Ltac fault_case F :=
  eexists _, _; split; [reflexivity|]; cbn; repeat split; auto;
  let Hnf := fresh "Hnf" in intros Hnf; rewrite Hnf in F; discriminate.

Section StatusHistoryFacts.

Import Extractor.

Variable faulty : nat -> DbOp -> bool.
Variable clock : nat -> Z.
Variable sort_ties : CardStatusHistory -> CardStatusHistory -> bool.

(** The key under which the history of a card is kept and its latest record,
    as [recordStatusHistory] reads them from a store. *)
Definition history_key_in (d : Db) (card : Card) : string :=
  history_key (find_card (notion_id card) d) card.

Definition last_history_in (d : Db) (card : Card) : option CardStatusHistory :=
  latest_history sort_ties (history_key_in d card) (card_status_history d).

(** What a call of [recordStatusHistory] leaves: the cards untouched, and the
    history longer by one record exactly when the call got through and the
    status changed. *)
Lemma recordStatusHistory_effect (card : Card) (w : World) :
  exists r w',
    recordStatusHistory faulty clock sort_ties card w = Some (r, w') /\
    cards (db w') = cards (db w) /\
    next_oid (db w') = next_oid (db w) /\
    card_status_history (db w')
    = (if returned r && status_changed (last_history_in (db w) card) card
       then card_status_history (db w)
            ++ [history_record (history_key_in (db w) card) card (clock (tick w + 3))]
       else card_status_history (db w)) /\
    ((forall n op, faulty n op = false) -> r = Returned tt).
Proof.
  unfold recordStatusHistory, getDb, db_call, last_history_in, history_key_in.
  unfold mbind, M_bind, mret, M_ret, now.
  driver_call faulty F0; [fault_case F0|].
  driver_call faulty F1; [fault_case F1|].
  driver_call faulty F2; [fault_case F2|].
  cbn [db tick fst snd].
  destruct (status_changed
              (latest_history sort_ties (history_key (find_card (notion_id card) (db w)) card)
                 (card_status_history (db w))) card) eqn:Hchanged.
  - driver_call faulty F3; [fault_case F3|].
    eexists _, _. split; [reflexivity|]. cbn.
    replace (tick w + 3)%nat with (S (S (S (tick w)))) by lia.
    repeat split; auto.
  - eexists _, _. split; [reflexivity|]. cbn. repeat split; auto.
Qed.

End StatusHistoryFacts.

Definition no_faults (n : nat) (op : Extractor.DbOp) : bool := false.

Definition tick_clock (n : nat) : Z := 1000 * Z.of_nat n.

(** The order of a collection scan: of two records of one date, the one
    inserted first comes first. *)
Definition insertion_order (b h : Extractor.CardStatusHistory) : bool := false.

Definition empty_db : Extractor.Db :=
  {| Extractor.cards := []; Extractor.card_status_history := [];
     Extractor.sync_logs := []; Extractor.clients := []; Extractor.next_oid := 0 |}.

Definition empty_world : Extractor.World :=
  {| Extractor.db := empty_db; Extractor.tick := 0 |}.

(** A card whose page has no status. *)
Definition statusless_card : Extractor.Card :=
  {| Extractor.notion_id := "page-1"; Extractor.title := "Untitled";
     Extractor.status := None; Extractor.client_id := None;
     Extractor.updated_at := 500; Extractor._id := None |}.

(** C3, amended: [recordStatusHistory] appends a record exactly when the call
    gets through the driver and either the card has no record yet or the
    status of its latest record differs from the card's status, absent
    included; the record of a card without status says 'Unknown'; otherwise
    the history is as before. *)
Theorem recordStatusHistory_appends_on_change
    (faulty : nat -> Extractor.DbOp -> bool) (clock : nat -> Z)
    (sort_ties : Extractor.CardStatusHistory -> Extractor.CardStatusHistory -> bool)
    (card : Extractor.Card) (w : Extractor.World) :
  exists r w',
    Extractor.recordStatusHistory faulty clock sort_ties card w = Some (r, w') /\
    (Extractor.card_status_history (Extractor.db w')
     = Extractor.card_status_history (Extractor.db w)
       ++ [Extractor.history_record (history_key_in (Extractor.db w) card) card
             (clock (Extractor.tick w + 3)%nat)]
     <-> returned r = true /\
         (last_history_in sort_ties (Extractor.db w) card = None \/
          exists h, last_history_in sort_ties (Extractor.db w) card = Some h /\
                    Extractor.status card <> Some (Extractor.history_status h))) /\
    (Extractor.card_status_history (Extractor.db w')
     = Extractor.card_status_history (Extractor.db w)
     <-> ~ (returned r = true /\
            (last_history_in sort_ties (Extractor.db w) card = None \/
             exists h, last_history_in sort_ties (Extractor.db w) card = Some h /\
                       Extractor.status card <> Some (Extractor.history_status h)))) /\
    ((forall n op, faulty n op = false) -> r = Returned tt) /\
    (Extractor.status card = None ->
     Extractor.history_status
       (Extractor.history_record (history_key_in (Extractor.db w) card) card
          (clock (Extractor.tick w + 3)%nat)) = "Unknown").
Proof.
  destruct (recordStatusHistory_effect faulty clock sort_ties card w)
    as (r & w' & Hrun & _ & _ & Hhist & Hnf).
  exists r, w'. split; [exact Hrun|].
  assert (Hcond : returned r
                  && Extractor.status_changed (last_history_in sort_ties (Extractor.db w) card) card
                  = true
                  <-> returned r = true /\
                      (last_history_in sort_ties (Extractor.db w) card = None \/
                       exists h, last_history_in sort_ties (Extractor.db w) card = Some h /\
                                 Extractor.status card <> Some (Extractor.history_status h))).
  { rewrite andb_true_iff. apply and_iff_compat_l.
    unfold Extractor.status_changed, Extractor.status_differs.
    destruct (last_history_in sort_ties (Extractor.db w) card) as [h|].
    - destruct (Extractor.status card) as [s|].
      + destruct (String.eqb_spec (Extractor.history_status h) s) as [Heq|Hne]; simpl.
        * split; [discriminate|]. intros [H|(h' & Hh & Hs)]; [discriminate|].
          inversion Hh; subst. congruence.
        * split; [|reflexivity]. intros _. right. exists h. split; [reflexivity|]. congruence.
      + split; [|reflexivity]. intros _. right. exists h. split; [reflexivity|]. discriminate.
    - split; [|reflexivity]. intros _. left. reflexivity. }
  assert (Hgrow : forall (l : list Extractor.CardStatusHistory) x, l ++ [x] <> l).
  { intros l x Heq. apply (f_equal (@length _)) in Heq. rewrite length_app in Heq.
    simpl in Heq. lia. }
  rewrite Hhist.
  destruct (returned r
            && Extractor.status_changed (last_history_in sort_ties (Extractor.db w) card) card)
    eqn:Hb.
  - split; [|split; [|split]].
    + split; [intros _; apply Hcond; reflexivity|reflexivity].
    + split; [intros Heq; exfalso; exact (Hgrow _ _ Heq)|].
      intros Hnot. exfalso. apply Hnot. apply Hcond. reflexivity.
    + exact Hnf.
    + intros Hnone. unfold Extractor.history_record. simpl. rewrite Hnone. reflexivity.
  - split; [|split; [|split]].
    + split; [intros Heq; exfalso; symmetry in Heq; exact (Hgrow _ _ Heq)|].
      intros Hyes. apply Hcond in Hyes. discriminate.
    + split; [|reflexivity]. intros _ Hyes. apply Hcond in Hyes. discriminate.
    + exact Hnf.
    + intros Hnone. unfold Extractor.history_record. simpl. rewrite Hnone. reflexivity.
Qed.

(** C3 as stated fails for a card without status and without history: the
    claim leaves the history unchanged, the code records 'Unknown'. *)
Lemma recordStatusHistory_records_unknown :
  last_history_in insertion_order empty_db statusless_card = None /\
  Extractor.status statusless_card = None /\
  exists w',
    Extractor.recordStatusHistory no_faults tick_clock insertion_order statusless_card empty_world
    = Some (Returned tt, w') /\
    Extractor.card_status_history (Extractor.db w')
    = [{| Extractor.card_id := "page-1"; Extractor.history_status := "Unknown";
          Extractor.changed_at := 500; Extractor.detected_at := 3000;
          Extractor.source := "notion" |}].
Proof.
  split; [reflexivity|]. split; [reflexivity|].
  eexists. split; vm_compute; reflexivity.
Qed.

(** ** Status dedup over repeated upserts *)

Section UpsertFacts.

Import Extractor.

Variable clock : nat -> Z.
Variable sort_ties : CardStatusHistory -> CardStatusHistory -> bool.

(** The key the history of an entity is kept under: the id of its card
    document, which the first upsert creates. *)
Definition entity_key (notionId : string) (d : Db) : string :=
  match find_card notionId d with
  | Some doc => if String.eqb (doc_id doc) "" then notionId else doc_id doc
  | None => fresh_oid (next_oid d)
  end.

(** The history records of an entity, in insertion order. *)
Definition entity_history (key : string) (d : Db) : list CardStatusHistory :=
  List.filter (fun h => String.eqb (card_id h) key) (card_status_history d).

Lemma find_replaced (card : Card) (docs : list CardDoc) (doc : CardDoc) :
  List.find (fun x => String.eqb (notion_id (doc_card x)) (notion_id card)) docs = Some doc ->
  List.find (fun x => String.eqb (notion_id (doc_card x)) (notion_id card))
    (replace_card card docs)
  = Some {| doc_id := doc_id doc; doc_card := card |}.
Proof.
  induction docs as [|first docs IH]; simpl; [discriminate|].
  destruct (String.eqb (notion_id (doc_card first)) (notion_id card)) eqn:Hfirst.
  - intros H. inversion H; subst. simpl. rewrite String.eqb_refl. reflexivity.
  - intros H. simpl. rewrite Hfirst. apply IH. exact H.
Qed.

Lemma find_appended (card : Card) (docs : list CardDoc) (doc : CardDoc) :
  List.find (fun x => String.eqb (notion_id (doc_card x)) (notion_id card)) docs = None ->
  notion_id (doc_card doc) = notion_id card ->
  List.find (fun x => String.eqb (notion_id (doc_card x)) (notion_id card)) (docs ++ [doc])
  = Some doc.
Proof.
  intros Hnone Hdoc. induction docs as [|first docs IH]; simpl in *.
  - rewrite Hdoc, String.eqb_refl. reflexivity.
  - destruct (String.eqb (notion_id (doc_card first)) (notion_id card)); [discriminate|].
    apply IH. exact Hnone.
Qed.

(** After the upsert the card document exists, under the entity's key. *)
Lemma upsert_card_found (card : Card) (d : Db) :
  exists doc,
    find_card (notion_id card) (upsert_card card d) = Some doc /\
    (if String.eqb (doc_id doc) "" then notion_id card else doc_id doc)
    = entity_key (notion_id card) d.
Proof.
  unfold upsert_card, entity_key, find_card.
  destruct (List.find _ (cards d)) as [doc|] eqn:Hfind; simpl.
  - eexists. split; [apply find_replaced; exact Hfind|]. reflexivity.
  - eexists. split; [apply find_appended; [exact Hfind|reflexivity]|]. reflexivity.
Qed.

Lemma latest_history_filtered (key : string) (history : list CardStatusHistory) :
  forall best,
    fold_left
      (fun best h =>
         if String.eqb (card_id h) key then
           match best with
           | Some b => if sorts_first sort_ties b h then Some h else Some b
           | None => Some h
           end
         else best)
      (List.filter (fun h => String.eqb (card_id h) key) history) best
    = fold_left
        (fun best h =>
           if String.eqb (card_id h) key then
             match best with
             | Some b => if sorts_first sort_ties b h then Some h else Some b
             | None => Some h
             end
           else best)
        history best.
Proof.
  induction history as [|h history IH]; intros best; simpl; [reflexivity|].
  destruct (String.eqb (card_id h) key) eqn:Hkey; simpl.
  - rewrite Hkey. apply IH.
  - apply IH.
Qed.

Lemma latest_history_of_entity (key : string) (d : Db) :
  latest_history sort_ties key (card_status_history d)
  = latest_history sort_ties key (entity_history key d).
Proof.
  unfold latest_history, entity_history. symmetry. apply latest_history_filtered.
Qed.

(** One upsert on a store whose driver never fails: the entity keeps its key,
    and its history grows by one record exactly when the status changed. *)
Lemma persistCard_step (card : Card) (w : World) :
  exists w' detected,
    persistCard no_faults clock sort_ties card w = Some (Returned tt, w') /\
    entity_key (notion_id card) (db w') = entity_key (notion_id card) (db w) /\
    entity_history (entity_key (notion_id card) (db w)) (db w')
    = (if status_changed
            (latest_history sort_ties (entity_key (notion_id card) (db w))
               (entity_history (entity_key (notion_id card) (db w)) (db w))) card
       then entity_history (entity_key (notion_id card) (db w)) (db w)
            ++ [history_record (entity_key (notion_id card) (db w)) card detected]
       else entity_history (entity_key (notion_id card) (db w)) (db w)).
Proof.
  destruct (upsert_card_found card (db w)) as (doc & Hfound & Hkey).
  set (card' := match given (_id card) with
                | None =>
                    {| notion_id := notion_id card; title := title card; status := status card;
                       client_id := client_id card; updated_at := updated_at card;
                       _id := Some (doc_id doc) |}
                | Some _ => card
                end).
  assert (Hnid : notion_id card' = notion_id card).
  { unfold card'. destruct (given (_id card)); reflexivity. }
  assert (Hstatus : status card' = status card).
  { unfold card'. destruct (given (_id card)); reflexivity. }
  assert (Hupdated : updated_at card' = updated_at card).
  { unfold card'. destruct (given (_id card)); reflexivity. }
  set (w2 := {| db := upsert_card card (db w);
                tick := (match given (client_id card') with
                         | Some _ => 3 | None => 2 end + tick w)%nat |}).
  assert (Hrun : persistCard no_faults clock sort_ties card w
                 = recordStatusHistory no_faults clock sort_ties card' w2).
  { unfold persistCard, db_call, no_faults, mbind, M_bind, mret, M_ret.
    cbn [db tick fst snd]. rewrite Hfound. fold card'.
    unfold w2. destruct (given (client_id card')); reflexivity. }
  destruct (recordStatusHistory_effect no_faults clock sort_ties card' w2)
    as (r & w' & Hrsh & Hcards & Hoid & Hhist & Hnf).
  rewrite (Hnf (fun _ _ => eq_refl)) in *. clear Hnf.
  assert (Hk2 : history_key_in (db w2) card' = entity_key (notion_id card) (db w)).
  { unfold history_key_in, history_key. rewrite Hnid. cbn [db w2]. rewrite Hfound. exact Hkey. }
  exists w', (clock (tick w2 + 3)%nat). split; [rewrite Hrun; exact Hrsh|].
  split.
  - unfold entity_key, find_card. rewrite Hcards. cbn [db w2].
    fold (find_card (notion_id card) (upsert_card card (db w))). rewrite Hfound. exact Hkey.
  - unfold entity_history at 1. rewrite Hhist. cbn [returned andb].
    unfold last_history_in. rewrite Hk2.
    assert (Hsame : card_status_history (db w2) = card_status_history (db w)).
    { unfold w2. cbn [db]. unfold upsert_card.
      destruct (find_card (notion_id card) (db w)); reflexivity. }
    rewrite Hsame, latest_history_of_entity.
    assert (Hchanged : forall last, status_changed last card' = status_changed last card).
    { intros last. unfold status_changed. rewrite Hstatus. reflexivity. }
    rewrite Hchanged.
    destruct (status_changed _ card).
    + rewrite List.filter_app. simpl. rewrite String.eqb_refl.
      unfold history_record. rewrite Hstatus, Hupdated. reflexivity.
    + reflexivity.
Qed.

End UpsertFacts.

(** The card of an entity as a sync pass upserts it: the entity with the
    status and the last-edited time of that moment. *)
Definition revision (base : Extractor.Card) (s : string) (t : Z) : Extractor.Card :=
  {| Extractor.notion_id := Extractor.notion_id base; Extractor.title := Extractor.title base;
     Extractor.status := Some s; Extractor.client_id := Extractor.client_id base;
     Extractor.updated_at := t; Extractor._id := Extractor._id base |}.

Lemma history_status_revision (key : string) (base : Extractor.Card) (s : string) (t d : Z) :
  s <> "" ->
  Extractor.history_status (Extractor.history_record key (revision base s t) d) = s.
Proof.
  intros Hs. unfold Extractor.history_record, revision, given. simpl.
  destruct (String.eqb_spec s ""); [contradiction|reflexivity].
Qed.

Lemma latest_history_single
    (sort_ties : Extractor.CardStatusHistory -> Extractor.CardStatusHistory -> bool)
    (key : string) (r : Extractor.CardStatusHistory) :
  Extractor.card_id r = key -> Extractor.latest_history sort_ties key [r] = Some r.
Proof.
  intros <-. unfold Extractor.latest_history. simpl. rewrite String.eqb_refl. reflexivity.
Qed.

(** Of two records with different dates the later dated is the latest,
    whatever the order of ties. *)
Lemma latest_history_pair
    (sort_ties : Extractor.CardStatusHistory -> Extractor.CardStatusHistory -> bool)
    (key : string) (r1 r2 : Extractor.CardStatusHistory) :
  Extractor.card_id r1 = key -> Extractor.card_id r2 = key ->
  Extractor.changed_at r1 < Extractor.changed_at r2 ->
  Extractor.latest_history sort_ties key [r1; r2] = Some r2.
Proof.
  intros H1 H2 Hlt. unfold Extractor.latest_history, Extractor.sorts_first. simpl.
  rewrite H1, H2, String.eqb_refl.
  destruct (Z.ltb_spec (Extractor.changed_at r1) (Extractor.changed_at r2)); [reflexivity|lia].
Qed.

Lemma status_changed_revision (r : Extractor.CardStatusHistory) (base : Extractor.Card)
    (s : string) (t : Z) :
  Extractor.status_changed (Some r) (revision base s t)
  = negb (String.eqb (Extractor.history_status r) s).
Proof. reflexivity. Qed.

(** C9, amended: six upserts of one entity with the statuses A, A, B, B, B, A,
    A and B different and not empty, on a store that holds no history of the
    entity, leave exactly three history records of it, with the statuses
    A, B, A in order, provided the card that first carries B has a later
    last-edited time than the card that first carried A. The order the
    driver gives to records of one date plays no part. *)
Theorem status_sequence_yields_three_records
    (clock : nat -> Z)
    (sort_ties : Extractor.CardStatusHistory -> Extractor.CardStatusHistory -> bool)
    (base : Extractor.Card) (A B : string) (t1 t2 t3 t4 t5 t6 : Z)
    (w : Extractor.World) :
  A <> B -> A <> "" -> B <> "" ->
  t1 < t3 ->
  entity_history (entity_key (Extractor.notion_id base) (Extractor.db w)) (Extractor.db w) = [] ->
  exists w',
    Extractor.for_each (Extractor.persistCard no_faults clock sort_ties)
      [revision base A t1; revision base A t2; revision base B t3;
       revision base B t4; revision base B t5; revision base A t6] w
    = Some (Returned tt, w') /\
    map Extractor.history_status
      (entity_history (entity_key (Extractor.notion_id base) (Extractor.db w)) (Extractor.db w'))
    = [A; B; A] /\
    map Extractor.changed_at
      (entity_history (entity_key (Extractor.notion_id base) (Extractor.db w)) (Extractor.db w'))
    = [t1; t3; t6].
Proof.
  intros HAB HA HB Ht Hempty.
  set (key := entity_key (Extractor.notion_id base) (Extractor.db w)) in *.
  assert (HAA : String.eqb A A = true) by apply String.eqb_refl.
  assert (HBB : String.eqb B B = true) by apply String.eqb_refl.
  assert (HAB' : String.eqb A B = false) by (apply String.eqb_neq; exact HAB).
  assert (HBA' : String.eqb B A = false) by (apply String.eqb_neq; congruence).
  destruct (persistCard_step clock sort_ties (revision base A t1) w) as (w1 & d1 & R1 & K1 & H1).
  cbn [revision Extractor.notion_id] in K1, H1. fold key in K1, H1.
  rewrite Hempty in H1. cbn in H1.
  destruct (persistCard_step clock sort_ties (revision base A t2) w1) as (w2 & d2 & R2 & K2 & H2).
  cbn [revision Extractor.notion_id] in K2, H2. rewrite K1 in K2, H2.
  rewrite H1, latest_history_single, status_changed_revision in H2 by reflexivity.
  rewrite history_status_revision, HAA in H2 by exact HA. cbn [negb] in H2.
  destruct (persistCard_step clock sort_ties (revision base B t3) w2) as (w3 & d3 & R3 & K3 & H3).
  cbn [revision Extractor.notion_id] in K3, H3. rewrite K2 in K3, H3.
  rewrite H2, latest_history_single, status_changed_revision in H3 by reflexivity.
  rewrite history_status_revision, HAB' in H3 by exact HA. cbn [negb] in H3.
  destruct (persistCard_step clock sort_ties (revision base B t4) w3) as (w4 & d4 & R4 & K4 & H4).
  cbn [revision Extractor.notion_id] in K4, H4. rewrite K3 in K4, H4.
  rewrite H3 in H4. cbn [app] in H4.
  rewrite latest_history_pair, status_changed_revision in H4 by (try reflexivity; exact Ht).
  rewrite history_status_revision, HBB in H4 by exact HB. cbn [negb] in H4.
  destruct (persistCard_step clock sort_ties (revision base B t5) w4) as (w5 & d5 & R5 & K5 & H5).
  cbn [revision Extractor.notion_id] in K5, H5. rewrite K4 in K5, H5.
  rewrite H4 in H5. cbn [app] in H5.
  rewrite latest_history_pair, status_changed_revision in H5 by (try reflexivity; exact Ht).
  rewrite history_status_revision, HBB in H5 by exact HB. cbn [negb] in H5.
  destruct (persistCard_step clock sort_ties (revision base A t6) w5) as (w6 & d6 & R6 & K6 & H6).
  cbn [revision Extractor.notion_id] in K6, H6. rewrite K5 in K6, H6.
  rewrite H5 in H6. cbn [app] in H6.
  rewrite latest_history_pair, status_changed_revision in H6 by (try reflexivity; exact Ht).
  rewrite history_status_revision, HBA' in H6 by exact HB. cbn [negb app] in H6.
  exists w6. split; [|split].
  - cbn [Extractor.for_each]. unfold mbind, Extractor.M_bind.
    rewrite R1, R2, R3, R4, R5, R6. reflexivity.
  - rewrite H6. cbn [map]. rewrite !history_status_revision by assumption. reflexivity.
  - rewrite H6. reflexivity.
Qed.

Definition sample_card : Extractor.Card :=
  {| Extractor.notion_id := "page-1"; Extractor.title := "Checkout redesign";
     Extractor.status := None; Extractor.client_id := Some "client-9";
     Extractor.updated_at := 0; Extractor._id := None |}.

Lemma status_sequence_yields_three_records_witness :
  exists w',
    Extractor.for_each (Extractor.persistCard no_faults tick_clock insertion_order)
      [revision sample_card "In Progress" 10; revision sample_card "In Progress" 10;
       revision sample_card "QI" 20; revision sample_card "QI" 20;
       revision sample_card "QI" 25; revision sample_card "In Progress" 30] empty_world
    = Some (Returned tt, w') /\
    map Extractor.history_status
      (entity_history (entity_key "page-1" empty_db) (Extractor.db w'))
    = ["In Progress"; "QI"; "In Progress"] /\
    map Extractor.changed_at
      (entity_history (entity_key "page-1" empty_db) (Extractor.db w'))
    = [10; 20; 30].
Proof.
  apply (status_sequence_yields_three_records tick_clock insertion_order sample_card
           "In Progress" "QI"
           10 10 20 20 25 30 empty_world).
  - discriminate.
  - discriminate.
  - discriminate.
  - lia.
  - reflexivity.
Defined.

(** The other order of ties: of two records of one date, the one inserted
    last comes first. *)
Definition newest_first (b h : Extractor.CardStatusHistory) : bool := true.

(** C9 as stated fails when the card that first carries B has an earlier
    last-edited time than the card that carried A. The latest record is
    looked up by [changed_at], not by insertion, so the lookup keeps
    answering the record of A: every B is recorded and the final A is not.
    No two records of different status share a date here, so the order of
    ties plays no part. *)
Lemma status_sequence_out_of_order_yields_four_records :
  (exists w',
     Extractor.for_each (Extractor.persistCard no_faults tick_clock insertion_order)
       [revision sample_card "In Progress" 10; revision sample_card "In Progress" 10;
        revision sample_card "QI" 5; revision sample_card "QI" 5;
        revision sample_card "QI" 5; revision sample_card "In Progress" 30] empty_world
     = Some (Returned tt, w') /\
     map Extractor.history_status
       (entity_history (entity_key "page-1" empty_db) (Extractor.db w'))
     = ["In Progress"; "QI"; "QI"; "QI"]) /\
  (exists w',
     Extractor.for_each (Extractor.persistCard no_faults tick_clock newest_first)
       [revision sample_card "In Progress" 10; revision sample_card "In Progress" 10;
        revision sample_card "QI" 5; revision sample_card "QI" 5;
        revision sample_card "QI" 5; revision sample_card "In Progress" 30] empty_world
     = Some (Returned tt, w') /\
     map Extractor.history_status
       (entity_history (entity_key "page-1" empty_db) (Extractor.db w'))
     = ["In Progress"; "QI"; "QI"; "QI"]).
Proof. split; eexists; split; vm_compute; reflexivity. Qed.

(** When the first B carries the very date of the first A, as two edits
    within one minute of Notion's clock do, the outcome is the driver's: the
    order of a collection scan records B three times and the final A never,
    the opposite order gives the three records. *)
Example status_sequence_with_equal_times :
  (exists w',
     Extractor.for_each (Extractor.persistCard no_faults tick_clock insertion_order)
       [revision sample_card "In Progress" 10; revision sample_card "In Progress" 10;
        revision sample_card "QI" 10; revision sample_card "QI" 10;
        revision sample_card "QI" 10; revision sample_card "In Progress" 30] empty_world
     = Some (Returned tt, w') /\
     map Extractor.history_status
       (entity_history (entity_key "page-1" empty_db) (Extractor.db w'))
     = ["In Progress"; "QI"; "QI"; "QI"]) /\
  (exists w',
     Extractor.for_each (Extractor.persistCard no_faults tick_clock newest_first)
       [revision sample_card "In Progress" 10; revision sample_card "In Progress" 10;
        revision sample_card "QI" 10; revision sample_card "QI" 10;
        revision sample_card "QI" 10; revision sample_card "In Progress" 30] empty_world
     = Some (Returned tt, w') /\
     map Extractor.history_status
       (entity_history (entity_key "page-1" empty_db) (Extractor.db w'))
     = ["In Progress"; "QI"; "In Progress"]).
Proof. split; eexists; split; vm_compute; reflexivity. Qed.

(** ** The sync pass *)

Section SyncFacts.

Import Extractor.

Variable faulty : nat -> DbOp -> bool.
Variable clock : nat -> Z.
Variable sort_ties : CardStatusHistory -> CardStatusHistory -> bool.
Variable query : Notion.QueryArgs -> outcome Notion.QueryResponse.
Variable fetch_fuel : nat.
Variable transformProjectPage : nat -> Db -> jsval -> outcome Card.
Variable PROJECTS_DB_ID : string.

(** A computation that returns or throws from every state. *)
Definition total {S A} (m : M S A) : Prop :=
  forall s, exists r s', m s = Some (r, s').

Lemma total_ret {S A} (a : A) : total (mret a : M S A).
Proof. intros s. eexists _, _. reflexivity. Qed.

Lemma total_bind {S A B} (m : M S A) (k : A -> M S B) :
  total m -> (forall a, total (k a)) -> total (m ≫= k).
Proof.
  intros Hm Hk s. unfold mbind, M_bind. destruct (Hm s) as (r & s' & ->).
  destruct r as [a|e]; [apply Hk|]. eexists _, _. reflexivity.
Qed.

Lemma total_db_call {A} (op : DbOp) (run : Db -> A * Db) : total (db_call faulty op run).
Proof.
  intros w. unfold db_call. destruct (faulty (tick w) op); eexists _, _; reflexivity.
Qed.

Lemma total_recordStatusHistory (card : Card) :
  total (recordStatusHistory faulty clock sort_ties card).
Proof.
  intros w. destruct (recordStatusHistory_effect faulty clock sort_ties card w) as (r & w' & H & _).
  eauto.
Qed.

Lemma total_persistCard (card : Card) : total (persistCard faulty clock sort_ties card).
Proof.
  unfold persistCard.
  apply total_bind; [apply total_db_call|]. intros _.
  apply total_bind; [apply total_db_call|]. intros cardDoc.
  apply total_bind; [|intros _; apply total_recordStatusHistory].
  destruct (given (client_id _)); [|apply total_ret].
  apply total_bind; [apply total_db_call|]. intros _. apply total_ret.
Qed.

Lemma total_persistPage (page : jsval) :
  total (persistPage faulty clock sort_ties transformProjectPage page).
Proof.
  unfold persistPage.
  apply total_bind; [|intros card; apply total_persistCard].
  intros w. eexists _, _. reflexivity.
Qed.

(** The pages of a pass that fail, one after the other from a world: those
    whose [try] block throws, in the transform or in a write. *)
Fixpoint failures (pages : list jsval) (w : World) : nat :=
  match pages with
  | [] => 0
  | page :: rest =>
      match persistPage faulty clock sort_ties transformProjectPage page w with
      | Some (Returned _, w') => failures rest w'
      | Some (Threw _, w') => S (failures rest w')
      | None => 0
      end
  end.

(** The world the pages leave. *)
Fixpoint world_after (pages : list jsval) (w : World) : World :=
  match pages with
  | [] => w
  | page :: rest =>
      match persistPage faulty clock sort_ties transformProjectPage page w with
      | Some (_, w') => world_after rest w'
      | None => w
      end
  end.

Lemma failures_bound (pages : list jsval) :
  forall w, (failures pages w <= length pages)%nat.
Proof.
  induction pages as [|page pages IH]; intros w; simpl; [lia|].
  destruct (persistPage _ _ _ _ page w) as [[[?|?] w']|]; [specialize (IH w')..|]; lia.
Qed.

(** The log after [ok] more processed and [bad] more failed pages. *)
Definition tally (ok bad : nat) (log : SyncLog) : SyncLog :=
  {| sync_type := sync_type log; log_status := log_status log;
     records_processed := (records_processed log + ok)%nat;
     records_failed := (records_failed log + bad)%nat;
     error_count := (error_count log + bad)%nat;
     started_at := started_at log; completed_at := completed_at log;
     error_message := error_message log; metadata_client_id := metadata_client_id log;
     metadata_retired_clients_count := metadata_retired_clients_count log |}.

Lemma tally_zero (log : SyncLog) : tally 0 0 log = log.
Proof. destruct log. unfold tally. simpl. f_equal; lia. Qed.

Lemma tally_processed (ok bad : nat) (log : SyncLog) :
  tally ok bad (count_processed log) = tally (S ok) bad log.
Proof. unfold tally, count_processed. simpl. f_equal; lia. Qed.

Lemma tally_failed (ok bad : nat) (log : SyncLog) :
  tally ok bad (count_failed log) = tally ok (S bad) log.
Proof. unfold tally, count_failed. simpl. f_equal; lia. Qed.

(** One page: the world moves as the [try] block moves it, and exactly one
    counter goes up; the page's own failure never leaves [processPage]. *)
Lemma processPage_counts (page : jsval) (p : Pass) :
  nullish page = false ->
  exists r w',
    persistPage faulty clock sort_ties transformProjectPage page (world p) = Some (r, w') /\
    processPage faulty clock sort_ties transformProjectPage page p
    = Some (Returned tt,
            {| world := w';
               syncLog := if returned r then count_processed (syncLog p)
                          else count_failed (syncLog p) |}).
Proof.
  intros Hpage. destruct (total_persistPage page (world p)) as (r & w' & Hrun).
  exists r, w'. split; [exact Hrun|].
  unfold processPage, tryM, mbind, M_bind, lift, modify_log, pure_call, get.
  rewrite Hrun, Hpage. destruct r; reflexivity.
Qed.

Lemma for_each_processPage (pages : list jsval) :
  Forall (fun page => nullish page = false) pages ->
  forall p,
    for_each (processPage faulty clock sort_ties transformProjectPage) pages p
    = Some (Returned tt,
            {| world := world_after pages (world p);
               syncLog := tally (length pages - failures pages (world p))
                            (failures pages (world p)) (syncLog p) |}).
Proof.
  induction 1 as [|page pages Hpage _ IH]; intros p.
  - simpl. rewrite tally_zero. destruct p. reflexivity.
  - cbn [for_each]. unfold mbind, M_bind.
    destruct (processPage_counts page p Hpage) as (r & w' & Hrun & ->).
    rewrite IH. cbn [world syncLog failures world_after length]. rewrite Hrun.
    pose proof (failures_bound pages w') as Hle.
    destruct r as [[]|e]; cbn [returned].
    + rewrite tally_processed.
      replace (S (length pages) - failures pages w')%nat
        with (S (length pages - failures pages w')) by lia.
      reflexivity.
    + rewrite tally_failed.
      replace (S (length pages) - S (failures pages w'))%nat
        with (length pages - failures pages w')%nat by lia.
      reflexivity.
Qed.

Lemma for_each_app {S A} (body : A -> M S unit) (xs ys : list A) (s : S) :
  for_each body (xs ++ ys) s = (for_each body xs ≫= fun _ => for_each body ys) s.
Proof.
  revert s. induction xs as [|x xs IH]; intros s; [reflexivity|].
  cbn [app for_each]. unfold mbind, M_bind in *.
  destruct (body x s) as [[[[]|e] s']|]; [apply IH|reflexivity|reflexivity].
Qed.

(** The batches cover the pages once each, in order. *)
Lemma batch_loop_all (filteredPages : list jsval) (fuel : nat) :
  forall i p,
    (length filteredPages - i <= fuel)%nat ->
    batch_loop faulty clock sort_ties transformProjectPage fuel filteredPages i p
    = for_each (processPage faulty clock sort_ties transformProjectPage) (skipn i filteredPages) p.
Proof.
  induction fuel as [|fuel IH]; intros i p Hfuel.
  - cbn [batch_loop]. destruct (Nat.ltb_spec i (length filteredPages)); [lia|].
    rewrite skipn_all2 by lia. reflexivity.
  - cbn [batch_loop]. destruct (Nat.ltb_spec i (length filteredPages)) as [Hlt|Hge].
    + rewrite <- (firstn_skipn BATCH_SIZE (skipn i filteredPages)) at 2.
      rewrite for_each_app. unfold mbind, M_bind.
      destruct (for_each _ (firstn BATCH_SIZE (skipn i filteredPages)) p)
        as [[[[]|e] p']|]; [|reflexivity|reflexivity].
      rewrite IH by (unfold BATCH_SIZE; lia).
      rewrite skipn_skipn. f_equal. f_equal. lia.
    + rewrite skipn_all2 by lia. reflexivity.
Qed.

Lemma processBatches_counts (filteredPages : list jsval) (p : Pass) :
  Forall (fun page => nullish page = false) filteredPages ->
  processBatches faulty clock sort_ties transformProjectPage filteredPages p
  = Some (Returned tt,
          {| world := world_after filteredPages (world p);
             syncLog := tally (length filteredPages - failures filteredPages (world p))
                          (failures filteredPages (world p)) (syncLog p) |}).
Proof.
  intros Hpages. unfold processBatches. rewrite batch_loop_all by lia.
  apply for_each_processPage. exact Hpages.
Qed.

(** The state in which the [try] block of a pass starts: one driver call
    made, the counters at zero. *)
Definition pass_start (clientId : option string) (w : World) : Pass :=
  {| world := {| db := db w; tick := S (tick w) |};
     syncLog := initial_log (clock (S (tick w))) clientId |}.

(** The fetch phase leaves the counters alone. *)
Lemma fetchPhase_counters (clientId : option string) (limit : option Z)
    (p p1 : Pass) (pages : list jsval) :
  fetchPhase faulty query fetch_fuel PROJECTS_DB_ID clientId limit p
  = Some (Returned pages, p1) ->
  records_processed (syncLog p1) = records_processed (syncLog p) /\
  records_failed (syncLog p1) = records_failed (syncLog p).
Proof.
  unfold fetchPhase. destruct (given clientId) as [scope|].
  - unfold fetchAllPages. destruct (Notion.fetchAllPages _ _ _ _ _) as [r|]; [|discriminate].
    intros H. inversion H; subst. auto.
  - unfold mbind, M_bind, lift.
    destruct (getRetiredClientsMap faulty query fetch_fuel (world p))
      as [[[retiredClients|e] w1]|]; [|discriminate|discriminate].
    destruct retiredClients as [|retired others];
      unfold mret, M_ret, modify_log, fetchAllPages, pure_call; cbn [world syncLog].
    + destruct (Notion.fetchAllPages _ _ _ _ _) as [[fetched|e]|]; try discriminate.
      intros H. inversion H; subst. auto.
    + destruct (Notion.fetchAllPages _ _ _ _ _) as [[fetched|e]|]; try discriminate.
      destruct (filter_pages _ _) as [kept|e]; [|discriminate].
      intros H. inversion H; subst. auto.
Qed.

(** The pass from its start to the moment it saves its log. *)
Lemma pass_reaches_finalize (clientId : option string) (limit : option Z) (w : World)
    (pages : list jsval) (p1 : Pass) :
  faulty (tick w) GetDb = false ->
  fetchPhase faulty query fetch_fuel PROJECTS_DB_ID clientId limit (pass_start clientId w)
  = Some (Returned pages, p1) ->
  Forall (fun page => nullish page = false) pages ->
  syncProjects faulty clock sort_ties query fetch_fuel transformProjectPage PROJECTS_DB_ID
    clientId limit w
  = match tryM (finalize faulty clock) (failure_handler faulty clock)
            {| world := world_after pages (world p1);
               syncLog := tally (length pages - failures pages (world p1))
                            (failures pages (world p1)) (syncLog p1) |} with
    | Some (r, p) => Some (r, world p)
    | None => None
    end.
Proof.
  intros Hdb Hfetch Hpages.
  unfold syncProjects, getDb, db_call. unfold mbind at 1. unfold M_bind at 1.
  rewrite Hdb. cbn [fst snd]. unfold run_pass, tryM, pass_body.
  unfold mbind at 1. unfold M_bind at 1. cbn [tick db]. fold (pass_start clientId w).
  rewrite Hfetch. unfold mbind at 1. unfold M_bind at 1.
  rewrite (processBatches_counts pages p1 Hpages). reflexivity.
Qed.

End SyncFacts.

(** Three project pages served in one response. *)
Definition projects_api (args : Notion.QueryArgs) : outcome Notion.QueryResponse :=
  Returned {| Notion.results := [JObj [("id", JStr "p1"); ("properties", JObj [])];
                                 JObj [("id", JStr "p2"); ("properties", JObj [])];
                                 JObj [("id", JStr "p3"); ("properties", JObj [])]];
              Notion.has_more := false; Notion.next_cursor := JNull |}.

(** A transform that rejects the page [p3]. *)
Definition sample_transform (tick : nat) (d : Extractor.Db) (page : jsval)
    : outcome Extractor.Card :=
  match field page "id" with
  | JStr "p3" => Threw "ValidationError: malformed date"
  | id =>
      Returned {| Extractor.notion_id := toString id; Extractor.title := "Untitled";
                  Extractor.status := Some "In Progress"; Extractor.client_id := None;
                  Extractor.updated_at := 10; Extractor._id := None |}
  end.

(** A driver that fails the upsert of the card [p2]. *)
Definition second_upsert_fails (n : nat) (op : Extractor.DbOp) : bool :=
  match op with
  | Extractor.CardsUpdateOne "p2" => true
  | _ => false
  end.

(** A driver that fails the call number 7 when it writes the sync log: in a
    pass over one page that is the write of the [try] block. *)
Definition log_write_fails_once (n : nat) (op : Extractor.DbOp) : bool :=
  match op with
  | Extractor.SyncLogsInsertOne => Nat.eqb n 7
  | _ => false
  end.



(** C4: the code does not swallow a failure of the write of the pass's own
    sync log. The write stands in the [try] block of the pass, so when it
    fails after every page has been handled the [catch] block, written for
    the errors of the fetch, marks the log failed, tries the write once more
    and rethrows: the caller receives the log-write error instead of the
    outcome of the pass, and the log that the second write stores says
    'failed' although it keeps the counters of a pass that went through. *)
Theorem syncProjects_rethrows_log_write_failure
    (faulty : nat -> Extractor.DbOp -> bool) (clock : nat -> Z)
    (sort_ties : Extractor.CardStatusHistory -> Extractor.CardStatusHistory -> bool)
    (query : Notion.QueryArgs -> outcome Notion.QueryResponse) (fetch_fuel : nat)
    (transformProjectPage : nat -> Extractor.Db -> jsval -> outcome Extractor.Card)
    (PROJECTS_DB_ID : string) (clientId : option string) (limit : option Z)
    (w : Extractor.World) (pages : list jsval) (p1 : Extractor.Pass) :
  faulty (Extractor.tick w) Extractor.GetDb = false ->
  Extractor.fetchPhase faulty query fetch_fuel PROJECTS_DB_ID clientId limit
    (pass_start clock clientId w) = Some (Returned pages, p1) ->
  Forall (fun page => nullish page = false) pages ->
  faulty (Extractor.tick (world_after faulty clock sort_ties transformProjectPage pages
                            (Extractor.world p1)))
    Extractor.SyncLogsInsertOne = true ->
  exists w',
    Extractor.syncProjects faulty clock sort_ties query fetch_fuel transformProjectPage
      PROJECTS_DB_ID
      clientId limit w
    = Some (Threw (Extractor.db_error Extractor.SyncLogsInsertOne), w') /\
    (faulty (S (Extractor.tick
                  (world_after faulty clock sort_ties transformProjectPage pages
                     (Extractor.world p1))))
       Extractor.SyncLogsInsertOne = false ->
     exists log,
       last (Extractor.sync_logs (Extractor.db w')) = Some log /\
       Extractor.log_status log = Extractor.failed /\
       Extractor.error_message log = Some (Extractor.db_error Extractor.SyncLogsInsertOne) /\
       Extractor.records_processed log
       = (length pages
          - failures faulty clock sort_ties transformProjectPage pages (Extractor.world p1))%nat /\
       Extractor.records_failed log
       = failures faulty clock sort_ties transformProjectPage pages (Extractor.world p1)) /\
    (faulty (S (Extractor.tick
                  (world_after faulty clock sort_ties transformProjectPage pages
                     (Extractor.world p1))))
       Extractor.SyncLogsInsertOne = true ->
     Extractor.sync_logs (Extractor.db w')
     = Extractor.sync_logs
         (Extractor.db (world_after faulty clock sort_ties transformProjectPage pages
                          (Extractor.world p1)))).
Proof.
  intros Hdb Hfetch Hpages Hlog.
  rewrite (pass_reaches_finalize faulty clock sort_ties query fetch_fuel transformProjectPage
             PROJECTS_DB_ID clientId limit w pages p1 Hdb Hfetch Hpages).
  destruct (fetchPhase_counters faulty query fetch_fuel PROJECTS_DB_ID clientId limit
              _ _ _ Hfetch) as [Hprocessed Hfailed].
  cbn in Hprocessed, Hfailed.
  unfold Extractor.tryM, Extractor.finalize, Extractor.failure_handler,
    Extractor.write_sync_log, Extractor.get_log, Extractor.throw,
    Extractor.lift, Extractor.now, Extractor.modify_log, Extractor.db_call,
    mbind, Extractor.M_bind.
  cbn [Extractor.world Extractor.syncLog Extractor.tick Extractor.db fst snd].
  rewrite Hlog. cbn [Extractor.world Extractor.syncLog Extractor.tick Extractor.db fst snd].
  destruct (faulty (S (Extractor.tick
                         (world_after faulty clock sort_ties transformProjectPage pages
                            (Extractor.world p1)))) Extractor.SyncLogsInsertOne) eqn:Hsecond;
    cbn [Extractor.world Extractor.syncLog Extractor.tick Extractor.db fst snd].
  - eexists. split; [reflexivity|]. split; [discriminate|]. intros _. reflexivity.
  - eexists. split; [reflexivity|]. split; [|discriminate]. intros _.
    eexists. split; [apply last_snoc|]. cbn. rewrite Hprocessed, Hfailed. repeat split.
Qed.

Lemma syncProjects_rethrows_log_write_failure_witness :
  exists w',
    Extractor.syncProjects log_write_fails_once tick_clock insertion_order projects_api 1
      sample_transform
      "projects-db" (Some "client-1") (Some 1) empty_world
    = Some (Threw (Extractor.db_error Extractor.SyncLogsInsertOne), w') /\
    exists log,
      last (Extractor.sync_logs (Extractor.db w')) = Some log /\
      Extractor.log_status log = Extractor.failed /\
      Extractor.records_processed log = 1%nat /\
      Extractor.records_failed log = 0%nat.
Proof.
  destruct (syncProjects_rethrows_log_write_failure log_write_fails_once tick_clock
              insertion_order projects_api 1 sample_transform "projects-db" (Some "client-1")
              (Some 1) empty_world
              [JObj [("id", JStr "p1"); ("properties", JObj [])]]
              (pass_start tick_clock (Some "client-1") empty_world))
    as (w' & Hrun & Hstored & _).
  - reflexivity.
  - reflexivity.
  - repeat constructor.
  - reflexivity.
  - exists w'. split; [exact Hrun|].
    destruct (Hstored eq_refl) as (log & Hlast & Hstatus & _ & Hprocessed & Hfailed).
    exists log. split; [exact Hlast|]. split; [exact Hstatus|].
    split; [exact Hprocessed|exact Hfailed].
Defined.

(** One page is processed and stored, the write of the sync log fails once,
    and the caller gets that error, not the pass's outcome; the stored log
    of the pass says 'failed' with one page processed and none failed. *)
Lemma syncProjects_log_write_failure_reaches_caller :
  exists w',
    Extractor.syncProjects log_write_fails_once tick_clock insertion_order projects_api 1
      sample_transform
      "projects-db" (Some "client-1") (Some 1) empty_world
    = Some (Threw "MongoError: sync_logs.insertOne", w') /\
    Extractor.cards (Extractor.db w')
    = [{| Extractor.doc_id := "oid-0";
          Extractor.doc_card := {| Extractor.notion_id := "p1"; Extractor.title := "Untitled";
                                   Extractor.status := Some "In Progress";
                                   Extractor.client_id := None; Extractor.updated_at := 10;
                                   Extractor._id := None |} |}] /\
    map Extractor.log_status (Extractor.sync_logs (Extractor.db w')) = [Extractor.failed] /\
    map Extractor.records_processed (Extractor.sync_logs (Extractor.db w')) = [1%nat] /\
    map Extractor.records_failed (Extractor.sync_logs (Extractor.db w')) = [0%nat].
Proof. eexists. split; [vm_compute; reflexivity|]. repeat split. Qed.

(** With a driver that does not fail, the same pass returns its log. *)
Example syncProjects_one_page :
  exists log w',
    Extractor.syncProjects no_faults tick_clock insertion_order projects_api 1 sample_transform
      "projects-db" (Some "client-1") (Some 1) empty_world = Some (Returned log, w') /\
    Extractor.log_status log = Extractor.success /\
    Extractor.records_processed log = 1%nat.
Proof. eexists _, _. split; [vm_compute; reflexivity|]. split; reflexivity. Qed.

(** An API that rejects every query. *)
Definition failing_api (args : Notion.QueryArgs) : outcome Notion.QueryResponse :=
  Threw "APIResponseError: rate_limited".

(** A driver that fails every write of the sync log. *)
Definition log_writes_fail (n : nat) (op : Extractor.DbOp) : bool :=
  match op with
  | Extractor.SyncLogsInsertOne => true
  | _ => false
  end.

(** The same holds for the write of the [catch] block: when the fetch has
    thrown and that write fails too, the caller gets the error of the write,
    not the error of the fetch, and no log is stored. *)
Example syncProjects_log_write_failure_hides_fetch_error :
  (exists w',
     Extractor.syncProjects no_faults tick_clock insertion_order failing_api 1 sample_transform
       "projects-db" (Some "client-1") None empty_world
     = Some (Threw "APIResponseError: rate_limited", w') /\
     map Extractor.log_status (Extractor.sync_logs (Extractor.db w')) = [Extractor.failed]) /\
  (exists w',
     Extractor.syncProjects log_writes_fail tick_clock insertion_order failing_api 1
       sample_transform "projects-db" (Some "client-1") None empty_world
     = Some (Threw "MongoError: sync_logs.insertOne", w') /\
     Extractor.sync_logs (Extractor.db w') = []).
Proof. split; eexists; split; vm_compute; reflexivity. Qed.

(** * Further properties *)

(** ** The paginated fetch without a cap, and its errors *)

Section FetchAllPagesMore.

Import Notion.

Variable query : QueryArgs -> outcome QueryResponse.

(** The requests follow the cursor chain: the first carries no cursor, each
    next one the [next_cursor] of the response before it, and nothing is
    requested after a request that threw. *)
Fixpoint cursors_chain (cursor : jsval) (calls : list Call) : Prop :=
  match calls with
  | [] => True
  | c :: rest =>
      start_cursor (call_args c) = cursor /\
      match query (call_args c) with
      | Returned response => cursors_chain (next_cursor response) rest
      | Threw _ => rest = []
      end
  end.

(** Whether the answer to a request announces a further page. *)
Definition announces_more (c : Call) : bool :=
  match query (call_args c) with
  | Returned response => has_more response && truthy (next_cursor response)
  | Threw _ => false
  end.

Definition answered (c : Call) : Prop :=
  exists response, query (call_args c) = Returned response.

Definition asks_in_full (databaseId : string) (filter : jsval) (c : Call) : Prop :=
  database_id (call_args c) = databaseId /\
  query_filter (call_args c) = filter /\
  page_size (call_args c) = 100.

Lemma taken_uncapped (limit : option Z) (seen : nat) (items : list jsval) :
  limit_set limit = false ->
  taken limit (remainingLimit limit seen) items = items /\
  pageSize (remainingLimit limit seen) = 100 /\
  reached limit seen = false.
Proof.
  unfold limit_set, taken, remainingLimit, pageSize, reached.
  destruct limit as [l|]; [|auto].
  destruct (l =? 0); [auto|discriminate].
Qed.

(** The loop without a cap: what it asks and what it returns. *)
Lemma fetch_loop_uncapped (databaseId : string) (filter : jsval) (limit : option Z) :
  limit_set limit = false ->
  forall fuel allPages cursor calls out calls',
    fetch_loop query fuel databaseId filter limit allPages cursor calls = (Some out, calls') ->
    exists new,
      calls' = calls ++ new /\
      new <> [] /\
      Forall (asks_in_full databaseId filter) new /\
      cursors_chain cursor new /\
      (forall pages, out = Returned pages ->
         pages = allPages ++ concat (map (call_results query) new) /\
         Forall answered new /\
         (forall c, last new = Some c -> announces_more c = false)).
Proof.
  intros Hlimit fuel.
  induction fuel as [|fuel IH]; intros allPages cursor calls out calls' Hrun;
    [discriminate|].
  cbn [fetch_loop] in Hrun.
  destruct (taken_uncapped limit (length allPages) [] Hlimit) as (_ & Hsize & _).
  rewrite Hsize in Hrun.
  set (args := {| database_id := databaseId; start_cursor := cursor; query_filter := filter;
                  page_size := 100 |}) in *.
  set (call := {| call_args := args; call_seen := length allPages |}) in *.
  assert (Hfull : asks_in_full databaseId filter call) by (repeat split).
  destruct (query args) as [response|e] eqn:Hq.
  - destruct (taken_uncapped limit (length allPages) (results response) Hlimit)
      as (Htaken & _ & _).
    rewrite Htaken in Hrun.
    destruct (taken_uncapped limit (length (allPages ++ results response)) [] Hlimit)
      as (_ & _ & Hreached).
    rewrite Hreached, Hlimit in Hrun. cbn [negb orb] in Hrun. rewrite andb_true_r in Hrun.
    assert (Hres : call_results query call = results response).
    { unfold call_results. cbn [call call_args]. rewrite Hq. reflexivity. }
    destruct (has_more response && truthy (next_cursor response)) eqn:Hmore.
    + assert (Hnext : truthy (next_cursor response) = true).
      { apply andb_true_iff in Hmore. apply Hmore. }
      rewrite Hnext in Hrun.
      apply IH in Hrun. destruct Hrun as (new & -> & Hne & Hall & Hchain & Hpages).
      exists (call :: new). split; [rewrite <- app_assoc; reflexivity|].
      split; [discriminate|]. split; [constructor; assumption|].
      split; [cbn [cursors_chain call call_args args start_cursor]; rewrite Hq; auto|].
      intros pages Hp. destruct (Hpages pages Hp) as (-> & Hans & Hlast).
      split; [cbn [map concat]; rewrite Hres, app_assoc; reflexivity|].
      split; [constructor; [exists response; exact Hq|exact Hans]|].
      intros c Hc. apply Hlast. destruct new; [contradiction|exact Hc].
    + cbn [truthy] in Hrun. inversion Hrun; subst.
      exists [call]. split; [reflexivity|]. split; [discriminate|].
      split; [constructor; [exact Hfull|constructor]|].
      split; [cbn [cursors_chain call call_args args start_cursor]; rewrite Hq; cbn; auto|].
      intros pages Hp. inversion Hp; subst.
      split; [cbn [map concat]; rewrite Hres, app_nil_r; reflexivity|].
      split; [constructor; [exists response; exact Hq|constructor]|].
      intros c Hc. inversion Hc; subst. unfold announces_more.
      cbn [call call_args]. rewrite Hq. exact Hmore.
  - inversion Hrun; subst. exists [call]. split; [reflexivity|]. split; [discriminate|].
    split; [constructor; [exact Hfull|constructor]|].
    split; [cbn [cursors_chain call call_args args start_cursor]; rewrite Hq; auto|].
    intros pages Hp. discriminate.
Qed.

(** Whatever the cap, a run that ended asked at least once, got an answer to
    every request but possibly the last, and threw exactly when the last
    request threw, with that error. *)
Lemma fetch_loop_errors (databaseId : string) (filter : jsval) (limit : option Z) :
  forall fuel allPages cursor calls out calls',
    fetch_loop query fuel databaseId filter limit allPages cursor calls = (Some out, calls') ->
    exists before final,
      calls' = calls ++ before ++ [final] /\
      Forall answered before /\
      match out with
      | Threw e => query (call_args final) = Threw e
      | Returned _ => answered final
      end.
Proof.
  intros fuel.
  induction fuel as [|fuel IH]; intros allPages cursor calls out calls' Hrun;
    [discriminate|].
  cbn [fetch_loop] in Hrun.
  match type of Hrun with
  | context [query ?a] => set (args := a) in *
  end.
  set (call := {| call_args := args; call_seen := length allPages |}) in *.
  destruct (query args) as [response|e] eqn:Hq.
  - match type of Hrun with
    | (if ?c then _ else _) = _ => destruct c
    end.
    + inversion Hrun; subst. exists [], call. split; [reflexivity|].
      split; [constructor|]. exists response. exact Hq.
    + match type of Hrun with
      | (if ?c then _ else _) = _ => destruct c
      end.
      * apply IH in Hrun. destruct Hrun as (before & final & -> & Hbefore & Hfinal).
        exists (call :: before), final. split; [rewrite <- app_assoc; reflexivity|].
        split; [constructor; [exists response; exact Hq|exact Hbefore]|exact Hfinal].
      * inversion Hrun; subst. exists [], call. split; [reflexivity|].
        split; [constructor|]. exists response. exact Hq.
  - inversion Hrun; subst. exists [], call. split; [reflexivity|].
    split; [constructor|exact Hq].
Qed.

End FetchAllPagesMore.

(** X1: without a cap (none given, or the cap 0) the paginated fetch returns;
    it asks at least once, always for pages of 100 with the database and the
    filter it was given, the first time without a cursor and then with the
    cursor of the response before; a list it returns holds the items of all
    the responses in order, and the last response announced no further
    page. *)
Theorem fetchAllPages_without_cap_follows_every_cursor
    (query : Notion.QueryArgs -> outcome Notion.QueryResponse) (rank : jsval -> nat)
    (databaseId : string) (filter : jsval) (limit : option Z) (fuel : nat) :
  Notion.limit_set limit = false ->
  cursor_ranked query rank ->
  (rank JUndefined < fuel)%nat ->
  exists out calls,
    Notion.fetchAllPages_traced query fuel databaseId filter limit = (Some out, calls) /\
    calls <> [] /\
    Forall (asks_in_full databaseId filter) calls /\
    cursors_chain query JUndefined calls /\
    forall pages, out = Returned pages ->
      pages = concat (map (call_results query) calls) /\
      Forall (answered query) calls /\
      forall c, last calls = Some c -> announces_more query c = false.
Proof.
  intros Hlimit Hrank Hfuel. unfold Notion.fetchAllPages_traced.
  destruct (fetch_loop_terminates query rank databaseId filter limit Hrank
              fuel [] JUndefined [] Hfuel) as (out & calls & Hrun).
  exists out, calls. split; [exact Hrun|].
  destruct (fetch_loop_uncapped query databaseId filter limit Hlimit fuel [] JUndefined []
              out calls Hrun) as (new & Hcalls & Hne & Hfull & Hchain & Hpages).
  simpl in Hcalls. subst new. repeat split; try assumption.
  - apply (Hpages pages H).
  - apply (Hpages pages H).
  - apply (Hpages pages H).
Qed.

Lemma fetchAllPages_without_cap_follows_every_cursor_witness :
  exists out calls,
    Notion.fetchAllPages_traced two_page_api 2 "projects" JUndefined None = (Some out, calls) /\
    calls <> [] /\
    Forall (asks_in_full "projects" JUndefined) calls /\
    cursors_chain two_page_api JUndefined calls /\
    forall pages, out = Returned pages ->
      pages = concat (map (call_results two_page_api) calls) /\
      Forall (answered two_page_api) calls /\
      forall c, last calls = Some c -> announces_more two_page_api c = false.
Proof.
  apply (fetchAllPages_without_cap_follows_every_cursor two_page_api two_page_rank
           "projects" JUndefined None 2).
  - reflexivity.
  - exact two_page_api_ranked.
  - simpl. lia.
Defined.

(** A collection whose second page cannot be read. *)
Definition second_page_fails (args : Notion.QueryArgs) : outcome Notion.QueryResponse :=
  match Notion.start_cursor args with
  | JUndefined =>
      Returned {| Notion.results := [JNum 1; JNum 2; JNum 3];
                  Notion.has_more := true; Notion.next_cursor := JStr "page-2" |}
  | _ => Threw "APIResponseError: rate_limited"
  end.

(** X2: with or without a cap, when a request of the paginated fetch throws,
    the fetch throws that error and returns none of the pages it had
    gathered; it returns a list only when every request was answered. The
    failing request is the last one made. *)
Theorem fetchAllPages_throws_the_error_of_the_failing_request
    (query : Notion.QueryArgs -> outcome Notion.QueryResponse) (fuel : nat)
    (databaseId : string) (filter : jsval) (limit : option Z)
    (out : outcome (list jsval)) (calls : list Notion.Call) :
  Notion.fetchAllPages_traced query fuel databaseId filter limit = (Some out, calls) ->
  (exists before final,
      calls = before ++ [final] /\
      Forall (answered query) before /\
      match out with
      | Threw e => query (Notion.call_args final) = Threw e
      | Returned _ => answered query final
      end) /\
  (forall e, out = Threw e <->
             exists c, c ∈ calls /\ query (Notion.call_args c) = Threw e).
Proof.
  intros Hrun. unfold Notion.fetchAllPages_traced in Hrun.
  destruct (fetch_loop_errors query databaseId filter limit fuel [] JUndefined [] out calls Hrun)
    as (before & final & Hcalls & Hbefore & Hfinal).
  simpl in Hcalls. subst calls.
  split; [exists before, final; auto|].
  intros e. split.
  - intros ->. exists final. split; [|exact Hfinal].
    apply elem_of_app. right. apply list_elem_of_singleton. reflexivity.
  - intros (c & Hin & Hthrew). apply elem_of_app in Hin. destruct Hin as [Hin|Hin].
    + rewrite Forall_forall in Hbefore. destruct (Hbefore c Hin) as [response Hq].
      congruence.
    + apply list_elem_of_singleton in Hin. subst c.
      destruct out as [pages|e'].
      * destruct Hfinal as [response Hq]. congruence.
      * congruence.
Qed.

Lemma fetchAllPages_throws_the_error_of_the_failing_request_witness :
  exists before final,
    snd (Notion.fetchAllPages_traced second_page_fails 5 "projects" JUndefined None)
    = before ++ [final] /\
    Forall (answered second_page_fails) before /\
    second_page_fails (Notion.call_args final) = Threw "APIResponseError: rate_limited".
Proof.
  exact (proj1 (fetchAllPages_throws_the_error_of_the_failing_request second_page_fails 5
                  "projects" JUndefined None (Threw "APIResponseError: rate_limited")
                  (snd (Notion.fetchAllPages_traced second_page_fails 5 "projects"
                          JUndefined None))
                  eq_refl)).
Defined.
(** ** The property extractor on malformed values *)

(** The declared types whose extraction walks a list: the only ones whose
    [switch] case calls [map] or [flatMap]. *)
Definition list_valued (propertyType : string) : bool :=
  existsb (String.eqb propertyType)
    ["title"; "rich_text"; "people"; "relation"; "rollup"; "multi_select"; "files"].

(** The declared types whose extraction builds a [Date]. *)
Definition time_valued (propertyType : string) : bool :=
  existsb (String.eqb propertyType) ["created_time"; "last_edited_time"].

Lemma extract_found_scalar (prop : jsval) (propertyType : string) :
  list_valued propertyType = false ->
  time_valued propertyType = false ->
  exists value, Notion.extract_found prop propertyType = Returned value.
Proof.
  unfold list_valued, time_valued. cbn [existsb]. rewrite !orb_false_iff.
  intros (Htitle & Hrich & Hpeople & Hrelation & Hrollup & Hmulti & Hfiles & _)
         (Hcreated & Hedited & _).
  unfold Notion.extract_found.
  rewrite Htitle, Hrich, Hpeople, Hrelation, Hrollup, Hmulti, Hfiles, Hcreated, Hedited.
  repeat match goal with
         | |- context [if String.eqb propertyType ?t then _ else _] =>
             destruct (String.eqb propertyType t)
         | |- context [if truthy ?v then _ else _] => destruct (truthy v)
         end; eexists; reflexivity.
Qed.

(** What the two time types give for the value [prop] holds under the type's
    name. *)
Definition time_extracted (value : jsval) : outcome Notion.extracted :=
  if truthy value then
    if printable value then Returned (Notion.DateObject value)
    else Threw "Cannot convert object to primitive value"
  else Returned (Notion.Plain JNull).

Lemma extract_found_time (prop : jsval) (propertyType : string) :
  time_valued propertyType = true ->
  Notion.extract_found prop propertyType = time_extracted (field prop propertyType).
Proof.
  unfold time_valued. cbn [existsb]. rewrite orb_false_r. intros Htype.
  apply orb_true_iff in Htype.
  destruct Htype as [Htype|Htype]; apply String.eqb_eq in Htype; subst propertyType;
    unfold Notion.extract_found, Notion.extract_time, time_extracted, printed;
    cbn [String.eqb Ascii.eqb Bool.eqb];
    destruct (truthy (field prop _)); [|reflexivity| |reflexivity];
    destruct (printable (field prop _)); reflexivity.
Qed.

(** X3: on a page that has [properties], the extraction of a property
    declared with a type other than title, rich_text, people, relation,
    rollup, multi_select, files, created_time and last_edited_time returns,
    whatever the page holds under the property: no value of a select, date,
    number, checkbox, formula, url, email or phone_number property, and no
    unknown type, makes [extractProperty] throw. For created_time and
    last_edited_time the call throws exactly when the property that was
    found holds, under the name of the type, a truthy value that does not
    convert to a primitive (an object with a [toString] property of its own,
    or an array with such an item); otherwise it returns the date built from
    the value, or [null] for a falsy one. *)
Theorem extractProperty_never_throws_on_scalar_types
    (page : jsval) (propertyId propertyType : string) (propertyName : option string)
    (properties : jsval) :
  get page "properties" = Returned properties ->
  nullish properties = false ->
  (list_valued propertyType = false ->
   time_valued propertyType = false ->
   exists value,
     Notion.extractProperty page propertyId propertyType propertyName = Returned value) /\
  (time_valued propertyType = true ->
   exists prop,
     Notion.find_property page propertyId propertyName = Returned prop /\
     Notion.extractProperty page propertyId propertyType propertyName
     = (if truthy prop then
          if truthy (field prop propertyType) then
            if printable (field prop propertyType)
            then Returned (Notion.DateObject (field prop propertyType))
            else Threw "Cannot convert object to primitive value"
          else Returned (Notion.Plain JNull)
        else Returned (Notion.Plain JNull))).
Proof.
  intros Hproperties Hobject.
  assert (Hfind : exists prop,
             Notion.find_property page propertyId propertyName = Returned prop).
  { unfold Notion.find_property. rewrite Hproperties. cbn [mbind outcome_bind].
    unfold get_member. rewrite Hobject. cbn [mbind outcome_bind].
    destruct (given propertyName) as [name|]; [|eexists; reflexivity].
    destruct (truthy (member properties propertyId)); eexists; reflexivity. }
  destruct Hfind as [prop Hfind]. unfold Notion.extractProperty. rewrite Hfind.
  cbn [mbind outcome_bind]. split.
  - intros Hlist Htime. destruct (truthy prop); [|eexists; reflexivity].
    apply extract_found_scalar; assumption.
  - intros Htime. exists prop. split; [reflexivity|].
    destruct (truthy prop); [|reflexivity].
    rewrite (extract_found_time prop propertyType Htime). reflexivity.
Qed.

Lemma extractProperty_never_throws_on_scalar_types_witness :
  (exists value,
      Notion.extractProperty
        (JObj [("id", JStr "page-1");
               ("properties", JObj [("%7BjDe", JObj [("select", JNum 7)])])])
        "%7BjDe" "select" (Some "Status") = Returned value) /\
  Notion.extractProperty
    (JObj [("id", JStr "page-1");
           ("properties",
            JObj [("Kq%3Fs", JObj [("created_time", JObj [("toString", JNum 0)])])])])
    "Kq%3Fs" "created_time" None
  = Threw "Cannot convert object to primitive value".
Proof.
  split.
  - apply (extractProperty_never_throws_on_scalar_types _ _ _ _
             (JObj [("%7BjDe", JObj [("select", JNum 7)])])); reflexivity.
  - destruct (proj2 (extractProperty_never_throws_on_scalar_types
                       (JObj [("id", JStr "page-1");
                              ("properties",
                               JObj [("Kq%3Fs",
                                      JObj [("created_time", JObj [("toString", JNum 0)])])])])
                       "Kq%3Fs" "created_time" None
                       (JObj [("Kq%3Fs", JObj [("created_time", JObj [("toString", JNum 0)])])])
                       eq_refl eq_refl) eq_refl) as (prop & Hfind & Hrun).
    injection Hfind as <-. exact Hrun.
Defined.

(** The list types do throw on a malformed value: a title with a [null]
    segment, a people list that is not an array. *)
Example extractProperty_throws_on_malformed_lists :
  Notion.extractProperty
    (JObj [("properties", JObj [("title", JObj [("title", JArr [JNull])])])])
    "title" "title" (Some "Name")
  = Threw "Cannot read properties of null (reading 'plain_text')" /\
  returned
    (Notion.extractProperty
       (JObj [("properties", JObj [("l%7DQv", JObj [("people", JStr "ada")])])])
       "l%7DQv" "people" (Some "Developer"))
  = false.
Proof. split; reflexivity. Qed.

(** ** What a sync pass leaves in the store *)

Section PassInvariants.

Import Extractor.

Variable faulty : nat -> DbOp -> bool.
Variable clock : nat -> Z.
Variable sort_ties : CardStatusHistory -> CardStatusHistory -> bool.
Variable query : Notion.QueryArgs -> outcome Notion.QueryResponse.
Variable fetch_fuel : nat.
Variable transformProjectPage : nat -> Db -> jsval -> outcome Card.
Variable PROJECTS_DB_ID : string.

(** A relation between the store before and the store after that every
    step of a computation keeps. *)
Variable R : Db -> Db -> Prop.
Hypothesis R_refl : forall d, R d d.
Hypothesis R_trans : forall d1 d2 d3, R d1 d2 -> R d2 d3 -> R d1 d3.

Definition keeps {A} (m : M World A) : Prop :=
  forall w r w', m w = Some (r, w') -> R (db w) (db w').

Definition keeps_in_pass {A} (m : M Pass A) : Prop :=
  forall p r p', m p = Some (r, p') -> R (db (world p)) (db (world p')).

Lemma keeps_bind {A B} (m : M World A) (k : A -> M World B) :
  keeps m -> (forall a, keeps (k a)) -> keeps (m ≫= k).
Proof.
  intros Hm Hk w r w' Hrun. unfold mbind, M_bind in Hrun.
  destruct (m w) as [[[a|e] w1]|] eqn:Hfirst; [| |discriminate].
  - eapply R_trans; [eapply Hm; exact Hfirst|eapply Hk; exact Hrun].
  - inversion Hrun; subst. eapply Hm. exact Hfirst.
Qed.

Lemma keeps_ret {A} (a : A) : keeps (mret a).
Proof. intros w r w' Hrun. inversion Hrun; subst. apply R_refl. Qed.

Lemma keeps_tryM {A} (m : M World A) (handler : string -> M World A) :
  keeps m -> (forall e, keeps (handler e)) -> keeps (tryM m handler).
Proof.
  intros Hm Hh w r w' Hrun. unfold tryM in Hrun.
  destruct (m w) as [[[a|e] w1]|] eqn:Hfirst; [| |discriminate].
  - inversion Hrun; subst. eapply Hm. exact Hfirst.
  - eapply R_trans; [eapply Hm; exact Hfirst|eapply Hh; exact Hrun].
Qed.

Lemma keeps_db_call {A} (op : DbOp) (run : Db -> A * Db) :
  (forall d, R d (snd (run d))) -> keeps (db_call faulty op run).
Proof.
  intros Hrun w r w' Hcall. unfold db_call in Hcall.
  destruct (faulty (tick w) op); inversion Hcall; subst; cbn [db]; auto.
Qed.

Lemma keeps_read {A} (op : DbOp) (read : Db -> A) :
  keeps (db_call faulty op (fun d => (read d, d))).
Proof. apply keeps_db_call. intros d. apply R_refl. Qed.

Lemma keeps_now : keeps (now clock).
Proof. intros w r w' Hrun. inversion Hrun; subst. apply R_refl. Qed.

Lemma keeps_fetchAllPages (databaseId : string) (filter : jsval) (limit : option Z) :
  keeps (fetchAllPages query fetch_fuel databaseId filter limit).
Proof.
  intros w r w' Hrun. unfold fetchAllPages in Hrun.
  destruct (Notion.fetchAllPages _ _ _ _ _); inversion Hrun; subst. apply R_refl.
Qed.

Lemma keeps_in_pass_bind {A B} (m : M Pass A) (k : A -> M Pass B) :
  keeps_in_pass m -> (forall a, keeps_in_pass (k a)) -> keeps_in_pass (m ≫= k).
Proof.
  intros Hm Hk p r p' Hrun. unfold mbind, M_bind in Hrun.
  destruct (m p) as [[[a|e] p1]|] eqn:Hfirst; [| |discriminate].
  - eapply R_trans; [eapply Hm; exact Hfirst|eapply Hk; exact Hrun].
  - inversion Hrun; subst. eapply Hm. exact Hfirst.
Qed.

Lemma keeps_in_pass_ret {A} (a : A) : keeps_in_pass (mret a).
Proof. intros p r p' Hrun. inversion Hrun; subst. apply R_refl. Qed.

Lemma keeps_in_pass_tryM {A} (m : M Pass A) (handler : string -> M Pass A) :
  keeps_in_pass m -> (forall e, keeps_in_pass (handler e)) -> keeps_in_pass (tryM m handler).
Proof.
  intros Hm Hh p r p' Hrun. unfold tryM in Hrun.
  destruct (m p) as [[[a|e] p1]|] eqn:Hfirst; [| |discriminate].
  - inversion Hrun; subst. eapply Hm. exact Hfirst.
  - eapply R_trans; [eapply Hm; exact Hfirst|eapply Hh; exact Hrun].
Qed.

Lemma keeps_in_pass_lift {A} (m : M World A) : keeps m -> keeps_in_pass (lift m).
Proof.
  intros Hm p r p' Hrun. unfold lift in Hrun.
  destruct (m (world p)) as [[r1 w1]|] eqn:Hfirst; [|discriminate].
  inversion Hrun; subst. cbn [world]. eapply Hm. exact Hfirst.
Qed.

Lemma keeps_in_pass_modify_log (f : SyncLog -> SyncLog) : keeps_in_pass (modify_log f).
Proof. intros p r p' Hrun. inversion Hrun; subst. apply R_refl. Qed.

Lemma keeps_in_pass_get_log : keeps_in_pass get_log.
Proof. intros p r p' Hrun. inversion Hrun; subst. apply R_refl. Qed.

Lemma keeps_in_pass_pure_call {A} (r : outcome A) : keeps_in_pass (pure_call r).
Proof. intros p r' p' Hrun. inversion Hrun; subst. apply R_refl. Qed.

Lemma keeps_in_pass_throw {A} (message : string) : keeps_in_pass (throw message : M Pass A).
Proof. intros p r p' Hrun. inversion Hrun; subst. apply R_refl. Qed.

Lemma keeps_in_pass_fetchAllPages (databaseId : string) (filter : jsval) (limit : option Z) :
  keeps_in_pass (fetchAllPages query fetch_fuel databaseId filter limit).
Proof.
  intros p r p' Hrun. unfold fetchAllPages in Hrun.
  destruct (Notion.fetchAllPages _ _ _ _ _); inversion Hrun; subst. apply R_refl.
Qed.

Lemma keeps_in_pass_for_each {A} (body : A -> M Pass unit) (items : list A) :
  (forall x, keeps_in_pass (body x)) -> keeps_in_pass (for_each body items).
Proof.
  intros Hbody. induction items as [|x items IH]; cbn [for_each].
  - apply keeps_in_pass_ret.
  - apply keeps_in_pass_bind; [apply Hbody|intros _; exact IH].
Qed.

(** The three writes of a pass. *)
Hypothesis R_upsert : forall card d, R d (upsert_card card d).
Hypothesis R_history : forall h d, R d (insert_history h d).

Lemma keeps_recordStatusHistory (card : Card) :
  keeps (recordStatusHistory faulty clock sort_ties card).
Proof.
  unfold recordStatusHistory, getDb.
  apply keeps_bind; [apply keeps_read|intros _].
  apply keeps_bind; [apply keeps_read|intros cardDoc].
  apply keeps_bind; [apply keeps_read|intros lastHistory].
  destruct (status_changed lastHistory card); [|apply keeps_ret].
  apply keeps_bind; [apply keeps_now|intros detected].
  apply keeps_db_call. intros d. apply R_history.
Qed.

Lemma keeps_persistCard (card : Card) : keeps (persistCard faulty clock sort_ties card).
Proof.
  unfold persistCard.
  apply keeps_bind; [apply keeps_db_call; intros d; apply R_upsert|intros _].
  apply keeps_bind; [apply keeps_read|intros cardDoc].
  apply keeps_bind; [|intros _; apply keeps_recordStatusHistory].
  destruct (given (client_id _)); [|apply keeps_ret].
  apply keeps_bind; [apply keeps_read|intros _; apply keeps_ret].
Qed.

Lemma keeps_persistPage (page : jsval) :
  keeps (persistPage faulty clock sort_ties transformProjectPage page).
Proof.
  unfold persistPage. apply keeps_bind; [|intros card; apply keeps_persistCard].
  intros w r w' Hrun. inversion Hrun; subst. apply R_refl.
Qed.

Lemma keeps_processPage (page : jsval) :
  keeps_in_pass (processPage faulty clock sort_ties transformProjectPage page).
Proof.
  unfold processPage. apply keeps_in_pass_tryM.
  - apply keeps_in_pass_bind; [apply keeps_in_pass_lift, keeps_persistPage|].
    intros _. apply keeps_in_pass_modify_log.
  - intros e. apply keeps_in_pass_bind; [apply keeps_in_pass_pure_call|].
    intros _. apply keeps_in_pass_modify_log.
Qed.

Lemma keeps_batch_loop (filteredPages : list jsval) (fuel : nat) :
  forall i, keeps_in_pass
              (batch_loop faulty clock sort_ties transformProjectPage fuel filteredPages i).
Proof.
  induction fuel as [|fuel IH]; intros i; cbn [batch_loop];
    destruct (Nat.ltb i (length filteredPages)); try apply keeps_in_pass_ret.
  - intros p r p' Hrun. discriminate.
  - apply keeps_in_pass_bind; [|intros _; apply IH].
    apply keeps_in_pass_for_each. intros page. apply keeps_processPage.
Qed.

Lemma keeps_getRetiredClientsMap : keeps (getRetiredClientsMap faulty query fetch_fuel).
Proof.
  unfold getRetiredClientsMap, getDb. apply keeps_tryM; [|intros e; apply keeps_ret].
  apply keeps_bind; [apply keeps_read|intros _].
  apply keeps_bind; [apply keeps_read|intros retiredClientsFromDb].
  destruct retiredClientsFromDb; [|apply keeps_ret].
  apply keeps_bind; [apply keeps_fetchAllPages|intros clientPages; apply keeps_ret].
Qed.

Lemma keeps_fetchPhase (clientId : option string) (limit : option Z) :
  keeps_in_pass (fetchPhase faulty query fetch_fuel PROJECTS_DB_ID clientId limit).
Proof.
  unfold fetchPhase. destruct (given clientId); [apply keeps_in_pass_fetchAllPages|].
  apply keeps_in_pass_bind; [apply keeps_in_pass_lift, keeps_getRetiredClientsMap|].
  intros retiredClients. apply keeps_in_pass_bind.
  - destruct retiredClients; [apply keeps_in_pass_ret|apply keeps_in_pass_modify_log].
  - intros _. apply keeps_in_pass_bind; [apply keeps_in_pass_fetchAllPages|].
    intros pages. destruct retiredClients;
      [apply keeps_in_pass_ret|apply keeps_in_pass_pure_call].
Qed.

(** The pass up to the point where it saves its log. *)
Lemma keeps_pages (clientId : option string) (limit : option Z) :
  keeps_in_pass
    (filteredPages ← fetchPhase faulty query fetch_fuel PROJECTS_DB_ID clientId limit;
     processBatches faulty clock sort_ties transformProjectPage filteredPages).
Proof.
  apply keeps_in_pass_bind; [apply keeps_fetchPhase|].
  intros filteredPages. apply keeps_batch_loop.
Qed.

Hypothesis R_log : forall log d, R d (insert_sync_log log d).

Lemma keeps_write_sync_log : keeps_in_pass (write_sync_log faulty).
Proof.
  unfold write_sync_log. apply keeps_in_pass_bind; [apply keeps_in_pass_get_log|].
  intros log. apply keeps_in_pass_lift, keeps_db_call. intros d. apply R_log.
Qed.

Lemma keeps_syncProjects (clientId : option string) (limit : option Z) :
  keeps (syncProjects faulty clock sort_ties query fetch_fuel transformProjectPage
           PROJECTS_DB_ID clientId limit).
Proof.
  unfold syncProjects, getDb. apply keeps_bind; [apply keeps_read|intros _].
  intros w r w' Hrun. unfold run_pass in Hrun.
  match type of Hrun with
  | match ?m ?p with _ => _ end = _ => destruct (m p) as [[r1 p1]|] eqn:Hpass
  end; [|discriminate].
  inversion Hrun; subst.
  assert (Hkeeps : keeps_in_pass
                     (tryM (pass_body faulty clock sort_ties query fetch_fuel
                              transformProjectPage PROJECTS_DB_ID clientId limit)
                           (failure_handler faulty clock))).
  { apply keeps_in_pass_tryM.
    - unfold pass_body. apply keeps_in_pass_bind; [apply keeps_fetchPhase|].
      intros filteredPages. apply keeps_in_pass_bind; [apply keeps_batch_loop|].
      intros _. unfold finalize.
      apply keeps_in_pass_bind; [apply keeps_in_pass_lift, keeps_now|intros completed].
      apply keeps_in_pass_bind; [apply keeps_in_pass_modify_log|intros _].
      apply keeps_in_pass_bind; [apply keeps_write_sync_log|intros _].
      apply keeps_in_pass_get_log.
    - intros e. unfold failure_handler.
      apply keeps_in_pass_bind; [apply keeps_in_pass_lift, keeps_now|intros completed].
      apply keeps_in_pass_bind; [apply keeps_in_pass_modify_log|intros _].
      apply keeps_in_pass_bind; [apply keeps_write_sync_log|intros _].
      apply keeps_in_pass_throw. }
  apply (Hkeeps _ _ _ Hpass).
Qed.

End PassInvariants.

(** What identifies a card document: the id the store gave it and the notion
    id of its card. *)
Definition card_key (doc : Extractor.CardDoc) : string * string :=
  (Extractor.doc_id doc, Extractor.notion_id (Extractor.doc_card doc)).

Lemma replace_card_keys (card : Extractor.Card) (docs : list Extractor.CardDoc) :
  map card_key (Extractor.replace_card card docs) = map card_key docs.
Proof.
  induction docs as [|doc docs IH]; [reflexivity|]. cbn [Extractor.replace_card].
  destruct (String.eqb_spec (Extractor.notion_id (Extractor.doc_card doc))
              (Extractor.notion_id card)) as [Heq|Hne].
  - cbn [map]. unfold card_key at 1 3. cbn. rewrite Heq. reflexivity.
  - cbn [map]. rewrite IH. reflexivity.
Qed.

Lemma upsert_card_keys (card : Extractor.Card) (d : Extractor.Db) :
  map card_key (Extractor.cards (Extractor.upsert_card card d))
  = map card_key (Extractor.cards d)
    ++ match Extractor.find_card (Extractor.notion_id card) d with
       | Some _ => []
       | None => [(Extractor.fresh_oid (Extractor.next_oid d), Extractor.notion_id card)]
       end.
Proof.
  unfold Extractor.upsert_card.
  destruct (Extractor.find_card (Extractor.notion_id card) d); cbn [Extractor.cards].
  - rewrite replace_card_keys, app_nil_r. reflexivity.
  - rewrite map_app. reflexivity.
Qed.

Lemma upsert_card_others (card : Extractor.Card) (d : Extractor.Db) :
  Extractor.card_status_history (Extractor.upsert_card card d)
  = Extractor.card_status_history d /\
  Extractor.sync_logs (Extractor.upsert_card card d) = Extractor.sync_logs d /\
  Extractor.clients (Extractor.upsert_card card d) = Extractor.clients d.
Proof.
  unfold Extractor.upsert_card.
  destruct (Extractor.find_card (Extractor.notion_id card) d); auto.
Qed.

(** The store after holds the store before: history and logs with more at
    the end, the card documents under their ids in their places, the
    clients as they were. *)
Definition only_appended (d d' : Extractor.Db) : Prop :=
  Extractor.card_status_history d `prefix_of` Extractor.card_status_history d' /\
  map card_key (Extractor.cards d) `prefix_of` map card_key (Extractor.cards d') /\
  Extractor.sync_logs d `prefix_of` Extractor.sync_logs d' /\
  Extractor.clients d' = Extractor.clients d.

Lemma only_appended_refl (d : Extractor.Db) : only_appended d d.
Proof. split; [|split; [|split]]; reflexivity. Qed.

Lemma only_appended_trans (d1 d2 d3 : Extractor.Db) :
  only_appended d1 d2 -> only_appended d2 d3 -> only_appended d1 d3.
Proof.
  intros (Hh1 & Hc1 & Hl1 & Hk1) (Hh2 & Hc2 & Hl2 & Hk2).
  split; [|split; [|split]]; etransitivity; eassumption.
Qed.

Lemma only_appended_upsert (card : Extractor.Card) (d : Extractor.Db) :
  only_appended d (Extractor.upsert_card card d).
Proof.
  destruct (upsert_card_others card d) as (Hh & Hl & Hk).
  unfold only_appended. rewrite Hh, Hl, Hk, upsert_card_keys.
  split; [|split; [|split]]; try reflexivity. apply prefix_app_r. reflexivity.
Qed.

Lemma only_appended_history (h : Extractor.CardStatusHistory) (d : Extractor.Db) :
  only_appended d (Extractor.insert_history h d).
Proof.
  unfold only_appended, Extractor.insert_history. cbn.
  split; [|split; [|split]]; try reflexivity. apply prefix_app_r. reflexivity.
Qed.

Lemma only_appended_log (log : Extractor.SyncLog) (d : Extractor.Db) :
  only_appended d (Extractor.insert_sync_log log d).
Proof.
  unfold only_appended, Extractor.insert_sync_log. cbn.
  split; [|split; [|split]]; try reflexivity. apply prefix_app_r. reflexivity.
Qed.

(** X4: whatever the driver, the API and the transform do, a projects sync
    that ends, by returning or by throwing, has only appended: the status
    history and the sync logs of before are the beginning of those of after,
    every card document is where it was under the same store id and notion
    id, and the clients collection is untouched. *)
Theorem syncProjects_only_appends
    (faulty : nat -> Extractor.DbOp -> bool) (clock : nat -> Z)
    (sort_ties : Extractor.CardStatusHistory -> Extractor.CardStatusHistory -> bool)
    (query : Notion.QueryArgs -> outcome Notion.QueryResponse) (fetch_fuel : nat)
    (transformProjectPage : nat -> Extractor.Db -> jsval -> outcome Extractor.Card)
    (PROJECTS_DB_ID : string) (clientId : option string) (limit : option Z)
    (w w' : Extractor.World) (r : outcome Extractor.SyncLog) :
  Extractor.syncProjects faulty clock sort_ties query fetch_fuel transformProjectPage
    PROJECTS_DB_ID clientId limit w = Some (r, w') ->
  Extractor.card_status_history (Extractor.db w)
    `prefix_of` Extractor.card_status_history (Extractor.db w') /\
  map card_key (Extractor.cards (Extractor.db w))
    `prefix_of` map card_key (Extractor.cards (Extractor.db w')) /\
  Extractor.sync_logs (Extractor.db w) `prefix_of` Extractor.sync_logs (Extractor.db w') /\
  Extractor.clients (Extractor.db w') = Extractor.clients (Extractor.db w).
Proof.
  intros Hrun.
  exact (keeps_syncProjects faulty clock sort_ties query fetch_fuel transformProjectPage
           PROJECTS_DB_ID only_appended only_appended_refl only_appended_trans
           only_appended_upsert only_appended_history only_appended_log
           clientId limit w r w' Hrun).
Qed.

(** A store that already holds the card of the page [p1], one record of its
    history, a log and a client. *)
Definition seeded_db : Extractor.Db :=
  {| Extractor.cards :=
       [{| Extractor.doc_id := "oid-0";
           Extractor.doc_card :=
             {| Extractor.notion_id := "p1"; Extractor.title := "Untitled";
                Extractor.status := Some "Backlog"; Extractor.client_id := None;
                Extractor.updated_at := 5; Extractor._id := None |} |}];
     Extractor.card_status_history :=
       [{| Extractor.card_id := "oid-0"; Extractor.history_status := "Backlog";
           Extractor.changed_at := 5; Extractor.detected_at := 6;
           Extractor.source := "notion" |}];
     Extractor.sync_logs :=
       [{| Extractor.sync_type := "incremental"; Extractor.log_status := Extractor.success;
           Extractor.records_processed := 1; Extractor.records_failed := 0;
           Extractor.error_count := 0; Extractor.started_at := 1;
           Extractor.completed_at := Some 7; Extractor.error_message := None;
           Extractor.metadata_client_id := None;
           Extractor.metadata_retired_clients_count := None |}];
     Extractor.clients :=
       [{| Extractor.client_notion_id := "client-1"; Extractor.client_name := "Acme";
           Extractor.is_retired := false |}];
     Extractor.next_oid := 1 |}.

Definition seeded_world : Extractor.World :=
  {| Extractor.db := seeded_db; Extractor.tick := 0 |}.

Lemma syncProjects_only_appends_witness :
  exists r w',
    Extractor.syncProjects second_upsert_fails tick_clock insertion_order projects_api 1
      sample_transform "projects-db" (Some "client-1") None seeded_world = Some (r, w') /\
    Extractor.card_status_history seeded_db
      `prefix_of` Extractor.card_status_history (Extractor.db w') /\
    map card_key (Extractor.cards seeded_db)
      `prefix_of` map card_key (Extractor.cards (Extractor.db w')) /\
    Extractor.sync_logs seeded_db `prefix_of` Extractor.sync_logs (Extractor.db w') /\
    Extractor.clients (Extractor.db w') = Extractor.clients seeded_db.
Proof.
  eexists _, _. split; [vm_compute; reflexivity|].
  eapply (syncProjects_only_appends second_upsert_fails tick_clock insertion_order
            projects_api 1 sample_transform "projects-db" (Some "client-1") None seeded_world).
  vm_compute. reflexivity.
Defined.

(** The notion ids of the card documents. *)
Definition card_notion_ids (d : Extractor.Db) : list string :=
  map (fun doc => Extractor.notion_id (Extractor.doc_card doc)) (Extractor.cards d).

Lemma find_card_none (notionId : string) (d : Extractor.Db) :
  Extractor.find_card notionId d = None -> notionId ∉ card_notion_ids d.
Proof.
  unfold Extractor.find_card, card_notion_ids.
  induction (Extractor.cards d) as [|doc docs IH]; cbn [List.find map].
  - intros _ Hin. inversion Hin.
  - destruct (String.eqb_spec (Extractor.notion_id (Extractor.doc_card doc)) notionId)
      as [Heq|Hne]; [discriminate|].
    intros Hnone Hin. apply elem_of_cons in Hin. destruct Hin as [Hin|Hin]; [congruence|].
    exact (IH Hnone Hin).
Qed.

Lemma upsert_card_notion_ids (card : Extractor.Card) (d : Extractor.Db) :
  card_notion_ids (Extractor.upsert_card card d)
  = card_notion_ids d
    ++ match Extractor.find_card (Extractor.notion_id card) d with
       | Some _ => []
       | None => [Extractor.notion_id card]
       end.
Proof.
  pose proof (upsert_card_keys card d) as Hkeys.
  apply (f_equal (map snd)) in Hkeys. rewrite map_app, !map_map in Hkeys.
  unfold card_notion_ids. cbn [card_key snd] in Hkeys. rewrite Hkeys.
  destruct (Extractor.find_card (Extractor.notion_id card) d); reflexivity.
Qed.

(** One card document per notion id, if that was so before. *)
Definition stays_unique (d d' : Extractor.Db) : Prop :=
  NoDup (card_notion_ids d) -> NoDup (card_notion_ids d').

(** X5: a projects sync never makes a second card document for a notion id:
    when the card documents had distinct notion ids before the pass, they
    have distinct notion ids after it, however the pass ended. *)
Theorem syncProjects_keeps_one_card_per_notion_id
    (faulty : nat -> Extractor.DbOp -> bool) (clock : nat -> Z)
    (sort_ties : Extractor.CardStatusHistory -> Extractor.CardStatusHistory -> bool)
    (query : Notion.QueryArgs -> outcome Notion.QueryResponse) (fetch_fuel : nat)
    (transformProjectPage : nat -> Extractor.Db -> jsval -> outcome Extractor.Card)
    (PROJECTS_DB_ID : string) (clientId : option string) (limit : option Z)
    (w w' : Extractor.World) (r : outcome Extractor.SyncLog) :
  Extractor.syncProjects faulty clock sort_ties query fetch_fuel transformProjectPage
    PROJECTS_DB_ID clientId limit w = Some (r, w') ->
  NoDup (card_notion_ids (Extractor.db w)) ->
  NoDup (card_notion_ids (Extractor.db w')).
Proof.
  intros Hrun.
  refine (keeps_syncProjects faulty clock sort_ties query fetch_fuel transformProjectPage
            PROJECTS_DB_ID stays_unique _ _ _ _ _ clientId limit w r w' Hrun).
  - intros d H. exact H.
  - intros d1 d2 d3 H12 H23 H. auto.
  - intros card d Hunique. rewrite upsert_card_notion_ids.
    destruct (Extractor.find_card (Extractor.notion_id card) d) eqn:Hfind.
    + rewrite app_nil_r. exact Hunique.
    + apply NoDup_app. split; [exact Hunique|]. split.
      * intros x Hin Hx. apply list_elem_of_singleton in Hx. subst x.
        exact (find_card_none _ _ Hfind Hin).
      * apply NoDup_singleton.
  - intros h d H. exact H.
  - intros log d H. exact H.
Qed.

Lemma syncProjects_keeps_one_card_per_notion_id_witness :
  exists r w',
    Extractor.syncProjects no_faults tick_clock insertion_order projects_api 1
      sample_transform "projects-db" (Some "client-1") None seeded_world = Some (r, w') /\
    card_notion_ids (Extractor.db w') = ["p1"; "p2"] /\
    NoDup (card_notion_ids (Extractor.db w')).
Proof.
  eexists _, _. split; [vm_compute; reflexivity|]. split; [reflexivity|].
  eapply (syncProjects_keeps_one_card_per_notion_id no_faults tick_clock insertion_order
            projects_api 1 sample_transform "projects-db" (Some "client-1") None seeded_world).
  - vm_compute. reflexivity.
  - apply NoDup_singleton.
Defined.

Definition same_logs (d d' : Extractor.Db) : Prop :=
  Extractor.sync_logs d' = Extractor.sync_logs d.

(** X6: a projects sync stores at most one log, and the log agrees with what
    the caller sees. A pass that returns has stored exactly the log it
    returns, which says success or partial by its failure counter; a pass
    that throws has stored nothing, or one log that says failed and carries
    the message of the error thrown. *)
Theorem syncProjects_stores_the_log_of_its_outcome
    (faulty : nat -> Extractor.DbOp -> bool) (clock : nat -> Z)
    (sort_ties : Extractor.CardStatusHistory -> Extractor.CardStatusHistory -> bool)
    (query : Notion.QueryArgs -> outcome Notion.QueryResponse) (fetch_fuel : nat)
    (transformProjectPage : nat -> Extractor.Db -> jsval -> outcome Extractor.Card)
    (PROJECTS_DB_ID : string) (clientId : option string) (limit : option Z)
    (w w' : Extractor.World) (r : outcome Extractor.SyncLog) :
  Extractor.syncProjects faulty clock sort_ties query fetch_fuel transformProjectPage
    PROJECTS_DB_ID clientId limit w = Some (r, w') ->
  match r with
  | Returned log =>
      Extractor.sync_logs (Extractor.db w') = Extractor.sync_logs (Extractor.db w) ++ [log] /\
      Extractor.log_status log
      = (if Nat.ltb 0 (Extractor.records_failed log)
         then Extractor.partial else Extractor.success)
  | Threw e =>
      Extractor.sync_logs (Extractor.db w') = Extractor.sync_logs (Extractor.db w) \/
      exists log,
        Extractor.sync_logs (Extractor.db w') = Extractor.sync_logs (Extractor.db w) ++ [log] /\
        Extractor.log_status log = Extractor.failed /\
        Extractor.error_message log = Some e
  end.
Proof.
  assert (Hrefl : forall d, same_logs d d) by reflexivity.
  assert (Htrans : forall d1 d2 d3, same_logs d1 d2 -> same_logs d2 d3 -> same_logs d1 d3).
  { unfold same_logs. intros d1 d2 d3 H12 H23. congruence. }
  assert (Hupsert : forall card d, same_logs d (Extractor.upsert_card card d)).
  { intros card d. apply (upsert_card_others card d). }
  assert (Hhistory : forall h d, same_logs d (Extractor.insert_history h d)) by reflexivity.
  assert (Hhandler : forall e p r1 p1,
             Extractor.failure_handler faulty clock e p = Some (r1, p1) ->
             exists e1,
               r1 = Threw e1 /\
               (Extractor.sync_logs (Extractor.db (Extractor.world p1))
                = Extractor.sync_logs (Extractor.db (Extractor.world p)) \/
                exists log,
                  Extractor.sync_logs (Extractor.db (Extractor.world p1))
                  = Extractor.sync_logs (Extractor.db (Extractor.world p)) ++ [log] /\
                  Extractor.log_status log = Extractor.failed /\
                  Extractor.error_message log = Some e1)).
  { intros e p r1 p1.
    unfold Extractor.failure_handler, Extractor.write_sync_log, Extractor.get_log,
      Extractor.throw, Extractor.lift, Extractor.now, Extractor.modify_log,
      Extractor.db_call, mbind, Extractor.M_bind.
    cbn [Extractor.world Extractor.syncLog Extractor.tick Extractor.db fst snd].
    destruct (faulty (Extractor.tick (Extractor.world p)) Extractor.SyncLogsInsertOne);
      cbn [Extractor.world Extractor.syncLog Extractor.tick Extractor.db fst snd];
      intros H; inversion H; subst; cbn; eexists; (split; [reflexivity|]).
    - left. reflexivity.
    - right. eexists. split; [reflexivity|]. split; reflexivity. }
  intros Hrun. unfold Extractor.syncProjects, Extractor.getDb, Extractor.db_call in Hrun.
  unfold mbind at 1 in Hrun. unfold Extractor.M_bind at 1 in Hrun.
  destruct (faulty (Extractor.tick w) Extractor.GetDb).
  { inversion Hrun; subst. left. reflexivity. }
  cbn [fst snd] in Hrun. unfold Extractor.run_pass, Extractor.tryM in Hrun.
  match type of Hrun with
  | context [Extractor.pass_body _ _ _ _ _ _ _ _ _ ?p] => set (p0 := p) in *
  end.
  change (Extractor.sync_logs (Extractor.db w))
    with (Extractor.sync_logs (Extractor.db (Extractor.world p0))).
  unfold Extractor.pass_body in Hrun. unfold mbind at 1 in Hrun.
  unfold Extractor.M_bind at 1 in Hrun.
  destruct (Extractor.fetchPhase faulty query fetch_fuel PROJECTS_DB_ID clientId limit p0)
    as [[[filteredPages|e] p1]|] eqn:Hfetch; [| |discriminate].
  - pose proof (keeps_fetchPhase faulty query fetch_fuel PROJECTS_DB_ID same_logs Hrefl Htrans
                  clientId limit p0 _ _ Hfetch) as Hlogs1.
    unfold mbind at 1 in Hrun. unfold Extractor.M_bind at 1 in Hrun.
    destruct (Extractor.processBatches faulty clock sort_ties transformProjectPage
                filteredPages p1) as [[[done|e] p2]|] eqn:Hbatches; [| |discriminate].
    + pose proof (keeps_batch_loop faulty clock sort_ties transformProjectPage same_logs
                    Hrefl Htrans Hupsert Hhistory filteredPages _ _ p1 _ _ Hbatches)
        as Hlogs2.
      unfold same_logs in Hlogs1, Hlogs2. rewrite <- Hlogs1, <- Hlogs2.
      revert Hrun.
      unfold Extractor.finalize, Extractor.write_sync_log, Extractor.get_log,
        Extractor.lift, Extractor.now, Extractor.modify_log, Extractor.db_call,
        mbind, Extractor.M_bind.
      cbn [Extractor.world Extractor.syncLog Extractor.tick Extractor.db fst snd].
      destruct (faulty (Extractor.tick (Extractor.world p2)) Extractor.SyncLogsInsertOne)
        eqn:Hwrite;
        cbn [Extractor.world Extractor.syncLog Extractor.tick Extractor.db fst snd].
      * intros Hrun.
        match type of Hrun with
        | match ?h with _ => _ end = _ => destruct h as [[r1 p3]|] eqn:Hcatch
        end; [|discriminate].
        inversion Hrun; subst. apply Hhandler in Hcatch.
        destruct Hcatch as (e1 & -> & Hstored). exact Hstored.
      * intros Hrun. inversion Hrun; subst. cbn. split; reflexivity.
    + pose proof (keeps_batch_loop faulty clock sort_ties transformProjectPage same_logs
                    Hrefl Htrans Hupsert Hhistory filteredPages _ _ p1 _ _ Hbatches)
        as Hlogs2.
      unfold same_logs in Hlogs1, Hlogs2. rewrite <- Hlogs1, <- Hlogs2.
      match type of Hrun with
      | match ?h with _ => _ end = _ => destruct h as [[r1 p3]|] eqn:Hcatch
      end; [|discriminate].
      inversion Hrun; subst. apply Hhandler in Hcatch.
      destruct Hcatch as (e1 & -> & Hstored). exact Hstored.
  - pose proof (keeps_fetchPhase faulty query fetch_fuel PROJECTS_DB_ID same_logs Hrefl Htrans
                  clientId limit p0 _ _ Hfetch) as Hlogs1.
    unfold same_logs in Hlogs1. rewrite <- Hlogs1.
    match type of Hrun with
    | match ?h with _ => _ end = _ => destruct h as [[r1 p3]|] eqn:Hcatch
    end; [|discriminate].
    inversion Hrun; subst. apply Hhandler in Hcatch.
    destruct Hcatch as (e1 & -> & Hstored). exact Hstored.
Qed.

Lemma syncProjects_stores_the_log_of_its_outcome_witness :
  exists w',
    Extractor.syncProjects log_write_fails_once tick_clock insertion_order projects_api 1
      sample_transform "projects-db" (Some "client-1") (Some 1) seeded_world
    = Some (Threw "MongoError: sync_logs.insertOne", w') /\
    (Extractor.sync_logs (Extractor.db w') = Extractor.sync_logs seeded_db \/
     exists log,
       Extractor.sync_logs (Extractor.db w') = Extractor.sync_logs seeded_db ++ [log] /\
       Extractor.log_status log = Extractor.failed /\
       Extractor.error_message log = Some "MongoError: sync_logs.insertOne").
Proof.
  eexists. split; [vm_compute; reflexivity|].
  refine (syncProjects_stores_the_log_of_its_outcome log_write_fails_once tick_clock
            insertion_order projects_api 1 sample_transform "projects-db" (Some "client-1")
            (Some 1) seeded_world _ (Threw "MongoError: sync_logs.insertOne") _).
  vm_compute. reflexivity.
Defined.

(** ** Retired clients *)

Lemma same_value_eq (a b : jsval) : same_value a b = true -> a = b.
Proof.
  destruct a, b; cbn; try discriminate; try reflexivity.
  - intros H. apply Bool.eqb_prop in H. congruence.
  - intros H. apply Z.eqb_eq in H. congruence.
  - intros H. apply String.eqb_eq in H. congruence.
Qed.

Lemma set_add_spec (x : jsval) (s : list jsval) (v : jsval) :
  v ∈ Extractor.set_add x s <-> v ∈ s \/ v = x.
Proof.
  unfold Extractor.set_add. destruct (existsb (same_value x) s) eqn:Hin.
  - split; [auto|]. intros [H|Hv]; subst; [exact H|].
    apply existsb_exists in Hin. destruct Hin as (b & Hb & Hsame).
    apply same_value_eq in Hsame. subst b. apply list_elem_of_In. exact Hb.
  - rewrite elem_of_app, list_elem_of_singleton. reflexivity.
Qed.

Section RetiredFacts.

Import Extractor.

Variable faulty : nat -> DbOp -> bool.
Variable query : Notion.QueryArgs -> outcome Notion.QueryResponse.
Variable fetch_fuel : nat.

Lemma retired_from_store (docs : list ClientDoc) :
  forall (acc : list jsval) (v : jsval),
    v ∈ fold_left (fun s client => set_add (JStr (client_notion_id client)) s) docs acc
    <-> v ∈ acc \/ exists client, client ∈ docs /\ v = JStr (client_notion_id client).
Proof.
  induction docs as [|doc docs IH]; intros acc v; cbn [fold_left].
  - split; [auto|]. intros [H|(client & Hin & _)]; [exact H|inversion Hin].
  - rewrite IH, set_add_spec. split.
    + intros [[H|Hv]|(client & Hin & Hv)]; subst; [auto| |].
      * right. exists doc. split; [left|reflexivity].
      * right. exists client. split; [right; exact Hin|reflexivity].
    + intros [H|(client & Hin & Hv)]; subst; [auto|].
      apply elem_of_cons in Hin. destruct Hin as [->|Hin]; [auto|].
      right. exists client. auto.
Qed.

(** A client page the fallback reads without an error. *)
Definition readable (clientPage : jsval) : Prop :=
  (exists clientType, client_type clientPage = Returned clientType) /\
  client_label clientPage = Returned tt.

Definition typed_retired (clientPage : jsval) : Prop :=
  client_type clientPage = Returned (Notion.Plain (JStr "Retired")).

Lemma scan_clients_spec (clientPages : list jsval) :
  Forall readable clientPages ->
  forall (acc : list jsval) (v : jsval),
    v ∈ scan_clients clientPages acc
    <-> v ∈ acc \/ exists clientPage,
                     clientPage ∈ clientPages /\ typed_retired clientPage /\
                     v = field clientPage "id".
Proof.
  induction 1 as [|clientPage clientPages [[clientType Htype] Hlabel] _ IH]; intros acc v;
    cbn [scan_clients].
  - split; [auto|]. intros [H|(clientPage & Hin & _)]; [exact H|inversion Hin].
  - rewrite Htype.
    assert (Hskip : clientType <> Notion.Plain (JStr "Retired") ->
              (v ∈ scan_clients clientPages acc
               <-> v ∈ acc \/ exists page,
                                page ∈ clientPage :: clientPages /\ typed_retired page /\
                                v = field page "id")).
    { intros Hother. rewrite IH. split.
      - intros [H|(page & Hin & Hret & Hv)]; subst; [auto|].
        right. exists page. split; [right; exact Hin|auto].
      - intros [H|(page & Hin & Hret & Hv)]; subst; [auto|].
        apply elem_of_cons in Hin. destruct Hin as [->|Hin].
        + unfold typed_retired in Hret. rewrite Htype in Hret. inversion Hret. contradiction.
        + right. exists page. auto. }
    destruct clientType as [value|arg]; [|apply Hskip; discriminate].
    destruct value as [| | | |text| |]; try (apply Hskip; discriminate).
    destruct (String.eqb_spec text "Retired") as [->|Hne].
    + rewrite Hlabel, IH, set_add_spec. split.
      * intros [[H|Hv]|(page & Hin & Hret & Hv)]; subst; [auto| |].
        -- right. exists clientPage. split; [left|]. split; [exact Htype|reflexivity].
        -- right. exists page. split; [right; exact Hin|auto].
      * intros [H|(page & Hin & Hret & Hv)]; subst; [auto|].
        apply elem_of_cons in Hin. destruct Hin as [->|Hin]; [auto|].
        right. exists page. auto.
    + assert (Hother : Notion.Plain (JStr text) <> Notion.Plain (JStr "Retired"))
        by congruence.
      specialize (Hskip Hother).
      destruct text as [|c0 text]; [exact Hskip|].
      repeat match goal with
             | |- context [match ?t with EmptyString => _ | String _ _ => _ end] =>
                 destruct t; try exact Hskip
             | |- context [match ?c with Ascii _ _ _ _ _ _ _ _ => _ end] =>
                 destruct c as [[] [] [] [] [] [] [] []]; try exact Hskip
             end.
      contradiction Hne. reflexivity.
Qed.

End RetiredFacts.

(** X7: the retired-clients lookup never throws and never writes. When the
    connection or the query of the clients collection fails it answers the
    empty set. When the collection holds retired clients it answers their
    notion ids, whatever Notion would have said. Only when the collection
    holds none does it read the clients database of Notion: a fetch that
    throws gives the empty set, and a fetch whose pages all read without
    error gives the ids of the pages whose type is exactly 'Retired'. *)
Theorem getRetiredClientsMap_never_throws
    (faulty : nat -> Extractor.DbOp -> bool)
    (query : Notion.QueryArgs -> outcome Notion.QueryResponse) (fetch_fuel : nat)
    (w : Extractor.World) (fetched : outcome (list jsval)) :
  Notion.fetchAllPages query fetch_fuel Extractor.CLIENTS_DB_ID JUndefined None = Some fetched ->
  exists retiredClients w',
    Extractor.getRetiredClientsMap faulty query fetch_fuel w
    = Some (Returned retiredClients, w') /\
    Extractor.db w' = Extractor.db w /\
    (faulty (Extractor.tick w) Extractor.GetDb = true \/
     faulty (S (Extractor.tick w)) Extractor.ClientsFind = true ->
     retiredClients = []) /\
    (faulty (Extractor.tick w) Extractor.GetDb = false ->
     faulty (S (Extractor.tick w)) Extractor.ClientsFind = false ->
     ((exists client, client ∈ Extractor.clients (Extractor.db w) /\
                      Extractor.is_retired client = true) ->
      forall v, v ∈ retiredClients <->
                exists client, client ∈ Extractor.clients (Extractor.db w) /\
                               Extractor.is_retired client = true /\
                               v = JStr (Extractor.client_notion_id client)) /\
     ((forall client, client ∈ Extractor.clients (Extractor.db w) ->
                      Extractor.is_retired client = false) ->
      match fetched with
      | Threw _ => retiredClients = []
      | Returned clientPages =>
          Forall readable clientPages ->
          forall v, v ∈ retiredClients <->
                    exists clientPage, clientPage ∈ clientPages /\
                                       typed_retired clientPage /\
                                       v = field clientPage "id"
      end)).
Proof.
  intros Hfetch.
  unfold Extractor.getRetiredClientsMap, Extractor.tryM, Extractor.getDb, Extractor.db_call,
    Extractor.fetchAllPages, mbind, Extractor.M_bind, mret, Extractor.M_ret.
  destruct (faulty (Extractor.tick w) Extractor.GetDb) eqn:Hdb;
    cbn [Extractor.db Extractor.tick fst snd].
  { eexists _, _. split; [reflexivity|]. cbn. split; [reflexivity|].
    split; [reflexivity|]. discriminate. }
  destruct (faulty (S (Extractor.tick w)) Extractor.ClientsFind) eqn:Hfind;
    cbn [Extractor.db Extractor.tick fst snd].
  { eexists _, _. split; [reflexivity|]. cbn. split; [reflexivity|].
    split; [reflexivity|]. discriminate. }
  destruct (List.filter Extractor.is_retired (Extractor.clients (Extractor.db w)))
    as [|first others] eqn:Hretired.
  - rewrite Hfetch.
    assert (Hnone : forall client, client ∈ Extractor.clients (Extractor.db w) ->
                                   Extractor.is_retired client = false).
    { intros client Hin. destruct (Extractor.is_retired client) eqn:Hr; [|reflexivity].
      assert (Hf : In client (List.filter Extractor.is_retired
                                (Extractor.clients (Extractor.db w)))).
      { apply filter_In. split; [apply list_elem_of_In; exact Hin|exact Hr]. }
      rewrite Hretired in Hf. contradiction. }
    destruct fetched as [clientPages|e].
    + eexists _, _. split; [reflexivity|]. cbn. split; [reflexivity|].
      split; [intros [H|H]; discriminate|]. intros _ _. split.
      * intros (client & Hin & Hr). rewrite (Hnone client Hin) in Hr. discriminate.
      * intros _ Hreadable v. rewrite (scan_clients_spec clientPages Hreadable [] v).
        split; [intros [H|H]; [inversion H|exact H]|auto].
    + eexists _, _. split; [reflexivity|]. cbn. split; [reflexivity|].
      split; [reflexivity|]. intros _ _. split; [|reflexivity].
      intros (client & Hin & Hr). rewrite (Hnone client Hin) in Hr. discriminate.
  - eexists _, _. split; [reflexivity|]. cbn [Extractor.db]. split; [reflexivity|].
    split; [intros [H|H]; discriminate|]. intros _ _. split.
    + intros _ v. rewrite retired_from_store, <- Hretired. split.
      * intros [H|(client & Hin & ->)]; [inversion H|].
        apply list_elem_of_In, filter_In in Hin. destruct Hin as [Hin Hr].
        exists client. split; [apply list_elem_of_In; exact Hin|auto].
      * intros (client & Hin & Hr & ->). right. exists client. split; [|reflexivity].
        apply list_elem_of_In, filter_In. split; [apply list_elem_of_In; exact Hin|exact Hr].
    + intros Hnone. exfalso.
      assert (Hin : In first (List.filter Extractor.is_retired
                                (Extractor.clients (Extractor.db w)))).
      { rewrite Hretired. left. reflexivity. }
      apply filter_In in Hin. destruct Hin as [Hin Hr].
      rewrite (Hnone first) in Hr; [discriminate|apply list_elem_of_In; exact Hin].
Qed.

(** A store with one active and one retired client. *)
Definition retired_db : Extractor.Db :=
  {| Extractor.cards := []; Extractor.card_status_history := [];
     Extractor.sync_logs := [];
     Extractor.clients :=
       [{| Extractor.client_notion_id := "client-1"; Extractor.client_name := "Acme";
           Extractor.is_retired := false |};
        {| Extractor.client_notion_id := "client-2"; Extractor.client_name := "Zeta";
           Extractor.is_retired := true |}];
     Extractor.next_oid := 0 |}.

Definition retired_world : Extractor.World :=
  {| Extractor.db := retired_db; Extractor.tick := 0 |}.

Lemma getRetiredClientsMap_never_throws_witness :
  exists retiredClients w',
    Extractor.getRetiredClientsMap no_faults failing_api 1 retired_world
    = Some (Returned retiredClients, w') /\
    Extractor.db w' = retired_db.
Proof.
  destruct (getRetiredClientsMap_never_throws no_faults failing_api 1 retired_world
              (Threw "APIResponseError: rate_limited") eq_refl)
    as (retiredClients & w' & Hrun & Hdb & _).
  exists retiredClients, w'. split; [exact Hrun|exact Hdb].
Defined.

(** Whether one of the clients of a project page is in the retired set. *)
Definition serves_retired (retiredClients : list jsval) (page : jsval) : bool :=
  match Extractor.findClientProperty page with
  | Returned (Some cids) =>
      existsb (fun cid => existsb (same_value cid) retiredClients) cids
  | _ => false
  end.

Lemma filter_pages_spec (retiredClients : list jsval) (pages : list jsval) :
  forall kept,
    Extractor.filter_pages retiredClients pages = Returned kept ->
    kept = List.filter (fun page => negb (serves_retired retiredClients page)) pages.
Proof.
  induction pages as [|page pages IH]; intros kept; cbn [Extractor.filter_pages List.filter].
  - intros H. inversion H. reflexivity.
  - unfold Extractor.keeps_page, serves_retired.
    destruct (Extractor.findClientProperty page) as [client|e];
      cbn [mbind outcome_bind mret outcome_ret]; [|discriminate].
    destruct (Extractor.filter_pages retiredClients pages) as [rest|e];
      cbn [mbind outcome_bind mret outcome_ret]; [|discriminate].
    intros H. inversion H; subst. rewrite (IH rest eq_refl).
    destruct client as [cids|]; [|reflexivity].
    destruct (existsb _ cids); reflexivity.
Qed.

Lemma filter_none_retired (pages : list jsval) :
  List.filter (fun page => negb (serves_retired [] page)) pages = pages.
Proof.
  induction pages as [|page pages IH]; [reflexivity|]. cbn [List.filter].
  assert (Hnone : serves_retired [] page = false).
  { unfold serves_retired. destruct (Extractor.findClientProperty page) as [[cids|]|];
      try reflexivity.
    induction cids as [|cid cids IHc]; [reflexivity|exact IHc]. }
  rewrite Hnone, IH. reflexivity.
Qed.

(** X8: which project pages a pass goes over. With a client id the pass asks
    Notion for the pages whose Client relation contains that id and takes
    them all: the retired clients are not looked up, so the projects of a
    retired client are synced when asked for by id. Without a client id the
    pass fetches all pages and keeps, in order, exactly those none of whose
    clients is in the retired set. *)
Theorem fetchPhase_filters_retired_clients_only_in_full_sync
    (faulty : nat -> Extractor.DbOp -> bool)
    (query : Notion.QueryArgs -> outcome Notion.QueryResponse) (fetch_fuel : nat)
    (PROJECTS_DB_ID : string) (clientId : option string) (limit : option Z)
    (p p1 : Extractor.Pass) (pages : list jsval) :
  Extractor.fetchPhase faulty query fetch_fuel PROJECTS_DB_ID clientId limit p
  = Some (Returned pages, p1) ->
  (forall scope,
      given clientId = Some scope ->
      Notion.fetchAllPages query fetch_fuel PROJECTS_DB_ID
        (JObj [("property", JStr Extractor.CLIENT_id);
               ("relation", JObj [("contains", JStr scope)])]) limit
      = Some (Returned pages) /\
      p1 = p) /\
  (given clientId = None ->
   exists retiredClients w1 fetched,
     Extractor.getRetiredClientsMap faulty query fetch_fuel (Extractor.world p)
     = Some (Returned retiredClients, w1) /\
     Notion.fetchAllPages query fetch_fuel PROJECTS_DB_ID JUndefined limit
     = Some (Returned fetched) /\
     pages = List.filter (fun page => negb (serves_retired retiredClients page)) fetched).
Proof.
  unfold Extractor.fetchPhase. destruct (given clientId) as [scope|].
  - unfold Extractor.fetchAllPages.
    destruct (Notion.fetchAllPages _ _ _ _ _) as [r|] eqn:Hfetch; [|discriminate].
    intros H. inversion H; subst. split; [|discriminate].
    intros scope' Hscope. inversion Hscope; subst. auto.
  - intros Hrun. split; [discriminate|]. intros _.
    unfold mbind, Extractor.M_bind, Extractor.lift in Hrun.
    destruct (Extractor.getRetiredClientsMap faulty query fetch_fuel (Extractor.world p))
      as [[[retiredClients|e] w1]|]; [|discriminate|discriminate].
    exists retiredClients, w1.
    destruct retiredClients as [|retired others];
      unfold mret, Extractor.M_ret, Extractor.modify_log, Extractor.fetchAllPages,
        Extractor.pure_call in Hrun;
      cbn [Extractor.world Extractor.syncLog] in Hrun.
    + destruct (Notion.fetchAllPages _ _ _ _ _) as [[fetched|e]|]; try discriminate.
      inversion Hrun; subst. exists pages. split; [reflexivity|]. split; [reflexivity|].
      symmetry. apply filter_none_retired.
    + destruct (Notion.fetchAllPages _ _ _ _ _) as [[fetched|e]|]; try discriminate.
      destruct (Extractor.filter_pages _ _) as [kept|e] eqn:Hfilter; [|discriminate].
      inversion Hrun; subst. exists fetched. split; [reflexivity|]. split; [reflexivity|].
      apply filter_pages_spec. exact Hfilter.
Qed.

(** A project page with the given client relation. *)
Definition project_of (pageId clientId : string) : jsval :=
  JObj [("id", JStr pageId);
        ("properties",
         JObj [("em%7D%3B", JObj [("relation", JArr [JObj [("id", JStr clientId)]])])])].

(** Two projects, of the active and of the retired client. *)
Definition client_projects_api (args : Notion.QueryArgs) : outcome Notion.QueryResponse :=
  Returned {| Notion.results := [project_of "p1" "client-1"; project_of "p2" "client-2"];
              Notion.has_more := false; Notion.next_cursor := JNull |}.

Lemma fetchPhase_filters_retired_clients_only_in_full_sync_witness :
  exists retiredClients w1 fetched,
    Extractor.getRetiredClientsMap no_faults client_projects_api 1 retired_world
    = Some (Returned retiredClients, w1) /\
    Notion.fetchAllPages client_projects_api 1 "projects-db" JUndefined None
    = Some (Returned fetched) /\
    [project_of "p1" "client-1"]
    = List.filter (fun page => negb (serves_retired retiredClients page)) fetched.
Proof.
  refine (proj2 (fetchPhase_filters_retired_clients_only_in_full_sync no_faults
                   client_projects_api 1 "projects-db" None None
                   {| Extractor.world := retired_world;
                      Extractor.syncLog := Extractor.initial_log 0 None |}
                   {| Extractor.world := {| Extractor.db := retired_db; Extractor.tick := 2 |};
                      Extractor.syncLog :=
                        Extractor.with_retired_count 1 (Extractor.initial_log 0 None) |}
                   [project_of "p1" "client-1"] _) eq_refl).
  vm_compute. reflexivity.
Defined.

(** The same two projects asked for by the id of the retired client: the
    page comes through. *)
Example fetchPhase_scoped_to_retired_client :
  Extractor.fetchPhase no_faults
    (fun args => Returned {| Notion.results := [project_of "p2" "client-2"];
                             Notion.has_more := false; Notion.next_cursor := JNull |})
    1 "projects-db" (Some "client-2") None
    {| Extractor.world := retired_world; Extractor.syncLog := Extractor.initial_log 0 None |}
  = Some (Returned [project_of "p2" "client-2"],
          {| Extractor.world := retired_world;
             Extractor.syncLog := Extractor.initial_log 0 None |}).
Proof. reflexivity. Qed.

(** ** Cards without a status *)

(** X9: a card without a status is never recognised as unchanged. Each call
    of [recordStatusHistory] for it, on a driver that works, appends one more
    record of status 'Unknown', also when the latest record of the card is
    already 'Unknown': n calls leave n new records. *)
Theorem recordStatusHistory_repeats_unknown
    (clock : nat -> Z)
    (sort_ties : Extractor.CardStatusHistory -> Extractor.CardStatusHistory -> bool)
    (card : Extractor.Card) (n : nat) (w : Extractor.World) :
  Extractor.status card = None ->
  exists w' added,
    Extractor.for_each (Extractor.recordStatusHistory no_faults clock sort_ties)
      (repeat card n) w = Some (Returned tt, w') /\
    Extractor.card_status_history (Extractor.db w')
    = Extractor.card_status_history (Extractor.db w) ++ added /\
    length added = n /\
    Forall (fun h => Extractor.history_status h = "Unknown") added.
Proof.
  intros Hstatus. revert w. induction n as [|n IH]; intros w.
  - exists w, []. cbn. rewrite app_nil_r. repeat split. constructor.
  - destruct (recordStatusHistory_effect no_faults clock sort_ties card w)
      as (r & w1 & Hrun & _ & _ & Hhist & Hnf).
    rewrite (Hnf (fun _ _ => eq_refl)) in *. clear Hnf.
    assert (Hchanged : Extractor.status_changed
                         (last_history_in sort_ties (Extractor.db w) card) card = true).
    { unfold Extractor.status_changed, Extractor.status_differs. rewrite Hstatus.
      destruct (last_history_in _ _ _); reflexivity. }
    rewrite Hchanged in Hhist. cbn [returned andb] in Hhist.
    destruct (IH w1) as (w' & added & Hrest & Hadded & Hlen & Hall).
    eexists w', (_ :: added). split; [|split; [|split]].
    + cbn [repeat Extractor.for_each]. unfold mbind, Extractor.M_bind.
      rewrite Hrun. exact Hrest.
    + rewrite Hadded, Hhist, <- app_assoc. reflexivity.
    + cbn. rewrite Hlen. reflexivity.
    + constructor; [|exact Hall].
      unfold Extractor.history_record. cbn. rewrite Hstatus. reflexivity.
Qed.

Lemma recordStatusHistory_repeats_unknown_witness :
  exists w' added,
    Extractor.for_each (Extractor.recordStatusHistory no_faults tick_clock insertion_order)
      (repeat statusless_card 3) empty_world = Some (Returned tt, w') /\
    Extractor.card_status_history (Extractor.db w')
    = Extractor.card_status_history empty_db ++ added /\
    length added = 3%nat /\
    Forall (fun h => Extractor.history_status h = "Unknown") added.
Proof.
  apply (recordStatusHistory_repeats_unknown tick_clock insertion_order statusless_card 3
           empty_world).
  reflexivity.
Defined.

(** ** The averages per developer *)

Section DaysLatePerDeveloper.

Import Metrics.

Variable Date_parse : string -> Date.

Lemma late_of_nonnegative (card : Card) (who : string) (daysLate : Z) :
  late_of Date_parse card = Some (who, daysLate) -> 0 <= daysLate.
Proof.
  unfold late_of. destruct (cardDaysLate Date_parse card) as [late|] eqn:Hcard; [|discriminate].
  intros ->. apply cardDaysLate_spec in Hcard.
  destruct Hcard as (deadline & completed & _ & _ & _ & _ & Hlt & ->).
  apply Z.div_pos; [lia|reflexivity].
Qed.

Lemma lateDaysOf_nonnegative (developerId : string) (cards : list Card) :
  Forall (fun daysLate => 0 <= daysLate) (lateDaysOf Date_parse developerId cards).
Proof.
  unfold lateDaysOf. induction cards as [|card cards IH]; cbn [omap list_omap];
    [constructor|].
  unfold late_for at 1.
  destruct (late_of Date_parse card) as [[who daysLate]|] eqn:Hcard; [|exact IH].
  destruct (String.eqb who developerId); [|exact IH].
  constructor; [|exact IH]. exact (late_of_nonnegative _ _ _ Hcard).
Qed.

Lemma lateDays_nonnegative (cards : list Card) :
  Forall (fun daysLate => 0 <= daysLate) (lateDays Date_parse cards).
Proof.
  unfold lateDays. induction cards as [|card cards IH]; cbn [omap list_omap];
    [constructor|].
  destruct (late_of Date_parse card) as [[who daysLate]|] eqn:Hcard; [|exact IH].
  cbn. constructor; [|exact IH]. exact (late_of_nonnegative _ _ _ Hcard).
Qed.

Lemma sumZ_nonnegative (l : list Z) :
  Forall (fun x => 0 <= x) l -> 0 <= sumZ l.
Proof.
  rewrite sumZ_fold_right. induction 1 as [|x l Hx _ IH]; cbn [fold_right]; lia.
Qed.

Lemma average_nonnegative (l : list Z) :
  Forall (fun x => 0 <= x) l -> (0 <= average l)%Q.
Proof.
  intros Hl. unfold average, Qle. cbn. pose proof (sumZ_nonnegative l Hl). lia.
Qed.

(** The metrics of a run of the loop that does not throw are for different
    developers. *)
Lemma daysLateMetrics_NoDup (cards : list Card) (metrics : list MetricsCache) :
  daysLateMetrics Date_parse cards = Returned metrics ->
  NoDup (map team_member_id metrics).
Proof.
  intros Hrun.
  destruct (daysLateMetrics_returned _ _ _ Hrun) as (grouped & _ & -> & Hkeys & _ & _).
  rewrite map_app, map_map. cbn [map]. apply NoDup_app. split; [|split].
  - assert (Hentries : NoDup (map fst (entries grouped))).
    { rewrite (Permutation_map fst (entries_perm grouped)). exact Hkeys. }
    clear Hrun Hkeys.
    induction (entries grouped) as [|entry rest IH]; cbn [List.filter map]; [constructor|].
    cbn [map] in Hentries. apply NoDup_cons in Hentries. destruct Hentries as [Hfresh Hrest].
    destruct (negb (Nat.eqb (length (snd entry)) 0)); [|exact (IH Hrest)].
    cbn [map]. apply NoDup_cons. split; [|exact (IH Hrest)].
    intros Hin. apply Hfresh. apply list_elem_of_In, in_map_iff in Hin.
    destruct Hin as (other & Hsame & Hother). cbn in Hsame. inversion Hsame as [Hfst].
    apply filter_In in Hother. destruct Hother as [Hother _].
    apply list_elem_of_In. apply in_map. exact Hother.
  - intros who Hin Hnone. apply list_elem_of_singleton in Hnone. subst who.
    apply list_elem_of_In, in_map_iff in Hin. destruct Hin as (entry & Hsome & _).
    discriminate.
  - apply NoDup_singleton.
Qed.

Lemma daysLateMetrics_nonnegative (cards : list Card) (metrics : list MetricsCache) :
  daysLateMetrics Date_parse cards = Returned metrics ->
  Forall (fun metric => (0 <= value metric)%Q) metrics.
Proof.
  intros Hrun. destruct (overall_last _ _ _ Hrun) as (perDeveloper & Hsplit & Hnamed).
  apply Forall_forall. intros metric Hin. apply list_elem_of_In in Hin.
  destruct (team_member_id metric) as [developerId|] eqn:Hid.
  - destruct (developer_metrics _ _ _ metric developerId Hrun Hin Hid) as [_ ->].
    cbn [value developer_metric snd]. apply average_nonnegative, lateDaysOf_nonnegative.
  - rewrite Hsplit in Hin. apply in_app_or in Hin. destruct Hin as [Hin|[<-|[]]].
    + rewrite Forall_forall in Hnamed. exfalso.
      apply (Hnamed metric); [apply list_elem_of_In; exact Hin|exact Hid].
    + cbn [value]. destruct (Nat.ltb 0 (length (lateDays Date_parse cards))).
      * apply average_nonnegative, lateDays_nonnegative.
      * apply Qle_refl.
Qed.

Lemma daysLateMetrics_returns (cards : list Card) :
  (exists metrics, daysLateMetrics Date_parse cards = Returned metrics)
  <-> Forall (files Date_parse) cards.
Proof.
  rewrite <- (group_from_returns Date_parse cards []) by constructor.
  unfold daysLateMetrics, groupDaysLate.
  destruct (group_from Date_parse cards []) as [grouped|]; cbn [mbind outcome_bind].
  - split; eauto.
  - split; intros [x Hx]; discriminate.
Qed.

End DaysLatePerDeveloper.

(** A late card whose first developer is named 'constructor'. *)
Definition constructor_card : Metrics.Card :=
  {| Metrics.developer_ids := JArr [JStr "constructor"];
     Metrics.developer := JUndefined;
     Metrics.original_due_date :=
       Metrics.Held (JObj [("start", JStr "2024-01-10"); ("end", JNull); ("time_zone", JNull)]);
     Metrics.ready_for_client_date :=
       Metrics.HeldDate (TimeValue (Metrics.days_from_civil 2024 1 15 * msPerDay));
     Metrics.done_date := Metrics.Held JUndefined;
     Metrics.deployment_date := Metrics.Held JUndefined |}.

(** X10: the days-late metrics hold one average per developer and one
    overall. The loop over the cards goes through exactly when no card by
    itself throws and no late card names first a developer called as a
    property of [Object.prototype]; otherwise the function throws before it
    hands any metric to the store. No two metrics handed to the store are
    for the same developer; each is the mean of the days late of the late
    cards that name the developer first; and when the function returns, a
    developer has a metric exactly when there is such a card. A late card
    of a developer 'constructor' makes the function throw. *)
Theorem calculateDaysLateMetrics_one_average_per_developer
    (Date_parse : string -> Date) (cards : list Metrics.Card) :
  ((exists metrics, Metrics.daysLateMetrics Date_parse cards = Returned metrics)
   <-> Forall (files Date_parse) cards) /\
  (forall rejected result made,
      Metrics.calculateDaysLateMetrics Date_parse rejected cards = (result, made) ->
      NoDup (map Metrics.team_member_id made) /\
      (forall metric developerId,
          In metric made ->
          Metrics.team_member_id metric = Some developerId ->
          lateDaysOf Date_parse developerId cards <> [] /\
          (Metrics.value metric == mean (lateDaysOf Date_parse developerId cards))%Q) /\
      (result = Returned tt ->
       forall developerId,
         lateDaysOf Date_parse developerId cards <> [] <->
         exists metric, In metric made /\ Metrics.team_member_id metric = Some developerId) /\
      (~ Forall (files Date_parse) cards ->
       made = [] /\ exists message, result = Threw message)) /\
  (forall rejected,
      exists message,
        Metrics.calculateDaysLateMetrics Metrics.parse_date_only rejected
          [january_card; constructor_card]
        = (Threw message, [])).
Proof.
  split; [apply daysLateMetrics_returns|]. split.
  - intros rejected result made Hrun.
    destruct (calculateDaysLateMetrics_calls _ _ _ _ _ Hrun)
      as [[-> [message ->]]|(metrics & unwritten & Hmetrics & Hsplit & Hdone)].
    { split; [constructor|]. split; [intros metric developerId []|].
      split; [discriminate|]. eauto. }
    split; [|split; [|split]].
    + pose proof (daysLateMetrics_NoDup _ _ _ Hmetrics) as Hnodup.
      rewrite Hsplit, map_app in Hnodup. apply NoDup_app in Hnodup. apply Hnodup.
    + intros metric developerId Hin Hid.
      destruct (developer_metrics Date_parse cards _ metric developerId Hmetrics)
        as [Hsome ->]; [rewrite Hsplit; apply in_or_app; left; exact Hin|exact Hid|].
      split; [exact Hsome|]. apply average_mean. exact Hsome.
    + intros Hreturned developerId. rewrite (Hdone Hreturned), app_nil_r in Hsplit.
      subst metrics. split.
      * intros Hsome. eexists. split; [exact (developer_has_metric _ _ _ _ Hmetrics Hsome)|].
        reflexivity.
      * intros (metric & Hin & Hid).
        exact (proj1 (developer_metrics _ _ _ metric developerId Hmetrics Hin Hid)).
    + intros Hthrows. exfalso. apply Hthrows. apply daysLateMetrics_returns. eauto.
  - intros rejected. eexists. vm_compute. reflexivity.
Qed.

(** X11: no days-late average is negative, and lateness counts in whole
    days only: a card completed after its deadline but less than 24 hours
    after it enters its developer's average, and the overall one, with 0. A
    number beyond the range of time values is no date: a card due at such a
    number is left out. *)
Theorem calculateDaysLateMetrics_averages_are_not_negative
    (Date_parse : string -> Date) :
  (forall rejected cards result made,
      Metrics.calculateDaysLateMetrics Date_parse rejected cards = (result, made) ->
      Forall (fun metric => (0 <= Metrics.value metric)%Q) made) /\
  (forall card deadline completed developerId,
      truthy (Metrics.primaryDeveloper card) = true ->
      call_toString "primaryDeveloper" (Metrics.primaryDeveloper card)
      = Returned developerId ->
      Metrics.resolveDeadline Date_parse card = Returned (Some (TimeValue deadline)) ->
      Metrics.resolveCompletion Date_parse card = Returned (Some (TimeValue completed)) ->
      deadline < completed < deadline + msPerDay ->
      Metrics.cardDaysLate Date_parse card = Returned (Some (developerId, 0))) /\
  (forall card start,
      Metrics.original_due_date card = Metrics.Held (JObj [("start", JNum start)]) ->
      maxTime < Z.abs start ->
      Metrics.cardDaysLate Date_parse card = Returned None).
Proof.
  split; [|split].
  - intros rejected cards result made Hrun.
    destruct (calculateDaysLateMetrics_calls _ _ _ _ _ Hrun)
      as [[-> _]|(metrics & unwritten & Hmetrics & Hsplit & _)]; [constructor|].
    pose proof (daysLateMetrics_nonnegative _ _ _ Hmetrics) as Hall.
    rewrite Hsplit in Hall. apply Forall_app in Hall. apply Hall.
  - intros card deadline completed developerId Hwho Hid Hdeadline Hcompleted [Hlate Hday].
    apply cardDaysLate_spec. exists deadline, completed. repeat split; auto.
    symmetry. apply Z.div_small. lia.
  - intros card start Hdue Hbeyond. apply cardDaysLate_lacking. left. right.
    unfold Metrics.resolveDeadline. rewrite Hdue.
    cbn [truthy isObject andb field lookup_field String.eqb Ascii.eqb Bool.eqb].
    assert (Hstart : (start =? 0) = false) by (apply Z.eqb_neq; unfold maxTime in *; lia).
    rewrite Hstart. cbn [negb Metrics.newDate]. unfold timeClip.
    destruct (Z.leb_spec (Z.abs start) maxTime); [lia|reflexivity].
Qed.

(** ** The windows of the chunked fetch *)

Section WindowFacts.

Import TimeDoctor.

Variable api : nat -> WorklogRequest -> outcome Response.
Variable JSON_parse : string -> outcome jsval.
Variable parseFloat : string -> option Z.
Variable config : TimeDoctorConfig.
Variable userIds : list string.






End WindowFacts.


(** Thirty days from the epoch: the instants of days 7, 15 and 23 are in no
    window, and the fifth window begins after the end date. *)
Example thirty_days_of_windows :
  snd (TimeDoctor.syncTimeDoctorWorklogs_chunks first_week_too_wide
         (fun _ => Threw "SyntaxError") (fun _ => None) sample_config ["u1"]
         (TimeValue 0) (TimeValue (day 30)))
  = [{| TimeDoctor.window_from := day 0; TimeDoctor.window_to := day 7 |};
     {| TimeDoctor.window_from := day 8; TimeDoctor.window_to := day 15 |};
     {| TimeDoctor.window_from := day 16; TimeDoctor.window_to := day 23 |};
     {| TimeDoctor.window_from := day 24; TimeDoctor.window_to := day 30 |};
     {| TimeDoctor.window_from := day 31; TimeDoctor.window_to := day 30 |}].
Proof. vm_compute. reflexivity. Qed.

(** ** Normalized property names *)

Section NamingFacts.

Import ClientSync.

Fixpoint string_all (p : ascii -> bool) (s : string) : bool :=
  match s with
  | EmptyString => true
  | String c rest => p c && string_all p rest
  end.

Definition field_char (c : ascii) : bool := is_word c || is_underscore c.

Definition starts_with_underscore (s : string) : bool :=
  match s with
  | String c _ => is_underscore c
  | EmptyString => false
  end.

Fixpoint ends_with_underscore (s : string) : bool :=
  match s with
  | EmptyString => false
  | String c EmptyString => is_underscore c
  | String _ rest => ends_with_underscore rest
  end.

Fixpoint no_double_underscore (s : string) : bool :=
  match s with
  | EmptyString => true
  | String c rest =>
      negb (is_underscore c && starts_with_underscore rest) && no_double_underscore rest
  end.

(** A field name as [normalizePropertyName] gives them: lower-case letters,
    digits and single underscores between them. *)
Definition clean_name (s : string) : Prop :=
  string_all field_char s = true /\
  starts_with_underscore s = false /\
  ends_with_underscore s = false /\
  no_double_underscore s = true.

Lemma word_not_underscore (c : ascii) : is_word c = true -> is_underscore c = false.
Proof.
  unfold is_underscore. destruct (Ascii.eqb_spec c underscore) as [->|]; [|reflexivity].
  discriminate.
Qed.

Lemma replace_other_runs_shape (s : string) :
  forall in_run,
    string_all field_char (replace_other_runs in_run s) = true /\
    no_double_underscore (replace_other_runs in_run s) = true /\
    (in_run = true -> starts_with_underscore (replace_other_runs in_run s) = false).
Proof.
  induction s as [|c s IH]; intros in_run; cbn [replace_other_runs]; [auto|].
  destruct (is_word c) eqn:Hword.
  - destruct (IH false) as (Hall & Hdouble & _).
    cbn [string_all no_double_underscore starts_with_underscore]. unfold field_char at 1.
    rewrite Hword, (word_not_underscore c Hword), Hall, Hdouble. auto.
  - destruct (IH true) as (Hall & Hdouble & Hstart). specialize (Hstart eq_refl).
    destruct in_run; [auto|].
    cbn [string_all no_double_underscore starts_with_underscore].
    rewrite Hall, Hdouble, Hstart. cbn. split; [reflexivity|]. split; [reflexivity|].
    discriminate.
Qed.

Lemma drop_leading_shape (s : string) :
  string_all field_char s = true -> no_double_underscore s = true ->
  string_all field_char (drop_leading_underscores s) = true /\
  no_double_underscore (drop_leading_underscores s) = true /\
  starts_with_underscore (drop_leading_underscores s) = false.
Proof.
  induction s as [|c s IH]; cbn [drop_leading_underscores]; [auto|].
  intros Hall Hdouble. destruct (is_underscore c) eqn:Hc.
  - cbn [string_all no_double_underscore] in Hall, Hdouble.
    apply andb_true_iff in Hall, Hdouble. apply IH; [apply Hall|apply Hdouble].
  - cbn [starts_with_underscore]. auto.
Qed.

(** What is left of a string whose trailing underscores are dropped begins
    as the string does. *)
Lemma drop_trailing_head (s : string) :
  starts_with_underscore (drop_trailing_underscores s) = true ->
  starts_with_underscore s = true.
Proof.
  destruct s as [|c s]; cbn [drop_trailing_underscores]; [auto|].
  destruct (drop_trailing_underscores s); [|auto].
  destruct (is_underscore c) eqn:Hc; cbn [starts_with_underscore]; congruence.
Qed.

Lemma drop_trailing_shape (s : string) :
  string_all field_char s = true -> no_double_underscore s = true ->
  string_all field_char (drop_trailing_underscores s) = true /\
  no_double_underscore (drop_trailing_underscores s) = true /\
  ends_with_underscore (drop_trailing_underscores s) = false /\
  (starts_with_underscore s = false ->
   starts_with_underscore (drop_trailing_underscores s) = false).
Proof.
  induction s as [|c s IH]; cbn [drop_trailing_underscores]; [auto|].
  intros Hall Hdouble. cbn [string_all no_double_underscore] in Hall, Hdouble.
  apply andb_true_iff in Hall, Hdouble. destruct Hall as [Hc Hall].
  destruct Hdouble as [Hpair Hdouble].
  destruct (IH Hall Hdouble) as (Hall' & Hdouble' & Hend & _).
  pose proof (drop_trailing_head s) as Hhead.
  destruct (drop_trailing_underscores s) as [|c' kept] eqn:Hkept.
  - destruct (is_underscore c) eqn:Hu; cbn; [auto|].
    rewrite Hc, Hu. auto.
  - remember (String c' kept) as rest' eqn:Hrest'.
    split; [|split; [|split]].
    + cbn [string_all]. rewrite Hc, Hall'. reflexivity.
    + cbn [no_double_underscore]. rewrite Hdouble', andb_true_r.
      destruct (is_underscore c) eqn:Hu; [|reflexivity].
      destruct (starts_with_underscore rest') eqn:Hu'; [|reflexivity].
      rewrite (Hhead eq_refl) in Hpair. discriminate.
    + subst rest'. exact Hend.
    + intros Hstart. exact Hstart.
Qed.

Lemma collapse_underscores_id (s : string) :
  forall in_run,
    no_double_underscore s = true ->
    (in_run = true -> starts_with_underscore s = false) ->
    collapse_underscores in_run s = s.
Proof.
  induction s as [|c s IH]; intros in_run Hdouble Hstart; [reflexivity|].
  cbn [collapse_underscores]. cbn [no_double_underscore] in Hdouble.
  apply andb_true_iff in Hdouble. destruct Hdouble as [Hpair Hdouble].
  destruct (is_underscore c) eqn:Hc.
  - destruct in_run; [specialize (Hstart eq_refl); cbn in Hstart; congruence|].
    rewrite IH; [reflexivity|exact Hdouble|].
    intros _. cbn in Hpair. destruct (starts_with_underscore s); [discriminate|reflexivity].
  - rewrite IH; [reflexivity|exact Hdouble|discriminate].
Qed.

Lemma normalizePropertyName_clean (name : string) : clean_name (normalizePropertyName name).
Proof.
  unfold normalizePropertyName.
  destruct (replace_other_runs_shape (trim (toLowerCase name)) false) as (Hall & Hdouble & _).
  destruct (drop_leading_shape _ Hall Hdouble) as (Hall1 & Hdouble1 & Hstart1).
  destruct (drop_trailing_shape _ Hall1 Hdouble1) as (Hall2 & Hdouble2 & Hend2 & Hstart2).
  specialize (Hstart2 Hstart1).
  rewrite collapse_underscores_id by (auto; discriminate).
  split; [|split; [|split]]; assumption.
Qed.

Lemma field_char_cases (c : ascii) :
  field_char c = true ->
  lower_ascii c = c /\ is_white c = false.
Proof.
  unfold field_char, is_word, is_underscore, lower_ascii, is_white.
  destruct (Ascii.eqb_spec c underscore) as [->|_]; [intros _; split; reflexivity|].
  rewrite orb_false_r. generalize (nat_of_ascii c). intros n Hn.
  apply orb_true_iff in Hn. rewrite !andb_true_iff, !Nat.leb_le in Hn.
  assert (Hupper : (Nat.leb 65 n && Nat.leb n 90)%bool = false).
  { apply andb_false_iff. rewrite !Nat.leb_gt. lia. }
  rewrite Hupper. split; [reflexivity|].
  apply orb_false_iff. split.
  - apply andb_false_iff. rewrite !Nat.leb_gt. lia.
  - apply Nat.eqb_neq. lia.
Qed.

Lemma toLowerCase_clean (s : string) :
  string_all field_char s = true -> toLowerCase s = s.
Proof.
  induction s as [|c s IH]; [reflexivity|]. cbn [string_all toLowerCase].
  intros Hall. apply andb_true_iff in Hall. destruct Hall as [Hc Hall].
  rewrite (proj1 (field_char_cases c Hc)), (IH Hall). reflexivity.
Qed.

Lemma trimEnd_clean (s : string) :
  string_all field_char s = true -> trimEnd s = s.
Proof.
  induction s as [|c s IH]; [reflexivity|]. cbn [string_all trimEnd].
  intros Hall. apply andb_true_iff in Hall. destruct Hall as [Hc Hall].
  rewrite (IH Hall). destruct s; [|reflexivity].
  rewrite (proj2 (field_char_cases c Hc)). reflexivity.
Qed.

Lemma trim_clean (s : string) :
  string_all field_char s = true -> trim s = s.
Proof.
  intros Hall. unfold trim.
  assert (Hstart : trimStart s = s).
  { destruct s as [|c s]; [reflexivity|]. cbn [trimStart string_all] in *.
    apply andb_true_iff in Hall. destruct Hall as [Hc _].
    rewrite (proj2 (field_char_cases c Hc)). reflexivity. }
  rewrite Hstart. apply trimEnd_clean. exact Hall.
Qed.

Lemma replace_other_runs_id (s : string) :
  forall in_run,
    string_all field_char s = true ->
    no_double_underscore s = true ->
    (in_run = true -> starts_with_underscore s = false) ->
    replace_other_runs in_run s = s.
Proof.
  induction s as [|c s IH]; intros in_run Hall Hdouble Hstart; [reflexivity|].
  cbn [replace_other_runs]. cbn [string_all no_double_underscore] in Hall, Hdouble.
  apply andb_true_iff in Hall, Hdouble. destruct Hall as [Hc Hall].
  destruct Hdouble as [Hpair Hdouble].
  destruct (is_word c) eqn:Hword.
  - rewrite IH; [reflexivity|exact Hall|exact Hdouble|discriminate].
  - unfold field_char in Hc. rewrite Hword in Hc. cbn in Hc.
    destruct in_run; [specialize (Hstart eq_refl); cbn in Hstart; congruence|].
    rewrite IH; [|exact Hall|exact Hdouble|].
    + unfold is_underscore in Hc. apply Ascii.eqb_eq in Hc. rewrite Hc. reflexivity.
    + intros _. rewrite Hc in Hpair. cbn in Hpair.
      destruct (starts_with_underscore s); [discriminate|reflexivity].
Qed.

Lemma drop_trailing_id (s : string) :
  ends_with_underscore s = false -> drop_trailing_underscores s = s.
Proof.
  induction s as [|c s IH]; [reflexivity|]. cbn [drop_trailing_underscores].
  destruct s as [|c' s].
  - cbn. intros ->. reflexivity.
  - intros Hend. change (ends_with_underscore (String c' s) = false) in Hend.
    rewrite (IH Hend). reflexivity.
Qed.

Lemma normalizePropertyName_fixes_clean (s : string) :
  clean_name s -> normalizePropertyName s = s.
Proof.
  intros (Hall & Hstart & Hend & Hdouble). unfold normalizePropertyName.
  rewrite (toLowerCase_clean s Hall), (trim_clean s Hall).
  rewrite (replace_other_runs_id s false Hall Hdouble) by discriminate.
  assert (Hlead : drop_leading_underscores s = s).
  { destruct s as [|c s]; [reflexivity|]. cbn in *. rewrite Hstart. reflexivity. }
  rewrite Hlead, (drop_trailing_id s Hend).
  apply collapse_underscores_id; [exact Hdouble|discriminate].
Qed.

End NamingFacts.

(** X13: every normalized property name consists of lower-case letters,
    digits and underscores, neither begins nor ends with an underscore and
    has no two underscores in a row; the names of that form are exactly the
    ones normalization leaves as they are, so normalizing twice is
    normalizing once. *)
Theorem normalizePropertyName_gives_clean_names :
  (forall name, clean_name (ClientSync.normalizePropertyName name)) /\
  (forall name, clean_name name <-> ClientSync.normalizePropertyName name = name) /\
  (forall name,
      ClientSync.normalizePropertyName (ClientSync.normalizePropertyName name)
      = ClientSync.normalizePropertyName name).
Proof.
  split; [exact normalizePropertyName_clean|]. split.
  - intros name. split; [apply normalizePropertyName_fixes_clean|].
    intros Hfixed. rewrite <- Hfixed. apply normalizePropertyName_clean.
  - intros name. apply normalizePropertyName_fixes_clean, normalizePropertyName_clean.
Qed.

(** Names that differ in case, spacing or punctuation share a field. *)
Example normalizePropertyName_collisions :
  ClientSync.normalizePropertyName "  Urgency Status (Client) " = "urgency_status_client" /\
  ClientSync.normalizePropertyName "urgency-status / client" = "urgency_status_client" /\
  ClientSync.normalizePropertyName "Late?" = "late" /\
  ClientSync.normalizePropertyName "__" = "".
Proof. repeat split. Qed.

(** ** Client pages *)

Section ClientPageFacts.

Import ClientSync.

Variable clock : nat -> Z.

Lemma lookup_field_own (name : string) (fields : list (string * jsval)) :
  truthy (lookup_field name fields) = true -> has_own name fields = true.
Proof.
  induction fields as [|[key value] fields IH]; cbn [lookup_field has_own existsb fst];
    [discriminate|].
  destruct (String.eqb key name); [reflexivity|exact IH].
Qed.

(** The extraction the loop makes, as the source writes it: on a page whose
    properties are an object, the lookup by key finds the entry. *)
Lemma extractProperty_of_entry (page properties : jsval) (fields : list (string * jsval))
    (propKey propertyType : string) (propName : option string) (property : jsval) :
  get page "properties" = Returned (JObj fields) ->
  lookup_field propKey fields = property ->
  truthy property = true ->
  Notion.extractProperty page propKey propertyType propName
  = Notion.extract_found property propertyType.
Proof.
  intros Hproperties Hlookup Htruthy. unfold Notion.extractProperty, Notion.find_property.
  rewrite Hproperties. cbn [mbind outcome_bind get_member nullish].
  assert (Hmember : member (JObj fields) propKey = property).
  { unfold member, own_member. rewrite lookup_field_own by (rewrite Hlookup; exact Htruthy).
    exact Hlookup. }
  rewrite Hmember.
  destruct (given propName); cbn [mbind outcome_bind mret outcome_ret]; rewrite Htruthy;
    cbn [mbind outcome_bind mret outcome_ret]; rewrite ?Htruthy; reflexivity.
Qed.

(** What the fields of a returned client come from. *)
Lemma transformClientPage_parts (page : jsval) (client : Client) :
  transformClientPage clock page = Returned client ->
  exists clientType collected,
    Extractor.client_type page = Returned clientType /\
    isRetired clientType = Returned (is_retired client) /\
    (if truthy (field page "properties")
     then collect_properties (entries (field page "properties")) ∅
     else mret ∅) = Returned collected /\
    metadata client
    = (if Notion.extracted_truthy clientType
       then <["type" := clientType]> collected else collected).
Proof.
  unfold transformClientPage. unfold mbind at 1 2 3 4 5 6 7. unfold outcome_bind.
  repeat match goal with
         | |- match ?m with Returned _ => _ | Threw _ => _ end = _ -> _ =>
             let H := fresh "Hstep" in destruct m eqn:H; [|discriminate]
         | |- (let '(_, _) := ?m in _) = _ -> _ => destruct m
         end.
  intros H. inversion H; subst. cbn [is_retired metadata].
  eexists _, _. split; [reflexivity|]. split; [eassumption|]. split; reflexivity.
Qed.

Definition tidy (metadata : gmap string Notion.extracted) : Prop :=
  forall key value,
    metadata !! key = Some value ->
    clean_name key /\ key <> "constructor" /\ is_value value = true.

Lemma collect_property_keeps (metadata metadata' : gmap string Notion.extracted)
    (entry : string * jsval) :
  collect_property metadata entry = Returned metadata' ->
  (tidy metadata -> tidy metadata') /\
  (forall key value, metadata !! key = Some value -> metadata' !! key = Some value).
Proof.
  unfold collect_property. destruct entry as [propKey property].
  assert (Hsame : Returned metadata = Returned metadata' ->
                  (tidy metadata -> tidy metadata') /\
                  (forall key value, metadata !! key = Some value ->
                                     metadata' !! key = Some value)).
  { intros H. inversion H; subst. auto. }
  destruct (negb (truthy property) || negb (truthy (field property "type")));
    [exact Hsame|].
  destruct (existsb _ excludedTypes); [exact Hsame|].
  destruct (or_else _ _) as [| | | |propName| |]; try discriminate.
  set (cleanFieldName := normalizePropertyName propName).
  destruct (is_defined metadata cleanFieldName) eqn:Hdefined; [exact Hsame|].
  match goal with
  | |- match ?extraction with _ => _ end = _ -> _ =>
      destruct extraction as [extractedValue|]; [|exact Hsame]
  end.
  destruct (is_value extractedValue) eqn:Hvalue; [|exact Hsame].
  intros H. inversion H; subst. clear H Hsame.
  unfold is_defined in Hdefined. apply orb_false_iff in Hdefined.
  destruct Hdefined as [Hown Hinherited].
  apply bool_decide_eq_false in Hown. apply String.eqb_neq in Hinherited.
  assert (Hfree : metadata !! cleanFieldName = None).
  { destruct (metadata !! cleanFieldName) eqn:Hlookup; [|reflexivity].
    exfalso. apply Hown. eauto. }
  split.
  - intros Htidy key value Hlookup.
    destruct (String.eqb_spec key cleanFieldName) as [->|Hne].
    + rewrite lookup_insert_eq in Hlookup. inversion Hlookup; subst.
      split; [apply normalizePropertyName_clean|]. split; [exact Hinherited|exact Hvalue].
    + rewrite lookup_insert_ne in Hlookup by congruence. exact (Htidy key value Hlookup).
  - intros key value Hlookup. rewrite lookup_insert_ne; [exact Hlookup|].
    intros <-. congruence.
Qed.

Lemma collect_properties_keeps (properties : list (string * jsval)) :
  forall metadata metadata',
    collect_properties properties metadata = Returned metadata' ->
    (tidy metadata -> tidy metadata') /\
    (forall key value, metadata !! key = Some value -> metadata' !! key = Some value).
Proof.
  induction properties as [|entry properties IH]; intros metadata metadata';
    cbn [collect_properties].
  - intros H. inversion H; subst. auto.
  - destruct (collect_property metadata entry) as [middle|] eqn:Hfirst;
      cbn [mbind outcome_bind]; [|discriminate].
    intros Hrest. destruct (collect_property_keeps _ _ _ Hfirst) as [Htidy1 Hkeep1].
    destruct (IH _ _ Hrest) as [Htidy2 Hkeep2]. auto.
Qed.

End ClientPageFacts.

(** A client page whose type is 'Semi-retired'. *)
Definition semi_retired_page : jsval :=
  JObj [("id", JStr "client-3");
        ("properties",
         JObj [("title", JObj [("type", JStr "title");
                               ("title", JArr [JObj [("plain_text", JStr "Old Mill")]])]);
               ("%7Ch%5Cw", JObj [("type", JStr "select");
                                  ("select", JObj [("name", JStr "Semi-retired")])])])].

(** X14: [transformClientPage] and the Notion fallback of the retired-clients
    lookup do not agree on who is retired. The client page transform marks a
    client retired exactly when its type, lower-cased, contains 'retired';
    the fallback takes the type 'Retired' only. Every client the fallback
    takes is marked retired by the transform, and a client of type
    'Semi-retired' is marked retired by the transform and not taken by the
    fallback. *)
Theorem transformClientPage_retired_is_wider_than_the_fallback (clock : nat -> Z) :
  (forall page client,
      ClientSync.transformClientPage clock page = Returned client ->
      (ClientSync.is_retired client = true <->
       exists clientType,
         Extractor.client_type page = Returned (Notion.Plain (JStr clientType)) /\
         includes "retired" (toLowerCase clientType) = true) /\
      (typed_retired page -> ClientSync.is_retired client = true)) /\
  (exists client,
      ClientSync.transformClientPage clock semi_retired_page = Returned client /\
      ClientSync.is_retired client = true /\
      Extractor.scan_clients [semi_retired_page] [] = []).
Proof.
  split.
  - intros page client Hrun.
    destruct (transformClientPage_parts clock page client Hrun)
      as (clientType & collected & Htype & Hretired & _).
    assert (Hexact : forall s, String.eqb s "Retired" = true ->
                               includes "retired" (toLowerCase s) = true).
    { intros s Hs. apply String.eqb_eq in Hs. subst s. reflexivity. }
    split; [split|].
    + intros Hyes. rewrite Hyes in Hretired.
      destruct clientType as [value|arg]; [|discriminate].
      destruct value as [| | | |s| |]; try discriminate.
      exists s. split; [exact Htype|]. cbn in Hretired. injection Hretired as Hor.
      apply orb_true_iff in Hor. destruct Hor as [Hs|Hs]; [apply Hexact; exact Hs|exact Hs].
    + intros (s & Hs & Hincludes). rewrite Htype in Hs. inversion Hs; subst.
      cbn in Hretired. rewrite Hincludes, orb_true_r in Hretired.
      injection Hretired as Hor. symmetry. exact Hor.
    + unfold typed_retired. intros Hs. rewrite Htype in Hs. inversion Hs; subst.
      cbn in Hretired. injection Hretired as Hor. symmetry. exact Hor.
  - eexists. split; [vm_compute; reflexivity|]. split; reflexivity.
Qed.

(** X15: the metadata of a client holds clean field names and no empty
    values: every key is a normalized name, none is 'constructor', no value
    is null or undefined; and in the loop over the page properties a field
    once set is never overwritten, so of two Notion properties whose names
    normalize to the same field the first one is kept. *)
Theorem transformClientPage_metadata_is_tidy (clock : nat -> Z) :
  (forall page client key value,
      ClientSync.transformClientPage clock page = Returned client ->
      ClientSync.metadata client !! key = Some value ->
      clean_name key /\ key <> "constructor" /\ ClientSync.is_value value = true) /\
  (forall properties metadata metadata' key value,
      ClientSync.collect_properties properties metadata = Returned metadata' ->
      metadata !! key = Some value ->
      metadata' !! key = Some value).
Proof.
  split.
  - intros page client key value Hrun Hlookup.
    destruct (transformClientPage_parts clock page client Hrun)
      as (clientType & collected & _ & _ & Hcollected & Hmetadata).
    assert (Htidy : tidy collected).
    { destruct (truthy (field page "properties")).
      - apply (collect_properties_keeps _ _ _ Hcollected).
        intros k v Hk. rewrite lookup_empty in Hk. discriminate.
      - inversion Hcollected; subst. intros k v Hk. rewrite lookup_empty in Hk.
        discriminate. }
    rewrite Hmetadata in Hlookup.
    destruct (Notion.extracted_truthy clientType) eqn:Htruthy;
      [|exact (Htidy key value Hlookup)].
    destruct (String.eqb_spec key "type") as [->|Hne].
    + rewrite lookup_insert_eq in Hlookup. inversion Hlookup; subst.
      split; [|split; [discriminate|]].
      * repeat split.
      * destruct value as [v|arg]; [|reflexivity]. cbn in *. destruct v; try discriminate;
          reflexivity.
    + rewrite lookup_insert_ne in Hlookup by congruence. exact (Htidy key value Hlookup).
  - intros properties metadata metadata' key value Hrun.
    apply (collect_properties_keeps properties metadata metadata' Hrun).
Qed.

(** ** Project matching *)

Section ProjectMatchingFacts.

Import TimeDoctorProjects.

Variable tdProjects : list TimeDoctorApiProject.

(** Every entry of the project index is a project of the list, under its own
    id. *)
Definition indexes_projects (tdProjectMap : gmap string TimeDoctorApiProject) : Prop :=
  forall key tdProject,
    tdProjectMap !! key = Some tdProject ->
    tdProject ∈ tdProjects /\ TimeDoctorProjects.id tdProject = key.

Lemma index_projects_sound (projects : list TimeDoctorApiProject) :
  forall tdProjectMap,
    (forall tdProject, tdProject ∈ projects -> tdProject ∈ tdProjects) ->
    indexes_projects tdProjectMap ->
    indexes_projects (fold_left index_project projects tdProjectMap).
Proof.
  induction projects as [|first projects IH]; intros tdProjectMap Hsub Hindex;
    [exact Hindex|].
  cbn [fold_left]. apply IH.
  - intros tdProject Hin. apply Hsub. right. exact Hin.
  - intros key tdProject. unfold index_project.
    destruct (String.eqb_spec key (TimeDoctorProjects.id first)) as [->|Hne].
    + rewrite lookup_insert_eq. intros Heq. inversion Heq; subst.
      split; [apply Hsub; left|reflexivity].
    + rewrite lookup_insert_ne by congruence. apply Hindex.
Qed.

Lemma index_projects_complete (projects : list TimeDoctorApiProject) :
  forall tdProjectMap key,
    (is_Some (tdProjectMap !! key) \/
     exists tdProject, tdProject ∈ projects /\ TimeDoctorProjects.id tdProject = key) ->
    is_Some (fold_left index_project projects tdProjectMap !! key).
Proof.
  induction projects as [|first projects IH]; intros tdProjectMap key Hkey.
  - destruct Hkey as [Hkey|(tdProject & Hin & _)]; [exact Hkey|inversion Hin].
  - cbn [fold_left]. apply IH. unfold index_project.
    destruct (String.eqb_spec key (TimeDoctorProjects.id first)) as [->|Hne].
    + left. rewrite lookup_insert_eq. eauto.
    + rewrite lookup_insert_ne by congruence.
      destruct Hkey as [Hkey|(tdProject & Hin & Hid)]; [left; exact Hkey|].
      apply elem_of_cons in Hin. destruct Hin as [Heq|Hin].
      * subst tdProject. congruence.
      * right. eauto.
Qed.

Definition project_index : gmap string TimeDoctorApiProject :=
  fold_left index_project tdProjects ∅.

Lemma project_index_sound : indexes_projects project_index.
Proof.
  apply index_projects_sound; [auto|].
  intros key tdProject Hlookup. rewrite lookup_empty in Hlookup. discriminate.
Qed.

Lemma known_project_sound (tdId : option string) (tdProject : TimeDoctorApiProject) :
  known_project project_index tdId = Some tdProject ->
  tdProject ∈ tdProjects /\ given tdId = Some (TimeDoctorProjects.id tdProject).
Proof.
  unfold known_project. destruct (given tdId) as [key|]; cbn; [|discriminate].
  intros Hlookup. destruct (project_index_sound _ _ Hlookup) as [Hin Hid].
  split; [exact Hin|congruence].
Qed.

Lemma known_project_complete (tdId : option string) (tdProject : TimeDoctorApiProject) :
  tdProject ∈ tdProjects ->
  given tdId = Some (TimeDoctorProjects.id tdProject) ->
  exists found,
    known_project project_index tdId = Some found /\
    TimeDoctorProjects.id found = TimeDoctorProjects.id tdProject.
Proof.
  intros Hin Hgiven. unfold known_project. rewrite Hgiven. cbn.
  destruct (index_projects_complete tdProjects ∅ (TimeDoctorProjects.id tdProject))
    as [found Hfound]; [right; eauto|].
  exists found. split; [exact Hfound|].
  apply (project_index_sound _ _ Hfound).
Qed.

(** A match comes from a card that names the project. *)
Definition from_card (cards : list Card) (key : string) (m : ProjectMatch) : Prop :=
  (exists tdProject, tdProject ∈ tdProjects /\ TimeDoctorProjects.id tdProject = key) /\
  exists card,
    card ∈ cards /\ m = match_of card /\
    (given (task_id card) = Some key \/ given (client_project_id card) = Some key).

Definition sound_matches (cards : list Card) (matchMap : gmap string ProjectMatch) : Prop :=
  forall key m, matchMap !! key = Some m -> from_card cards key m.

Lemma match_task_sound (cards : list Card) (matchMap : gmap string ProjectMatch)
    (card : Card) :
  card ∈ cards ->
  sound_matches cards matchMap ->
  sound_matches cards (match_task project_index matchMap card).
Proof.
  intros Hin Hsound. unfold match_task.
  destruct (known_project project_index (task_id card)) as [tdProject|] eqn:Hknown;
    [|exact Hsound].
  destruct (known_project_sound _ _ Hknown) as [Hproject Hgiven].
  destruct (matchMap !! TimeDoctorProjects.id tdProject); [exact Hsound|].
  intros key m.
  destruct (String.eqb_spec key (TimeDoctorProjects.id tdProject)) as [->|Hne].
  - rewrite lookup_insert_eq. intros Heq. inversion Heq; subst.
    split; [eauto|]. exists card. auto.
  - rewrite lookup_insert_ne by congruence. apply Hsound.
Qed.

Lemma match_client_project_sound (cards : list Card) (matchMap : gmap string ProjectMatch)
    (card : Card) :
  card ∈ cards ->
  sound_matches cards matchMap ->
  sound_matches cards (match_client_project project_index matchMap card).
Proof.
  intros Hin Hsound. unfold match_client_project.
  destruct (known_project project_index (client_project_id card)) as [tdProject|] eqn:Hknown;
    [|exact Hsound].
  destruct (known_project_sound _ _ Hknown) as [Hproject Hgiven].
  assert (Hset : sound_matches cards
                   (<[TimeDoctorProjects.id tdProject := match_of card]> matchMap)).
  { intros key m.
    destruct (String.eqb_spec key (TimeDoctorProjects.id tdProject)) as [->|Hne].
    - rewrite lookup_insert_eq. intros Heq. inversion Heq; subst.
      split; [eauto|]. exists card. auto.
    - rewrite lookup_insert_ne by congruence. apply Hsound. }
  destruct (matchMap !! TimeDoctorProjects.id tdProject) as [existingMatch|];
    [|exact Hset].
  destruct (given (clientId existingMatch)); [exact Hsound|exact Hset].
Qed.

Lemma match_card_sound (cards : list Card) (matchMap : gmap string ProjectMatch)
    (card : Card) :
  card ∈ cards ->
  sound_matches cards matchMap ->
  sound_matches cards (match_card project_index matchMap card).
Proof.
  intros Hin Hsound. unfold match_card.
  assert (Hboth : sound_matches cards
                    (match_client_project project_index
                       (match_task project_index matchMap card) card)).
  { apply match_client_project_sound; [exact Hin|].
    apply match_task_sound; assumption. }
  destruct (given (task_id card)), (given (client_project_id card));
    first [exact Hboth|exact Hsound].
Qed.

Lemma match_cards_sound (cards : list Card) (todo : list Card) :
  forall matchMap,
    (forall card, card ∈ todo -> card ∈ cards) ->
    sound_matches cards matchMap ->
    sound_matches cards (fold_left (match_card project_index) todo matchMap).
Proof.
  induction todo as [|card todo IH]; intros matchMap Hsub Hsound; [exact Hsound|].
  cbn [fold_left]. apply IH.
  - intros other Hin. apply Hsub. right. exact Hin.
  - apply match_card_sound; [apply Hsub; left|exact Hsound].
Qed.

(** A match that carries a client id. *)
Definition has_client (matchMap : gmap string ProjectMatch) (key : string) : Prop :=
  exists m, matchMap !! key = Some m /\ is_Some (given (clientId m)).

(** A card never takes a match away, and never replaces one that carries a
    client id. *)
Lemma match_task_keeps (matchMap : gmap string ProjectMatch) (card : Card) (key : string) :
  (is_Some (matchMap !! key) ->
   match_task project_index matchMap card !! key = matchMap !! key).
Proof.
  intros Hsome. unfold match_task.
  destruct (known_project project_index (task_id card)) as [tdProject|]; [|reflexivity].
  destruct (matchMap !! TimeDoctorProjects.id tdProject) eqn:Hlookup; [reflexivity|].
  apply lookup_insert_ne. intros <-. rewrite Hlookup in Hsome. destruct Hsome; discriminate.
Qed.

Lemma match_client_project_keeps (matchMap : gmap string ProjectMatch) (card : Card)
    (key : string) :
  (is_Some (matchMap !! key) ->
   is_Some (match_client_project project_index matchMap card !! key)) /\
  (forall m, matchMap !! key = Some m -> is_Some (given (clientId m)) ->
             match_client_project project_index matchMap card !! key = Some m).
Proof.
  unfold match_client_project.
  destruct (known_project project_index (client_project_id card)) as [tdProject|];
    [|split; [auto|intros m Hm _; exact Hm]].
  destruct (String.eqb_spec key (TimeDoctorProjects.id tdProject)) as [->|Hne].
  - destruct (matchMap !! TimeDoctorProjects.id tdProject) as [existingMatch|] eqn:Hlookup.
    + destruct (given (clientId existingMatch)) eqn:Hclient.
      * rewrite Hlookup. split; [auto|intros m Hm _; exact Hm].
      * rewrite lookup_insert_eq. split; [eauto|].
        intros m Hm [c Hc]. inversion Hm; subst. congruence.
    + split; [intros [x Hx]; discriminate|intros m Hm; discriminate].
  - assert (Hother : forall m' : gmap string ProjectMatch,
               <[TimeDoctorProjects.id tdProject := match_of card]> m' !! key = m' !! key).
    { intros m'. apply lookup_insert_ne. congruence. }
    destruct (matchMap !! TimeDoctorProjects.id tdProject) as [existingMatch|].
    + destruct (given (clientId existingMatch));
        rewrite ?Hother; split; [auto|intros m Hm _; exact Hm|auto|intros m Hm _; exact Hm].
    + rewrite Hother. split; [auto|intros m Hm _; exact Hm].
Qed.

Lemma match_card_keeps (matchMap : gmap string ProjectMatch) (card : Card) (key : string) :
  (is_Some (matchMap !! key) ->
   is_Some (match_card project_index matchMap card !! key)) /\
  (forall m, matchMap !! key = Some m -> is_Some (given (clientId m)) ->
             match_card project_index matchMap card !! key = Some m).
Proof.
  unfold match_card.
  assert (Hboth :
    (is_Some (matchMap !! key) ->
     is_Some (match_client_project project_index
                (match_task project_index matchMap card) card !! key)) /\
    (forall m, matchMap !! key = Some m -> is_Some (given (clientId m)) ->
               match_client_project project_index
                 (match_task project_index matchMap card) card !! key = Some m)).
  { split.
    - intros Hsome. apply match_client_project_keeps.
      rewrite match_task_keeps by exact Hsome. exact Hsome.
    - intros m Hm Hclient. apply match_client_project_keeps; [|exact Hclient].
      rewrite match_task_keeps by eauto. exact Hm. }
  destruct (given (task_id card)), (given (client_project_id card));
    first [exact Hboth|split; [auto|intros m Hm _; exact Hm]].
Qed.

Lemma match_cards_keep (todo : list Card) :
  forall matchMap key,
    (is_Some (matchMap !! key) ->
     is_Some (fold_left (match_card project_index) todo matchMap !! key)) /\
    (forall m, matchMap !! key = Some m -> is_Some (given (clientId m)) ->
               fold_left (match_card project_index) todo matchMap !! key = Some m).
Proof.
  induction todo as [|card todo IH]; intros matchMap key.
  - split; [auto|intros m Hm _; exact Hm].
  - cbn [fold_left]. destruct (match_card_keeps matchMap card key) as [Hsome Hclient].
    destruct (IH (match_card project_index matchMap card) key) as [IHsome IHclient].
    split; [auto|]. intros m Hm Hc. apply IHclient; [apply Hclient; assumption|exact Hc].
Qed.

(** What the turn of a card leaves under the projects it names. *)
Lemma match_card_task (matchMap : gmap string ProjectMatch) (card : Card)
    (tdProject : TimeDoctorApiProject) :
  tdProject ∈ tdProjects ->
  given (task_id card) = Some (TimeDoctorProjects.id tdProject) ->
  is_Some (match_card project_index matchMap card !! TimeDoctorProjects.id tdProject).
Proof.
  intros Hin Hgiven. unfold match_card. rewrite Hgiven.
  destruct (known_project_complete (task_id card) tdProject Hin Hgiven)
    as (found & Hknown & Hid).
  assert (Htask : is_Some (match_task project_index matchMap card
                           !! TimeDoctorProjects.id tdProject)).
  { unfold match_task. rewrite Hknown, Hid.
    destruct (matchMap !! TimeDoctorProjects.id tdProject) eqn:Hlookup.
    - rewrite Hlookup. eauto.
    - rewrite lookup_insert_eq. eauto. }
  apply match_client_project_keeps. exact Htask.
Qed.

Lemma match_client_project_sets (matchMap : gmap string ProjectMatch) (card : Card)
    (tdProject : TimeDoctorApiProject) :
  tdProject ∈ tdProjects ->
  given (client_project_id card) = Some (TimeDoctorProjects.id tdProject) ->
  is_Some (match_client_project project_index matchMap card
           !! TimeDoctorProjects.id tdProject) /\
  (is_Some (given (client_id card)) ->
   has_client (match_client_project project_index matchMap card)
     (TimeDoctorProjects.id tdProject)).
Proof.
  intros Hin Hgiven.
  destruct (known_project_complete (client_project_id card) tdProject Hin Hgiven)
    as (found & Hknown & Hid).
  unfold has_client, match_client_project. rewrite Hknown, Hid.
  destruct (matchMap !! TimeDoctorProjects.id tdProject) as [existingMatch|] eqn:Hlookup.
  - destruct (given (clientId existingMatch)) eqn:Hclient.
    + rewrite Hlookup. split; [eauto|]. intros _. exists existingMatch.
      split; [reflexivity|]. rewrite Hclient. eauto.
    + rewrite lookup_insert_eq. split; [eauto|]. intros Hc. exists (match_of card).
      split; [reflexivity|exact Hc].
  - rewrite lookup_insert_eq. split; [eauto|]. intros Hc. exists (match_of card).
    split; [reflexivity|exact Hc].
Qed.

Lemma match_card_client_project (matchMap : gmap string ProjectMatch) (card : Card)
    (tdProject : TimeDoctorApiProject) :
  tdProject ∈ tdProjects ->
  given (client_project_id card) = Some (TimeDoctorProjects.id tdProject) ->
  is_Some (match_card project_index matchMap card !! TimeDoctorProjects.id tdProject) /\
  (is_Some (given (client_id card)) ->
   has_client (match_card project_index matchMap card) (TimeDoctorProjects.id tdProject)).
Proof.
  intros Hin Hgiven. unfold match_card. rewrite Hgiven.
  destruct (given (task_id card)); apply match_client_project_sets; assumption.
Qed.

Lemma match_cards_named (todo : list Card) :
  forall matchMap card tdProject,
    card ∈ todo ->
    tdProject ∈ tdProjects ->
    (given (task_id card) = Some (TimeDoctorProjects.id tdProject) ->
     is_Some (fold_left (match_card project_index) todo matchMap
              !! TimeDoctorProjects.id tdProject)) /\
    (given (client_project_id card) = Some (TimeDoctorProjects.id tdProject) ->
     is_Some (fold_left (match_card project_index) todo matchMap
              !! TimeDoctorProjects.id tdProject) /\
     (is_Some (given (client_id card)) ->
      has_client (fold_left (match_card project_index) todo matchMap)
        (TimeDoctorProjects.id tdProject))).
Proof.
  induction todo as [|first todo IH]; intros matchMap card tdProject Hcard Hproject;
    [inversion Hcard|].
  cbn [fold_left]. apply elem_of_cons in Hcard. destruct Hcard as [Heq|Hcard].
  - subst first.
    destruct (match_cards_keep todo (match_card project_index matchMap card)
                (TimeDoctorProjects.id tdProject)) as [Hsome Hclient].
    split.
    + intros Hgiven. apply Hsome. apply match_card_task; assumption.
    + intros Hgiven.
      destruct (match_card_client_project matchMap card tdProject Hproject Hgiven)
        as [Hset Hhas].
      split; [apply Hsome; exact Hset|].
      intros Hc. destruct (Hhas Hc) as (m & Hm & Hmc).
      exists m. split; [apply Hclient; assumption|exact Hmc].
  - apply IH; assumption.
Qed.

End ProjectMatchingFacts.

(** X16: [matchTimeDoctorProjects] matches known projects to the cards that
    name them. Every key of the match map is the id of a Time Doctor project
    of the list, and its match is made of the notion id and client id of a
    card whose task id or client project id is that key. Every project of
    the list that a card names has a match. When a card with a client id
    names a project as its client project, the match of that project carries
    a client id. *)
Theorem matchTimeDoctorProjects_matches_named_projects
    (tdProjects : list TimeDoctorProjects.TimeDoctorApiProject)
    (cards : list TimeDoctorProjects.Card) :
  let matchMap := TimeDoctorProjects.matchTimeDoctorProjects tdProjects cards in
  (forall key m,
      matchMap !! key = Some m ->
      (exists tdProject,
          tdProject ∈ tdProjects /\ TimeDoctorProjects.id tdProject = key) /\
      (exists card,
          card ∈ cards /\
          TimeDoctorProjects.cardId m = TimeDoctorProjects.notion_id card /\
          TimeDoctorProjects.clientId m = TimeDoctorProjects.client_id card /\
          (given (TimeDoctorProjects.task_id card) = Some key \/
           given (TimeDoctorProjects.client_project_id card) = Some key))) /\
  (forall card tdProject,
      card ∈ cards -> tdProject ∈ tdProjects ->
      given (TimeDoctorProjects.task_id card) = Some (TimeDoctorProjects.id tdProject) \/
      given (TimeDoctorProjects.client_project_id card)
      = Some (TimeDoctorProjects.id tdProject) ->
      is_Some (matchMap !! TimeDoctorProjects.id tdProject)) /\
  (forall card tdProject,
      card ∈ cards -> tdProject ∈ tdProjects ->
      given (TimeDoctorProjects.client_project_id card)
      = Some (TimeDoctorProjects.id tdProject) ->
      is_Some (given (TimeDoctorProjects.client_id card)) ->
      exists m,
        matchMap !! TimeDoctorProjects.id tdProject = Some m /\
        is_Some (given (TimeDoctorProjects.clientId m))).
Proof.
  cbn zeta. unfold TimeDoctorProjects.matchTimeDoctorProjects.
  fold (project_index tdProjects). split; [|split].
  - intros key m Hlookup.
    assert (Hsound : sound_matches tdProjects cards
                       (fold_left (TimeDoctorProjects.match_card (project_index tdProjects))
                          cards ∅)).
    { apply match_cards_sound; [auto|].
      intros k v Hk. rewrite lookup_empty in Hk. discriminate. }
    destruct (Hsound key m Hlookup) as [Hproject (card & Hin & Hm & Hnames)].
    split; [exact Hproject|]. exists card. subst m. auto.
  - intros card tdProject Hcard Hproject Hnames.
    destruct (match_cards_named tdProjects cards ∅ card tdProject Hcard Hproject)
      as [Htask Hclient].
    destruct Hnames as [Hnames|Hnames]; [apply Htask|apply Hclient]; exact Hnames.
  - intros card tdProject Hcard Hproject Hnames Hc.
    destruct (match_cards_named tdProjects cards ∅ card tdProject Hcard Hproject)
      as [_ Hclient].
    apply Hclient; assumption.
Qed.

(** Two cards name one project, the first as its task and without a client,
    the second as its client project: the second replaces the first. *)
Example matchTimeDoctorProjects_client_project_replaces_task_match :
  TimeDoctorProjects.matchTimeDoctorProjects
    [{| TimeDoctorProjects.id := "p1"; TimeDoctorProjects.name := "Shop" |}]
    [{| TimeDoctorProjects.notion_id := "card-1"; TimeDoctorProjects.client_id := None;
        TimeDoctorProjects.task_id := Some "p1";
        TimeDoctorProjects.client_project_id := None |};
     {| TimeDoctorProjects.notion_id := "card-2";
        TimeDoctorProjects.client_id := Some "client-1";
        TimeDoctorProjects.task_id := None;
        TimeDoctorProjects.client_project_id := Some "p1" |}]
  !! "p1"
  = Some {| TimeDoctorProjects.cardId := "card-2";
            TimeDoctorProjects.clientId := Some "client-1" |}.
Proof. vm_compute. reflexivity. Qed.

(** ** The worklog check *)

Section WorklogCheckFacts.

Variable api : nat -> TimeDoctor.WorklogRequest -> outcome TimeDoctor.Response.
Variable JSON_parse : string -> outcome jsval.
Variable parseFloat : string -> option Z.
Variable config : TimeDoctor.TimeDoctorConfig.
Variable userIds : list string.

Lemma has_text_given (s : option string) :
  TimeDoctor.has_text s = true -> is_Some (given s).
Proof.
  destruct s as [text|]; cbn; [|discriminate].
  destruct (String.eqb text ""); cbn; [discriminate|eauto].
Qed.

Lemma isValid_not_skipped (worklog : TimeDoctor.TimeDoctorApiWorklog) :
  TimeDoctor.isValid worklog = true -> TimeDoctorProjects.skipped worklog = false.
Proof.
  unfold TimeDoctor.isValid, TimeDoctorProjects.skipped. intros Hvalid.
  apply andb_true_iff in Hvalid. destruct Hvalid as [Hids Htime].
  apply andb_true_iff in Hids. destruct Hids as [Huser Hproject].
  apply has_text_given in Huser. apply has_text_given in Hproject.
  rewrite !bool_decide_eq_true_2 by assumption. cbn.
  destruct (TimeDoctor.time worklog) as [t|]; [|discriminate].
  apply Z.ltb_lt in Htime. apply orb_false_iff. split; [apply Z.eqb_neq|apply Z.leb_gt]; lia.
Qed.

Definition all_pass (worklogs : list TimeDoctor.TimeDoctorApiWorklog) : Prop :=
  Forall (fun worklog => TimeDoctorProjects.skipped worklog = false) worklogs.

Lemma fetched_pass (fetch : TimeDoctor.WorklogRequest -> outcome TimeDoctor.Response)
    (startDate endDate : Date) (ids : option (list string))
    (worklogs : list TimeDoctor.TimeDoctorApiWorklog) :
  TimeDoctor.fetchTimeDoctorWorklogs fetch JSON_parse parseFloat config startDate endDate ids
  = Returned worklogs ->
  all_pass worklogs.
Proof.
  unfold TimeDoctor.fetchTimeDoctorWorklogs.
  destruct (TimeDoctor.toISOString startDate) as [fromDate|]; cbn [mbind outcome_bind];
    [|discriminate].
  destruct (TimeDoctor.toISOString endDate) as [toDate|]; cbn [mbind outcome_bind];
    [|discriminate].
  unfold try_catch.
  destruct (TimeDoctor.fetch_body fetch JSON_parse parseFloat config fromDate toDate ids)
    as [found|] eqn:Hbody.
  - intros Heq. inversion Heq; subst. clear Heq. revert Hbody.
    unfold TimeDoctor.fetch_body.
    destruct (fetch _) as [response|]; cbn [mbind outcome_bind]; [|discriminate].
    destruct (negb (TimeDoctor.ok response)).
    + destruct (TimeDoctor.text response); cbn [mbind outcome_bind]; discriminate.
    + destruct (TimeDoctor.json response) as [data|]; cbn [mbind outcome_bind];
        [|discriminate].
      destruct (TimeDoctor.check_api_error data); cbn [mbind outcome_bind]; [|discriminate].
      match goal with
      | |- context [mbind _ ?guard] =>
          destruct guard; cbn [mbind outcome_bind]; [|discriminate]
      end.
      destruct (mapM _ _) as [mapped|]; cbn [mbind outcome_bind]; [|discriminate].
      intros Heq. inversion Heq; subst.
      apply Forall_forall. intros worklog Hin. apply list_elem_of_In in Hin.
      apply filter_In in Hin. apply isValid_not_skipped. apply Hin.
  - intros Heq. inversion Heq; subst. constructor.
Qed.

Lemma small_chunks_pass (fuel : nat) :
  forall smallChunkStart chunkEndDate allWorklogs seen,
    all_pass allWorklogs ->
    all_pass (fst (TimeDoctor.small_chunks api JSON_parse parseFloat config userIds fuel
                     smallChunkStart chunkEndDate allWorklogs seen)).
Proof.
  induction fuel as [|fuel IH]; intros smallChunkStart chunkEndDate allWorklogs seen Hpass;
    [exact Hpass|].
  cbn [TimeDoctor.small_chunks]. destruct (smallChunkStart <? chunkEndDate); [|exact Hpass].
  apply IH.
  destruct (TimeDoctor.fetch_window _ _ _ _ _ _ _ _) as [found|] eqn:Hfetch; [|exact Hpass].
  apply Forall_app. split; [exact Hpass|]. exact (fetched_pass _ _ _ _ _ Hfetch).
Qed.

Lemma chunk_loop_pass (remaining : nat) :
  forall currentStart endDate allWorklogs seen,
    all_pass allWorklogs ->
    all_pass (fst (TimeDoctor.chunk_loop api JSON_parse parseFloat config userIds remaining
                     currentStart endDate allWorklogs seen)).
Proof.
  induction remaining as [|remaining IH]; intros currentStart endDate allWorklogs seen Hpass;
    [exact Hpass|].
  cbn [TimeDoctor.chunk_loop].
  destruct (TimeDoctor.fetch_window _ _ _ _ _ _ _ _) as [found|message] eqn:Hfetch.
  - apply IH. apply Forall_app. split; [exact Hpass|]. exact (fetched_pass _ _ _ _ _ Hfetch).
  - destruct (TimeDoctor.is_range_error message).
    + pose proof (small_chunks_pass
                    (Z.to_nat ((((if endDate <? TimeDoctor.addDays currentStart 7
                                  then endDate else TimeDoctor.addDays currentStart 7)
                                 - currentStart) / (3 * msPerDay)) + 1))
                    currentStart
                    (if endDate <? TimeDoctor.addDays currentStart 7
                     then endDate else TimeDoctor.addDays currentStart 7)
                    allWorklogs
                    (seen ++ [{| TimeDoctor.window_from := currentStart;
                                 TimeDoctor.window_to :=
                                   if endDate <? TimeDoctor.addDays currentStart 7
                                   then endDate else TimeDoctor.addDays currentStart 7 |}])
                    Hpass) as Hsmall.
      destruct (TimeDoctor.small_chunks _ _ _ _ _ _ _ _ _ _) as [gathered seen'].
      apply IH. exact Hsmall.
    + apply IH. exact Hpass.
Qed.

End WorklogCheckFacts.

(** X17: the check on worklog entries in [syncTimeDoctorWorklogs] never
    skips an entry that the chunk loop gathered: every entry that
    [fetchTimeDoctorWorklogs] returns has a user id, a project id and a
    positive time, whatever the API answered. *)
Theorem syncTimeDoctorWorklogs_never_skips_a_fetched_entry
    (api : nat -> TimeDoctor.WorklogRequest -> outcome TimeDoctor.Response)
    (JSON_parse : string -> outcome jsval) (parseFloat : string -> option Z)
    (config : TimeDoctor.TimeDoctorConfig) (userIds : list string)
    (startDate endDate : Date) :
  Forall (fun worklog => TimeDoctorProjects.skipped worklog = false)
    (fst (TimeDoctor.syncTimeDoctorWorklogs_chunks api JSON_parse parseFloat config userIds
            startDate endDate)).
Proof.
  unfold TimeDoctor.syncTimeDoctorWorklogs_chunks.
  destruct startDate as [|s]; [constructor|]. destruct endDate as [|e]; [constructor|].
  apply chunk_loop_pass. constructor.
Qed.

(** ** The sync routes *)

(** The item a sync that threw leaves in [syncResults.errors]. *)
Definition thrown {A} (name : string) (r : outcome A) : list Routes.SyncError :=
  match r with
  | Returned _ => []
  | Threw message => [{| Routes.sync := name; Routes.error := message |}]
  end.

(** The entry a sync leaves in [syncResults.syncs]. *)
Definition entry_of {A} (entry : A -> Routes.SyncEntry) (r : outcome A) : Routes.SyncEntry :=
  match r with
  | Returned result => entry result
  | Threw message => Routes.ErrorEntry message
  end.

Section RouteFacts.

#[local] Existing Instance Extractor.M_ret.
#[local] Existing Instance Extractor.M_bind.

Variable Store : Type.
Variable now : Store -> Z.
Variable env : Routes.Env.

Lemma attempt_runs {A} (name : string)
    (set : Routes.SyncEntry -> Routes.SyncResults -> Routes.SyncResults)
    (sync_call : Extractor.M Store A) (entry : A -> Routes.SyncEntry)
    (j : Routes.Job Store) (r : outcome A) (s : Store) :
  sync_call (Routes.store Store j) = Some (r, s) ->
  Routes.attempt Store name set sync_call entry j
  = Some (Returned tt,
          {| Routes.store := s;
             Routes.syncResults :=
               match r with
               | Returned _ => set (entry_of entry r) (Routes.syncResults Store j)
               | Threw message =>
                   Routes.push_error name message
                     (set (entry_of entry r) (Routes.syncResults Store j))
               end |}).
Proof.
  intros Hcall. unfold Routes.attempt, Extractor.tryM, mbind, Extractor.M_bind, Routes.call.
  rewrite Hcall. destruct r as [result|message]; reflexivity.
Qed.

End RouteFacts.

(** X18: the answer of the daily job. A request that is refused gets 401
    and nothing runs. Otherwise the three syncs run one after the other,
    each in the state the one before left, whether that one threw or not;
    the errors of the answer are those of the syncs that threw, in order;
    the status is 200 when none threw and 207 otherwise, and a failure to
    store the log of the job changes nothing in the answer. *)
Theorem handleDailySync_answers (Store : Type) (now : Store -> Z) (env : Routes.Env)
    (syncTeamMembers syncQITimeTrackerEntries : Extractor.M Store Extractor.SyncLog)
    (syncTimeDoctor : TimeDoctor.TimeDoctorConfig -> Date -> Date ->
                      Extractor.M Store Routes.TimeDoctorResult)
    (insert_sync_log : Routes.DailyLog -> Extractor.M Store unit)
    (authHeader : option string) (s : Store) :
  (forall st, is_Some (syncTeamMembers st)) ->
  (forall st, is_Some (syncQITimeTrackerEntries st)) ->
  (forall config startDate endDate st,
      is_Some (syncTimeDoctor config startDate endDate st)) ->
  (forall log st, is_Some (insert_sync_log log st)) ->
  exists response s',
    Routes.handleDailySync Store now env syncTeamMembers syncQITimeTrackerEntries
      syncTimeDoctor insert_sync_log authHeader s
    = Some (Returned response, s') /\
    if Routes.refused env authHeader then
      response = {| Routes.daily_status := 401; Routes.daily_body := Routes.Unauthorized |} /\
      s' = s
    else
      exists r1 s1 r2 s2 r3 s3 r4 results,
        syncTeamMembers s = Some (r1, s1) /\
        syncQITimeTrackerEntries s1 = Some (r2, s2) /\
        Routes.time_doctor_call Store now env syncTimeDoctor s2 = Some (r3, s3) /\
        insert_sync_log (Routes.daily_log results) s3 = Some (r4, s') /\
        response
        = {| Routes.daily_status := match Routes.errors results with [] => 200 | _ => 207 end;
             Routes.daily_body := Routes.Results results |} /\
        Routes.errors results
        = thrown "team_members" r1 ++ thrown "qi_time_tracker" r2
          ++ thrown "time_doctor" r3 /\
        Routes.team_members results = Some (entry_of Routes.log_entry r1) /\
        Routes.qi_time_tracker results = Some (entry_of Routes.log_entry r2) /\
        Routes.time_doctor results = Some (entry_of Routes.time_doctor_entry r3) /\
        Routes.success results
        = match Routes.errors results with [] => true | _ => false end /\
        Routes.status results
        = Some match Routes.errors results with [] => "success" | _ => "partial" end.
Proof.
  intros Hteam Hqi Htd Hlog.
  unfold Routes.handleDailySync, Routes.daily_job.
  destruct (Routes.refused env authHeader) eqn:Hrefused.
  - eexists _, _. split; [reflexivity|]. split; reflexivity.
  - destruct (Hteam s) as [[r1 s1] H1]. destruct (Hqi s1) as [[r2 s2] H2].
    assert (Hcall : is_Some (Routes.time_doctor_call Store now env syncTimeDoctor s2)).
    { unfold Routes.time_doctor_call.
      destruct (given (Routes.TIMEDOCTOR_API_TOKEN env)); [|eexists; reflexivity].
      destruct (given (Routes.TIMEDOCTOR_COMPANY_ID env)); [apply Htd|eexists; reflexivity]. }
    destruct Hcall as [[r3 s3] H3].
    unfold Extractor.tryM at 1. unfold mbind at 1. unfold Extractor.M_bind at 1.
    erewrite attempt_runs by exact H1.
    unfold mbind at 1. unfold Extractor.M_bind at 1.
    erewrite attempt_runs by exact H2.
    unfold mbind at 1. unfold Extractor.M_bind at 1.
    erewrite attempt_runs by exact H3.
    unfold mbind, Extractor.M_bind, Routes.read_clock, Routes.update, Routes.read_results,
      Extractor.tryM, Routes.call, mret, Extractor.M_ret.
    cbn [Routes.store Routes.syncResults].
    match goal with
    | |- context [insert_sync_log ?log ?st] =>
        destruct (Hlog log st) as [[r4 s4] H4]; rewrite H4
    end.
    eexists _, s4. split; [destruct r4; reflexivity|].
    eexists r1, s1, r2, s2, r3, s3, r4, _.
    split; [exact H1|]. split; [exact H2|]. split; [exact H3|]. split; [exact H4|].
    destruct r1, r2, r3; repeat split.
Qed.

(** A store that keeps the names of the calls made, in order; the clock
    shows their number. *)
Definition called {A} (name : string) (r : outcome A) : Extractor.M (list string) A :=
  fun trace => Some (r, trace ++ [name]).

Definition calls_made (trace : list string) : Z := Z.of_nat (length trace).

Definition sample_env : Routes.Env :=
  {| Routes.SYNC_SECRET := Some "s3cret";
     Routes.TIMEDOCTOR_API_TOKEN := Some "token";
     Routes.TIMEDOCTOR_COMPANY_ID := Some "company" |}.

Definition sample_log : Extractor.SyncLog :=
  {| Extractor.sync_type := "incremental"; Extractor.log_status := Extractor.success;
     Extractor.records_processed := 4; Extractor.records_failed := 0;
     Extractor.error_count := 0; Extractor.started_at := 0;
     Extractor.completed_at := Some 1; Extractor.error_message := None;
     Extractor.metadata_client_id := None;
     Extractor.metadata_retired_clients_count := None |}.

Definition sample_counts : Routes.TimeDoctorResult :=
  {| Routes.users := {| Routes.processed := 2; Routes.matched := 1 |};
     Routes.projects := {| Routes.processed := 3; Routes.matched := 3 |};
     Routes.worklogs := {| Routes.processed := 0; Routes.matched := 0 |} |}.

(** The daily job with a second sync that throws and a log that cannot be
    stored. *)
Definition sample_daily_job (authHeader : option string)
    : Extractor.M (list string) Routes.DailyResponse :=
  Routes.handleDailySync (list string) calls_made sample_env
    (called "syncTeamMembers" (Returned sample_log))
    (called "syncQITimeTrackerEntries" (Threw "Notion is down"))
    (fun _ _ _ => called "syncTimeDoctor" (Returned sample_counts))
    (fun _ => called "sync_logs.insertOne" (Threw "MongoError: sync_logs.insertOne"))
    authHeader.

Lemma handleDailySync_answers_witness :
  exists response s',
    sample_daily_job (Some "Bearer s3cret") [] = Some (Returned response, s') /\
    Routes.daily_status response = 207.
Proof.
  destruct (handleDailySync_answers (list string) calls_made sample_env
              (called "syncTeamMembers" (Returned sample_log))
              (called "syncQITimeTrackerEntries" (Threw "Notion is down"))
              (fun _ _ _ => called "syncTimeDoctor" (Returned sample_counts))
              (fun _ => called "sync_logs.insertOne"
                          (Threw "MongoError: sync_logs.insertOne"))
              (Some "Bearer s3cret") [])
    as (response & s' & Hrun & Hanswer);
    [intros; eexists; reflexivity|intros; eexists; reflexivity
    |intros; eexists; reflexivity|intros; eexists; reflexivity|].
  exists response, s'. split; [exact Hrun|].
  vm_compute in Hrun. inversion Hrun. reflexivity.
Defined.

(** The calls the sample job makes, and those a refused request makes. *)
Example handleDailySync_sample_calls :
  snd <$> sample_daily_job (Some "Bearer s3cret") []
  = Some ["syncTeamMembers"; "syncQITimeTrackerEntries"; "syncTimeDoctor";
          "sync_logs.insertOne"] /\
  sample_daily_job (Some "Bearer guess") []
  = Some (Returned {| Routes.daily_status := 401; Routes.daily_body := Routes.Unauthorized |},
          []) /\
  sample_daily_job None []
  = Some (Returned {| Routes.daily_status := 401; Routes.daily_body := Routes.Unauthorized |},
          []).
Proof. repeat split; vm_compute; reflexivity. Qed.

Lemma printable_or_else (v fallback : jsval) :
  printable fallback = true ->
  printable (or_else v fallback) = printable v.
Proof.
  intros Hfallback. unfold or_else.
  destruct v as [| |[|]|n|text|items|fields]; cbn [truthy]; try reflexivity;
    try exact Hfallback.
  - destruct (n =? 0); [exact Hfallback|reflexivity].
  - destruct (String.eqb text ""); [exact Hfallback|reflexivity].
Qed.

(** Whether the first line of the route's log can be built. *)
Lemma starting_line_built (type client_id limit : jsval) :
  returned (Routes.starting_line type client_id limit)
  = printable type && printable client_id && printable limit.
Proof.
  unfold Routes.starting_line, printed.
  rewrite !printable_or_else by reflexivity.
  destruct (printable type); [|reflexivity].
  destruct (printable client_id); [|reflexivity].
  destruct (printable limit); reflexivity.
Qed.

Lemma starting_line_throws (type client_id limit : jsval) :
  printable type && printable client_id && printable limit = false ->
  Routes.starting_line type client_id limit
  = Threw "Cannot convert object to primitive value".
Proof.
  unfold Routes.starting_line, printed.
  rewrite !printable_or_else by reflexivity.
  destruct (printable type); [|reflexivity].
  destruct (printable client_id); [|reflexivity].
  destruct (printable limit); [discriminate|reflexivity].
Qed.

(** The fields of the body that the route prints do print. *)
Definition prints (payload : jsval) : Prop :=
  printable (field payload "type") && printable (field payload "client_id")
  && printable (field payload "limit") = true.

(** X19: the answer of the sync route. A body that cannot be read gives
    500. A body whose type, client id or limit does not print (an object
    with a [toString] property of its own) gives 500 and nothing runs, since
    the route builds a line of its log from them first. For a body that
    prints: a type that names no sync gives 200 with every log null, and
    nothing runs. An error of a sync gives 500 with its message, and what
    comes after it does not run: a project sync that throws is not followed
    by the metrics, and with type 'all' a client sync that throws stops the
    route. A failure of the metrics gives 500 although the project sync has
    completed. *)
Theorem sync_route_POST_answers (Store : Type)
    (syncClients : Extractor.M Store Extractor.SyncLog)
    (syncProjects : jsval -> jsval -> Extractor.M Store Extractor.SyncLog)
    (syncTeamMembers syncQITimeTrackerEntries : Extractor.M Store Extractor.SyncLog)
    (calculateMetrics : string -> Extractor.M Store unit) (s : Store) :
  let POST := Routes.POST Store syncClients syncProjects syncTeamMembers
                syncQITimeTrackerEntries calculateMetrics in
  let failed message :=
    {| Routes.sync_status := 500; Routes.sync_body := Routes.Failed message |} in
  (forall message, POST (Threw message) s = Some (Returned (failed message), s)) /\
  (forall payload,
      nullish payload = false -> ~ prints payload ->
      POST (Returned payload) s
      = Some (Returned (failed "Cannot convert object to primitive value"), s)) /\
  (forall payload type,
      nullish payload = false -> prints payload -> field payload "type" = type ->
      is_str type "clients" = false -> is_str type "projects" = false ->
      is_str type "team_members" = false -> is_str type "qi_time_tracker" = false ->
      is_str type "all" = false ->
      POST (Returned payload) s
      = Some (Returned {| Routes.sync_status := 200;
                          Routes.sync_body := Routes.Completed None None None None |}, s)) /\
  (forall payload message s1,
      nullish payload = false -> prints payload ->
      field payload "type" = JStr "projects" ->
      syncProjects (field payload "client_id") (field payload "limit") s
      = Some (Threw message, s1) ->
      POST (Returned payload) s = Some (Returned (failed message), s1)) /\
  (forall payload log message s1 s2,
      nullish payload = false -> prints payload ->
      field payload "type" = JStr "projects" ->
      syncProjects (field payload "client_id") (field payload "limit") s
      = Some (Returned log, s1) ->
      calculateMetrics "daily" s1 = Some (Threw message, s2) ->
      POST (Returned payload) s = Some (Returned (failed message), s2)) /\
  (forall payload log s1 s2,
      nullish payload = false -> prints payload ->
      field payload "type" = JStr "projects" ->
      syncProjects (field payload "client_id") (field payload "limit") s
      = Some (Returned log, s1) ->
      calculateMetrics "daily" s1 = Some (Returned tt, s2) ->
      POST (Returned payload) s
      = Some (Returned {| Routes.sync_status := 200;
                          Routes.sync_body :=
                            Routes.Completed (Routes.summary (Some log)) None None None |},
              s2)) /\
  (forall payload message s1,
      nullish payload = false -> prints payload ->
      field payload "type" = JStr "all" ->
      syncClients s = Some (Threw message, s1) ->
      POST (Returned payload) s = Some (Returned (failed message), s1)).
Proof.
  cbn zeta.
  assert (Hline : forall payload,
             prints payload ->
             exists line,
               Routes.starting_line (field payload "type") (field payload "client_id")
                 (field payload "limit") = Returned line).
  { intros payload Hprints. unfold prints in Hprints.
    rewrite <- starting_line_built in Hprints.
    destruct (Routes.starting_line _ _ _) as [line|]; [eauto|discriminate]. }
  unfold Routes.POST, Routes.when_asked, Routes.asked, Routes.destructured,
    Extractor.tryM, Extractor.pure_call, mbind, Extractor.M_bind, mret, Extractor.M_ret,
    outcome_bind, outcome_ret.
  split; [reflexivity|]. split; [|split; [|split; [|split; [|split]]]].
  - intros payload Hpayload Hprints. rewrite Hpayload.
    rewrite starting_line_throws; [reflexivity|].
    unfold prints in Hprints. destruct (_ && _ && _); [contradiction|reflexivity].
  - intros payload type Hpayload Hprints Htype H1 H2 H3 H4 H5.
    destruct (Hline payload Hprints) as [line Hbuilt].
    rewrite Hpayload, Htype in *. rewrite Hbuilt, H1, H2, H3, H4, H5. reflexivity.
  - intros payload message s1 Hpayload Hprints Htype Hsync.
    destruct (Hline payload Hprints) as [line Hbuilt].
    rewrite Hpayload. rewrite Hbuilt. rewrite Htype. cbn.
    rewrite Hsync. reflexivity.
  - intros payload log message s1 s2 Hpayload Hprints Htype Hsync Hmetrics.
    destruct (Hline payload Hprints) as [line Hbuilt].
    rewrite Hpayload. rewrite Hbuilt. rewrite Htype. cbn.
    rewrite Hsync, Hmetrics. reflexivity.
  - intros payload log s1 s2 Hpayload Hprints Htype Hsync Hmetrics.
    destruct (Hline payload Hprints) as [line Hbuilt].
    rewrite Hpayload. rewrite Hbuilt. rewrite Htype. cbn.
    rewrite Hsync, Hmetrics. reflexivity.
  - intros payload message s1 Hpayload Hprints Htype Hsync.
    destruct (Hline payload Hprints) as [line Hbuilt].
    rewrite Hpayload. rewrite Hbuilt. rewrite Htype. cbn.
    rewrite Hsync. reflexivity.
Qed.

(** A body whose type is an object with a [toString] property: the route
    answers 500 and runs nothing. *)
Example sync_route_POST_with_a_type_that_does_not_print :
  Routes.POST (list string)
    (called "syncClients" (Returned sample_log))
    (fun _ _ => called "syncProjects" (Returned sample_log))
    (called "syncTeamMembers" (Returned sample_log))
    (called "syncQITimeTrackerEntries" (Returned sample_log))
    (fun _ => called "calculateMetrics" (Returned tt))
    (Returned (JObj [("type", JObj [("toString", JNum 0)])])) []
  = Some (Returned {| Routes.sync_status := 500;
                      Routes.sync_body :=
                        Routes.Failed "Cannot convert object to primitive value" |},
          []).
Proof. vm_compute. reflexivity. Qed.

(** The route asked for everything, with a project sync that throws: the
    clients are synced, the metrics, the team members and the time tracker
    are not. *)
Example sync_route_POST_stops_at_the_first_error :
  Routes.POST (list string)
    (called "syncClients" (Returned sample_log))
    (fun _ _ => called "syncProjects" (Threw "Notion is down"))
    (called "syncTeamMembers" (Returned sample_log))
    (called "syncQITimeTrackerEntries" (Returned sample_log))
    (fun _ => called "calculateMetrics" (Returned tt))
    (Returned (JObj [("type", JStr "all")])) []
  = Some (Returned {| Routes.sync_status := 500;
                      Routes.sync_body := Routes.Failed "Notion is down" |},
          ["syncClients"; "syncProjects"]).
Proof. vm_compute. reflexivity. Qed.

(** ** Pushback rates *)

Section PushbackFacts.

Import Pushback.





Variable rejected : nat -> option string.
Variable metricType : string.



(** The rows with a developer id. *)
Definition named (rows : list Row) : list Row :=
  List.filter (fun row => truthy (_id row)) rows.




End PushbackFacts.


(** Two developers and a group without a developer id. *)
Definition sample_rows : list Pushback.Row :=
  [{| Pushback._id := JStr "dev-1"; Pushback.cardsWithPushbacks := 1;
      Pushback.totalCards := 4 |};
   {| Pushback._id := JStr "dev-2"; Pushback.cardsWithPushbacks := 0;
      Pushback.totalCards := 2 |};
   {| Pushback._id := JStr ""; Pushback.cardsWithPushbacks := 2;
      Pushback.totalCards := 2 |}].


(** The group without a developer id raises the overall rate from a sixth to
    three eighths, and no metric is written for it. *)
Example calculatePushbackMetrics_counts_unnamed_group :
  map (fun metric => (Metrics.team_member_id metric, Qred (Metrics.value metric)))
    (snd (Pushback.calculatePushbackMetrics (fun _ => None) "qi_pushbacks" sample_rows))
  = [(Some "dev-1", 25%Q); (Some "dev-2", 0%Q); (None, (75 # 2)%Q)].
Proof. vm_compute. reflexivity. Qed.

(** A developer id that is an object with a [toString] property: the first
    developer's metric is handed over, and the function throws before the
    second developer's and the overall one. *)
Example calculatePushbackMetrics_stops_at_an_id_that_does_not_print :
  exists message,
    Pushback.calculatePushbackMetrics (fun _ => None) "qi_pushbacks"
      [{| Pushback._id := JStr "dev-1"; Pushback.cardsWithPushbacks := 1;
          Pushback.totalCards := 4 |};
       {| Pushback._id := JObj [("toString", JNum 0)]; Pushback.cardsWithPushbacks := 0;
          Pushback.totalCards := 2 |};
       {| Pushback._id := JStr "dev-2"; Pushback.cardsWithPushbacks := 0;
          Pushback.totalCards := 2 |}]
    = (Threw message,
       [{| Metrics.metric_type := "qi_pushbacks"; Metrics.team_member_id := Some "dev-1";
           Metrics.value := Pushback.percentage 1 4 |}]).
Proof. eexists. vm_compute. reflexivity. Qed.

(** ** The webhook handler *)

(** The history of a state extends that of an earlier one by at most [n]
    records. *)
Definition grows (n : nat) (w w' : Extractor.World) : Prop :=
  exists added,
    Extractor.card_status_history (Extractor.db w')
    = Extractor.card_status_history (Extractor.db w) ++ added /\
    (length added <= n)%nat.

Lemma grows_same (n : nat) (w w' : Extractor.World) :
  Extractor.card_status_history (Extractor.db w')
  = Extractor.card_status_history (Extractor.db w) ->
  grows n w w'.
Proof. intros Hsame. exists []. rewrite app_nil_r. split; [exact Hsame|cbn; lia]. Qed.

Lemma grows_trans (a b : nat) (w w1 w2 : Extractor.World) :
  grows a w w1 -> grows b w1 w2 -> grows (a + b) w w2.
Proof.
  intros (added1 & H1 & Hlen1) (added2 & H2 & Hlen2). exists (added1 ++ added2).
  rewrite H2, H1, <- app_assoc. split; [reflexivity|]. rewrite length_app. lia.
Qed.

Lemma grows_more (a b : nat) (w w' : Extractor.World) :
  (a <= b)%nat -> grows a w w' -> grows b w w'.
Proof. intros Hle (added & H & Hlen). exists added. split; [exact H|lia]. Qed.

Section WebhookFacts.

Import Extractor.

Variable faulty : nat -> DbOp -> bool.
Variable clock : nat -> Z.
Variable sort_ties : CardStatusHistory -> CardStatusHistory -> bool.
Variable selects : jsval -> CardDoc -> bool.
Variable transformProjectPage : nat -> Db -> jsval -> outcome Card.
Variable retrieve : jsval -> outcome jsval.
Variable projectsDbId : option string.
Variable is_not_found : string -> bool.

(** A driver call fails and leaves the store, or returns what it read and
    leaves what it wrote. *)
Lemma db_call_cases {A} (op : DbOp) (run : Db -> A * Db) (w : World) :
  db_call faulty op run w
  = Some (Threw (db_error op), {| db := db w; tick := S (tick w) |}) \/
  db_call faulty op run w
  = Some (Returned (fst (run (db w))), {| db := snd (run (db w)); tick := S (tick w) |}).
Proof. unfold db_call. destruct (faulty (tick w) op); [left|right]; reflexivity. Qed.

Lemma recordStatusHistory_grows (card : Card) (w : World) :
  exists r w',
    recordStatusHistory faulty clock sort_ties card w = Some (r, w') /\
    cards (db w') = cards (db w) /\ grows 1 w w'.
Proof.
  destruct (recordStatusHistory_effect faulty clock sort_ties card w)
    as (r & w' & Hrun & Hcards & _ & Hhistory & _).
  exists r, w'. split; [exact Hrun|]. split; [exact Hcards|].
  destruct (returned r && status_changed (last_history_in sort_ties (db w) card) card).
  - eexists. split; [exact Hhistory|]. cbn. lia.
  - apply grows_same. exact Hhistory.
Qed.

(** A recording that is made under a condition. *)
Lemma recording_grows (condition : bool) (card : Card) (w : World) :
  exists r w',
    (if condition then recordStatusHistory faulty clock sort_ties card else mret tt) w
    = Some (r, w') /\
    cards (db w') = cards (db w) /\ grows 1 w w' /\
    (condition = false -> r = Returned tt /\ w' = w).
Proof.
  destruct condition.
  - destruct (recordStatusHistory_grows card w) as (r & w' & Hrun & Hcards & Hgrows).
    exists r, w'. repeat split; try assumption; discriminate.
  - exists (Returned tt), w. split; [reflexivity|]. split; [reflexivity|].
    split; [apply grows_same; reflexivity|]. auto.
Qed.

Lemma upsert_card_history (card : Card) (d : Db) :
  card_status_history (upsert_card card d) = card_status_history d.
Proof. unfold upsert_card. destruct (find_card _ _); reflexivity. Qed.

(** The two recordings of [store_card], as conditions on the store before
    the upsert. *)
Definition status_was_changed (pageId : jsval) (card : Card) (d : Db) : bool :=
  match Webhook.find_page selects pageId d ≫= (fun doc => given (status (doc_card doc))) with
  | Some previous => status_differs previous (status card)
  | None => false
  end.

Definition is_new_with_status (card : Card) (d : Db) : bool :=
  negb (bool_decide (is_Some (find_card (notion_id card) d)))
  && bool_decide (is_Some (given (status card))).

Lemma store_card_effect (pageId : jsval) (card : Card) (w : World) :
  exists r w',
    Webhook.store_card faulty clock sort_ties selects pageId card w = Some (r, w') /\
    grows 2 w w' /\
    (status_was_changed pageId card (db w) = false \/ is_new_with_status card (db w) = false ->
     grows 1 w w') /\
    (status_was_changed pageId card (db w) = false ->
     is_new_with_status card (db w) = false ->
     grows 0 w w').
Proof.
  unfold Webhook.store_card. unfold mbind at 1. unfold M_bind at 1.
  destruct (db_call_cases (CardsFindOne (toString pageId))
              (fun d => (Webhook.find_page selects pageId d, d)) w) as [Hfind|Hfind];
    rewrite Hfind; cbn [fst snd].
  { eexists _, _. split; [reflexivity|].
    repeat split; intros; apply grows_same; reflexivity. }
  unfold mbind at 1. unfold M_bind at 1.
  match goal with
  | |- context [db_call faulty ?op ?run ?w1] =>
      destruct (db_call_cases op run w1) as [Hupsert|Hupsert]; rewrite Hupsert
  end; cbn [fst snd db tick].
  { eexists _, _. split; [reflexivity|].
    repeat split; intros; apply grows_same; reflexivity. }
  set (w1 := {| db := upsert_card card (db w); tick := S (S (tick w)) |}).
  assert (Hstart : grows 0 w w1).
  { apply grows_same. apply upsert_card_history. }
  fold (status_was_changed pageId card (db w)).
  unfold mbind at 1. unfold M_bind at 1.
  assert (Hfirst : exists r w2,
             match Webhook.find_page selects pageId (db w)
                   ≫= (fun doc => given (status (doc_card doc))) with
             | Some previous =>
                 if status_differs previous (status card)
                 then recordStatusHistory faulty clock sort_ties card
                 else mret tt
             | None => mret tt
             end w1 = Some (r, w2) /\
             grows 1 w1 w2 /\
             (status_was_changed pageId card (db w) = false -> r = Returned tt /\ w2 = w1)).
  { unfold status_was_changed.
    destruct (Webhook.find_page selects pageId (db w) ≫= _) as [previous|].
    - destruct (recording_grows (status_differs previous (status card)) card w1)
        as (r & w2 & Hrun & _ & Hgrows & Hskip).
      exists r, w2. auto.
    - exists (Returned tt), w1. split; [reflexivity|].
      split; [apply grows_same; reflexivity|auto]. }
  destruct Hfirst as (r1 & w2 & Hrun1 & Hgrows1 & Hskip1). rewrite Hrun1.
  destruct r1 as [[]|message].
  - unfold mbind at 1. unfold M_bind at 1.
    fold (is_new_with_status card (db w)).
    destruct (recording_grows (is_new_with_status card (db w)) card w2)
      as (r2 & w3 & Hrun2 & _ & Hgrows2 & Hskip2).
    rewrite Hrun2.
    assert (Hall : grows 2 w w3).
    { apply (grows_trans 0 2 w w1 w3 Hstart). apply (grows_trans 1 1 w1 w2 w3); assumption. }
    destruct r2 as [[]|message]; (eexists _, _; split; [reflexivity|]; split; [exact Hall|]);
      (split;
       [intros [Hnone|Hnone];
        [destruct (Hskip1 Hnone) as [_ ->];
         apply (grows_trans 0 1 w w1 w3 Hstart); exact Hgrows2
        |destruct (Hskip2 Hnone) as [_ ->];
         apply (grows_trans 0 1 w w1 w2 Hstart); exact Hgrows1]
       |intros Hnone1 Hnone2; destruct (Hskip1 Hnone1) as [_ ->];
        destruct (Hskip2 Hnone2) as [_ ->]; exact Hstart]).
  - eexists _, _. split; [reflexivity|].
    assert (Hone : grows 1 w w2) by (apply (grows_trans 0 1 w w1 w2 Hstart); exact Hgrows1).
    split; [apply (grows_more 1 2); [lia|exact Hone]|].
    split; [intros _; exact Hone|].
    intros Hnone1 _. destruct (Hskip1 Hnone1) as [Hr _]. discriminate.
Qed.

(** An answer given before anything is written. *)
Definition quiet (answer : Webhook.Answer) : bool :=
  match answer with
  | Webhook.InvalidJson | Webhook.NoPageId | Webhook.NotDatabasePage _
  | Webhook.NotFromProjects _ | Webhook.NotProcessed _ | Webhook.Fatal _ => true
  | _ => false
  end.

Lemma update_page_effect (page pageId : jsval) (w : World) :
  exists r w',
    Webhook.update_page faulty clock sort_ties selects transformProjectPage retrieve projectsDbId
      page pageId w = Some (r, w') /\
    grows 2 w w' /\
    match r with
    | Returned (Webhook.Updated _ _) | Threw _ => True
    | Returned answer => quiet answer = true /\ w' = w
    end.
Proof.
  unfold Webhook.update_page. unfold mbind at 1. unfold M_bind at 1.
  assert (Hstill : forall r : outcome Webhook.Answer,
             match r with
             | Returned (Webhook.Updated _ _) | Threw _ => True
             | Returned answer => quiet answer = true /\ w = w
             end ->
             exists r' w',
               Some (r, w) = Some (r', w') /\ grows 2 w w' /\
               match r' with
               | Returned (Webhook.Updated _ _) | Threw _ => True
               | Returned answer => quiet answer = true /\ w' = w
               end).
  { intros r Hr. exists r, w. split; [reflexivity|].
    split; [apply grows_same; reflexivity|exact Hr]. }
  assert (Hpage : exists fetched,
             (if truthy page then mret page else pure_call (retrieve pageId)) w
             = Some (fetched, w)).
  { destruct (truthy page); eexists; reflexivity. }
  unfold pure_call at 1.
  destruct (printed pageId) as [text|message]; [|apply (Hstill (Threw message)); exact I].
  unfold mbind at 1. unfold M_bind at 1.
  destruct Hpage as (fetched & Hpage). rewrite Hpage.
  destruct fetched as [page'|message]; [|apply (Hstill (Threw message)); exact I].
  unfold mbind at 1. unfold M_bind at 1. unfold pure_call at 1.
  destruct (Webhook.is_partial page') as [[|]|message];
    [apply (Hstill (Returned (Webhook.NotDatabasePage pageId))); auto| |
     apply (Hstill (Threw message)); exact I].
  unfold mbind at 1. unfold M_bind at 1. unfold pure_call at 1.
  destruct (Webhook.of_other_database projectsDbId page') as [[|]|message];
    [apply (Hstill (Returned (Webhook.NotFromProjects pageId))); auto| |
     apply (Hstill (Threw message)); exact I].
  unfold mbind at 1. unfold M_bind at 1.
  destruct (transformProjectPage (tick w) (db w) page') as [card|message];
    [|apply (Hstill (Threw message)); exact I].
  unfold mbind at 1. unfold M_bind at 1.
  destruct (store_card_effect pageId card w) as (r & w' & Hrun & Hgrows & _).
  rewrite Hrun. destruct r as [upserted|message]; eexists _, _;
    (split; [reflexivity|]); (split; [exact Hgrows|exact I]).
Qed.

(** What a call of the handler leaves. *)
Lemma POST_effect (body : outcome jsval) (w : World) :
  exists answer w',
    Webhook.POST faulty clock sort_ties selects transformProjectPage retrieve projectsDbId
      is_not_found body w = Some (Returned answer, w') /\
    grows 2 w w' /\
    (quiet answer = true -> db w' = db w) /\
    (forall pageId,
        answer = Webhook.Archived pageId ->
        db w' = Webhook.archive_page selects pageId (clock (S (tick w))) (db w) /\
        printable pageId = true).
Proof.
  assert (Hquiet : forall (answer : Webhook.Answer) (w' : World),
             quiet answer = true -> db w' = db w ->
             exists answer' w'',
               Some (Returned answer, w') = Some (Returned answer', w'') /\
               grows 2 w w'' /\
               (quiet answer' = true -> db w'' = db w) /\
               (forall pageId,
                   answer' = Webhook.Archived pageId ->
                   db w'' = Webhook.archive_page selects pageId (clock (S (tick w))) (db w) /\
                   printable pageId = true)).
  { intros answer w' Hanswer Hdb. exists answer, w'. split; [reflexivity|].
    split; [apply grows_same; rewrite Hdb; reflexivity|].
    split; [auto|]. intros pageId ->. discriminate. }
  unfold Webhook.POST. destruct body as [payload|message];
    [|apply (Hquiet Webhook.InvalidJson w); reflexivity].
  unfold tryM, Webhook.handle. unfold mbind at 1. unfold M_bind at 1. unfold pure_call at 1.
  destruct (get payload "type") as [type|message];
    [|apply (Hquiet (Webhook.Fatal message) w); reflexivity].
  destruct (Webhook.read_payload payload) as [[page pageId] eventType].
  destruct (negb (truthy pageId)); [apply (Hquiet Webhook.NoPageId w); reflexivity|].
  unfold mbind at 1. unfold M_bind at 1. unfold getDb.
  destruct (db_call_cases GetDb (fun d => (tt, d)) w) as [Hdb|Hdb]; rewrite Hdb;
    [apply (Hquiet (Webhook.Fatal _)); reflexivity|].
  cbn [fst snd]. set (w1 := {| db := db w; tick := S (tick w) |}).
  destruct (Webhook.is_removal page eventType).
  - unfold mbind at 1. unfold M_bind at 1. unfold pure_call at 1.
    destruct (printed pageId) as [text|message] eqn:Hprinted;
      [|apply (Hquiet (Webhook.Fatal message) w1); reflexivity].
    unfold mbind at 1. unfold M_bind at 1. unfold now at 1.
    unfold mbind at 1. unfold M_bind at 1.
    match goal with
    | |- context [db_call faulty ?op ?run w1] =>
        destruct (db_call_cases op run w1) as [Hset|Hset]; rewrite Hset
    end; [apply (Hquiet (Webhook.Fatal _)); reflexivity|].
    cbn [fst snd db tick]. eexists _, _. split; [reflexivity|].
    split; [|split; [discriminate|]].
    + apply grows_same. reflexivity.
    + intros p Hp. inversion Hp; subst. split; [reflexivity|].
      unfold printed in Hprinted. destruct (printable p); [reflexivity|discriminate].
  - destruct (Webhook.is_update page eventType).
    + unfold tryM.
      destruct (printed pageId) as [text|message] eqn:Hprinted.
      * destruct (update_page_effect page pageId w1) as (r & w' & Hrun & Hgrows & Hanswer).
        rewrite Hrun.
        assert (Hfrom : grows 2 w w').
        { destruct Hgrows as (added & Hadded & Hlen). exists added.
          split; [exact Hadded|exact Hlen]. }
        destruct r as [answer|message].
        -- exists answer, w'. split; [reflexivity|]. split; [exact Hfrom|].
           destruct answer;
             try match type of Hanswer with _ /\ _ => destruct Hanswer as [Hq ->] end;
             (split; [first [discriminate|reflexivity]|intros p Hp; discriminate]).
        -- unfold mbind at 1. unfold M_bind at 1. unfold pure_call at 1.
           eexists _, _. split; [reflexivity|]. split; [exact Hfrom|].
           destruct (is_not_found message); (split; [discriminate|intros p Hp; discriminate]).
      * assert (Hrun : Webhook.update_page faulty clock sort_ties selects transformProjectPage
                         retrieve projectsDbId page pageId w1 = Some (Threw message, w1)).
        { unfold Webhook.update_page. unfold mbind at 1. unfold M_bind at 1.
          unfold pure_call at 1. rewrite Hprinted. reflexivity. }
        rewrite Hrun. unfold mbind at 1. unfold M_bind at 1. unfold pure_call at 1.
        apply (Hquiet (Webhook.Fatal message) w1); reflexivity.
    + unfold mbind at 1. unfold M_bind at 1. unfold pure_call at 1.
      destruct (printed eventType) as [text|message];
        [apply (Hquiet (Webhook.NotProcessed eventType) w1); reflexivity
        |apply (Hquiet (Webhook.Fatal message) w1); reflexivity].
Qed.

End WebhookFacts.

Section ArchiveFacts.

Import Extractor.

(** What identifies a stored card. *)
Definition card_identity (doc : CardDoc) : string * string :=
  (doc_id doc, notion_id (doc_card doc)).

Lemma archive_docs_identities (select : CardDoc -> bool) (at_time : Z) (docs : list CardDoc) :
  map card_identity (Webhook.archive_docs select at_time docs) = map card_identity docs.
Proof.
  induction docs as [|doc docs IH]; [reflexivity|]. cbn [Webhook.archive_docs].
  destruct (select doc); cbn [map]; [reflexivity|].
  rewrite IH. reflexivity.
Qed.

(** A card that the archival changed: the card it was, which the filter
    selected, with the archive status. *)
Definition archived_from (select : CardDoc -> bool) (docs : list CardDoc) (doc : CardDoc)
    : Prop :=
  exists old,
    old ∈ docs /\ select old = true /\
    card_identity doc = card_identity old /\
    status (doc_card doc) = Some Webhook.ARCHIVE.

Lemma archive_docs_changes (select : CardDoc -> bool) (at_time : Z) (docs : list CardDoc)
    (doc : CardDoc) :
  doc ∈ Webhook.archive_docs select at_time docs ->
  doc ∈ docs \/ archived_from select docs doc.
Proof.
  induction docs as [|first docs IH]; [intros Hin; inversion Hin|].
  cbn [Webhook.archive_docs].
  destruct (select first) eqn:Hselect;
    intros Hin; apply elem_of_cons in Hin; destruct Hin as [Hin|Hin].
  - right. subst doc. exists first. split; [left|]. split; [exact Hselect|].
    split; reflexivity.
  - left. right. exact Hin.
  - left. subst doc. left.
  - destruct (IH Hin) as [Hold|(old & Hold & Hselected & Hsame)]; [left; right; exact Hold|].
    right. exists old. split; [right; exact Hold|]. split; [exact Hselected|exact Hsame].
Qed.

Lemma archive_docs_unknown (select : CardDoc -> bool) (at_time : Z) (docs : list CardDoc) :
  List.find select docs = None ->
  Webhook.archive_docs select at_time docs = docs.
Proof.
  induction docs as [|doc docs IH]; [reflexivity|]. cbn [List.find Webhook.archive_docs].
  destruct (select doc); [discriminate|].
  intros Hnone. rewrite IH by exact Hnone. reflexivity.
Qed.

(** The card [findOne] answers is the first that the filter selects. *)
Lemma find_page_selected (selects : jsval -> CardDoc -> bool) (pageId : jsval) (d : Db) :
  Webhook.find_page selects pageId d = List.find (Webhook.selected selects pageId) (cards d).
Proof. destruct pageId; reflexivity. Qed.

End ArchiveFacts.

(** X21: the webhook handler answers every request; no error leaves it. An
    answer given before the page is stored (invalid JSON, no page id, not a
    database page, not from the projects database, event type not
    processed, fatal error) leaves the store as it was. Whatever the answer,
    the status history is only extended, by two records at most. *)
Theorem webhook_POST_always_answers
    (faulty : nat -> Extractor.DbOp -> bool) (clock : nat -> Z)
    (sort_ties : Extractor.CardStatusHistory -> Extractor.CardStatusHistory -> bool)
    (selects : jsval -> Extractor.CardDoc -> bool)
    (transformProjectPage : nat -> Extractor.Db -> jsval -> outcome Extractor.Card)
    (retrieve : jsval -> outcome jsval) (projectsDbId : option string)
    (is_not_found : string -> bool) (body : outcome jsval) (w : Extractor.World) :
  exists answer w',
    Webhook.POST faulty clock sort_ties selects transformProjectPage retrieve projectsDbId
      is_not_found body w = Some (Returned answer, w') /\
    (quiet answer = true -> Extractor.db w' = Extractor.db w) /\
    exists added,
      Extractor.card_status_history (Extractor.db w')
      = Extractor.card_status_history (Extractor.db w) ++ added /\
      (length added <= 2)%nat.
Proof.
  destruct (POST_effect faulty clock sort_ties selects transformProjectPage retrieve projectsDbId
              is_not_found body w) as (answer & w' & Hrun & Hgrows & Hquiet & _).
  exists answer, w'. split; [exact Hrun|]. split; [exact Hquiet|exact Hgrows].
Qed.

(** X22: archival through the webhook. When the handler answers that the
    page was marked as archived, the page id prints, no history record was
    written and no card was added or removed. A card that changed is the
    first stored card that the filter on the page id selected, and has the
    archive status; when the filter selects no card the cards are as they
    were. For a page id that is a string the card that changed is the card
    of that page. The handler does not check the id: an object, which
    MongoDB reads as a query, can select, and so archive, the card of
    another page. *)
Theorem webhook_archival_writes_no_history
    (faulty : nat -> Extractor.DbOp -> bool) (clock : nat -> Z)
    (sort_ties : Extractor.CardStatusHistory -> Extractor.CardStatusHistory -> bool)
    (selects : jsval -> Extractor.CardDoc -> bool)
    (transformProjectPage : nat -> Extractor.Db -> jsval -> outcome Extractor.Card)
    (retrieve : jsval -> outcome jsval) (projectsDbId : option string)
    (is_not_found : string -> bool) (body : outcome jsval) (pageId : jsval)
    (w w' : Extractor.World) :
  Webhook.POST faulty clock sort_ties selects transformProjectPage retrieve projectsDbId
    is_not_found body w = Some (Returned (Webhook.Archived pageId), w') ->
  printable pageId = true /\
  Extractor.card_status_history (Extractor.db w')
  = Extractor.card_status_history (Extractor.db w) /\
  map card_identity (Extractor.cards (Extractor.db w'))
  = map card_identity (Extractor.cards (Extractor.db w)) /\
  (forall doc,
      doc ∈ Extractor.cards (Extractor.db w') ->
      doc ∈ Extractor.cards (Extractor.db w) \/
      archived_from (Webhook.selected selects pageId) (Extractor.cards (Extractor.db w)) doc) /\
  (Webhook.find_page selects pageId (Extractor.db w) = None ->
   Extractor.cards (Extractor.db w') = Extractor.cards (Extractor.db w)) /\
  (forall notionId doc,
      pageId = JStr notionId ->
      doc ∈ Extractor.cards (Extractor.db w') ->
      doc ∈ Extractor.cards (Extractor.db w) \/
      (Extractor.notion_id (Extractor.doc_card doc) = notionId /\
       Extractor.status (Extractor.doc_card doc) = Some Webhook.ARCHIVE)).
Proof.
  intros Hrun.
  destruct (POST_effect faulty clock sort_ties selects transformProjectPage retrieve
              projectsDbId is_not_found body w) as (answer & w1 & Hrun1 & _ & _ & Harchived).
  rewrite Hrun in Hrun1. inversion Hrun1; subst answer w1. clear Hrun1.
  destruct (Harchived pageId eq_refl) as [-> Hprints]. unfold Webhook.archive_page.
  cbn [Extractor.cards Extractor.card_status_history].
  split; [exact Hprints|].
  split; [reflexivity|]. split; [apply archive_docs_identities|]. split; [|split].
  - intros doc Hin. exact (archive_docs_changes _ _ _ _ Hin).
  - rewrite find_page_selected. apply archive_docs_unknown.
  - intros notionId doc -> Hin.
    destruct (archive_docs_changes _ _ _ _ Hin) as [Hold|(old & _ & Hselected & Hsame & Hstatus)];
      [left; exact Hold|right].
    split; [|exact Hstatus]. cbn [Webhook.selected] in Hselected.
    apply String.eqb_eq in Hselected. unfold card_identity in Hsame.
    inversion Hsame. congruence.
Qed.

(** A store with one card, which has no status and no history. *)
Definition stored_card : Extractor.Card :=
  {| Extractor.notion_id := "page-1"; Extractor.title := "Checkout redesign";
     Extractor.status := None; Extractor.client_id := None;
     Extractor.updated_at := 0; Extractor._id := None |}.

Definition stored_world : Extractor.World :=
  {| Extractor.db :=
       {| Extractor.cards := [{| Extractor.doc_id := "oid-0";
                                 Extractor.doc_card := stored_card |}];
          Extractor.card_status_history := []; Extractor.sync_logs := [];
          Extractor.clients := []; Extractor.next_oid := 1 |};
     Extractor.tick := 0 |}.

(** A transform that reads the id and the status of a page. *)
Definition webhook_transform (tick : nat) (d : Extractor.Db) (page : jsval)
    : outcome Extractor.Card :=
  Returned {| Extractor.notion_id := toString (field page "id");
              Extractor.title := "Checkout redesign";
              Extractor.status := match field page "status" with
                                  | JStr s => Some s
                                  | _ => None
                                  end;
              Extractor.client_id := None; Extractor.updated_at := 10;
              Extractor._id := None |}.

(** The filter [{ $ne: null }] selects every card; no other value that is
    not a string is used here. *)
Definition not_equal_to_null (value : jsval) (doc : Extractor.CardDoc) : bool :=
  match value with
  | JObj [("$ne", JNull)] => true
  | _ => false
  end.

Definition not_retrieved (pageId : jsval) : outcome jsval :=
  Threw "APIResponseError: Could not find page".

Definition sample_webhook (body : outcome jsval)
    : Extractor.M Extractor.World Webhook.Answer :=
  Webhook.POST no_faults tick_clock insertion_order not_equal_to_null webhook_transform
    not_retrieved None
    (fun message => includes "Could not find" message) body.

Lemma webhook_archival_writes_no_history_witness :
  exists w',
    sample_webhook (Returned (JObj [("type", JStr "page.deleted"); ("id", JStr "page-1")]))
      stored_world
    = Some (Returned (Webhook.Archived (JStr "page-1")), w') /\
    Extractor.card_status_history (Extractor.db w') = [] /\
    map (fun doc => Extractor.status (Extractor.doc_card doc))
      (Extractor.cards (Extractor.db w')) = [Some Webhook.ARCHIVE].
Proof.
  eexists. split; [vm_compute; reflexivity|].
  split; [|vm_compute; reflexivity].
  refine (proj1 (proj2 (webhook_archival_writes_no_history no_faults tick_clock insertion_order
                   not_equal_to_null webhook_transform not_retrieved None
                   (fun message => includes "Could not find" message)
                   (Returned (JObj [("type", JStr "page.deleted"); ("id", JStr "page-1")]))
                   (JStr "page-1") stored_world _ _))).
  vm_compute. reflexivity.
Defined.

(** A page id that is the query [{ $ne: null }]: the handler archives the
    stored card of the page 'page-1', and answers with the query as the page
    id. *)
Example webhook_archives_what_the_filter_selects :
  exists w',
    sample_webhook
      (Returned (JObj [("type", JStr "page.deleted"); ("id", JObj [("$ne", JNull)])]))
      stored_world
    = Some (Returned (Webhook.Archived (JObj [("$ne", JNull)])), w') /\
    map (fun doc => (Extractor.notion_id (Extractor.doc_card doc),
                     Extractor.status (Extractor.doc_card doc)))
      (Extractor.cards (Extractor.db w')) = [("page-1", Some Webhook.ARCHIVE)].
Proof. eexists. split; vm_compute; reflexivity. Qed.

(** A page id that does not print: the handler answers 500 and leaves the
    store as it was. *)
Example webhook_fails_on_a_page_id_that_does_not_print :
  sample_webhook
    (Returned (JObj [("type", JStr "page.deleted"); ("id", JObj [("toString", JNum 0)])]))
    stored_world
  = Some (Returned (Webhook.Fatal "Cannot convert object to primitive value"),
          {| Extractor.db := Extractor.db stored_world; Extractor.tick := 1 |}).
Proof. vm_compute. reflexivity. Qed.


(** The update of the stored card: its first status. *)
Definition updated_card : Extractor.Card :=
  {| Extractor.notion_id := "page-1"; Extractor.title := "Checkout redesign";
     Extractor.status := Some "In Progress"; Extractor.client_id := None;
     Extractor.updated_at := 10; Extractor._id := None |}.


(** The same update through the handler and through the sync pass: the
    handler stores the new status and writes no history; the pass writes the
    first record. *)
Example webhook_and_sync_differ_on_first_status :
  (exists w',
      sample_webhook
        (Returned (JObj [("pageData",
                          JObj [("object", JStr "page"); ("id", JStr "page-1");
                                ("properties", JObj []);
                                ("status", JStr "In Progress")])]))
        stored_world
      = Some (Returned (Webhook.Updated (JStr "page-1") false), w') /\
      map (fun doc => Extractor.status (Extractor.doc_card doc))
        (Extractor.cards (Extractor.db w')) = [Some "In Progress"] /\
      Extractor.card_status_history (Extractor.db w') = []) /\
  (exists w',
      Extractor.persistCard no_faults tick_clock insertion_order
        updated_card stored_world
      = Some (Returned tt, w') /\
      map Extractor.history_status (Extractor.card_status_history (Extractor.db w'))
      = ["In Progress"]).
Proof. split; eexists; repeat split; vm_compute; reflexivity. Qed.

(** ** The syncs of clients, team members and time tracker entries *)

(** The log after [ok] more processed and [bad] more failed pages. *)
Definition after_pages (ok bad : nat) (log : Extractor.SyncLog) : Extractor.SyncLog :=
  {| Extractor.sync_type := Extractor.sync_type log;
     Extractor.log_status := Extractor.log_status log;
     Extractor.records_processed := (Extractor.records_processed log + ok)%nat;
     Extractor.records_failed := (Extractor.records_failed log + bad)%nat;
     Extractor.error_count := (Extractor.error_count log + bad)%nat;
     Extractor.started_at := Extractor.started_at log;
     Extractor.completed_at := Extractor.completed_at log;
     Extractor.error_message := Extractor.error_message log;
     Extractor.metadata_client_id := Extractor.metadata_client_id log;
     Extractor.metadata_retired_clients_count :=
       Extractor.metadata_retired_clients_count log |}.

Lemma after_pages_none (log : Extractor.SyncLog) : after_pages 0 0 log = log.
Proof. destruct log. unfold after_pages. cbn. f_equal; lia. Qed.

Lemma after_pages_processed (ok bad : nat) (log : Extractor.SyncLog) :
  after_pages ok bad (Extractor.count_processed log) = after_pages (S ok) bad log.
Proof. unfold after_pages, Extractor.count_processed. cbn. f_equal; lia. Qed.

Lemma after_pages_failed (ok bad : nat) (log : Extractor.SyncLog) :
  after_pages ok bad (Extractor.count_failed log) = after_pages ok (S bad) log.
Proof. unfold after_pages, Extractor.count_failed. cbn. f_equal; lia. Qed.

(** What a sync that ends has done, for the caller and in the log it stored.
    A sync that returns has fetched the pages of its database, counted each
    of them once as processed or failed, and stored the log it returns. A
    sync that throws has failed to connect, or has tried to store a log that
    says failed; the error thrown is the error that log carries, or the
    error of storing it. *)
Definition accounts_for_pages {Store : Type}
    (getDb : Extractor.M Store unit)
    (fetchAllPages : string -> Extractor.M Store (list jsval))
    (insert_sync_log : Extractor.SyncLog -> Extractor.M Store unit)
    (databaseId : string) (sync : Extractor.M Store Extractor.SyncLog) : Prop :=
  forall s,
  exists r s',
    sync s = Some (r, s') /\
    match r with
    | Returned log =>
        exists s0 pages s1 s2,
          getDb s = Some (Returned tt, s0) /\
          fetchAllPages databaseId s0 = Some (Returned pages, s1) /\
          (Extractor.records_processed log + Extractor.records_failed log)%nat
          = length pages /\
          Extractor.error_count log = Extractor.records_failed log /\
          Extractor.log_status log
          = (if Nat.ltb 0 (Extractor.records_failed log)
             then Extractor.partial else Extractor.success) /\
          insert_sync_log log s2 = Some (Returned tt, s')
    | Threw e =>
        getDb s = Some (Threw e, s') \/
        exists log s2 r',
          Extractor.log_status log = Extractor.failed /\
          insert_sync_log log s2 = Some (r', s') /\
          match r' with
          | Returned _ => Extractor.error_message log = Some e
          | Threw e' => e = e'
          end
    end.

Section PageSyncFacts.

#[local] Existing Instance Extractor.M_ret.
#[local] Existing Instance Extractor.M_bind.

Variable Store : Type.
Variable now : Store -> Z.
Variable getDb : Extractor.M Store unit.
Variable fetchAllPages : string -> Extractor.M Store (list jsval).
Variable insert_sync_log : Extractor.SyncLog -> Extractor.M Store unit.

Hypothesis getDb_ends : forall s, is_Some (getDb s).
Hypothesis fetchAllPages_ends : forall databaseId s, is_Some (fetchAllPages databaseId s).
Hypothesis insert_sync_log_ends : forall log s, is_Some (insert_sync_log log s).

Variable Entity : Type.
Variable transform : Store -> jsval -> outcome Entity.
Variable upsert : Entity -> Extractor.M Store unit.

Hypothesis upsert_ends : forall entity s, is_Some (upsert entity s).

(** One page: one counter goes up, unless the [catch] block itself throws,
    which leaves the counters. *)
Lemma process_page_counts (page : jsval) (j : PageSync.Run Store) :
  exists r j',
    PageSync.process_page Store Entity transform upsert page j = Some (r, j') /\
    match r with
    | Returned _ =>
        PageSync.syncLog Store j' = Extractor.count_processed (PageSync.syncLog Store j) \/
        PageSync.syncLog Store j' = Extractor.count_failed (PageSync.syncLog Store j)
    | Threw _ => PageSync.syncLog Store j' = PageSync.syncLog Store j
    end.
Proof.
  unfold PageSync.process_page, Extractor.tryM, Extractor.pure_call, PageSync.update,
    PageSync.call, mbind, Extractor.M_bind.
  destruct (transform (PageSync.store Store j) page) as [entity|message].
  - destruct (upsert_ends entity (PageSync.store Store j)) as [[[[]|message] s1] Hupsert];
      rewrite Hupsert; cbn [PageSync.store PageSync.syncLog].
    + eexists _, _. split; [reflexivity|]. left. reflexivity.
    + destruct (get page "id"); eexists _, _; (split; [reflexivity|]);
        [right; reflexivity|reflexivity].
  - destruct (get page "id"); eexists _, _; (split; [reflexivity|]);
      [right; reflexivity|reflexivity].
Qed.

Lemma for_each_counts (pages : list jsval) :
  forall j,
  exists r j' ok bad,
    Extractor.for_each (PageSync.process_page Store Entity transform upsert) pages j
    = Some (r, j') /\
    PageSync.syncLog Store j' = after_pages ok bad (PageSync.syncLog Store j) /\
    match r with
    | Returned _ => (ok + bad = length pages)%nat
    | Threw _ => True
    end.
Proof.
  induction pages as [|page pages IH]; intros j.
  - exists (Returned tt), j, 0%nat, 0%nat. split; [reflexivity|].
    split; [symmetry; apply after_pages_none|reflexivity].
  - cbn [Extractor.for_each]. unfold mbind, Extractor.M_bind.
    destruct (process_page_counts page j) as (r & j1 & Hrun & Hlog). rewrite Hrun.
    destruct r as [[]|message].
    + destruct (IH j1) as (r' & j' & ok & bad & Hrest & Hlog' & Hcount).
      destruct Hlog as [Hlog|Hlog]; rewrite Hlog in Hlog'.
      * exists r', j', (S ok), bad. split; [exact Hrest|].
        split; [rewrite Hlog'; apply after_pages_processed|].
        destruct r'; [cbn; lia|exact I].
      * exists r', j', ok, (S bad). split; [exact Hrest|].
        split; [rewrite Hlog'; apply after_pages_failed|].
        destruct r'; [cbn; lia|exact I].
    + exists (Threw message), j1, 0%nat, 0%nat. split; [reflexivity|].
      split; [rewrite Hlog; symmetry; apply after_pages_none|exact I].
Qed.

(** The [catch] block of a sync. *)
Lemma sync_failure_stores (message : string) (j : PageSync.Run Store) :
  exists e j' log r',
    PageSync.sync_failure Store now insert_sync_log message j = Some (Threw e, j') /\
    Extractor.log_status log = Extractor.failed /\
    Extractor.error_message log = Some message /\
    insert_sync_log log (PageSync.store Store j) = Some (r', PageSync.store Store j') /\
    match r' with
    | Returned _ => e = message
    | Threw e' => e = e'
    end.
Proof.
  unfold PageSync.sync_failure, PageSync.read_clock, PageSync.update, PageSync.read_log,
    PageSync.call, Extractor.throw, mbind, Extractor.M_bind.
  cbn [PageSync.store PageSync.syncLog].
  match goal with
  | |- context [insert_sync_log ?log ?st] =>
      destruct (insert_sync_log_ends log st) as [[[[]|e'] s'] Hinsert]; rewrite Hinsert;
      eexists _, _, log, _; (split; [reflexivity|]); (split; [reflexivity|]);
      (split; [reflexivity|]); (split; [exact Hinsert|reflexivity])
  end.
Qed.

Lemma sync_pages_accounts (databaseId : string) :
  accounts_for_pages getDb fetchAllPages insert_sync_log databaseId
    (PageSync.sync_pages Store now getDb fetchAllPages insert_sync_log Entity transform
       upsert databaseId).
Proof.
  intros s. unfold PageSync.sync_pages. unfold mbind at 1. unfold Extractor.M_bind at 1.
  destruct (getDb_ends s) as [[[[]|message] s0] Hdb]; rewrite Hdb;
    [|eexists _, _; split; [reflexivity|left; reflexivity]].
  unfold PageSync.sync_run, Extractor.tryM.
  set (j0 := {| PageSync.store := s0;
                PageSync.syncLog := Extractor.initial_log (now s0) None |}).
  assert (Hcatch : forall message j,
             exists e s',
               match PageSync.sync_failure Store now insert_sync_log message j with
               | Some (r, j') => Some (r, PageSync.store Store j')
               | None => None
               end = Some (Threw e, s') /\
               exists log s2 r',
                 Extractor.log_status log = Extractor.failed /\
                 insert_sync_log log s2 = Some (r', s') /\
                 match r' with
                 | Returned _ => Extractor.error_message log = Some e
                 | Threw e' => e = e'
                 end).
  { intros message j.
    destruct (sync_failure_stores message j) as (e & j' & log & r' & Hrun & Hst & Hmsg & Hins & He).
    rewrite Hrun. exists e, (PageSync.store Store j'). split; [reflexivity|].
    exists log, (PageSync.store Store j), r'. split; [exact Hst|]. split; [exact Hins|].
    destruct r'; [subst e; exact Hmsg|exact He]. }
  unfold PageSync.sync_body. unfold mbind at 1. unfold Extractor.M_bind at 1.
  unfold PageSync.call at 1. cbn [PageSync.store j0].
  destruct (fetchAllPages_ends databaseId s0) as [[[pages|message] s1] Hfetch]; rewrite Hfetch.
  2:{ destruct (Hcatch message {| PageSync.store := s1;
                                  PageSync.syncLog := PageSync.syncLog Store j0 |})
        as (e & s' & Hrun & Hlog).
      exists (Threw e), s'. split; [exact Hrun|right; exact Hlog]. }
  unfold mbind at 1. unfold Extractor.M_bind at 1.
  destruct (for_each_counts pages {| PageSync.store := s1;
                                     PageSync.syncLog := PageSync.syncLog Store j0 |})
    as (r & j1 & ok & bad & Hpages & Hlog & Hcount).
  rewrite Hpages. destruct r as [[]|message].
  2:{ destruct (Hcatch message j1) as (e & s' & Hrun & Hfailed).
      exists (Threw e), s'. split; [exact Hrun|right; exact Hfailed]. }
  unfold mbind, Extractor.M_bind, PageSync.read_clock, PageSync.update, PageSync.read_log,
    PageSync.call.
  cbn [PageSync.store PageSync.syncLog].
  match goal with
  | |- context [insert_sync_log ?log ?st] =>
      destruct (insert_sync_log_ends log st) as [[[[]|e'] s2] Hinsert]; rewrite Hinsert
  end.
  - eexists _, _. split; [reflexivity|]. cbn [PageSync.store PageSync.syncLog].
    exists s0, pages, s1, (PageSync.store Store j1).
    split; [reflexivity|]. split; [exact Hfetch|].
    rewrite Hlog. cbn. split; [exact Hcount|]. split; [reflexivity|].
    split; [reflexivity|]. rewrite Hlog in Hinsert. exact Hinsert.
  - match goal with
    | |- context [PageSync.sync_failure Store now insert_sync_log e' ?j] =>
        destruct (Hcatch e' j) as (e & s' & Hrun & Hfailed)
    end.
    exists (Threw e), s'. split; [exact Hrun|right; exact Hfailed].
Qed.

End PageSyncFacts.

(** X24: the syncs of clients, of team members and of time tracker entries
    account for every page. When the driver calls and the fetch end, each of
    the three syncs ends; one that returns has fetched the pages of its
    database, counted each page once, as processed or as failed, with the
    status partial when a page failed and success otherwise, and has stored
    the log it returns; one that throws has failed to connect, or has tried
    to store a log that says failed, and throws the error that log carries
    or the error of storing it. *)
Theorem page_syncs_account_for_every_page (Store : Type) (now : Store -> Z)
    (getDb : Extractor.M Store unit)
    (fetchAllPages : string -> Extractor.M Store (list jsval))
    (insert_sync_log : Extractor.SyncLog -> Extractor.M Store unit)
    (upsert_client : ClientSync.Client -> Extractor.M Store unit)
    (TEAM_MEMBERS_DB_ID : string) (TeamMember : Type)
    (transformTeamMemberPage : Store -> jsval -> outcome TeamMember)
    (upsert_team_member : TeamMember -> Extractor.M Store unit)
    (Entry : Type) (transformQITimeTrackerPage : Store -> jsval -> outcome Entry)
    (upsert_entry : Entry -> Extractor.M Store unit) :
  (forall s, is_Some (getDb s)) ->
  (forall databaseId s, is_Some (fetchAllPages databaseId s)) ->
  (forall log s, is_Some (insert_sync_log log s)) ->
  (forall client s, is_Some (upsert_client client s)) ->
  (forall member s, is_Some (upsert_team_member member s)) ->
  (forall entry s, is_Some (upsert_entry entry s)) ->
  accounts_for_pages getDb fetchAllPages insert_sync_log Extractor.CLIENTS_DB_ID
    (PageSync.syncClients Store now getDb fetchAllPages insert_sync_log upsert_client) /\
  accounts_for_pages getDb fetchAllPages insert_sync_log TEAM_MEMBERS_DB_ID
    (PageSync.syncTeamMembers Store now getDb fetchAllPages insert_sync_log
       TEAM_MEMBERS_DB_ID TeamMember transformTeamMemberPage upsert_team_member) /\
  accounts_for_pages getDb fetchAllPages insert_sync_log PageSync.QI_TIME_TRACKER_DB_ID
    (PageSync.syncQITimeTrackerEntries Store now getDb fetchAllPages insert_sync_log
       Entry transformQITimeTrackerPage upsert_entry).
Proof.
  intros Hdb Hfetch Hlog Hclient Hmember Hentry.
  split; [|split]; apply sync_pages_accounts; assumption.
Qed.

(** Two client pages: one reads, the title of the other holds a [null]
    segment. *)
Definition sample_client_pages : list jsval :=
  [JObj [("id", JStr "client-1");
         ("properties",
          JObj [("title", JObj [("type", JStr "title");
                                ("title", JArr [JObj [("plain_text", JStr "Old Mill")]])])])];
   JObj [("id", JStr "client-2");
         ("properties",
          JObj [("title", JObj [("type", JStr "title"); ("title", JArr [JNull])])])]].

(** The client sync on a store that keeps the names of the calls made. *)
Definition sample_syncClients : Extractor.M (list string) Extractor.SyncLog :=
  PageSync.syncClients (list string) calls_made
    (called "getDb" (Returned tt))
    (fun databaseId => called "fetchAllPages" (Returned sample_client_pages))
    (fun log => called "sync_logs.insertOne" (Returned tt))
    (fun client => called "clients.updateOne" (Returned tt)).

Lemma page_syncs_account_for_every_page_witness :
  exists log s',
    sample_syncClients [] = Some (Returned log, s') /\
    (Extractor.records_processed log + Extractor.records_failed log)%nat = 2%nat.
Proof.
  destruct (page_syncs_account_for_every_page (list string) calls_made
              (called "getDb" (Returned tt))
              (fun databaseId => called "fetchAllPages" (Returned sample_client_pages))
              (fun log => called "sync_logs.insertOne" (Returned tt))
              (fun client => called "clients.updateOne" (Returned tt))
              "team-members" unit (fun _ _ => Returned tt)
              (fun member => called "team_members.updateOne" (Returned tt))
              unit (fun _ _ => Returned tt)
              (fun entry => called "qi_time_tracker_entries.updateOne" (Returned tt)))
    as [Hclients _]; try (intros; eexists; reflexivity).
  destruct (Hclients []) as (r & s' & Hrun & Haccount).
  destruct r as [log|message]; [|vm_compute in Hrun; discriminate].
  exists log, s'. split; [exact Hrun|].
  destruct Haccount as (s0 & pages & s1 & s2 & _ & Hfetch & Hcount & _).
  inversion Hfetch; subst pages. exact Hcount.
Defined.

(** The calls of the sample sync: the page that does not read is counted as
    failed and not upserted. *)
Example syncClients_sample_calls :
  exists log,
    sample_syncClients []
    = Some (Returned log,
            ["getDb"; "fetchAllPages"; "clients.updateOne"; "sync_logs.insertOne"]) /\
    Extractor.records_processed log = 1%nat /\
    Extractor.records_failed log = 1%nat /\
    Extractor.log_status log = Extractor.partial.
Proof. eexists. split; [vm_compute; reflexivity|]. repeat split. Qed.

(** ** The Time Doctor route *)

(** Whether a stored Time Doctor user has an id. *)
Definition has_time_doctor_id (tdUser : jsval) : bool :=
  truthy (field tdUser "time_doctor_id").

Lemma no_user_ids (tdUsers : list jsval) :
  Nat.eqb (length (List.filter truthy (map (fun u => field u "time_doctor_id") tdUsers))) 0
  = negb (existsb has_time_doctor_id tdUsers).
Proof.
  induction tdUsers as [|tdUser tdUsers IH]; [reflexivity|]. cbn [map List.filter existsb].
  unfold has_time_doctor_id at 1. destruct (truthy (field tdUser "time_doctor_id")); [reflexivity|].
  exact IH.
Qed.

Lemma invalid_range (startDate endDate : Date) :
  startDate = InvalidDate \/ endDate = InvalidDate ->
  (TimeDoctor.toISOString startDate ≫= fun _ => TimeDoctor.toISOString endDate)
  = Threw "Invalid time value".
Proof.
  intros [->| ->]; [reflexivity|]. destruct startDate; reflexivity.
Qed.

(** X25: the Time Doctor route does not reject a date that does not parse.
    With credentials, a start or end date in the body that does not convert
    to a primitive makes the route answer 500 before anything is synced.
    With dates that convert, one of which does not parse, the users and the
    projects are synced first; then, when a Time Doctor user with an id is
    stored, the worklog sync throws on the invalid date and the route
    answers 500 with the message of the range error; when none is stored,
    the route answers 200 with no worklogs. *)
Theorem timedoctor_route_syncs_before_it_fails_on_a_date
    (Store : Type) (now : Store -> Z) (env : Routes.Env) (Date_parse : string -> Date)
    (syncTimeDoctorUsers syncTimeDoctorProjects :
       TimeDoctorRoute.Config -> Extractor.M Store Routes.Counts)
    (getDb : Extractor.M Store unit) (find_users : Extractor.M Store (list jsval))
    (store_worklogs : TimeDoctorRoute.Config -> Date -> Date -> list jsval ->
                      list jsval -> Extractor.M Store Routes.Counts)
    (payload : jsval) :
  let apiToken :=
    TimeDoctorRoute.credential (field payload "api_token") (Routes.TIMEDOCTOR_API_TOKEN env) in
  let companyId :=
    TimeDoctorRoute.credential (field payload "company_id")
      (Routes.TIMEDOCTOR_COMPANY_ID env) in
  let config :=
    {| TimeDoctorRoute.apiToken := apiToken; TimeDoctorRoute.companyId := companyId |} in
  let start_date := TimeDoctorRoute.optional_date Date_parse (field payload "start_date") in
  let end_date := TimeDoctorRoute.optional_date Date_parse (field payload "end_date") in
  let run :=
    TimeDoctorRoute.POST Store now env Date_parse syncTimeDoctorUsers syncTimeDoctorProjects
      getDb find_users store_worklogs (Returned payload) in
  nullish payload = false ->
  truthy apiToken = true ->
  truthy companyId = true ->
  (forall message s,
      start_date = Threw message \/
      ((exists startDate, start_date = Returned startDate) /\ end_date = Threw message) ->
      run s
      = Some (Returned {| TimeDoctorRoute.status := 500;
                          TimeDoctorRoute.body := TimeDoctorRoute.Failed message |}, s)) /\
  (forall startDate endDate users projects tdUsers s s1 s2 s3 s4,
      start_date = Returned startDate ->
      end_date = Returned endDate ->
      startDate = Some InvalidDate \/ endDate = Some InvalidDate ->
      syncTimeDoctorUsers config s = Some (Returned users, s1) ->
      syncTimeDoctorProjects config s1 = Some (Returned projects, s2) ->
      getDb s2 = Some (Returned tt, s3) ->
      find_users s3 = Some (Returned tdUsers, s4) ->
      run s
      = Some (Returned
                (if existsb has_time_doctor_id tdUsers
                 then {| TimeDoctorRoute.status := 500;
                         TimeDoctorRoute.body := TimeDoctorRoute.Failed "Invalid time value" |}
                 else {| TimeDoctorRoute.status := 200;
                         TimeDoctorRoute.body :=
                           TimeDoctorRoute.Synced
                             {| Routes.users := users; Routes.projects := projects;
                                Routes.worklogs :=
                                  {| Routes.processed := 0; Routes.matched := 0 |} |} |}),
              s4)).
Proof.
  intros apiToken companyId config start_date end_date run Hpayload Htoken Hcompany.
  split.
  - intros message s Hdate.
    unfold run, TimeDoctorRoute.POST, TimeDoctorRoute.destructured, Extractor.tryM,
      Extractor.pure_call.
    unfold mbind at 1. unfold Extractor.M_bind at 1. cbn [mbind outcome_bind].
    rewrite Hpayload. fold apiToken companyId. rewrite Htoken, Hcompany. cbn [negb orb].
    fold start_date end_date.
    unfold mbind at 1. unfold Extractor.M_bind at 1.
    destruct Hdate as [-> |[[startDate ->] Hend]]; [reflexivity|].
    unfold mbind at 1. unfold Extractor.M_bind at 1. rewrite Hend. reflexivity.
  - intros startDate endDate users projects tdUsers s s1 s2 s3 s4
      Hfrom Hto Hdate Husers Hprojects Hdb Hfind.
    unfold run, TimeDoctorRoute.POST, TimeDoctorRoute.destructured, Extractor.tryM,
      Extractor.pure_call.
    unfold mbind at 1. unfold Extractor.M_bind at 1. cbn [mbind outcome_bind].
    rewrite Hpayload. fold apiToken companyId. rewrite Htoken, Hcompany. cbn [negb orb].
    fold start_date end_date. fold config.
    unfold mbind at 1. unfold Extractor.M_bind at 1. rewrite Hfrom.
    unfold mbind at 1. unfold Extractor.M_bind at 1. rewrite Hto.
    unfold mbind at 1. unfold Extractor.M_bind at 1.
    unfold TimeDoctorRoute.syncTimeDoctor.
    unfold mbind at 1. unfold Extractor.M_bind at 1. rewrite Husers.
    unfold mbind at 1. unfold Extractor.M_bind at 1. rewrite Hprojects.
    unfold mbind at 1. unfold Extractor.M_bind at 1.
    unfold TimeDoctorRoute.syncTimeDoctorWorklogs.
    unfold mbind at 1. unfold Extractor.M_bind at 1. rewrite Hdb.
    unfold mbind at 1. unfold Extractor.M_bind at 1. rewrite Hfind.
    rewrite no_user_ids. destruct (existsb has_time_doctor_id tdUsers); cbn [negb];
      [|reflexivity].
    unfold mbind at 1. unfold Extractor.M_bind at 1. unfold Extractor.pure_call.
    assert (Hrange :
      default (TimeValue (now s - 30 * 24 * 60 * 60 * 1000)) startDate = InvalidDate \/
      default (TimeValue (now s)) endDate = InvalidDate).
    { destruct Hdate as [-> | ->]; [left|right]; reflexivity. }
    pose proof (invalid_range _ _ Hrange) as Hthrows.
    destruct (TimeDoctor.toISOString
                (default (TimeValue (now s - 30 * 24 * 60 * 60 * 1000)) startDate))
      as [fromDate|message] eqn:Hformat.
    + cbn [mbind outcome_bind] in Hthrows.
      unfold mbind at 1. unfold Extractor.M_bind at 1. rewrite Hthrows. reflexivity.
    + cbn [mbind outcome_bind] in Hthrows. inversion Hthrows. reflexivity.
Qed.

(** A request with a start date that is no date, on a store with one Time
    Doctor user. *)
Definition sample_timedoctor_route (tdUsers : list jsval)
    : Extractor.M (list string) TimeDoctorRoute.Response :=
  TimeDoctorRoute.POST (list string) calls_made sample_env Metrics.parse_date_only
    (fun config => called "syncTimeDoctorUsers"
                     (Returned {| Routes.processed := 2; Routes.matched := 1 |}))
    (fun config => called "syncTimeDoctorProjects"
                     (Returned {| Routes.processed := 3; Routes.matched := 3 |}))
    (called "getDb" (Returned tt))
    (called "timedoctor_users.find" (Returned tdUsers))
    (fun config startDate endDate userIds users =>
       called "worklogs" (Returned {| Routes.processed := 5; Routes.matched := 5 |}))
    (Returned (JObj [("start_date", JStr "last week")])).

Lemma timedoctor_route_syncs_before_it_fails_on_a_date_witness :
  sample_timedoctor_route [JObj [("time_doctor_id", JStr "td-1")]] []
  = Some (Returned {| TimeDoctorRoute.status := 500;
                      TimeDoctorRoute.body := TimeDoctorRoute.Failed "Invalid time value" |},
          ["syncTimeDoctorUsers"; "syncTimeDoctorProjects"; "getDb";
           "timedoctor_users.find"]).
Proof.
  apply (proj2 (timedoctor_route_syncs_before_it_fails_on_a_date (list string) calls_made
                  sample_env Metrics.parse_date_only _ _ _ _ _
                  (JObj [("start_date", JStr "last week")]) eq_refl eq_refl eq_refl)
           (Some InvalidDate) None
           {| Routes.processed := 2; Routes.matched := 1 |}
           {| Routes.processed := 3; Routes.matched := 3 |}
           [JObj [("time_doctor_id", JStr "td-1")]]
           [] ["syncTimeDoctorUsers"] ["syncTimeDoctorUsers"; "syncTimeDoctorProjects"]
           ["syncTimeDoctorUsers"; "syncTimeDoctorProjects"; "getDb"]);
    try reflexivity.
  left. reflexivity.
Defined.

(** A start date that does not convert to a primitive: the route answers
    500 and no sync has run. *)
Example timedoctor_route_with_an_object_for_a_date :
  TimeDoctorRoute.POST (list string) calls_made sample_env Metrics.parse_date_only
    (fun config => called "syncTimeDoctorUsers"
                     (Returned {| Routes.processed := 2; Routes.matched := 1 |}))
    (fun config => called "syncTimeDoctorProjects"
                     (Returned {| Routes.processed := 3; Routes.matched := 3 |}))
    (called "getDb" (Returned tt))
    (called "timedoctor_users.find" (Returned [JObj [("time_doctor_id", JStr "td-1")]]))
    (fun config startDate endDate userIds users =>
       called "worklogs" (Returned {| Routes.processed := 5; Routes.matched := 5 |}))
    (Returned (JObj [("start_date", JObj [("toString", JNum 0)])])) []
  = Some (Returned {| TimeDoctorRoute.status := 500;
                      TimeDoctorRoute.body :=
                        TimeDoctorRoute.Failed "Cannot convert object to primitive value" |},
          []).
Proof. vm_compute. reflexivity. Qed.

(** The same request when the date parses: the worklogs are stored. *)
Example timedoctor_route_with_a_date :
  TimeDoctorRoute.POST (list string) calls_made sample_env Metrics.parse_date_only
    (fun config => called "syncTimeDoctorUsers"
                     (Returned {| Routes.processed := 2; Routes.matched := 1 |}))
    (fun config => called "syncTimeDoctorProjects"
                     (Returned {| Routes.processed := 3; Routes.matched := 3 |}))
    (called "getDb" (Returned tt))
    (called "timedoctor_users.find" (Returned [JObj [("time_doctor_id", JStr "td-1")]]))
    (fun config startDate endDate userIds users =>
       called "worklogs" (Returned {| Routes.processed := 5; Routes.matched := 5 |}))
    (Returned (JObj [("start_date", JStr "2024-01-10")])) []
  = Some (Returned {| TimeDoctorRoute.status := 200;
                      TimeDoctorRoute.body :=
                        TimeDoctorRoute.Synced
                          {| Routes.users := {| Routes.processed := 2; Routes.matched := 1 |};
                             Routes.projects := {| Routes.processed := 3; Routes.matched := 3 |};
                             Routes.worklogs :=
                               {| Routes.processed := 5; Routes.matched := 5 |} |} |},
          ["syncTimeDoctorUsers"; "syncTimeDoctorProjects"; "getDb";
           "timedoctor_users.find"; "worklogs"]).
Proof. vm_compute. reflexivity. Qed.
